(* ===== verification/_CoqProject ===== *)
-Q . S2P
Prelude.v
Encoding.v
Auth.v
Connection.v
Socket.v
Crypto.v
Transport.v
Packets.v
Kex.v
KnownHosts.v
Terminal.v
Config.v
World.v
Handshake.v
Session.v
Shell.v
Flow.v
Turns.v
Liveness.v
Service.v
Main.v
Completion.v
