(* ===== verification/Prelude.v ===== *)
(** * ConorSSH: a verification library

    ConorSSH is an SSH 2.0 client.  It connects to a server over TCP, exchanges
    identification strings, agrees on keys (curve25519-sha256, ssh-ed25519,
    aes256-ctr, hmac-sha2-256), decides whether to trust the host, authenticates
    with a password and runs one interactive shell.  This library models the whole
    program, from the bytes on the wire to [main], as executable definitions, and
    proves what makes it correct.  The samples at the end of the files evaluate the
    definitions in the kernel; the one of [Main] runs the whole program.

    ** Files, in dependency order, and the code they model (under [src/])

    - [Prelude] (this file): bytes, machine integers, the result type [res], the
      state monad [M], triples, and the lemmas and tactics shared by all files.
    - [Encoding]: [common/ssh_encoding.cpp], [common/ssh_messages.hpp].
    - [Auth]: [auth/auth.cpp].
    - [Connection]: [connection/connection.cpp], the [Channel] and its operations.
    - [Socket]: [socket/socket.cpp]; the class [ByteStream] with its laws is what
      the layers above use of a connection.
    - [Crypto]: no code of the repository, but the interface to libsodium and
      OpenSSL (class [Crypto]), their documented laws ([CryptoSizes],
      [CipherLaws], [Base64Laws]; [CryptoSucceeds] for the theorems about progress)
      and the instance [Toy] that satisfies them.
    - [Transport], [Packets]: [transport/transport.cpp]; the definitions with the
      lemmas about single packets, and the theorems about the packet layer.
    - [Kex]: [kex/kex.cpp].
    - [KnownHosts]: [known_hosts/known_hosts.cpp].
    - [Terminal]: [terminal/terminal.cpp].
    - [Config]: [main.cpp], the command line.
    - [World]: the state of [main]: the objects above, the environment's scripts
      and the history of the packets.
    - [Handshake]: [main.cpp], identification, key exchange, host-key decision,
      authentication.
    - [Session]: the abstract session [run_interactive_shell] is meant to be.
    - [Shell]: [main.cpp], from [handle_global_request] to
      [run_interactive_shell], and [run_connection_session].
    - [Flow]: what every run of the shell loop guarantees.
    - [Turns]: the three loops of the session turn by turn: when they end, and
      when the shell loop does not.
    - [Liveness]: no code, but a description of an honest server by the packets it
      sends, and that key exchange and authentication come to their ends with it.
    - [Service]: the converse of the refinement of [Shell]: every legal session is
      carried out.
    - [Main]: [main.cpp], [main], with the life times of its objects.
    - [Completion]: [Liveness], [Service] and [Main] together: a whole run against
      an honest server.

    ** How the code is read

    A C++ function is a Rocq function of the same name.  A function that can
    throw returns [res]: [Ok], [Throw message], [Undef] for undefined behaviour
    (an access outside a vector, the use of a null pointer or of a value never
    assigned) or [Blocked] for a system call that does not return.  That [Undef]
    never comes about is part of the theorems.  A member function that changes
    its object, and all I/O, is in the monad [M S] of state [S], which keeps the
    state it had reached when an exception is thrown.  Unsigned arithmetic is
    written with its wrap-around ([u8], [u16], [u32], [u64]; [size_t] has 64
    bits).  Vectors, strings and arrays are lists of bytes; an array that a
    library fills has its length by a law of that library.

    The environment is data: what each [read], [write] and [poll] meets, which
    calls on the terminal fail, which lines and keys the user types, which
    accesses to the disk fail.  The theorems hold for all of it.  A script that is
    used up is a call that waits for ever; [Blocked] so also stands for a program
    that would go on if its environment did, which is how a run without end shows
    (every finite part of it is a run on a script).

    ** Loops and fuel

    Loops that consume bytes already at hand are structural recursions.  The
    others have fuel, and the fuel is enough: [read_loop] and [write_loop] use the
    length of the script and the specifications of [read_exact] and [write_exact]
    cover every run; [read_version] uses the bytes still to come plus one, for it
    reads one a turn; the message loops of [Shell] use the bytes still to come
    plus one (a round that goes on has received a packet) and [shell_loop] the
    polls to come plus one.  [iterates] is a semantics of loops without fuel, and
    [open_loop_iterates], [wait_loop_iterates] and [shell_loop_iterates] of [Shell]
    say that the fuel of these three is never used up.

    That the shell loop ends with the script of [poll] says nothing about a [poll]
    that reports for ever.  [Turns] is about that: it follows the loop for any
    number of turns and shows which of them use up input, and that the others, a
    signal or a keyboard at the end of its input, can go on without end.

    ** What the theorems show

    - The program ([Main]): whatever happens outside there is no undefined
      behaviour and no exception that escapes; status 0 is only returned after a
      verified and trusted host key, an accepted password and a closed session;
      nothing but handshake messages is sent in clear; the terminal's settings
      are restored and the socket is closed on every path out.
    - Trust ([Handshake], [KnownHosts], [Kex]): no NEWKEYS without a valid
      signature of a trusted key over the hash of this very exchange; the
      known-hosts file is a list of entries to which only unknown hosts the user
      confirmed are added; negotiation cannot be downgraded; the exchange hash
      determines the whole exchange.
    - Secrecy and integrity ([Handshake], [Packets]): the installed keys are those
      of RFC 4253; the password leaves only under encryption and is read only
      without echo; what is sent is received, in order, across changes of keys; a
      packet with a wrong MAC is refused.
    - The session ([Session], [Shell], [Flow], [Turns]): the shell loop refines the
      abstract session; flow control in both directions; one close handshake; the
      terminal is a faithful pipe; every turn of a loop uses up input and exchanges
      packets, but for the idle turns of the shell loop.
    - Progress ([Liveness], [Service], [Completion]): the theorems above say what
      must have happened when the program goes on; these say that it does.  With a
      server that follows the protocol as [Liveness] and [Service] describe it
      (without SSH_MSG_IGNORE, SSH_MSG_DEBUG, banners and exit-signal, which the
      program does not handle), a user who trusts the host and knows the password,
      a connection that takes what is written and calls that succeed, key
      exchange and authentication return; whatever legal session the server and
      the user then choose, the loop carries out exactly its steps, so that the
      abstract session describes the loop exactly; and [main] returns 0.
    - The formats ([Encoding], [Auth], [Connection], [Kex]): each parser accepts
      exactly the messages with their RFC layout, and reads what the builders
      write; window arithmetic never wraps.

    Theorems that are properties of the manifest carry its number; the lemmas
    before them carry the proofs.

    ** Not modelled

    - The cryptographic primitives: parameters (class [Crypto]).  No theorem
      assumes that a hash, a MAC or a signature cannot be forged; [Main] and
      [Handshake] state what was checked, not what an attacker cannot compute.
    - Name resolution, [connect], the numbers of file descriptors: [NetEnv].
      [cfmakeraw]: a parameter.
    - The buffer that [std::cin] may share with [read] on the descriptor: the lines
      typed at the prompts and the keys of the session are two separate scripts.
    - Allocation failure, the errors of [std::cout] and [std::cerr], signals that
      end the process, the contents of a [strerror] message.
    - The memory management of OpenSSL contexts: a context is a value; that it is
      freed once is not stated.
    - In [KnownHosts] only the file itself is on the disk: directories are there
      when [create_directories] does not fail. *)

From Stdlib Require Export ZArith Lia.
From Stdlib Require Export Init.Byte.
From Stdlib Require Import Strings.Byte.
From stdpp Require Export base list gmap.
From stdpp Require Export strings pretty.

#[global] Open Scope Z_scope.

(** ** Bytes, vectors and machine integers *)

Abbreviation byte := Byte.byte.
Abbreviation bytes := (list Byte.byte).

(** The [uint8_t] value of a byte, and the conversion [uint8_t(z)]. *)
Definition u8 (b : byte) : Z := Z.of_N (Byte.to_N b).

Definition byte_of (z : Z) : byte :=
  default x00 (Byte.of_N (Z.to_N (z mod 2 ^ 8))).

(** Unsigned wrap-around at 16, 32 and 64 bits; [size_t] is 64 bits wide. *)
Definition u16 (z : Z) : Z := z mod 2 ^ 16.
Definition u32 (z : Z) : Z := z mod 2 ^ 32.
Definition u64 (z : Z) : Z := z mod 2 ^ 64.

Definition uint32_max : Z := 2 ^ 32 - 1.

(** [size v] is [v.size()]. *)
Definition size {A} (v : list A) : Z := Z.of_nat (length v).

(** The bytes of a C++ string literal; [std::string] is a sequence of bytes. *)
Definition str (s : string) : bytes := String.list_byte_of_string s.

(** The message of an exception built from a string of the program. *)
Definition text (s : bytes) : string := String.string_of_list_byte s.

(** [std::to_string] of an unsigned number. *)
Definition to_string (z : Z) : bytes := str (pretty (Z.to_N z)).

(** A vector that exists in memory has a size that [size_t] can hold. *)
Definition addressable {A} (v : list A) : Prop := size v < 2 ^ 64.

(** ** Outcomes: values, exceptions, undefined behaviour and waiting *)

(** What running a piece of the program gives.  [Throw] is a
    [std::runtime_error] with its message; [Undef] is undefined behaviour of
    C++ (an index or an iterator range outside its vector, the read of an
    uninitialised object); [Blocked] is a system call that never returns. *)
Inductive res (A : Type) : Type :=
  | Ok (a : A)
  | Throw (msg : string)
  | Undef
  | Blocked.
Arguments Ok {_} _.
Arguments Throw {_} _.
Arguments Undef {_}.
Arguments Blocked {_}.

#[global] Instance res_ret : MRet res := @Ok.
#[global] Instance res_bind : MBind res := fun A B f m =>
  match m with
  | Ok a => f a
  | Throw e => Throw e
  | Undef => Undef
  | Blocked => Blocked
  end.
#[global] Instance res_throw : MThrow string res := @Throw.

(** Programs over a state [S]: the state survives an exception. *)
Definition M (S A : Type) : Type := S -> res A * S.

#[global] Instance M_ret {S} : MRet (M S) := fun A a s => (Ok a, s).
#[global] Instance M_bind {S} : MBind (M S) := fun A B f m s =>
  match m s with
  | (Ok a, s') => f a s'
  | (Throw e, s') => (Throw e, s')
  | (Undef, s') => (Undef, s')
  | (Blocked, s') => (Blocked, s')
  end.
#[global] Instance M_throw {S} : MThrow string (M S) := fun A e s => (Throw e, s).

(** A computation that does not touch the state. *)
Definition lift {S A} (r : res A) : M S A := fun s => (r, s).

Definition get {S} : M S S := fun s => (Ok s, s).
Definition gets {S A} (f : S -> A) : M S A := fun s => (Ok (f s), s).
Definition put {S} (s : S) : M S unit := fun _ => (Ok tt, s).
Definition modify {S} (f : S -> S) : M S unit := fun s => (Ok tt, f s).

(** Run a computation on a component of the state. *)
Definition zoom {S T A} (view : S -> T) (set : T -> S -> S) (m : M T A) : M S A :=
  fun s => let '(r, t) := m (view s) in (r, set t s).

(** [throw_if c e] is [if (c) throw std::runtime_error(e);]. *)
Definition throw_if (c : bool) (e : string) : res unit :=
  if c then Throw e else Ok tt.

(** ** Vectors *)

(** [v[i]]; outside the vector the behaviour is undefined. *)
Definition index (v : bytes) (i : Z) : res Z :=
  match v !! Z.to_nat i with
  | Some b => if 0 <=? i then Ok (u8 b) else Undef
  | None => Undef
  end.

(** The vector built from the iterators [v.begin() + first] and
    [v.begin() + last]; both must lie in the vector, in that order. *)
Definition range (v : bytes) (first last : Z) : res bytes :=
  if (0 <=? first) && (first <=? last) && (last <=? size v)
  then Ok (take (Z.to_nat (last - first)) (drop (Z.to_nat first) v))
  else Undef.

(** [std::copy_n(v.begin() + first, n, dst.begin())]. *)
Definition copy_n (v : bytes) (first n : Z) : res bytes := range v first (first + n).

#[global] Instance byte_eq_decision : EqDecision byte := Byte.byte_eq_dec.

#[global] Instance byte_countable : Countable byte :=
  inj_countable Byte.to_N Byte.of_N Byte.of_to_N.

(** The items [std::getline] extracts from a stream holding [s] until it fails:
    what follows the last delimiter counts only when it is not empty. *)
Fixpoint getline_from (delim : byte) (item s : bytes) : list bytes :=
  match s with
  | [] => match item with [] => [] | _ => [item] end
  | b :: s => if decide (b = delim) then item :: getline_from delim [] s
              else getline_from delim (item ++ [b]) s
  end.

Definition getlines (delim : byte) (s : bytes) : list bytes := getline_from delim [] s.

(** [isspace] in the C locale, and the words that [operator>>] extracts one
    after the other from a stream holding [s]. *)
Definition is_space (b : byte) : bool := (u8 b =? 32) || ((9 <=? u8 b) && (u8 b <=? 13)).

Fixpoint words_from (word s : bytes) : list bytes :=
  let finished := match word with [] => [] | _ => [word] end in
  match s with
  | [] => finished
  | b :: s => if is_space b then finished ++ words_from [] s else words_from (word ++ [b]) s
  end.

Definition words (s : bytes) : list bytes := words_from [] s.

(** [a - b] on [size_t]. *)
Definition size_sub (a b : Z) : Z := u64 (a - b).

(** Equality of strings and vectors, as the test [==]. *)
Definition beq (a b : bytes) : bool := bool_decide (a = b).

#[global] Arguments u8 : simpl never.
#[global] Arguments byte_of : simpl never.
#[global] Arguments u16 : simpl never.
#[global] Arguments u32 : simpl never.
#[global] Arguments u64 : simpl never.
#[global] Arguments size : simpl never.
#[global] Arguments index : simpl never.
#[global] Arguments range : simpl never.
#[global] Arguments copy_n : simpl never.
#[global] Arguments size_sub : simpl never.
#[global] Arguments beq : simpl never.
#[global] Arguments str : simpl never.
#[global] Arguments text : simpl never.
#[global] Arguments to_string : simpl never.

(** ** Facts about bytes and sizes *)

Lemma u8_range b : 0 <= u8 b < 256.
Proof. unfold u8. pose proof (Byte.to_N_bounded b). lia. Qed.

Lemma u8_byte_of z : u8 (byte_of z) = z mod 256.
Proof.
  unfold u8, byte_of. change (2 ^ 8) with 256.
  pose proof (Z.mod_pos_bound z 256 eq_refl).
  destruct (Byte.of_N (Z.to_N (z mod 256))) as [b|] eqn:E; cbn [default].
  - apply Byte.to_of_N in E. cbn. rewrite E. lia.
  - apply Byte.of_N_None_iff in E. lia.
Qed.

Lemma byte_of_u8 b : byte_of (u8 b) = b.
Proof.
  unfold byte_of. rewrite Z.mod_small by (pose proof (u8_range b); lia).
  unfold u8. rewrite N2Z.id, Byte.of_to_N. reflexivity.
Qed.

Lemma u8_inj a b : u8 a = u8 b -> a = b.
Proof. intros H. rewrite <- (byte_of_u8 a), <- (byte_of_u8 b). by rewrite H. Qed.

Lemma u8_byte_of_small z : 0 <= z < 256 -> u8 (byte_of z) = z.
Proof. intros. rewrite u8_byte_of. by apply Z.mod_small. Qed.

Lemma u16_small z : 0 <= z < 2 ^ 16 -> u16 z = z.
Proof. intros. by apply Z.mod_small. Qed.
Lemma u32_small z : 0 <= z < 2 ^ 32 -> u32 z = z.
Proof. intros. by apply Z.mod_small. Qed.
Lemma u64_small z : 0 <= z < 2 ^ 64 -> u64 z = z.
Proof. intros. by apply Z.mod_small. Qed.
Lemma u32_range z : 0 <= u32 z < 2 ^ 32.
Proof. by apply Z.mod_pos_bound. Qed.

Lemma size_nonneg {A} (v : list A) : 0 <= size v.
Proof. unfold size. lia. Qed.
Lemma size_nil {A} : size (@nil A) = 0.
Proof. reflexivity. Qed.
Lemma size_cons {A} (x : A) v : size (x :: v) = 1 + size v.
Proof. unfold size. cbn [length]. lia. Qed.
Lemma size_app {A} (v w : list A) : size (v ++ w) = size v + size w.
Proof. unfold size. rewrite length_app. lia. Qed.
Lemma size_take {A} n (v : list A) : 0 <= n <= size v -> size (take (Z.to_nat n) v) = n.
Proof. unfold size. intros. rewrite length_take. lia. Qed.
Lemma size_drop {A} n (v : list A) : 0 <= n <= size v -> size (drop (Z.to_nat n) v) = size v - n.
Proof. unfold size. intros. rewrite length_drop. lia. Qed.
Lemma size_zero_nil {A} (v : list A) : size v = 0 -> v = [].
Proof. destruct v; [done|]. rewrite size_cons. pose proof (size_nonneg v). lia. Qed.
Lemma to_nat_size {A} (v : list A) : Z.to_nat (size v) = length v.
Proof. unfold size. lia. Qed.
Lemma size_replicate {A} n (x : A) : 0 <= n -> size (replicate (Z.to_nat n) x) = n.
Proof. intros. unfold size. rewrite length_replicate. lia. Qed.

Lemma take_size_app {A} (v w : list A) : take (Z.to_nat (size v)) (v ++ w) = v.
Proof. rewrite to_nat_size. by apply take_app_length. Qed.
Lemma drop_size_app {A} (v w : list A) : drop (Z.to_nat (size v)) (v ++ w) = w.
Proof. rewrite to_nat_size. by apply drop_app_length. Qed.
Lemma take_all_size {A} (v : list A) n : size v <= n -> take (Z.to_nat n) v = v.
Proof. unfold size. intros. apply take_ge. lia. Qed.
Lemma drop_drop_Z {A} (v : list A) a b :
  0 <= a -> 0 <= b -> drop (Z.to_nat b) (drop (Z.to_nat a) v) = drop (Z.to_nat (a + b)) v.
Proof. intros. rewrite drop_drop. f_equal. lia. Qed.

Lemma take_app_Z {A} (v w : list A) n :
  size v <= n -> take (Z.to_nat n) (v ++ w) = v ++ take (Z.to_nat (n - size v)) w.
Proof. unfold size. intros. rewrite take_app_ge by lia. do 2 f_equal. lia. Qed.
Lemma drop_app_Z {A} (v w : list A) n :
  size v <= n -> drop (Z.to_nat n) (v ++ w) = drop (Z.to_nat (n - size v)) w.
Proof. unfold size. intros. rewrite drop_app_ge by lia. f_equal. lia. Qed.
Lemma take_app_le_Z {A} (v w : list A) n :
  n <= size v -> take (Z.to_nat n) (v ++ w) = take (Z.to_nat n) v.
Proof. unfold size. intros. by rewrite take_app_le by lia. Qed.
Lemma drop_app_le_Z {A} (v w : list A) n :
  n <= size v -> drop (Z.to_nat n) (v ++ w) = drop (Z.to_nat n) v ++ w.
Proof. unfold size. intros. by rewrite drop_app_le by lia. Qed.
Lemma drop_all_size {A} (v : list A) n : size v <= n -> drop (Z.to_nat n) v = [].
Proof. unfold size. intros. apply drop_ge. lia. Qed.

Lemma split_at_size {A} (v : list A) n :
  0 <= n <= size v -> exists a b, v = a ++ b /\ size a = n.
Proof.
  intros. exists (take (Z.to_nat n) v), (drop (Z.to_nat n) v).
  rewrite take_drop. split; [done|]. by apply size_take.
Qed.

Lemma app_inj_size {A} (a b c d : list A) :
  size a = size c -> a ++ b = c ++ d -> a = c /\ b = d.
Proof. unfold size. intros ?. apply app_inj_1. lia. Qed.

Lemma beq_true a b : beq a b = true <-> a = b.
Proof. unfold beq. apply bool_decide_eq_true. Qed.
Lemma beq_false a b : beq a b = false <-> a <> b.
Proof. unfold beq. apply bool_decide_eq_false. Qed.
Lemma beq_refl a : beq a a = true.
Proof. by apply beq_true. Qed.
Lemma beq_spec a b : Bool.reflect (a = b) (beq a b).
Proof. unfold beq. apply bool_decide_reflect. Qed.

(** Well-formedness of the channel and of the messages. *)
Create HintDb channel.

Create Rewrite HintDb size.
#[global] Hint Rewrite @size_nil @size_cons @size_app : size.
#[global] Hint Rewrite @size_take @size_drop @size_replicate using lia : size.

(** Normalise sizes, bring in their signs, and call [lia]. *)
Ltac sizes :=
  unfold addressable, uint32_max in *;
  autorewrite with size in *;
  repeat match goal with
  | |- context [size ?v] => first [is_var v |
        lazymatch goal with H : 0 <= size v |- _ => fail end | idtac];
      lazymatch goal with H : 0 <= size v |- _ => fail | _ => pose proof (size_nonneg v) end
  | _ : context [size ?v] |- _ =>
      lazymatch goal with H : 0 <= size v |- _ => fail | _ => pose proof (size_nonneg v) end
  end;
  lia.

(** ** Facts about vectors *)

Lemma range_ok v first last :
  0 <= first <= last -> last <= size v ->
  range v first last = Ok (take (Z.to_nat (last - first)) (drop (Z.to_nat first) v)).
Proof.
  intros. unfold range.
  by rewrite !(proj2 (Z.leb_le _ _)) by lia.
Qed.

Lemma range_Ok_inv v first last w :
  range v first last = Ok w ->
  exists before after, v = before ++ w ++ after /\ size before = first /\ last = first + size w.
Proof.
  unfold range. destruct (_ && _) eqn:E; [|done]. intros [=<-].
  rewrite !andb_true_iff, !Z.leb_le in E. destruct E as [[? ?] ?].
  exists (take (Z.to_nat first) v), (drop (Z.to_nat (last - first)) (drop (Z.to_nat first) v)).
  rewrite !take_drop, !size_take; rewrite ?size_drop; lia || (split_and!; lia || done).
Qed.

Lemma index_ok v i : 0 <= i < size v -> exists b, v !! Z.to_nat i = Some b /\ index v i = Ok (u8 b).
Proof.
  intros. destruct (lookup_lt_is_Some_2 v (Z.to_nat i)) as [b Hb].
  { unfold size in *. lia. }
  exists b. split; [done|]. unfold index. rewrite Hb.
  by rewrite (proj2 (Z.leb_le _ _)) by lia.
Qed.

Lemma index_0 b v : index (b :: v) 0 = Ok (u8 b).
Proof. reflexivity. Qed.

Lemma index_app_r v w i : 0 <= i -> index (v ++ w) (size v + i) = index w i.
Proof.
  intros ?. unfold index. pose proof (size_nonneg v).
  rewrite lookup_app_r by (unfold size in *; lia).
  replace (Z.to_nat (size v + i) - length v)%nat with (Z.to_nat i) by (unfold size; lia).
  by rewrite !(proj2 (Z.leb_le _ _)) by lia.
Qed.

(** *** Lines *)

Lemma getline_from_item delim item w s :
  delim ∉ w -> getline_from delim item (w ++ delim :: s) = (item ++ w) :: getline_from delim [] s.
Proof.
  revert item. induction w as [|b w IH]; intros item Hw; cbn.
  - rewrite decide_True by done. by rewrite app_nil_r.
  - apply not_elem_of_cons in Hw as [? Hw]. rewrite decide_False by congruence.
    rewrite IH by done. by rewrite <- app_assoc.
Qed.

Lemma getlines_item delim w s : delim ∉ w -> getlines delim (w ++ delim :: s) = w :: getlines delim s.
Proof. intros. by apply getline_from_item. Qed.

Lemma getline_from_last delim item w :
  delim ∉ w -> item ++ w <> [] -> getline_from delim item w = [item ++ w].
Proof.
  revert item. induction w as [|b w IH]; intros item Hw Hne; cbn.
  - rewrite app_nil_r in *. by destruct item.
  - apply not_elem_of_cons in Hw as [? Hw]. rewrite decide_False by congruence.
    rewrite IH; [by rewrite <- app_assoc|done|by destruct item].
Qed.

Lemma getlines_last delim w : delim ∉ w -> w <> [] -> getlines delim w = [w].
Proof. intros. by apply (getline_from_last delim []). Qed.

Lemma getline_from_app delim item s t :
  getline_from delim item (s ++ delim :: t) = getline_from delim item (s ++ [delim]) ++ getlines delim t.
Proof.
  revert item. induction s as [|b s IH]; intros item; cbn.
  - by rewrite !decide_True by done.
  - destruct (decide (b = delim)); cbn; by rewrite IH.
Qed.

(** A stream that ends in a delimiter, continued. *)
Lemma getlines_app delim s t :
  getlines delim (s ++ delim :: t) = getlines delim (s ++ [delim]) ++ getlines delim t.
Proof. apply getline_from_app. Qed.

(** *** Words *)

(** A token: what [operator>>] can read back. *)
Definition token (w : bytes) : Prop := w <> [] /\ Forall (fun b => is_space b = false) w.

Lemma words_from_end word w :
  Forall (fun b => is_space b = false) w -> word ++ w <> [] -> words_from word w = [word ++ w].
Proof.
  intros Hw. revert word. induction Hw as [|b w Hb Hw IH]; intros word Hne; cbn [words_from].
  - rewrite app_nil_r in *. by destruct word.
  - rewrite Hb, IH; rewrite <- app_assoc; done.
Qed.

Lemma words_from_space word w sp s :
  Forall (fun b => is_space b = false) w -> is_space sp = true -> word ++ w <> [] ->
  words_from word (w ++ sp :: s) = (word ++ w) :: words s.
Proof.
  intros Hw Hsp. revert word. induction Hw as [|b w Hb Hw IH]; intros word Hne; cbn [words_from app].
  - rewrite app_nil_r in *. rewrite Hsp. by destruct word.
  - rewrite Hb, IH; rewrite <- app_assoc; done.
Qed.

Lemma words_token w : token w -> words w = [w].
Proof. intros [Hne Hw]. by apply (words_from_end []). Qed.

Lemma words_token_space w sp s : token w -> is_space sp = true -> words (w ++ sp :: s) = w :: words s.
Proof. intros [Hne Hw] ?. by apply (words_from_space []). Qed.

(** ** Reasoning about outcomes *)

(** [r] is a value that satisfies [Q] or an exception: the piece of code
    terminates without a system call and without undefined behaviour. *)
Definition safe {A} (r : res A) (Q : A -> Prop) : Prop :=
  match r with Ok a => Q a | Throw _ => True | Undef | Blocked => False end.

(** Hoare triples for programs over a state.  [Q] holds of the value and of
    the state on a normal return, [E] of the state when an exception escapes,
    [B] when a system call never returns; undefined behaviour is excluded. *)
Definition triple {S A} (P : S -> Prop) (m : M S A) (Q : A -> S -> Prop) (E B : S -> Prop) : Prop :=
  forall s, P s ->
  match m s with
  | (Ok a, s') => Q a s'
  | (Throw _, s') => E s'
  | (Undef, _) => False
  | (Blocked, s') => B s'
  end.

(** [m] keeps the invariant [I] on every outcome. *)
Definition keeps {S A} (I : S -> Prop) (m : M S A) : Prop := triple I m (fun _ => I) I I.

Lemma Ok_inj {A} (a b : A) : Ok a = Ok b -> a = b.
Proof. by intros [=]. Qed.

Lemma res_bind_Ok {A B} (r : res A) (f : A -> res B) b :
  r ≫= f = Ok b <-> exists a, r = Ok a /\ f a = Ok b.
Proof.
  destruct r; cbn; split; try done; try (intros (? & ? & ?); congruence); eauto.
Qed.

Lemma throw_if_Ok c e u : throw_if c e = Ok u <-> c = false.
Proof. destruct c, u; cbn; split; done. Qed.

Lemma M_bind_Ok {S A B} (m : M S A) (f : A -> M S B) s b s'' :
  (m ≫= f) s = (Ok b, s'') <-> exists a s', m s = (Ok a, s') /\ f a s' = (Ok b, s'').
Proof.
  unfold mbind, M_bind. destruct (m s) as [[] s'] eqn:E; split; try done;
    try (intros (? & ? & ? & ?); congruence); eauto.
Qed.

Lemma M_bind_run {S A B} (m : M S A) (f : A -> M S B) s a s' :
  m s = (Ok a, s') -> (m ≫= f) s = f a s'.
Proof. intros H. unfold mbind, M_bind. by rewrite H. Qed.

(** One step of a symbolic execution. *)
Lemma M_bind_res {S A B} (m : M S A) (f : A -> M S B) s r s' :
  m s = (r, s') ->
  (m ≫= f) s = match r with
    | Ok a => f a s' | Throw e => (Throw e, s') | Undef => (Undef, s') | Blocked => (Blocked, s') end.
Proof. intros H. unfold mbind, M_bind. rewrite H. by destruct r. Qed.

Lemma M_lift_res {S A B} (r : res A) (f : A -> M S B) s :
  (lift r ≫= f) s = match r with
    | Ok a => f a s | Throw e => (Throw e, s) | Undef => (Undef, s) | Blocked => (Blocked, s) end.
Proof. by destruct r. Qed.

Lemma M_lift_run {S A B} (r : res A) (f : A -> M S B) s a :
  r = Ok a -> (lift r ≫= f) s = f a s.
Proof. by intros ->. Qed.

Lemma M_ret_run {S A B} (a : A) (f : A -> M S B) s : (mret a ≫= f) s = f a s.
Proof. done. Qed.

Lemma M_gets_run {S A B} (g : S -> A) (f : A -> M S B) s : (gets g ≫= f) s = f (g s) s.
Proof. done. Qed.

Lemma M_modify_run {S B} (g : S -> S) (f : unit -> M S B) s : (modify g ≫= f) s = f tt (g s).
Proof. done. Qed.

(** A run on a concrete input, from its evaluated outcome. *)
Lemma outcome_of {A B} (x : A * B) a : x.1 = a -> x = (a, x.2).
Proof. destruct x; cbn. by intros ->. Qed.

Lemma safe_bind {A B} (r : res A) (f : A -> res B) (P : A -> Prop) (Q : B -> Prop) :
  safe r P -> (forall a, P a -> safe (f a) Q) -> safe (r ≫= f) Q.
Proof. destruct r; cbn; auto. Qed.

Lemma safe_mono {A} (r : res A) (P Q : A -> Prop) :
  safe r P -> (forall a, P a -> Q a) -> safe r Q.
Proof. destruct r; cbn; auto. Qed.

Lemma safe_throw_if c e (Q : unit -> Prop) : (c = false -> Q tt) -> safe (throw_if c e) Q.
Proof. destruct c; cbn; auto. Qed.

Lemma safe_range v first last Q :
  0 <= first <= last -> last <= size v ->
  Q (take (Z.to_nat (last - first)) (drop (Z.to_nat first) v)) -> safe (range v first last) Q.
Proof. intros. by rewrite range_ok. Qed.

Lemma safe_index v i (Q : Z -> Prop) :
  0 <= i < size v -> (forall z, 0 <= z < 256 -> Q z) -> safe (index v i) Q.
Proof.
  intros Hi HQ. destruct (index_ok v i Hi) as (b & _ & ->). apply HQ, u8_range.
Qed.

Section triples.
Context {S : Type}.
Implicit Types P E B : S -> Prop.

Lemma triple_ret {A} (a : A) P (Q : A -> S -> Prop) E B : (forall s, P s -> Q a s) -> triple P (mret a) Q E B.
Proof. intros H s HP. by apply H. Qed.

Lemma triple_bind {A A'} (m : M S A) (f : A -> M S A') P Q R E B :
  triple P m Q E B -> (forall a, triple (Q a) (f a) R E B) -> triple P (m ≫= f) R E B.
Proof.
  intros Hm Hf s HP. specialize (Hm s HP). unfold mbind, M_bind.
  destruct (m s) as [[] s']; try done. by apply Hf.
Qed.

Lemma triple_conseq {A} (m : M S A) P P' Q Q' E E' B B' :
  triple P' m Q' E' B' ->
  (forall s, P s -> P' s) -> (forall a s, Q' a s -> Q a s) -> (forall s, E' s -> E s) -> (forall s, B' s -> B s) ->
  triple P m Q E B.
Proof.
  intros Hm HP HQ HE HB s Hs. specialize (Hm s (HP s Hs)).
  destruct (m s) as [[] s']; auto.
Qed.

(** Strengthening the precondition alone. *)
Lemma triple_pre {A} (m : M S A) P P' Q E B :
  triple P' m Q E B -> (forall s, P s -> P' s) -> triple P m Q E B.
Proof. intros Hm HP s Hs. by apply Hm, HP. Qed.

(** Facts that do not depend on the state. *)
Lemma triple_pure {A} (m : M S A) (phi : Prop) P Q E B :
  (phi -> triple P m Q E B) -> triple (fun s => phi /\ P s) m Q E B.
Proof. intros H s [Hphi HP]. by apply H. Qed.

Lemma triple_lift {A} (r : res A) P (Q : A -> Prop) E B :
  safe r Q -> (forall s, P s -> E s) -> triple P (lift r) (fun a s => Q a /\ P s) E B.
Proof. intros Hr HE s HP. cbn. destruct r; cbn in *; auto; done. Qed.

Lemma triple_lift_Ok {A A'} (a : A) (f : A -> M S A') P (Q : A' -> S -> Prop) E B :
  triple P (f a) Q E B -> triple P (lift (Ok a) ≫= f) Q E B.
Proof. done. Qed.

(** A computation whose safety follows from the state. *)
Lemma triple_lift_state {A} (r : res A) P (Q : A -> S -> Prop) E B :
  (forall s, P s -> safe r (fun a => Q a s)) -> (forall s, P s -> E s) -> triple P (lift r) Q E B.
Proof. intros Hr HE s HP. specialize (Hr s HP). cbn. destruct r; cbn in *; auto; done. Qed.

Lemma keeps_bind {A A'} (I : S -> Prop) (m : M S A) (f : A -> M S A') Q :
  keeps I m -> (forall a, triple I (f a) Q I I) -> triple I (m ≫= f) Q I I.
Proof. intros Hm Hf. by apply triple_bind with (fun _ => I). Qed.

Lemma keeps_lift {A} (I : S -> Prop) (r : res A) : safe r (fun _ => True) -> keeps I (lift r).
Proof. intros Hr s HI. cbn. by destruct r. Qed.

Lemma keeps_gets {A} (I : S -> Prop) (f : S -> A) : keeps I (gets f).
Proof. by intros s HI. Qed.

Lemma triple_throw {A} (e : string) P (Q : A -> S -> Prop) E B :
  (forall s, P s -> E s) -> triple P (mthrow e) Q E B.
Proof. intros HE s HP. cbn. auto. Qed.

Lemma triple_modify (f : S -> S) P (Q : unit -> S -> Prop) E B :
  (forall s, P s -> Q tt (f s)) -> triple P (modify f) Q E B.
Proof. intros H s HP. by apply H. Qed.

Lemma triple_gets {A} (f : S -> A) P (Q : A -> S -> Prop) E B :
  (forall s, P s -> Q (f s) s) -> triple P (gets f) Q E B.
Proof. intros H s HP. by apply H. Qed.

Lemma triple_if {A} (b : bool) (m m' : M S A) P Q E B :
  (b = true -> triple P m Q E B) -> (b = false -> triple P m' Q E B) -> triple P (if b then m else m') Q E B.
Proof. destruct b; auto. Qed.

Lemma triple_zoom {T A} (view : S -> T) (set : T -> S -> S) (m : M T A) P (Q : A -> S -> Prop) E B :
  (forall s, P s ->
     match m (view s) with
     | (Ok a, t) => Q a (set t s)
     | (Throw _, t) => E (set t s)
     | (Undef, _) => False
     | (Blocked, t) => B (set t s)
     end) -> triple P (zoom view set m) Q E B.
Proof. intros Hm s Hs. specialize (Hm s Hs). unfold zoom. destruct (m (view s)) as [[] t]; auto. Qed.

End triples.

(** Expose the state passing of a program. *)
Ltac unfold_M :=
  unfold mbind, M_bind, mret, M_ret, mthrow, M_throw, modify, gets, get, lift, zoom in *.

(** Split an equation [... = Ok r] between a chain of binds and a value. *)
Ltac inv_res :=
  repeat match goal with
  | H : _ ≫= _ = Ok _ |- _ => apply res_bind_Ok in H; destruct H as (? & ? & H)
  | H : (_ ≫= _) _ = (Ok _, _) |- _ => apply M_bind_Ok in H; destruct H as (? & ? & ? & H)
  | H : throw_if _ _ = Ok _ |- _ => apply throw_if_Ok in H
  | H : mret _ = Ok _ |- _ => apply Ok_inj in H
  | H : Ok _ = Ok _ |- _ => apply Ok_inj in H
  | H : Throw _ = Ok _ |- _ => discriminate H
  | H : (Ok _, _) = (Ok _, _) |- _ => injection H as ? ?
  | H : (Throw _, _) = (Ok _, _) |- _ => discriminate H
  | p : (_ * _)%type |- _ => destruct p
  end; simplify_eq/=.

(** Boolean tests of the code as facts of arithmetic and equality. *)
Ltac tests :=
  repeat match goal with
  | H : _ || _ = false |- _ => apply orb_false_iff in H as [? ?]
  | H : _ && _ = true |- _ => apply andb_true_iff in H as [? ?]
  | H : negb _ = false |- _ => apply negb_false_iff in H
  | H : negb _ = true |- _ => apply negb_true_iff in H
  | H : (_ =? _) = true |- _ => apply Z.eqb_eq in H
  | H : (_ =? _) = false |- _ => apply Z.eqb_neq in H
  | H : (_ <? _) = true |- _ => apply Z.ltb_lt in H
  | H : (_ <? _) = false |- _ => apply Z.ltb_ge in H
  | H : (_ <=? _) = true |- _ => apply Z.leb_le in H
  | H : (_ <=? _) = false |- _ => apply Z.leb_gt in H
  | H : (_ >? _) = true |- _ => rewrite Z.gtb_ltb in H
  | H : (_ >? _) = false |- _ => rewrite Z.gtb_ltb in H
  | H : beq _ _ = true |- _ => apply beq_true in H
  | H : beq _ _ = false |- _ => apply beq_false in H
  end.
