(* ===== verification/Encoding.v ===== *)
(** * SSH binary values: [src/common/ssh_encoding.cpp] and [ssh_messages.hpp]

    The encoders append to a vector and return it; the decoders take the
    vector and the cursor [position] and return the value with the new cursor.
    Every access to the vector is checked ([Prelude.index], [Prelude.range]),
    so that undefined behaviour would be visible, and [size_t] arithmetic wraps
    at 64 bits.

    The second half relates a cursor to the bytes that are left
    ([at_position]), which makes the decoders compositional: the lemmas
    [read_uint32_at], [read_string_at] and their inversions are what the
    message parsers of the other files are verified with. *)

From S2P Require Import Prelude.

(** ** [namespace ssh_encoding] *)

Definition bits_per_byte : Z := 8.
Definition uint32_bytes : Z := 4.

Definition encode_uint32 (value : Z) : bytes :=
  (fun i => byte_of (Z.shiftr value ((uint32_bytes - 1 - Z.of_nat i) * bits_per_byte)))
    <$> seq 0 (Z.to_nat uint32_bytes).

Definition decode_uint32 (bs : bytes) : Z :=
  foldl (fun value b => Z.lor (u32 (Z.shiftl value bits_per_byte)) (u8 b)) 0 bs.

Definition append_string (destination value : bytes) : res bytes :=
  if size value >? uint32_max then mthrow "SSH string is too long"%string else
  let length := encode_uint32 (u32 (size value)) in
  let destination := destination ++ length in
  mret (destination ++ value).

Definition read_string (payload : bytes) (position : Z) : res (bytes * Z) :=
  if (position >? size payload) || (size_sub (size payload) position <? uint32_bytes)
  then mthrow "Expected SSH string length"%string else
  length_bytes ← copy_n payload position uint32_bytes;
  let length := decode_uint32 length_bytes in
  let position := u64 (position + uint32_bytes) in
  if (position >? size payload) || (size_sub (size payload) position <? length)
  then mthrow "Expected SSH string bytes"%string else
  result ← range payload position (position + length);
  let position := u64 (position + length) in
  mret (result, position).

Definition read_uint32 (payload : bytes) (position : Z) : res (Z * Z) :=
  if position >? size payload then mthrow "No bytes remain"%string else
  if size_sub (size payload) position <? uint32_bytes
  then mthrow "Expected 4 bytes"%string else
  bs ← copy_n payload position uint32_bytes;
  let position := u64 (position + uint32_bytes) in
  mret (decode_uint32 bs, position).

(** The guard [payload.empty() || payload[0] != number] of the parsers. *)
Definition not_message (payload : bytes) (number : Z) : res bool :=
  if size payload =? 0 then mret true else
  b ← index payload 0; mret (negb (b =? number)).

(** ** [namespace ssh_message] *)

Module ssh_message.
Definition SERVICE_REQUEST : Z := 5.
Definition SERVICE_ACCEPT : Z := 6.
Definition KEXINIT : Z := 20.
Definition NEWKEYS : Z := 21.
Definition KEX_ECDH_INIT : Z := 30.
Definition KEX_ECDH_REPLY : Z := 31.
Definition USERAUTH_REQUEST : Z := 50.
Definition USERAUTH_FAILURE : Z := 51.
Definition USERAUTH_SUCCESS : Z := 52.
Definition GLOBAL_REQUEST : Z := 80.
Definition REQUEST_SUCCESS : Z := 81.
Definition REQUEST_FAILURE : Z := 82.
Definition CHANNEL_OPEN : Z := 90.
Definition CHANNEL_OPEN_CONFIRMATION : Z := 91.
Definition CHANNEL_OPEN_FAILURE : Z := 92.
Definition CHANNEL_WINDOW_ADJUST : Z := 93.
Definition CHANNEL_DATA : Z := 94.
Definition CHANNEL_EXTENDED_DATA : Z := 95.
Definition CHANNEL_EOF : Z := 96.
Definition CHANNEL_CLOSE : Z := 97.
Definition CHANNEL_REQUEST : Z := 98.
Definition CHANNEL_SUCCESS : Z := 99.
Definition CHANNEL_FAILURE : Z := 100.
End ssh_message.

(** ** Specification of the SSH data types (RFC 4251, section 5) *)

(** The four digits of a [uint32] in base 256, most significant first. *)
Definition be32 (v : Z) : bytes :=
  [byte_of (v / 2 ^ 24); byte_of (v / 2 ^ 16); byte_of (v / 2 ^ 8); byte_of v].

(** The number that big-endian digits in base 256 denote. *)
Fixpoint be_value (bs : bytes) : Z :=
  match bs with
  | [] => 0
  | b :: bs' => u8 b * 256 ^ size bs' + be_value bs'
  end.

(** The fields SSH messages are made of. *)
Inductive field : Type :=
  | FByte (z : Z)
  | FUint32 (z : Z)
  | FString (s : bytes)
  | FRaw (s : bytes).

Definition wire_field (f : field) : bytes :=
  match f with
  | FByte z => [byte_of z]
  | FUint32 z => be32 z
  | FString s => be32 (size s) ++ s
  | FRaw s => s
  end.

(** The payload a list of fields stands for. *)
Definition wire (fs : list field) : bytes := concat (wire_field <$> fs).

(** The cursor [position] of [payload] has the bytes [rest] in front of it. *)
Definition at_position (payload : bytes) (position : Z) (rest : bytes) : Prop :=
  addressable payload /\
  exists before, payload = before ++ rest /\ position = size before.

#[global] Arguments not_message : simpl never.
#[global] Arguments be32 : simpl never.
#[global] Arguments decode_uint32 : simpl never.
#[global] Arguments encode_uint32 : simpl never.
#[global] Arguments append_string : simpl never.
#[global] Arguments read_string : simpl never.
#[global] Arguments read_uint32 : simpl never.

(** ** Encoding and decoding are inverse *)

Lemma encode_uint32_be32 v : encode_uint32 v = be32 v.
Proof.
  assert (Hs : forall k, 0 <= k -> byte_of (Z.shiftr v k) = byte_of (v / 2 ^ k)).
  { intros. by rewrite Z.shiftr_div_pow2. }
  unfold encode_uint32, be32, uint32_bytes, bits_per_byte.
  change (seq 0 (Z.to_nat 4)) with [0; 1; 2; 3]%nat. cbn [fmap list_fmap].
  rewrite !Hs by lia. by rewrite (Z.div_1_r v : v / 2 ^ ((4 - 1 - Z.of_nat 3) * 8) = v).
Qed.

Lemma lor_shift_add a b : 0 <= b < 256 -> Z.lor (Z.shiftl a 8) b = a * 256 + b.
Proof.
  intros Hb. rewrite Z.shiftl_mul_pow2 by lia. change (2 ^ 8) with 256.
  rewrite Z.add_nocarry_lor; [done|].
  apply Z.bits_inj'. intros n Hn. rewrite Z.land_spec, Z.bits_0.
  change 256 with (2 ^ 8). rewrite <- Z.shiftl_mul_pow2, Z.shiftl_spec by lia.
  destruct (Z.ltb_spec n 8); [by rewrite Z.testbit_neg_r by lia|].
  rewrite <- (Z.mod_small b (2 ^ 8)), (Z.mod_pow2_bits_high b) by lia.
  by rewrite andb_false_r.
Qed.

Lemma size_be32 v : size (be32 v) = 4.
Proof. reflexivity. Qed.

Lemma size_4 {A} (v : list A) : size v = 4 -> exists a b c d, v = [a; b; c; d].
Proof.
  unfold size. intros. destruct v as [|a [|b [|c [|d [|]]]]]; cbn in *; try lia. eauto.
Qed.

Lemma be_value_4 a b c d :
  be_value [a; b; c; d] = u8 a * 2 ^ 24 + u8 b * 2 ^ 16 + u8 c * 2 ^ 8 + u8 d.
Proof.
  cbn [be_value]. change (256 ^ size [b; c; d]) with (2 ^ 24).
  change (256 ^ size [c; d]) with (2 ^ 16). change (256 ^ size [d]) with (2 ^ 8).
  change (256 ^ size (@nil byte)) with 1. lia.
Qed.

Lemma decode_uint32_be_value bs : size bs = 4 -> decode_uint32 bs = be_value bs.
Proof.
  intros (a & b & c & d & ->)%size_4. rewrite be_value_4.
  pose proof (u8_range a); pose proof (u8_range b); pose proof (u8_range c); pose proof (u8_range d).
  assert (Hstep : forall x y, 0 <= x < 2 ^ 24 -> 0 <= y < 256 ->
    Z.lor (u32 (Z.shiftl x bits_per_byte)) y = x * 256 + y).
  { intros x y Hx Hy. unfold bits_per_byte.
    rewrite u32_small by (rewrite Z.shiftl_mul_pow2; lia). by apply lor_shift_add. }
  unfold decode_uint32. cbn [foldl].
  rewrite (Hstep 0 (u8 a)), (Hstep _ (u8 b)), (Hstep _ (u8 c)), (Hstep _ (u8 d)) by lia. lia.
Qed.

Lemma be_value_range bs : 0 <= be_value bs < 256 ^ size bs.
Proof.
  induction bs as [|b bs IH]; [done|]. cbn [be_value]. rewrite size_cons.
  rewrite Z.pow_add_r by (pose proof (size_nonneg bs); lia).
  pose proof (u8_range b). nia.
Qed.

Lemma be_value_be32 v : be_value (be32 v) = v mod 2 ^ 32.
Proof.
  unfold be32. rewrite be_value_4, !u8_byte_of. Z.div_mod_to_equations. lia.
Qed.

Lemma be32_be_value bs : size bs = 4 -> be32 (be_value bs) = bs.
Proof.
  intros (a & b & c & d & ->)%size_4. rewrite be_value_4.
  pose proof (u8_range a); pose proof (u8_range b); pose proof (u8_range c); pose proof (u8_range d).
  unfold be32. repeat f_equal; apply u8_inj; rewrite u8_byte_of; Z.div_mod_to_equations; lia.
Qed.

Lemma be32_inj v w : 0 <= v < 2 ^ 32 -> 0 <= w < 2 ^ 32 -> be32 v = be32 w -> v = w.
Proof.
  intros Hv Hw H. apply (f_equal be_value) in H. rewrite !be_value_be32 in H.
  by rewrite !Z.mod_small in H.
Qed.

Lemma decode_be32 v : 0 <= v < 2 ^ 32 -> decode_uint32 (be32 v) = v.
Proof. intros. rewrite decode_uint32_be_value, be_value_be32 by done. by apply Z.mod_small. Qed.

Lemma decode_uint32_range bs : size bs = 4 -> 0 <= decode_uint32 bs < 2 ^ 32.
Proof. intros H. rewrite decode_uint32_be_value by done. pose proof (be_value_range bs). by rewrite H in *. Qed.

#[global] Opaque be32.

(** ** Cursors *)

Lemma at_position_start payload : addressable payload -> at_position payload 0 payload.
Proof. intros H. split; [done|]. by exists []. Qed.

Lemma at_position_bounds payload position rest :
  at_position payload position rest ->
  0 <= position /\ size payload = position + size rest /\ size payload < 2 ^ 64.
Proof. intros (H & before & -> & ->). unfold addressable in *. sizes. Qed.

Lemma at_position_skip payload position a rest :
  at_position payload position (a ++ rest) -> at_position payload (position + size a) rest.
Proof.
  intros (H & before & -> & ->). split; [done|].
  exists (before ++ a). by rewrite <- app_assoc, size_app.
Qed.

Lemma at_position_skip_n payload position a n rest :
  at_position payload position (a ++ rest) -> size a = n -> at_position payload (position + n) rest.
Proof. intros Hp <-. by apply at_position_skip. Qed.

Lemma at_position_range payload position a rest :
  at_position payload position (a ++ rest) -> range payload position (position + size a) = Ok a.
Proof.
  intros Hp. pose proof (at_position_bounds _ _ _ Hp).
  rewrite range_ok by sizes. destruct Hp as (_ & before & -> & ->).
  rewrite drop_size_app. replace (size before + size a - size before) with (size a) by lia.
  by rewrite take_size_app.
Qed.

Lemma at_position_copy payload position a n rest :
  at_position payload position (a ++ rest) -> size a = n -> copy_n payload position n = Ok a.
Proof. intros Hp <-. by apply at_position_range with rest. Qed.

Lemma at_position_index payload position b rest :
  at_position payload position (b :: rest) -> index payload position = Ok (u8 b).
Proof.
  intros (_ & before & -> & ->). by rewrite <- (Z.add_0_r (size before)), index_app_r.
Qed.

Lemma at_position_end payload position rest :
  at_position payload position rest -> (position =? size payload) = true <-> rest = [].
Proof.
  intros Hp%at_position_bounds. rewrite Z.eqb_eq. split; [|intros ->; sizes].
  intros. apply size_zero_nil. lia.
Qed.

(** The bytes left of the cursor, as [payload.size() - position]. *)
Lemma at_position_left payload position rest :
  at_position payload position rest -> size_sub (size payload) position = size rest.
Proof.
  intros Hp%at_position_bounds. unfold size_sub. rewrite u64_small; sizes.
Qed.

Lemma at_position_within payload position rest :
  at_position payload position rest -> (position >? size payload) = false.
Proof. intros Hp%at_position_bounds. rewrite Z.gtb_ltb. apply Z.ltb_ge. sizes. Qed.

Lemma read_uint32_at payload position v rest :
  at_position payload position (be32 v ++ rest) -> 0 <= v < 2 ^ 32 ->
  read_uint32 payload position = Ok (v, position + 4).
Proof.
  intros Hp Hv. pose proof (at_position_bounds _ _ _ Hp). unfold read_uint32, uint32_bytes.
  rewrite (at_position_within _ _ _ Hp), (at_position_left _ _ _ Hp).
  rewrite (proj2 (Z.ltb_ge _ _)) by (rewrite size_app, size_be32; sizes).
  rewrite (at_position_copy _ _ _ _ _ Hp) by done. cbn.
  by rewrite decode_be32, u64_small by (rewrite ?size_app, ?size_be32 in *; sizes).
Qed.

Lemma read_uint32_short payload position rest :
  at_position payload position rest -> size rest < 4 ->
  read_uint32 payload position = Throw "Expected 4 bytes".
Proof.
  intros Hp Hr. unfold read_uint32, uint32_bytes.
  rewrite (at_position_within _ _ _ Hp), (at_position_left _ _ _ Hp).
  by rewrite (proj2 (Z.ltb_lt _ _)).
Qed.

Lemma read_uint32_safe payload position rest :
  at_position payload position rest ->
  safe (read_uint32 payload position) (fun '(v, position') =>
    exists rest', rest = be32 v ++ rest' /\ 0 <= v < 2 ^ 32 /\ at_position payload position' rest').
Proof.
  intros Hp. destruct (Z.lt_ge_cases (size rest) 4) as [Hlt|Hge].
  { by rewrite (read_uint32_short _ _ _ Hp). }
  destruct (split_at_size rest 4) as (w & rest' & -> & Hw); [lia|].
  rewrite <- (be32_be_value w) in Hp by done. pose proof (be_value_range w) as Hr. rewrite Hw in Hr.
  change (256 ^ 4) with (2 ^ 32) in Hr.
  rewrite (read_uint32_at _ _ _ _ Hp) by done. cbn. exists rest'.
  rewrite be32_be_value by done. split_and!; [done|lia|lia|].
  by apply at_position_skip_n with (be32 (be_value w)).
Qed.

Lemma read_string_at payload position s rest :
  at_position payload position ((be32 (size s) ++ s) ++ rest) -> size s < 2 ^ 32 ->
  read_string payload position = Ok (s, position + 4 + size s).
Proof.
  rewrite <- app_assoc. intros Hp Hs. pose proof (at_position_bounds _ _ _ Hp) as Hb.
  pose proof (at_position_skip _ _ _ _ Hp) as Hp'. pose proof (at_position_bounds _ _ _ Hp') as Hb'.
  rewrite !size_app, size_be32 in *. unfold read_string, uint32_bytes.
  rewrite (at_position_within _ _ _ Hp), (at_position_left _ _ _ Hp).
  rewrite (proj2 (Z.ltb_ge _ _)) by (rewrite !size_app, size_be32; sizes).
  rewrite (at_position_copy _ _ _ _ _ Hp) by done. cbn.
  rewrite decode_be32, u64_small by sizes.
  rewrite (at_position_within _ _ _ Hp'), (at_position_left _ _ _ Hp'). cbn.
  rewrite (proj2 (Z.ltb_ge _ _)) by sizes.
  rewrite (at_position_range _ _ _ _ Hp'). cbn. by rewrite u64_small by sizes.
Qed.

Lemma read_string_no_length payload position rest :
  at_position payload position rest -> size rest < 4 ->
  read_string payload position = Throw "Expected SSH string length".
Proof.
  intros Hp Hr. unfold read_string, uint32_bytes.
  rewrite (at_position_within _ _ _ Hp), (at_position_left _ _ _ Hp).
  by rewrite (proj2 (Z.ltb_lt _ _)).
Qed.

Lemma read_string_no_bytes payload position n rest :
  at_position payload position (be32 n ++ rest) -> size rest < n < 2 ^ 32 ->
  read_string payload position = Throw "Expected SSH string bytes".
Proof.
  intros Hp Hn. pose proof (at_position_bounds _ _ _ Hp) as Hb.
  pose proof (at_position_skip _ _ _ _ Hp) as Hp'.
  rewrite !size_app, size_be32 in *. unfold read_string, uint32_bytes.
  rewrite (at_position_within _ _ _ Hp), (at_position_left _ _ _ Hp).
  rewrite (proj2 (Z.ltb_ge _ _)) by (rewrite !size_app, size_be32; sizes).
  rewrite (at_position_copy _ _ _ _ _ Hp) by done. cbn.
  rewrite decode_be32, u64_small by sizes.
  rewrite (at_position_within _ _ _ Hp'), (at_position_left _ _ _ Hp'). cbn.
  by rewrite (proj2 (Z.ltb_lt _ _)) by lia.
Qed.

Lemma read_string_safe payload position rest :
  at_position payload position rest ->
  safe (read_string payload position) (fun '(s, position') =>
    exists rest', rest = (be32 (size s) ++ s) ++ rest' /\ size s < 2 ^ 32 /\
      at_position payload position' rest').
Proof.
  intros Hp. destruct (Z.lt_ge_cases (size rest) 4) as [Hlt|Hge].
  { by rewrite (read_string_no_length _ _ _ Hp). }
  destruct (split_at_size rest 4) as (w & rest' & -> & Hw); [lia|].
  pose proof (be_value_range w) as Hr. rewrite Hw in Hr. change (256 ^ 4) with (2 ^ 32) in Hr.
  rewrite <- (be32_be_value w) in Hp, Hge |- * by done.
  set (n := be_value w) in *. clearbody n. clear Hw. rewrite size_app, size_be32 in Hge.
  destruct (Z.lt_ge_cases (size rest') n) as [Hlt|Hge'].
  { by rewrite (read_string_no_bytes _ _ _ _ Hp) by lia. }
  destruct (split_at_size rest' n) as (s & rest'' & -> & <-); [lia|].
  rewrite app_assoc in Hp. rewrite (read_string_at _ _ _ _ Hp) by lia. cbn.
  exists rest''. rewrite <- app_assoc. split_and!; [done|lia|].
  pose proof (at_position_skip _ _ _ _ Hp) as Hq. rewrite size_app, size_be32 in Hq.
  by rewrite <- Z.add_assoc.
Qed.

Lemma append_string_ok destination s :
  size s < 2 ^ 32 -> append_string destination s = Ok (destination ++ be32 (size s) ++ s).
Proof.
  intros. unfold append_string, uint32_max.
  destruct (Z.gtb_spec (size s) (2 ^ 32 - 1)); [lia|]. cbn.
  rewrite u32_small, encode_uint32_be32 by sizes. by rewrite <- app_assoc.
Qed.

Lemma append_string_long destination s :
  2 ^ 32 <= size s -> append_string destination s = Throw "SSH string is too long".
Proof.
  intros. unfold append_string, uint32_max.
  by destruct (Z.gtb_spec (size s) (2 ^ 32 - 1)); [|lia].
Qed.

Lemma append_string_eq destination s :
  append_string destination s =
    if size s <? 2 ^ 32 then Ok (destination ++ be32 (size s) ++ s)
    else Throw "SSH string is too long".
Proof.
  destruct (Z.ltb_spec (size s) (2 ^ 32)); [by apply append_string_ok|by apply append_string_long].
Qed.

Lemma not_message_safe payload number :
  safe (not_message payload number) (fun bad =>
    bad = false -> exists rest, payload = byte_of number :: rest).
Proof.
  unfold not_message. destruct payload as [|b rest]; [done|].
  rewrite size_cons. pose proof (size_nonneg rest).
  rewrite (proj2 (Z.eqb_neq _ _)) by lia. rewrite index_0. cbn. intros Hb. tests.
  exists rest. by rewrite <- Hb, byte_of_u8.
Qed.

Lemma not_message_at payload number rest :
  payload = byte_of number :: rest -> 0 <= number < 256 -> not_message payload number = Ok false.
Proof.
  intros -> Hn. unfold not_message. rewrite size_cons. pose proof (size_nonneg rest).
  rewrite (proj2 (Z.eqb_neq _ _)) by lia. rewrite index_0. cbn.
  by rewrite u8_byte_of_small, Z.eqb_refl.
Qed.

Lemma safe_message {A} payload number (e : string) (k : res A) Q :
  (forall rest, payload = byte_of number :: rest -> safe k Q) ->
  safe (bad ← not_message payload number; if bad : bool then mthrow e else k) Q.
Proof.
  intros Hk. eapply safe_bind; [apply not_message_safe|].
  intros [] Hb; [done|]. destruct (Hb eq_refl) as [rest ->]. by apply (Hk rest).
Qed.

(** The other form of the guard, with one message per test. *)
Lemma safe_header {A} payload number (e1 e2 : string) (k : res A) Q :
  (forall rest, payload = byte_of number :: rest -> safe k Q) ->
  safe (if size payload =? 0 then mthrow e1 else
        b ← index payload 0;
        if negb (b =? number) then mthrow e2 else k) Q.
Proof.
  intros Hk. destruct payload as [|b rest]; [done|].
  rewrite size_cons. pose proof (size_nonneg rest).
  rewrite (proj2 (Z.eqb_neq _ _)), index_0 by lia. cbn.
  destruct (Z.eqb_spec (u8 b) number) as [<-|]; [|done].
  apply (Hk rest). by rewrite byte_of_u8.
Qed.

Lemma run_header {A} payload rest number (e1 e2 : string) (k : res A) :
  payload = byte_of number :: rest -> 0 <= number < 256 ->
  (if size payload =? 0 then mthrow e1 else
   b ← index payload 0;
   if negb (b =? number) then mthrow e2 else k) = k.
Proof.
  intros -> Hn. rewrite size_cons. pose proof (size_nonneg rest).
  rewrite (proj2 (Z.eqb_neq _ _)), index_0 by lia. cbn.
  by rewrite u8_byte_of_small, Z.eqb_refl.
Qed.

Lemma at_position_tail payload b rest :
  addressable payload -> payload = b :: rest -> at_position payload 1 rest.
Proof. intros ? ->. split; [done|]. by exists [b]. Qed.

Lemma at_position_next payload position b rest :
  at_position payload position (b :: rest) -> at_position payload (position + 1) rest.
Proof. intros Hp. by apply (at_position_skip_n payload position [b] 1 rest Hp). Qed.

Lemma wire_nil : wire [] = [].
Proof. reflexivity. Qed.
Lemma wire_cons f fs : wire (f :: fs) = wire_field f ++ wire fs.
Proof. reflexivity. Qed.
Lemma wire_app fs gs : wire (fs ++ gs) = wire fs ++ wire gs.
Proof. unfold wire. by rewrite fmap_app, concat_app. Qed.

Lemma safe_Ok {A} (r : res A) Q a : safe r Q -> r = Ok a -> Q a.
Proof. by intros H ->. Qed.

Lemma at_position_end_neg payload position rest :
  at_position payload position rest -> negb (position =? size payload) = false -> rest = [].
Proof. intros Hp H. apply negb_false_iff in H. by apply (at_position_end _ _ _ Hp). Qed.

Lemma at_position_done payload position :
  at_position payload position [] -> (position =? size payload) = true.
Proof. intros Hp. by apply (at_position_end _ _ _ Hp). Qed.

Lemma at_position_one_left payload position rest :
  at_position payload position rest -> (size_sub (size payload) position <? 1) = false ->
  exists b rest', rest = b :: rest'.
Proof.
  intros Hp H. rewrite (at_position_left _ _ _ Hp) in H. tests.
  destruct rest as [|b rest']; [by rewrite size_nil in H|eauto].
Qed.

Lemma at_position_exactly_one payload position rest :
  at_position payload position rest -> negb (size_sub (size payload) position =? 1) = false ->
  exists b, rest = [b].
Proof.
  intros Hp H. rewrite (at_position_left _ _ _ Hp) in H. tests.
  destruct rest as [|b rest']; [by rewrite size_nil in H|].
  rewrite size_cons in H. exists b. f_equal. apply size_zero_nil. lia.
Qed.

(** The cursor arithmetic [position++] of the code does not wrap. *)
Lemma at_position_u64_next payload position b rest :
  at_position payload position (b :: rest) -> u64 (position + 1) = position + 1.
Proof.
  intros Hp%at_position_bounds. rewrite size_cons in Hp.
  apply u64_small. pose proof (size_nonneg rest). lia.
Qed.

(** ** Proof automation for parsers

    [safe_step] runs one statement of a parser in a goal [safe _ _], naming
    what the statement has learned about the payload; [run_step] runs one
    statement in an equation when the bytes in front of the cursor are known. *)

Ltac safe_step :=
  lazymatch goal with
  | |- safe (throw_if ?c _ ≫= _) _ =>
      apply (safe_bind _ _ (fun _ => c = false)); [by destruct c|]; intros _ ?
  | H : at_position ?p ?pos ?rest |- safe (if negb (?pos =? size ?p) then mthrow _ else _) _ =>
      let E := fresh "E" in
      destruct (negb (pos =? size p)) eqn:E; [exact I|];
      apply (at_position_end_neg _ _ _ H) in E;
      first [subst rest | discriminate E | clear E]
  | Ha : addressable ?p |- safe (if size ?p =? 0 then _ else _) _ =>
      apply safe_header; let r := fresh "rest" in let E := fresh "Hpayload" in
      intros r E; pose proof (at_position_tail _ _ _ Ha E)
  | Ha : addressable ?p |- safe (not_message ?p _ ≫= _) _ =>
      apply safe_message; let r := fresh "rest" in let E := fresh "Hpayload" in
      intros r E; pose proof (at_position_tail _ _ _ Ha E)
  | H : at_position ?p ?pos ?rest |- safe (if size_sub (size ?p) ?pos <? 1 then mthrow _ else _) _ =>
      let E := fresh "E" in
      destruct (size_sub (size p) pos <? 1) eqn:E; [exact I|];
      apply (at_position_one_left _ _ _ H) in E; destruct E as (? & ? & ->)
  | H : at_position ?p ?pos ?rest |- safe (if negb (size_sub (size ?p) ?pos =? 1) then mthrow _ else _) _ =>
      let E := fresh "E" in
      destruct (negb (size_sub (size p) pos =? 1)) eqn:E; [exact I|];
      apply (at_position_exactly_one _ _ _ H) in E; destruct E as (? & ->)
  | H : at_position ?p ?pos (?b :: _) |- safe (index ?p ?pos ≫= _) _ =>
      rewrite (at_position_index _ _ _ _ H); cbn [mbind res_bind];
      rewrite ?(at_position_u64_next _ _ _ _ H); apply at_position_next in H
  | H : at_position ?p ?pos ?rest |- safe (read_uint32 ?p ?pos ≫= _) _ =>
      eapply safe_bind; [exact (read_uint32_safe _ _ _ H)|];
      let v := fresh "v" in let q := fresh "position" in let r := fresh "rest" in
      let E := fresh "E" in
      intros [v q] (r & E & ? & ?); clear H; subst rest
  | H : at_position ?p ?pos ?rest |- safe (read_string ?p ?pos ≫= _) _ =>
      eapply safe_bind; [exact (read_string_safe _ _ _ H)|];
      let v := fresh "s" in let q := fresh "position" in let r := fresh "rest" in
      let E := fresh "E" in
      intros [v q] (r & E & ? & ?); clear H; subst rest
  | |- safe (if ?c then mthrow _ else _) _ => destruct c eqn:?; [exact I|]
  | |- safe (if ?c then Throw _ else _) _ => destruct c eqn:?; [exact I|]
  end; cbn beta iota.

Ltac run_step :=
  lazymatch goal with
  | H : ?p = byte_of ?n :: _ |- context [not_message ?p ?n] =>
      rewrite (not_message_at _ _ _ H) by done; cbn [mbind res_bind]
  | H : ?p = byte_of ?n :: _ |- context [if size ?p =? 0 then _ else _] =>
      rewrite (run_header _ _ _ _ _ _ H) by done
  | H : at_position ?p ?pos [] |- context [?pos =? size ?p] =>
      rewrite (at_position_done _ _ H); cbn [negb]
  | H : at_position ?p ?pos (?b :: ?r) |- context [size_sub (size ?p) ?pos] =>
      rewrite (at_position_left _ _ _ H), size_cons;
      try rewrite (proj2 (Z.ltb_ge (1 + size r) 1)) by (pose proof (size_nonneg r); lia)
  | H : at_position ?p ?pos (?b :: _) |- context [index ?p ?pos] =>
      rewrite (at_position_index _ _ _ _ H); cbn [mbind res_bind];
      rewrite ?(at_position_u64_next _ _ _ _ H); apply at_position_next in H
  | H : at_position ?p ?pos (be32 ?v ++ _) |- context [read_uint32 ?p ?pos] =>
      rewrite (read_uint32_at _ _ _ _ H) by lia; cbn [mbind res_bind];
      apply (at_position_skip_n _ _ _ 4) in H; [|done]
  | H : at_position ?p ?pos ((be32 (size ?s) ++ ?s) ++ _) |- context [read_string ?p ?pos] =>
      rewrite (read_string_at _ _ _ _ H) by lia; cbn [mbind res_bind];
      apply (at_position_skip_n _ _ _ (4 + size s)) in H;
      [rewrite Z.add_assoc in H|by rewrite size_app]
  end.

(** Start running a parser on a payload given by [wire]. *)
Ltac run_start Ha :=
  lazymatch type of Ha with
  | addressable ?w =>
      let p := fresh "payload" in let E := fresh "Hpayload" in
      remember w as p eqn:E in Ha |- *;
      unfold wire in E; cbn [fmap list_fmap concat wire_field app] in E;
      pose proof (at_position_tail _ _ _ Ha E)
  end.

(** Equalities between payloads written out and written with [wire]. *)
Ltac wire_eq :=
  unfold wire; cbn [fmap list_fmap concat wire_field];
  rewrite ?app_nil_r; cbn [app]; rewrite <- ?app_assoc; cbn [app]; reflexivity.

(** ** Properties *)

(** [encode_uint32] and [decode_uint32] are inverse to each other, and
    both are the big-endian (network order) notation of RFC 4251: the encoding
    of [v] is its four base-256 digits, the decoding of four bytes is the
    number those digits denote. *)
Theorem uint32_roundtrip :
  (forall v, 0 <= v < 2 ^ 32 -> encode_uint32 v = be32 v /\ decode_uint32 (encode_uint32 v) = v) /\
  (forall bs, size bs = 4 -> decode_uint32 bs = be_value bs /\ encode_uint32 (decode_uint32 bs) = bs).
Proof.
  split; intros; rewrite encode_uint32_be32.
  - by rewrite decode_be32.
  - by rewrite decode_uint32_be_value, be32_be_value.
Qed.

Lemma uint32_roundtrip_witness :
  decode_uint32 (encode_uint32 3735928559) = 3735928559 /\
  encode_uint32 (decode_uint32 [xde; xad; xbe; xef]) = [xde; xad; xbe; xef].
Proof.
  split.
  - apply (proj1 uint32_roundtrip 3735928559). split; vm_compute; congruence.
  - apply (proj2 uint32_roundtrip [xde; xad; xbe; xef]). reflexivity.
Defined.

(** A string appended with [append_string] at the end of any vector is read
    back by [read_string] from that place, whatever follows, and the cursor
    stops right after it. *)
Theorem string_roundtrip before s after v :
  append_string before s = Ok v -> addressable (v ++ after) ->
  read_string (v ++ after) (size before) = Ok (s, size v).
Proof.
  intros Hv Ha. destruct (Z.lt_ge_cases (size s) (2 ^ 32)) as [Hs|Hs];
    [|by rewrite append_string_long in Hv].
  rewrite append_string_ok in Hv by done. apply Ok_inj in Hv as <-.
  rewrite (read_string_at _ _ s after); [|split; [done|]|done].
  - do 2 f_equal. rewrite !size_app, size_be32. lia.
  - exists before. by rewrite <- !app_assoc.
Qed.

Lemma string_roundtrip_witness :
  read_string ([x32] ++ [x00; x00; x00; x02] ++ [x68; x69] ++ [xff]) 1 = Ok ([x68; x69], 7).
Proof. apply (string_roundtrip [x32] [x68; x69] [xff] [x32; x00; x00; x00; x02; x68; x69]); reflexivity. Defined.

(** [read_string] from any cursor of any payload never indexes outside the
    payload; when it returns, the bytes it consumed are exactly the encoding of
    the string and the new cursor is within the payload; when it throws, no
    encoded string starts at the cursor. *)
Theorem read_string_outcome payload position :
  addressable payload -> 0 <= position ->
  match read_string payload position with
  | Ok (s, position') =>
      position' <= size payload /\
      range payload position position' = Ok (be32 (size s) ++ s)
  | Throw _ =>
      forall s, size s < 2 ^ 32 ->
      range payload position (position + 4 + size s) <> Ok (be32 (size s) ++ s)
  | Undef | Blocked => False
  end.
Proof.
  intros Ha Hpos. destruct (Z.lt_ge_cases (size payload) position) as [Hout|Hin].
  { unfold read_string. rewrite (proj2 (Z.gtb_lt _ _)) by lia. cbn. intros s Hs.
    unfold range. pose proof (size_nonneg s).
    rewrite (proj2 (Z.leb_gt _ (size payload))) by lia. by rewrite andb_false_r. }
  assert (Hp : at_position payload position (drop (Z.to_nat position) payload)).
  { split; [done|]. exists (take (Z.to_nat position) payload).
    rewrite take_drop, size_take by lia. done. }
  set (rest := drop _ _) in Hp. clearbody rest.
  pose proof (read_string_safe _ _ _ Hp) as Hsafe. destruct (read_string payload position) as [[s p']| | |] eqn:E;
    [|intros s Hs Hr|done..].
  - destruct Hsafe as (rest' & -> & Hs & _). rewrite (read_string_at _ _ _ _ Hp Hs) in E.
    apply Ok_inj in E. injection E as <-. pose proof (at_position_bounds _ _ _ Hp). rewrite !size_app, size_be32 in *.
    split; [pose proof (size_nonneg rest'); lia|].
    apply at_position_range in Hp. rewrite size_app, size_be32, Z.add_assoc in Hp. done.
  - apply range_Ok_inv in Hr as (before & after & -> & <- & _).
    rewrite (read_string_at _ _ s after) in E; [done| |done]. split; [done|]. by exists before.
Qed.

Lemma read_string_outcome_witness :
  read_string [x00; x00; x00; x09; x61] 0 = Throw "Expected SSH string bytes" /\
  forall s, size s < 2 ^ 32 ->
  range [x00; x00; x00; x09; x61] 0 (0 + 4 + size s) <> Ok (be32 (size s) ++ s).
Proof. split; [reflexivity|]. apply (read_string_outcome [x00; x00; x00; x09; x61] 0); done. Defined.
