(* ===== verification/Auth.v ===== *)
(** * User authentication: [src/auth/auth.cpp]

    The requests the client builds and the replies it validates, as functions
    on payloads. *)

From S2P Require Import Prelude Encoding.

(** [struct AuthFailure] *)
Record AuthFailure := {
  available_methods : bytes;
  partial_success : bool;
}.

Definition create_service_request : res bytes :=
  let payload := [byte_of ssh_message.SERVICE_REQUEST] in
  append_string payload (str "ssh-userauth").

Definition validate_service_accept (payload : bytes) : res unit :=
  if size payload =? 0 then mthrow "Payload cannot be empty"%string else
  b ← index payload 0;
  if negb (b =? ssh_message.SERVICE_ACCEPT)
  then mthrow "SSH_MSG_SERVICE_ACCEPT was expected"%string else
  let position := 1 in
  '(service_name, position) ← read_string payload position;
  if negb (beq service_name (str "ssh-userauth"))
  then mthrow "String doesn't match ssh-userauth"%string else
  if negb (position =? size payload) then mthrow "Extra bytes received"%string else
  mret tt.

Definition create_none_auth_request (username : bytes) : res bytes :=
  let payload := [byte_of ssh_message.USERAUTH_REQUEST] in
  payload ← append_string payload username;
  payload ← append_string payload (str "ssh-connection");
  append_string payload (str "none").

Definition parse_auth_failure (payload : bytes) : res AuthFailure :=
  if size payload =? 0 then mthrow "SSH_MSG_USERAUTH_FAILURE expected"%string else
  b ← index payload 0;
  if negb (b =? ssh_message.USERAUTH_FAILURE)
  then mthrow "SSH_MSG_USERAUTH_FAILURE expected"%string else
  let position := 1 in
  '(authentication_methods, position) ← read_string payload position;
  if negb (size_sub (size payload) position =? 1) then mthrow "One byte expected"%string else
  b ← index payload position;
  let partial := negb (b =? 0) in
  let position := u64 (position + 1) in
  if negb (position =? size payload) then mthrow "No more bytes expected"%string else
  mret {| available_methods := authentication_methods; partial_success := partial |}.

Definition create_password_auth_request (username password : bytes) : res bytes :=
  let payload := [byte_of ssh_message.USERAUTH_REQUEST] in
  payload ← append_string payload username;
  payload ← append_string payload (str "ssh-connection");
  payload ← append_string payload (str "password");
  let payload := payload ++ [byte_of 0] in
  append_string payload password.

Definition validate_auth_success (payload : bytes) : res unit :=
  if negb (size payload =? 1) then mthrow "SSH_MSG_USERAUTH_SUCCESS expected"%string else
  b ← index payload 0;
  if negb (b =? ssh_message.USERAUTH_SUCCESS)
  then mthrow "SSH_MSG_USERAUTH_SUCCESS expected"%string else
  mret tt.

(** ** Facts *)

Lemma parse_auth_failure_safe payload :
  addressable payload ->
  safe (parse_auth_failure payload) (fun f =>
    size (available_methods f) < 2 ^ 32 /\
    exists b, payload = wire [FByte ssh_message.USERAUTH_FAILURE; FString (available_methods f); FRaw [b]] /\
      partial_success f = negb (u8 b =? 0)).
Proof.
  intros Ha. unfold parse_auth_failure. repeat safe_step.
  cbn. split; [done|]. exists x. split; [|done]. rewrite Hpayload. wire_eq.
Qed.

Lemma parse_auth_failure_wire methods b :
  size methods < 2 ^ 32 ->
  addressable (wire [FByte ssh_message.USERAUTH_FAILURE; FString methods; FRaw [b]]) ->
  parse_auth_failure (wire [FByte ssh_message.USERAUTH_FAILURE; FString methods; FRaw [b]]) =
    Ok {| available_methods := methods; partial_success := negb (u8 b =? 0) |}.
Proof. intros Hs Ha. run_start Ha. unfold parse_auth_failure. by repeat run_step. Qed.

Lemma validate_service_accept_safe payload :
  addressable payload ->
  safe (validate_service_accept payload) (fun _ =>
    payload = wire [FByte ssh_message.SERVICE_ACCEPT; FString (str "ssh-userauth")]).
Proof.
  intros Ha. unfold validate_service_accept. repeat safe_step. tests. subst. wire_eq.
Qed.

Lemma validate_service_accept_wire :
  validate_service_accept (wire [FByte ssh_message.SERVICE_ACCEPT; FString (str "ssh-userauth")]) = Ok tt.
Proof. by vm_compute. Qed.

Lemma validate_auth_success_safe payload :
  safe (validate_auth_success payload) (fun _ => payload = [byte_of ssh_message.USERAUTH_SUCCESS]).
Proof.
  unfold validate_auth_success. destruct (Z.eqb_spec (size payload) 1) as [H|]; [|done].
  destruct payload as [|b [|c r]]; try (rewrite ?size_cons, ?size_nil in H; pose proof (size_nonneg r); lia).
  { done. }
  rewrite index_0. cbn. destruct (Z.eqb_spec (u8 b) ssh_message.USERAUTH_SUCCESS) as [<-|]; [|done].
  by rewrite byte_of_u8.
Qed.

(** ** Properties *)

(** The three requests the client sends have the layout of RFC 4252 and
    RFC 4253 (section 10), field by field; the password request marks the
    password as not being changed (the byte 0).  Building one fails only when a
    user-supplied string does not fit the 32-bit length of an SSH string. *)
Theorem auth_requests_wire username password :
  create_service_request =
    Ok (wire [FByte ssh_message.SERVICE_REQUEST; FString (str "ssh-userauth")]) /\
  create_none_auth_request username =
    (if size username <? 2 ^ 32
     then Ok (wire [FByte ssh_message.USERAUTH_REQUEST; FString username;
                    FString (str "ssh-connection"); FString (str "none")])
     else Throw "SSH string is too long") /\
  create_password_auth_request username password =
    (if (size username <? 2 ^ 32) && (size password <? 2 ^ 32)
     then Ok (wire [FByte ssh_message.USERAUTH_REQUEST; FString username;
                    FString (str "ssh-connection"); FString (str "password");
                    FByte 0; FString password])
     else Throw "SSH string is too long").
Proof.
  split_and!.
  - vm_compute. reflexivity.
  - unfold create_none_auth_request. rewrite append_string_eq.
    destruct (size username <? 2 ^ 32); [|done]. cbn. rewrite append_string_ok by done. cbn.
    rewrite append_string_ok by done. f_equal; wire_eq.
  - unfold create_password_auth_request. rewrite append_string_eq.
    destruct (size username <? 2 ^ 32); [|done]. cbn. rewrite append_string_ok by done. cbn.
    rewrite append_string_ok by done. cbn. rewrite append_string_eq.
    destruct (size password <? 2 ^ 32); [|done]. f_equal; wire_eq.
Qed.

(** C22: the three replies are accepted exactly when they are the message the
    client waits for: the service accept only for the service it requested, the
    failure only with its name-list and one trailing byte (whose truth value is
    the partial-success flag), the success only as the single message byte. *)
Theorem auth_replies_iff payload :
  addressable payload ->
  (validate_service_accept payload = Ok tt <->
    payload = wire [FByte ssh_message.SERVICE_ACCEPT; FString (str "ssh-userauth")]) /\
  (forall f, parse_auth_failure payload = Ok f <->
    size (available_methods f) < 2 ^ 32 /\
    exists b, payload = wire [FByte ssh_message.USERAUTH_FAILURE;
                              FString (available_methods f); FRaw [b]] /\
      partial_success f = negb (u8 b =? 0)) /\
  (validate_auth_success payload = Ok tt <-> payload = wire [FByte ssh_message.USERAUTH_SUCCESS]).
Proof.
  intros Ha. split_and!.
  - split; [|by intros ->]. exact (safe_Ok _ _ _ (validate_service_accept_safe _ Ha)).
  - intros f. split; [exact (safe_Ok _ _ _ (parse_auth_failure_safe _ Ha))|].
    destruct f as [methods partial]. cbn. intros (Hs & b & -> & ->).
    by apply parse_auth_failure_wire.
  - split; [|by intros ->]. exact (safe_Ok _ _ _ (validate_auth_success_safe _)).
Qed.

Lemma auth_replies_iff_witness :
  parse_auth_failure ([x33; x00; x00; x00; x08] ++ str "password" ++ [x00]) =
    Ok {| available_methods := str "password"; partial_success := false |}.
Proof.
  apply (auth_replies_iff ([x33; x00; x00; x00; x08] ++ str "password" ++ [x00])).
  - reflexivity.
  - split; [reflexivity|]. exists x00. split; vm_compute; reflexivity.
Defined.
