(* ===== verification/Connection.v ===== *)
(** * The connection layer: [src/connection/connection.cpp]

    [Channel] is the mutable state of the one session channel; an operation
    that takes a [Channel&] returns the channel it leaves.  Every operation of
    the class assigns to the channel only after its last check, so an exception
    leaves the channel as it was and the result type need not carry it. *)

From S2P Require Import Prelude Encoding.

(** ** Data *)

Record Channel := {
  local_id : Z;
  remote_id : Z;
  local_window : Z;
  remote_window : Z;
  local_max_packet : Z;
  remote_max_packet : Z;
  open : bool;
  remote_eof_received : bool;
  remote_close_received : bool;
  local_close_sent : bool;
  exit_status_received : bool;
  exit_status : Z;
}.

Record ChannelOpenFailure := {
  reason_code : Z;
  description : bytes;
  language : bytes;
}.

Record GlobalRequest := {
  request_name : bytes;
  want_reply : bool;
  request_data : bytes;
}.

Record ChannelExitStatus := {
  ces_exit_status : Z;
  ces_want_reply : bool;
}.

Record ChannelExtendedData := {
  data_type : Z;
  data : bytes;
}.

(** The assignments to the fields of a channel. *)
Definition set_remote (id window max_packet : Z) (c : Channel) : Channel :=
  {| local_id := local_id c; remote_id := id; local_window := local_window c;
     remote_window := window; local_max_packet := local_max_packet c;
     remote_max_packet := max_packet; open := open c;
     remote_eof_received := remote_eof_received c;
     remote_close_received := remote_close_received c; local_close_sent := local_close_sent c;
     exit_status_received := exit_status_received c; exit_status := exit_status c |}.

Definition set_windows (local remote : Z) (c : Channel) : Channel :=
  {| local_id := local_id c; remote_id := remote_id c; local_window := local;
     remote_window := remote; local_max_packet := local_max_packet c;
     remote_max_packet := remote_max_packet c; open := open c;
     remote_eof_received := remote_eof_received c;
     remote_close_received := remote_close_received c; local_close_sent := local_close_sent c;
     exit_status_received := exit_status_received c; exit_status := exit_status c |}.

Definition set_flags (op eof close_received close_sent : bool) (c : Channel) : Channel :=
  {| local_id := local_id c; remote_id := remote_id c; local_window := local_window c;
     remote_window := remote_window c; local_max_packet := local_max_packet c;
     remote_max_packet := remote_max_packet c; open := op;
     remote_eof_received := eof;
     remote_close_received := close_received; local_close_sent := close_sent;
     exit_status_received := exit_status_received c; exit_status := exit_status c |}.

Definition set_exit_status (status : Z) (c : Channel) : Channel :=
  {| local_id := local_id c; remote_id := remote_id c; local_window := local_window c;
     remote_window := remote_window c; local_max_packet := local_max_packet c;
     remote_max_packet := remote_max_packet c; open := open c;
     remote_eof_received := remote_eof_received c;
     remote_close_received := remote_close_received c; local_close_sent := local_close_sent c;
     exit_status_received := true; exit_status := status |}.

Definition set_open (b : bool) (c : Channel) : Channel :=
  set_flags b (remote_eof_received c) (remote_close_received c) (local_close_sent c) c.
Definition set_remote_eof (c : Channel) : Channel :=
  set_flags (open c) true (remote_close_received c) (local_close_sent c) c.
Definition set_remote_close (c : Channel) : Channel :=
  set_flags (open c) (remote_eof_received c) true (local_close_sent c) c.
Definition set_local_close_sent (c : Channel) : Channel :=
  set_flags (open c) (remote_eof_received c) (remote_close_received c) true c.

(** The fields declared [uint32_t] hold 32-bit values. *)
Definition wf_channel (c : Channel) : Prop :=
  0 <= local_id c < 2 ^ 32 /\ 0 <= remote_id c < 2 ^ 32 /\
  0 <= local_window c < 2 ^ 32 /\ 0 <= remote_window c < 2 ^ 32 /\
  0 <= local_max_packet c < 2 ^ 32 /\ 0 <= remote_max_packet c < 2 ^ 32 /\
  0 <= exit_status c < 2 ^ 32.

Definition MIN_MAX_PACKET_SIZE : Z := 32768.

(** ** Opening the channel *)

Definition create_session_open (channel : Channel) : res bytes :=
  if open channel then mthrow "Channel already opened"%string else
  if local_window channel =? 0 then mthrow "No channel data could be received"%string else
  if local_max_packet channel <? MIN_MAX_PACKET_SIZE
  then mthrow "No channel-data packet could be accepted"%string else
  let payload := [byte_of ssh_message.CHANNEL_OPEN] in
  payload ← append_string payload (str "session");
  let payload := payload ++ encode_uint32 (local_id channel) in
  let payload := payload ++ encode_uint32 (local_window channel) in
  let payload := payload ++ encode_uint32 (local_max_packet channel) in
  mret payload.

Definition parse_open_confirmation (payload : bytes) (channel : Channel) : res Channel :=
  if open channel then mthrow "Channel already open"%string else
  bad ← not_message payload ssh_message.CHANNEL_OPEN_CONFIRMATION;
  if bad : bool then mthrow "Expected SSH_MSG_CHANNEL_OPEN_CONFIRMATION"%string else
  let position := 1 in
  '(recipient_channel, position) ← read_uint32 payload position;
  '(sender_channel, position) ← read_uint32 payload position;
  '(remote_window, position) ← read_uint32 payload position;
  '(remote_max_packet, position) ← read_uint32 payload position;
  if negb (local_id channel =? recipient_channel)
  then mthrow "Not the correct recipient channel"%string else
  if remote_max_packet <? MIN_MAX_PACKET_SIZE
  then mthrow "No channel-data packet can be sent"%string else
  if negb (position =? size payload)
  then mthrow "Payload contains more bytes than expected"%string else
  let channel := set_remote sender_channel remote_window remote_max_packet channel in
  mret (set_open true channel).

Definition parse_open_failure (payload : bytes) (channel : Channel) : res ChannelOpenFailure :=
  if open channel then mthrow "Open failure received for an already-open channel"%string else
  bad ← not_message payload ssh_message.CHANNEL_OPEN_FAILURE;
  if bad : bool then mthrow "Expected SSH_MSG_CHANNEL_OPEN_FAILURE"%string else
  let position := 1 in
  '(recipient_channel, position) ← read_uint32 payload position;
  '(reason_code, position) ← read_uint32 payload position;
  '(description, position) ← read_string payload position;
  '(language, position) ← read_string payload position;
  if negb (position =? size payload)
  then mthrow "Payload contains more bytes than expected"%string else
  if negb (recipient_channel =? local_id channel)
  then mthrow "Not the correct recipient channel"%string else
  mret {| reason_code := reason_code; description := description; language := language |}.

(** ** Global requests *)

Definition parse_global_request (payload : bytes) : res GlobalRequest :=
  bad ← not_message payload ssh_message.GLOBAL_REQUEST;
  if bad : bool then mthrow "Expected SSH_MSG_GLOBAL_REQUEST"%string else
  let position := 1 in
  '(request_name, position) ← read_string payload position;
  if size_sub (size payload) position <? 1 then mthrow "want_reply value expected"%string else
  b ← index payload position;
  let want_reply := negb (b =? 0) in
  let position := u64 (position + 1) in
  request_data ← range payload position (size payload);
  mret {| request_name := request_name; want_reply := want_reply; request_data := request_data |}.

Definition create_request_failure : bytes := [byte_of ssh_message.REQUEST_FAILURE].

(** ** Channel requests and their answers *)

Definition create_exec_request (channel : Channel) (command : bytes) : res bytes :=
  if negb (open channel) then mthrow "Channel must be open"%string else
  if size command =? 0 then mthrow "Command must not be empty"%string else
  let payload := [byte_of ssh_message.CHANNEL_REQUEST] in
  let payload := payload ++ encode_uint32 (remote_id channel) in
  payload ← append_string payload (str "exec");
  let payload := payload ++ [byte_of 1] in
  append_string payload command.

Definition validate_channel_success (payload : bytes) (channel : Channel) : res unit :=
  bad ← not_message payload ssh_message.CHANNEL_SUCCESS;
  if bad : bool then mthrow "Expected SSH_MSG_CHANNEL_SUCCESS"%string else
  let position := 1 in
  '(recipient_channel, position) ← read_uint32 payload position;
  if negb (recipient_channel =? local_id channel) then mthrow "Channel ids did not match"%string else
  if negb (position =? size payload)
  then mthrow "Payload contains more bytes than expected"%string else
  mret tt.

Definition validate_channel_failure (payload : bytes) (channel : Channel) : res unit :=
  bad ← not_message payload ssh_message.CHANNEL_FAILURE;
  if bad : bool then mthrow "Expected SSH_MSG_CHANNEL_FAILURE"%string else
  let position := 1 in
  '(recipient_channel, position) ← read_uint32 payload position;
  if negb (recipient_channel =? local_id channel) then mthrow "Channel ids did not match"%string else
  if negb (position =? size payload)
  then mthrow "Payload contains more bytes than expected"%string else
  mret tt.

Definition create_pty_request (channel : Channel) (terminal_type : bytes) (columns rows : Z) : res bytes :=
  if negb (open channel) then mthrow "Channel already closed"%string else
  if size terminal_type =? 0 then mthrow "Must provide a non-empty terminal_type"%string else
  if (columns =? 0) || (rows =? 0) then mthrow "Columns and rows must be non-zero values"%string else
  let payload := [byte_of ssh_message.CHANNEL_REQUEST] in
  let payload := payload ++ encode_uint32 (remote_id channel) in
  payload ← append_string payload (str "pty-req");
  let payload := payload ++ [byte_of 1] in
  payload ← append_string payload terminal_type;
  let payload := payload ++ encode_uint32 columns in
  let payload := payload ++ encode_uint32 rows in
  let payload := payload ++ encode_uint32 0 in
  let payload := payload ++ encode_uint32 0 in
  append_string payload [byte_of 0].

Definition create_shell_request (channel : Channel) : res bytes :=
  if negb (open channel) then mthrow "Channel is already closed"%string else
  let payload := [byte_of ssh_message.CHANNEL_REQUEST] in
  let payload := payload ++ encode_uint32 (remote_id channel) in
  payload ← append_string payload (str "shell");
  mret (payload ++ [byte_of 1]).

Definition parse_exit_status (payload : bytes) (channel : Channel) : res (ChannelExitStatus * Channel) :=
  if negb (open channel) then mthrow "Exit status received for a closed channel"%string else
  if exit_status_received channel then mthrow "Exit status already received"%string else
  bad ← not_message payload ssh_message.CHANNEL_REQUEST;
  if bad : bool then mthrow "Expected SSH_MSG_CHANNEL_REQUEST"%string else
  let position := 1 in
  '(recipient_channel, position) ← read_uint32 payload position;
  if negb (recipient_channel =? local_id channel) then mthrow "Channel ids did not match"%string else
  '(request_name, position) ← read_string payload position;
  if negb (beq request_name (str "exit-status")) then mthrow "Expected exit-status request"%string else
  if size_sub (size payload) position <? 1 then mthrow "want_reply value expected"%string else
  b ← index payload position;
  let want_reply := negb (b =? 0) in
  let position := u64 (position + 1) in
  '(exit_status, position) ← read_uint32 payload position;
  if negb (position =? size payload)
  then mthrow "Payload contains more bytes than expected"%string else
  mret ({| ces_exit_status := exit_status; ces_want_reply := want_reply |},
        set_exit_status exit_status channel).

(** ** Flow control *)

Definition parse_window_adjust (payload : bytes) (channel : Channel) : res Channel :=
  if negb (open channel) then mthrow "Window adjustment received for a closed channel"%string else
  bad ← not_message payload ssh_message.CHANNEL_WINDOW_ADJUST;
  if bad : bool then mthrow "Expected SSH_MSG_CHANNEL_WINDOW_ADJUST"%string else
  let position := 1 in
  '(recipient_channel, position) ← read_uint32 payload position;
  '(bytes_to_add, position) ← read_uint32 payload position;
  if negb (recipient_channel =? local_id channel) then mthrow "Channel ids did not match"%string else
  if negb (position =? size payload)
  then mthrow "Payload contains more bytes than expected"%string else
  if bytes_to_add =? 0 then mthrow "Channel window adjustment must be greater than zero"%string else
  if remote_window channel >? u32 (uint32_max - bytes_to_add)
  then mthrow "Remote channel window overflow"%string else
  mret (set_windows (local_window channel) (u32 (remote_window channel + bytes_to_add)) channel).

Definition create_window_adjust (channel : Channel) (bytes_to_add : Z) : res bytes :=
  if negb (open channel) then mthrow "Channel already closed"%string else
  if bytes_to_add =? 0 then mthrow "Must add a positive number of bytes"%string else
  let payload := [byte_of ssh_message.CHANNEL_WINDOW_ADJUST] in
  let payload := payload ++ encode_uint32 (remote_id channel) in
  if local_window channel >? u32 (uint32_max - bytes_to_add)
  then mthrow "Local channel window overflow"%string else
  mret (payload ++ encode_uint32 bytes_to_add).

(** ** Data *)

Definition parse_channel_data (payload : bytes) (channel : Channel) : res (bytes * Channel) :=
  if negb (open channel) then mthrow "Channel data received for a closed channel"%string else
  bad ← not_message payload ssh_message.CHANNEL_DATA;
  if bad : bool then mthrow "Expected SSH_MSG_CHANNEL_DATA"%string else
  let position := 1 in
  '(recipient_channel, position) ← read_uint32 payload position;
  if negb (recipient_channel =? local_id channel) then mthrow "Channel ids did not match"%string else
  '(data_bytes, position) ← read_string payload position;
  if negb (position =? size payload)
  then mthrow "Payload contains more bytes than expected"%string else
  if size data_bytes >? local_max_packet channel
  then mthrow "Channel data exceeds local maximum packet size"%string else
  if size data_bytes >? local_window channel
  then mthrow "Data received exceeds maximum allowed size"%string else
  mret (data_bytes,
        set_windows (u32 (local_window channel - size data_bytes)) (remote_window channel) channel).

Definition parse_channel_extended_data (payload : bytes) (channel : Channel)
    : res (ChannelExtendedData * Channel) :=
  if negb (open channel) then mthrow "Extended data received for a closed channel"%string else
  bad ← not_message payload ssh_message.CHANNEL_EXTENDED_DATA;
  if bad : bool then mthrow "Expected SSH_MSG_EXTENDED_DATA"%string else
  let position := 1 in
  '(recipient_channel, position) ← read_uint32 payload position;
  if negb (recipient_channel =? local_id channel) then mthrow "Channel ids did not match"%string else
  '(data_type_code, position) ← read_uint32 payload position;
  if negb (data_type_code =? 1) then mthrow "Unexpected data type code received"%string else
  '(data, position) ← read_string payload position;
  if negb (position =? size payload)
  then mthrow "Payload contains more bytes than expected"%string else
  if size data >? local_max_packet channel
  then mthrow "Channel data exceeds local maximum packet size"%string else
  if size data >? local_window channel
  then mthrow "Data received exceeds maximum allowed size"%string else
  let channel := set_windows (u32 (local_window channel - size data)) (remote_window channel) channel in
  mret ({| data_type := data_type_code; data := data |}, channel).

Definition create_channel_data (channel : Channel) (data : bytes) : res bytes :=
  if negb (open channel) then mthrow "Channel is already closed"%string else
  if local_close_sent channel then mthrow "Request to close channel sent"%string else
  if size data =? 0 then mthrow "No data to be sent"%string else
  if size data >? remote_window channel
  then mthrow "Remote channel doesn't have enough capacity"%string else
  if size data >? remote_max_packet channel then mthrow "Packet is too large to be sent"%string else
  let payload := [byte_of ssh_message.CHANNEL_DATA] in
  let payload := payload ++ encode_uint32 (remote_id channel) in
  append_string payload data.

(** ** End of file and closure *)

Definition parse_channel_eof (payload : bytes) (channel : Channel) : res Channel :=
  if negb (open channel) then mthrow "Channel data received for a closed channel"%string else
  if remote_eof_received channel then mthrow "EOF already received"%string else
  bad ← not_message payload ssh_message.CHANNEL_EOF;
  if bad : bool then mthrow "Expected SSH_MSG_CHANNEL_EOF"%string else
  let position := 1 in
  '(recipient_channel, position) ← read_uint32 payload position;
  if negb (recipient_channel =? local_id channel) then mthrow "Channel ids did not match"%string else
  if negb (position =? size payload) then mthrow "No more bytes were expected"%string else
  mret (set_remote_eof channel).

Definition parse_channel_close (payload : bytes) (channel : Channel) : res Channel :=
  if negb (open channel) then mthrow "Close request received for a closed channel"%string else
  if remote_close_received channel then mthrow "Channel close already received"%string else
  bad ← not_message payload ssh_message.CHANNEL_CLOSE;
  if bad : bool then mthrow "Expected SSH_MSG_CHANNEL_CLOSE"%string else
  let position := 1 in
  '(recipient_channel, position) ← read_uint32 payload position;
  if negb (recipient_channel =? local_id channel) then mthrow "Channel ids did not match"%string else
  if negb (position =? size payload)
  then mthrow "Payload contains more bytes than expected"%string else
  mret (set_remote_close channel).

Definition create_channel_close (channel : Channel) : res bytes :=
  if negb (open channel) then mthrow "Channel already closed"%string else
  if local_close_sent channel then mthrow "SSH_MSG_CHANNEL_CLOSE already been sent"%string else
  let payload := [byte_of ssh_message.CHANNEL_CLOSE] in
  mret (payload ++ encode_uint32 (remote_id channel)).

(** ** The messages the server may send, and what accepting them means *)

(** The messages a channel accepts from the server, with the condition on the
    channel and the channel afterwards. *)
Definition open_confirmation_spec (payload : bytes) (c c' : Channel) : Prop :=
  exists sender window max_packet,
    0 <= sender < 2 ^ 32 /\ 0 <= window < 2 ^ 32 /\ MIN_MAX_PACKET_SIZE <= max_packet < 2 ^ 32 /\
    open c = false /\
    payload = wire [FByte ssh_message.CHANNEL_OPEN_CONFIRMATION; FUint32 (local_id c);
                    FUint32 sender; FUint32 window; FUint32 max_packet] /\
    c' = set_open true (set_remote sender window max_packet c).

Definition window_adjust_spec (payload : bytes) (c c' : Channel) : Prop :=
  exists n, 0 < n < 2 ^ 32 /\ open c = true /\ remote_window c + n < 2 ^ 32 /\
    payload = wire [FByte ssh_message.CHANNEL_WINDOW_ADJUST; FUint32 (local_id c); FUint32 n] /\
    c' = set_windows (local_window c) (remote_window c + n) c.

(** Receiving [d] on the channel, by either kind of data message. *)
Definition data_accepted (c : Channel) (d : bytes) (c' : Channel) : Prop :=
  open c = true /\ size d <= local_max_packet c /\ size d <= local_window c /\
  c' = set_windows (local_window c - size d) (remote_window c) c.

Definition exit_status_spec (payload : bytes) (c : Channel) (r : ChannelExitStatus) (c' : Channel) : Prop :=
  open c = true /\ exit_status_received c = false /\ 0 <= ces_exit_status r < 2 ^ 32 /\
  (exists b, ces_want_reply r = negb (u8 b =? 0) /\
    payload = wire [FByte ssh_message.CHANNEL_REQUEST; FUint32 (local_id c);
                    FString (str "exit-status"); FRaw [b]; FUint32 (ces_exit_status r)]) /\
  c' = set_exit_status (ces_exit_status r) c.

(** The steps a message from the server can make the channel take: one per
    operation that assigns to the channel. *)
Inductive channel_step (payload : bytes) (c : Channel) : Channel -> Prop :=
  | step_open c' : parse_open_confirmation payload c = Ok c' -> channel_step payload c c'
  | step_window c' : parse_window_adjust payload c = Ok c' -> channel_step payload c c'
  | step_data d c' : parse_channel_data payload c = Ok (d, c') -> channel_step payload c c'
  | step_extended x c' : parse_channel_extended_data payload c = Ok (x, c') -> channel_step payload c c'
  | step_eof c' : parse_channel_eof payload c = Ok c' -> channel_step payload c c'
  | step_exit r c' : parse_exit_status payload c = Ok (r, c') -> channel_step payload c c'
  | step_close c' : parse_channel_close payload c = Ok c' -> channel_step payload c c'.

(** The two ends of one channel: what is local for one end is remote for the
    other. *)
Definition mirrored (client server : Channel) : Prop :=
  local_id server = remote_id client /\ remote_id server = local_id client /\
  local_window server = remote_window client /\ remote_window server = local_window client /\
  local_max_packet server = remote_max_packet client /\
  remote_max_packet server = local_max_packet client /\
  open server = open client.

(** ** Facts *)

(** Finish the proof that a parser accepts only what its specification says. *)
Ltac safe_done :=
  cbn; tests; subst; repeat split; try done; try lia; try wire_eq.

Section parsers.
Context (payload : bytes) (Ha : addressable payload).
Implicit Types c : Channel.

Lemma parse_open_confirmation_safe c :
  safe (parse_open_confirmation payload c) (open_confirmation_spec payload c).
Proof.
  unfold parse_open_confirmation. repeat safe_step. cbn. tests.
  exists v0, v1, v2. subst. safe_done.
Qed.

Lemma parse_open_failure_safe c :
  safe (parse_open_failure payload c) (fun f =>
    open c = false /\
    payload = wire [FByte ssh_message.CHANNEL_OPEN_FAILURE; FUint32 (local_id c);
                    FUint32 (reason_code f); FString (description f); FString (language f)]).
Proof. unfold parse_open_failure. repeat safe_step. safe_done. Qed.

Lemma parse_global_request_safe :
  safe (parse_global_request payload) (fun g =>
    size (request_name g) < 2 ^ 32 /\ exists b,
    payload = wire [FByte ssh_message.GLOBAL_REQUEST; FString (request_name g);
                    FRaw [b]; FRaw (request_data g)] /\ want_reply g = negb (u8 b =? 0)).
Proof.
  unfold parse_global_request. repeat safe_step.
  pose proof (at_position_bounds _ _ _ H1) as Hb. rewrite (proj1 (proj2 Hb)).
  rewrite <- (app_nil_r x0) in H1. rewrite (at_position_range _ _ _ _ H1). cbn.
  split; [done|]. exists x. split; [|done]. subst. wire_eq.
Qed.

Lemma validate_channel_success_safe c :
  safe (validate_channel_success payload c) (fun _ =>
    payload = wire [FByte ssh_message.CHANNEL_SUCCESS; FUint32 (local_id c)]).
Proof. unfold validate_channel_success. repeat safe_step. safe_done. Qed.

Lemma validate_channel_failure_safe c :
  safe (validate_channel_failure payload c) (fun _ =>
    payload = wire [FByte ssh_message.CHANNEL_FAILURE; FUint32 (local_id c)]).
Proof. unfold validate_channel_failure. repeat safe_step. safe_done. Qed.

Lemma parse_exit_status_safe c :
  safe (parse_exit_status payload c) (fun '(r, c') => exit_status_spec payload c r c').
Proof.
  unfold parse_exit_status. repeat safe_step. unfold exit_status_spec. cbn. tests. subst.
  split_and!; try done; try lia. exists x. split; [done|]. wire_eq.
Qed.

Lemma parse_window_adjust_safe c :
  wf_channel c -> safe (parse_window_adjust payload c) (window_adjust_spec payload c).
Proof.
  intros (_ & _ & _ & Hw & _). unfold parse_window_adjust, uint32_max. repeat safe_step. cbn. tests.
  exists v0. rewrite u32_small in Heqb2 by lia. rewrite u32_small by lia. safe_done.
Qed.

Lemma parse_channel_data_safe c :
  wf_channel c ->
  safe (parse_channel_data payload c) (fun '(d, c') =>
    data_accepted c d c' /\
    payload = wire [FByte ssh_message.CHANNEL_DATA; FUint32 (local_id c); FString d]).
Proof.
  intros (_ & _ & Hw & _). unfold parse_channel_data, data_accepted. repeat safe_step. cbn. tests.
  pose proof (size_nonneg s). rewrite u32_small by lia. safe_done.
Qed.

Lemma parse_channel_extended_data_safe c :
  wf_channel c ->
  safe (parse_channel_extended_data payload c) (fun '(x, c') =>
    data_type x = 1 /\ data_accepted c (data x) c' /\
    payload = wire [FByte ssh_message.CHANNEL_EXTENDED_DATA; FUint32 (local_id c);
                    FUint32 1; FString (data x)]).
Proof.
  intros (_ & _ & Hw & _). unfold parse_channel_extended_data, data_accepted. repeat safe_step. cbn. tests.
  pose proof (size_nonneg s). rewrite u32_small by lia. safe_done.
Qed.

Lemma parse_channel_eof_safe c :
  safe (parse_channel_eof payload c) (fun c' =>
    open c = true /\ remote_eof_received c = false /\
    payload = wire [FByte ssh_message.CHANNEL_EOF; FUint32 (local_id c)] /\ c' = set_remote_eof c).
Proof. unfold parse_channel_eof. repeat safe_step. safe_done. Qed.

Lemma parse_channel_close_safe c :
  safe (parse_channel_close payload c) (fun c' =>
    open c = true /\ remote_close_received c = false /\
    payload = wire [FByte ssh_message.CHANNEL_CLOSE; FUint32 (local_id c)] /\ c' = set_remote_close c).
Proof. unfold parse_channel_close. repeat safe_step. safe_done. Qed.

End parsers.

(** Conversely each parser accepts the messages its specification describes.
    [guards] discharges the tests of the code whose outcome is known. *)
Ltac guards :=
  repeat first
    [ rewrite Z.eqb_refl | rewrite beq_refl
    | match goal with H : ?x = _ |- context [if ?x then _ else _] => rewrite H end
    | match goal with H : ?x = _ |- context [if negb ?x then _ else _] => rewrite H end
    | match goal with |- context [?a <? ?b] => rewrite (proj2 (Z.ltb_ge a b)) by lia end
    | match goal with |- context [?a >? ?b] =>
        rewrite (Z.gtb_ltb a b), (proj2 (Z.ltb_ge b a)) by lia end
    | match goal with |- context [?a =? 0] => rewrite (proj2 (Z.eqb_neq a 0)) by lia end
    | progress cbn [negb] ].

Ltac run_parser Ha := run_start Ha; repeat first [progress guards | run_step].

Section accepts.
Implicit Types c : Channel.

Lemma parse_open_confirmation_accepts payload c c' :
  addressable payload -> wf_channel c -> open_confirmation_spec payload c c' ->
  parse_open_confirmation payload c = Ok c'.
Proof.
  unfold open_confirmation_spec, parse_open_confirmation, MIN_MAX_PACKET_SIZE.
  intros Ha (Hl & _) (sender & window & m & Hs & Hw & Hm & Ho & -> & ->).
  by run_parser Ha.
Qed.

Lemma parse_window_adjust_accepts payload c c' :
  addressable payload -> wf_channel c -> window_adjust_spec payload c c' ->
  parse_window_adjust payload c = Ok c'.
Proof.
  intros Ha (Hl & _ & _ & Hr & _) (n & Hn & Ho & Hsum & -> & ->).
  unfold parse_window_adjust, uint32_max.
  run_parser Ha. rewrite !u32_small by lia. by guards.
Qed.

Lemma parse_channel_data_accepts c c' d :
  let payload := wire [FByte ssh_message.CHANNEL_DATA; FUint32 (local_id c); FString d] in
  addressable payload -> wf_channel c -> data_accepted c d c' ->
  parse_channel_data payload c = Ok (d, c').
Proof.
  intros payload Ha (Hl & _ & Hw & _) (Ho & Hm & Hd & ->). subst payload. pose proof (size_nonneg d).
  unfold parse_channel_data. run_parser Ha. by rewrite u32_small by lia.
Qed.

Lemma parse_channel_extended_data_accepts c c' d :
  let payload := wire [FByte ssh_message.CHANNEL_EXTENDED_DATA; FUint32 (local_id c); FUint32 1; FString d] in
  addressable payload -> wf_channel c -> data_accepted c d c' ->
  parse_channel_extended_data payload c = Ok ({| data_type := 1; data := d |}, c').
Proof.
  intros payload Ha (Hl & _ & Hw & _) (Ho & Hm & Hd & ->). subst payload. pose proof (size_nonneg d).
  unfold parse_channel_extended_data. run_parser Ha. by rewrite u32_small by lia.
Qed.

Lemma parse_exit_status_accepts payload c r c' :
  addressable payload -> wf_channel c -> exit_status_spec payload c r c' ->
  parse_exit_status payload c = Ok (r, c').
Proof.
  intros Ha (Hl & _) (Ho & He & Hr & (b & Hb & ->) & ->). destruct r as [status want]. cbn in *.
  assert (size (str "exit-status") = 11) by reflexivity.
  unfold parse_exit_status. run_parser Ha. by rewrite Hb.
Qed.

Lemma parse_channel_eof_accepts c :
  wf_channel c -> open c = true -> remote_eof_received c = false ->
  parse_channel_eof (wire [FByte ssh_message.CHANNEL_EOF; FUint32 (local_id c)]) c = Ok (set_remote_eof c).
Proof.
  intros (Hl & _) Ho He. assert (Ha : addressable (wire [FByte ssh_message.CHANNEL_EOF; FUint32 (local_id c)])) by reflexivity.
  unfold parse_channel_eof. by run_parser Ha.
Qed.

Lemma parse_channel_close_accepts c :
  wf_channel c -> open c = true -> remote_close_received c = false ->
  parse_channel_close (wire [FByte ssh_message.CHANNEL_CLOSE; FUint32 (local_id c)]) c = Ok (set_remote_close c).
Proof.
  intros (Hl & _) Ho He. assert (Ha : addressable (wire [FByte ssh_message.CHANNEL_CLOSE; FUint32 (local_id c)])) by reflexivity.
  unfold parse_channel_close. by run_parser Ha.
Qed.

Lemma validate_channel_success_accepts c :
  wf_channel c ->
  validate_channel_success (wire [FByte ssh_message.CHANNEL_SUCCESS; FUint32 (local_id c)]) c = Ok tt.
Proof.
  intros (Hl & _). assert (Ha : addressable (wire [FByte ssh_message.CHANNEL_SUCCESS; FUint32 (local_id c)])) by reflexivity.
  unfold validate_channel_success. by run_parser Ha.
Qed.

Lemma validate_channel_failure_accepts c :
  wf_channel c ->
  validate_channel_failure (wire [FByte ssh_message.CHANNEL_FAILURE; FUint32 (local_id c)]) c = Ok tt.
Proof.
  intros (Hl & _). assert (Ha : addressable (wire [FByte ssh_message.CHANNEL_FAILURE; FUint32 (local_id c)])) by reflexivity.
  unfold validate_channel_failure. by run_parser Ha.
Qed.

Lemma parse_global_request_accepts name b more :
  let payload := wire [FByte ssh_message.GLOBAL_REQUEST; FString name; FRaw [b]; FRaw more] in
  addressable payload -> size name < 2 ^ 32 ->
  parse_global_request payload = Ok {| request_name := name; want_reply := negb (u8 b =? 0); request_data := more |}.
Proof.
  intros payload Ha Hn. subst payload. unfold parse_global_request. run_parser Ha.
  pose proof (at_position_bounds _ _ _ H) as (_ & -> & _). rewrite app_nil_r at 1. by rewrite (at_position_range _ _ _ _ H).
Qed.

End accepts.

Lemma set_windows_wf c l r :
  wf_channel c -> 0 <= l < 2 ^ 32 -> 0 <= r < 2 ^ 32 -> wf_channel (set_windows l r c).
Proof. unfold wf_channel. cbn. tauto. Qed.

Lemma data_accepted_wf c d c' : wf_channel c -> data_accepted c d c' -> wf_channel c'.
Proof.
  intros Hwf (_ & _ & Hd & ->). pose proof (size_nonneg d).
  apply set_windows_wf; [done|..]; unfold wf_channel in Hwf; lia.
Qed.

#[global] Hint Resolve set_windows_wf data_accepted_wf : channel.

(** ** Properties *)

(** C28: a data message and an extended-data message are accepted exactly when the
    channel is open, the message is addressed to this channel and has the
    layout of RFC 4254 (stderr being the only extended type), and the data fits
    both the maximum packet size and the window the client advertised; the data
    comes back unchanged and the window shrinks by exactly its size. *)
Theorem channel_data_iff payload c :
  addressable payload -> wf_channel c ->
  (forall d c', parse_channel_data payload c = Ok (d, c') <->
    data_accepted c d c' /\
    payload = wire [FByte ssh_message.CHANNEL_DATA; FUint32 (local_id c); FString d]) /\
  (forall x c', parse_channel_extended_data payload c = Ok (x, c') <->
    data_type x = 1 /\ data_accepted c (data x) c' /\
    payload = wire [FByte ssh_message.CHANNEL_EXTENDED_DATA; FUint32 (local_id c);
                    FUint32 1; FString (data x)]).
Proof.
  intros Ha Hwf. split.
  - intros d c'. split; [exact (safe_Ok _ _ _ (parse_channel_data_safe _ Ha _ Hwf))|].
    intros [Hd ->]. by apply parse_channel_data_accepts.
  - intros x c'. split; [exact (safe_Ok _ _ _ (parse_channel_extended_data_safe _ Ha _ Hwf))|].
    destruct x as [t x]. cbn. intros (-> & Hd & ->). by apply parse_channel_extended_data_accepts.
Qed.

(** A channel as the client opens it, with the server's half filled in. *)
Definition sample_channel : Channel :=
  {| local_id := 0; remote_id := 7; local_window := 1048576; remote_window := 10;
     local_max_packet := 32768; remote_max_packet := 32768; open := true;
     remote_eof_received := false; remote_close_received := false; local_close_sent := false;
     exit_status_received := false; exit_status := 0 |}.

Lemma sample_channel_wf : wf_channel sample_channel.
Proof. unfold wf_channel. cbn. lia. Qed.

Lemma channel_data_iff_witness :
  parse_channel_data (wire [FByte 94; FUint32 0; FString (str "ok")]) sample_channel =
    Ok (str "ok", set_windows 1048574 10 sample_channel).
Proof.
  apply (channel_data_iff (wire [FByte 94; FUint32 0; FString (str "ok")]) sample_channel);
    [reflexivity|apply sample_channel_wf|]. split; [|reflexivity].
  unfold data_accepted. split_and!; [reflexivity|vm_compute; congruence..|reflexivity].
Defined.

(** C29: a window adjustment is accepted exactly when the channel is open, the
    message is addressed to it, the increment is positive and the window stays
    below 2^32; the remote window then grows by exactly the increment, so the
    32-bit addition never wraps. *)
Theorem window_adjust_iff payload c c' :
  addressable payload -> wf_channel c ->
  parse_window_adjust payload c = Ok c' <-> window_adjust_spec payload c c'.
Proof.
  intros Ha Hwf. split; [exact (safe_Ok _ _ _ (parse_window_adjust_safe _ Ha _ Hwf))|].
  by apply parse_window_adjust_accepts.
Qed.

Lemma window_adjust_iff_witness :
  parse_window_adjust (wire [FByte 93; FUint32 0; FUint32 4294967285]) sample_channel =
    Ok (set_windows 1048576 4294967295 sample_channel).
Proof.
  apply (window_adjust_iff (wire [FByte 93; FUint32 0; FUint32 4294967285]) sample_channel);
    [reflexivity|apply sample_channel_wf|].
  exists 4294967285. split_and!; reflexivity || done.
Defined.

(** The channel opens exactly on a confirmation addressed to the client's
    channel number that offers packets of at least 32768 bytes; the server's
    number, window and packet size are recorded and nothing else changes. A
    rejection is understood only while the channel is not open, in the layout
    of RFC 4254. *)
Theorem open_replies_iff payload c :
  addressable payload -> wf_channel c ->
  (forall c', parse_open_confirmation payload c = Ok c' <-> open_confirmation_spec payload c c') /\
  (forall f, parse_open_failure payload c = Ok f ->
    open c = false /\
    payload = wire [FByte ssh_message.CHANNEL_OPEN_FAILURE; FUint32 (local_id c);
                    FUint32 (reason_code f); FString (description f); FString (language f)]).
Proof.
  intros Ha Hwf. split.
  - intros c'. split; [exact (safe_Ok _ _ _ (parse_open_confirmation_safe _ Ha _))|].
    by apply parse_open_confirmation_accepts.
  - intros f. exact (safe_Ok _ _ _ (parse_open_failure_safe _ Ha _)).
Qed.

Lemma open_replies_iff_witness :
  parse_open_confirmation (wire [FByte 91; FUint32 0; FUint32 7; FUint32 10; FUint32 32768])
    (set_open false sample_channel) = Ok sample_channel.
Proof.
  apply (open_replies_iff (wire [FByte 91; FUint32 0; FUint32 7; FUint32 10; FUint32 32768])
    (set_open false sample_channel)); [reflexivity|apply sample_channel_wf|].
  exists 7, 10, 32768. split_and!; reflexivity || done.
Defined.

(** End-of-file, exit-status and close messages are accepted exactly once,
    only on the open channel, only when addressed to it and only in their
    layout; each sets its own flag (and the exit status its value). *)
Theorem control_messages_iff payload c :
  addressable payload -> wf_channel c ->
  (forall c', parse_channel_eof payload c = Ok c' <->
    open c = true /\ remote_eof_received c = false /\
    payload = wire [FByte ssh_message.CHANNEL_EOF; FUint32 (local_id c)] /\ c' = set_remote_eof c) /\
  (forall c', parse_channel_close payload c = Ok c' <->
    open c = true /\ remote_close_received c = false /\
    payload = wire [FByte ssh_message.CHANNEL_CLOSE; FUint32 (local_id c)] /\ c' = set_remote_close c) /\
  (forall r c', parse_exit_status payload c = Ok (r, c') <-> exit_status_spec payload c r c').
Proof.
  intros Ha Hwf. split_and!.
  - intros c'. split; [exact (safe_Ok _ _ _ (parse_channel_eof_safe _ Ha _))|].
    intros (Ho & He & -> & ->). by apply parse_channel_eof_accepts.
  - intros c'. split; [exact (safe_Ok _ _ _ (parse_channel_close_safe _ Ha _))|].
    intros (Ho & He & -> & ->). by apply parse_channel_close_accepts.
  - intros r c'. split; [exact (safe_Ok _ _ _ (parse_exit_status_safe _ Ha _))|].
    by apply parse_exit_status_accepts.
Qed.

Lemma control_messages_iff_witness :
  parse_channel_close (wire [FByte 97; FUint32 0]) sample_channel = Ok (set_remote_close sample_channel).
Proof.
  apply (control_messages_iff (wire [FByte 97; FUint32 0]) sample_channel);
    [reflexivity|apply sample_channel_wf|]. split_and!; reflexivity.
Defined.

(** C30: whatever the server sends, an operation that changes the channel keeps
    every [uint32_t] field in range, never touches the client's channel number,
    its packet size or its own close flag, never lets a window go below zero or
    the local window grow, and never clears a flag that is set. *)
Theorem channel_step_invariant payload c c' :
  addressable payload -> wf_channel c -> channel_step payload c c' ->
  wf_channel c' /\
  local_id c' = local_id c /\ local_max_packet c' = local_max_packet c /\
  local_close_sent c' = local_close_sent c /\
  0 <= local_window c' <= local_window c /\
  (open c = true -> remote_window c <= remote_window c') /\
  (open c = true -> open c' = true) /\
  (remote_eof_received c = true -> remote_eof_received c' = true) /\
  (remote_close_received c = true -> remote_close_received c' = true) /\
  (exit_status_received c = true -> exit_status_received c' = true /\ exit_status c' = exit_status c).
Proof.
  intros Ha Hwf Hstep. destruct Hstep as [c' H|c' H|d c' H|x c' H|c' H|r c' H|c' H].
  - apply (safe_Ok _ _ _ (parse_open_confirmation_safe _ Ha _)) in H
      as (sender & window & m & ? & ? & ? & Ho & _ & ->).
    unfold wf_channel, MIN_MAX_PACKET_SIZE in *. cbn. rewrite Ho. repeat split; lia || done || tauto.
  - apply (safe_Ok _ _ _ (parse_window_adjust_safe _ Ha _ Hwf)) in H as (n & ? & ? & ? & _ & ->).
    unfold wf_channel in *. cbn. repeat split; lia || done || tauto.
  - apply (safe_Ok _ _ _ (parse_channel_data_safe _ Ha _ Hwf)) in H as [(? & ? & ? & ->) _].
    pose proof (size_nonneg d). unfold wf_channel in *. cbn. repeat split; lia || done || tauto.
  - apply (safe_Ok _ _ _ (parse_channel_extended_data_safe _ Ha _ Hwf)) in H as (_ & (? & ? & ? & ->) & _).
    pose proof (size_nonneg (data x)). unfold wf_channel in *. cbn. repeat split; lia || done || tauto.
  - apply (safe_Ok _ _ _ (parse_channel_eof_safe _ Ha _)) in H as (? & ? & _ & ->).
    unfold wf_channel in *. cbn. repeat split; lia || done || tauto.
  - apply (safe_Ok _ _ _ (parse_exit_status_safe _ Ha _)) in H as (? & He & ? & _ & ->).
    unfold wf_channel in *. cbn. repeat split; lia || done || congruence.
  - apply (safe_Ok _ _ _ (parse_channel_close_safe _ Ha _)) in H as (? & ? & _ & ->).
    unfold wf_channel in *. cbn. repeat split; lia || done || tauto.
Qed.

Lemma channel_step_invariant_witness :
  wf_channel (set_remote_close sample_channel).
Proof.
  apply (channel_step_invariant (wire [FByte 97; FUint32 0]) sample_channel);
    [reflexivity|apply sample_channel_wf|apply step_close; vm_compute; reflexivity].
Defined.

(** What the builders return on the open channel. *)
Lemma create_channel_data_eq c d :
  wf_channel c ->
  create_channel_data c d =
    if negb (open c) then Throw "Channel is already closed" else
    if local_close_sent c then Throw "Request to close channel sent" else
    if size d =? 0 then Throw "No data to be sent" else
    if size d >? remote_window c then Throw "Remote channel doesn't have enough capacity" else
    if size d >? remote_max_packet c then Throw "Packet is too large to be sent" else
    Ok (wire [FByte ssh_message.CHANNEL_DATA; FUint32 (remote_id c); FString d]).
Proof.
  intros (_ & _ & _ & Hw & _). unfold create_channel_data.
  repeat case_match; try done. tests.
  rewrite append_string_ok, encode_uint32_be32 by lia. f_equal; wire_eq.
Qed.

Lemma create_window_adjust_eq c n :
  wf_channel c -> open c = true -> 0 < n < 2 ^ 32 -> local_window c + n < 2 ^ 32 ->
  create_window_adjust c n =
    Ok (wire [FByte ssh_message.CHANNEL_WINDOW_ADJUST; FUint32 (remote_id c); FUint32 n]).
Proof.
  intros (_ & _ & Hl & _) Ho Hn Hs. unfold create_window_adjust, uint32_max. guards.
  rewrite u32_small, !encode_uint32_be32 by lia. guards. f_equal; wire_eq.
Qed.

Lemma create_session_open_eq c :
  open c = false -> local_window c <> 0 -> MIN_MAX_PACKET_SIZE <= local_max_packet c ->
  create_session_open c =
    Ok (wire [FByte ssh_message.CHANNEL_OPEN; FString (str "session"); FUint32 (local_id c);
              FUint32 (local_window c); FUint32 (local_max_packet c)]).
Proof.
  intros Ho Hw Hm. unfold create_session_open. guards.
  rewrite append_string_ok, !encode_uint32_be32 by done. f_equal; wire_eq.
Qed.

Lemma create_pty_request_eq c term columns rows :
  open c = true -> 0 < size term < 2 ^ 32 -> columns <> 0 -> rows <> 0 ->
  create_pty_request c term columns rows =
    Ok (wire [FByte ssh_message.CHANNEL_REQUEST; FUint32 (remote_id c); FString (str "pty-req");
              FByte 1; FString term; FUint32 columns; FUint32 rows; FUint32 0; FUint32 0;
              FString [byte_of 0]]).
Proof.
  intros Ho Ht Hc Hr. unfold create_pty_request. guards.
  rewrite append_string_ok, !encode_uint32_be32 by done. cbn [mbind res_bind orb].
  rewrite append_string_ok by lia. cbn [mbind res_bind].
  rewrite append_string_ok by done. f_equal; wire_eq.
Qed.

Lemma create_shell_request_eq c :
  open c = true ->
  create_shell_request c =
    Ok (wire [FByte ssh_message.CHANNEL_REQUEST; FUint32 (remote_id c); FString (str "shell"); FByte 1]).
Proof.
  intros Ho. unfold create_shell_request. guards.
  rewrite append_string_ok, !encode_uint32_be32 by done. f_equal; wire_eq.
Qed.

Lemma create_exec_request_eq c command :
  open c = true -> 0 < size command < 2 ^ 32 ->
  create_exec_request c command =
    Ok (wire [FByte ssh_message.CHANNEL_REQUEST; FUint32 (remote_id c); FString (str "exec");
              FByte 1; FString command]).
Proof.
  intros Ho Hc. unfold create_exec_request. guards.
  rewrite append_string_ok, !encode_uint32_be32 by done. cbn [mbind res_bind].
  rewrite append_string_ok by lia. f_equal; wire_eq.
Qed.

Lemma create_channel_close_eq c :
  open c = true -> local_close_sent c = false ->
  create_channel_close c = Ok (wire [FByte ssh_message.CHANNEL_CLOSE; FUint32 (remote_id c)]).
Proof.
  intros Ho Hc. unfold create_channel_close. guards. rewrite encode_uint32_be32. f_equal; wire_eq.
Qed.

(** The messages the client builds to open the session, to request a
    terminal, a shell or a command, and to close the channel have the layout of
    RFC 4254 (sections 5.1, 6.2, 6.5 and 5.3), address the channel by the
    server's number, and always ask for a reply to a request. *)
Theorem client_messages_wire c term command columns rows :
  (open c = false -> local_window c <> 0 -> MIN_MAX_PACKET_SIZE <= local_max_packet c ->
   create_session_open c =
     Ok (wire [FByte ssh_message.CHANNEL_OPEN; FString (str "session"); FUint32 (local_id c);
               FUint32 (local_window c); FUint32 (local_max_packet c)])) /\
  (open c = true -> 0 < size term < 2 ^ 32 -> columns <> 0 -> rows <> 0 ->
   create_pty_request c term columns rows =
     Ok (wire [FByte ssh_message.CHANNEL_REQUEST; FUint32 (remote_id c); FString (str "pty-req");
               FByte 1; FString term; FUint32 columns; FUint32 rows; FUint32 0; FUint32 0;
               FString [byte_of 0]])) /\
  (open c = true ->
   create_shell_request c =
     Ok (wire [FByte ssh_message.CHANNEL_REQUEST; FUint32 (remote_id c); FString (str "shell"); FByte 1])) /\
  (open c = true -> 0 < size command < 2 ^ 32 ->
   create_exec_request c command =
     Ok (wire [FByte ssh_message.CHANNEL_REQUEST; FUint32 (remote_id c); FString (str "exec");
               FByte 1; FString command])) /\
  (open c = true -> local_close_sent c = false ->
   create_channel_close c = Ok (wire [FByte ssh_message.CHANNEL_CLOSE; FUint32 (remote_id c)])).
Proof.
  split_and!; intros.
  - by apply create_session_open_eq.
  - by apply create_pty_request_eq.
  - by apply create_shell_request_eq.
  - by apply create_exec_request_eq.
  - by apply create_channel_close_eq.
Qed.

Lemma client_messages_wire_witness :
  create_pty_request sample_channel (str "xterm") 80 24 =
    Ok ([x62; x00; x00; x00; x07; x00; x00; x00; x07] ++ str "pty-req" ++
        [x01; x00; x00; x00; x05] ++ str "xterm" ++
        [x00; x00; x00; x50; x00; x00; x00; x18; x00; x00; x00; x00; x00; x00; x00; x00;
         x00; x00; x00; x01; x00]).
Proof.
  etransitivity; [apply (client_messages_wire sample_channel (str "xterm") [] 80 24)|];
    vm_compute; reflexivity || (split; congruence) || congruence.
Defined.

Lemma mirrored_send client server n :
  mirrored client server ->
  mirrored (set_windows (local_window client) (remote_window client - n) client)
           (set_windows (local_window server - n) (remote_window server) server).
Proof. unfold mirrored. cbn. intuition lia. Qed.

(** C31: the two directions of the connection layer agree.  When the two ends of a
    channel mirror each other, every data message the client can build is
    accepted by the peer's parser with the same bytes, and charging the client's
    remote window (as the shell loop does) keeps the ends mirrored; every window
    adjustment the client can build for room below 2^32 raises the peer's view of
    the window by the same amount. *)
Theorem channel_ends_agree client server :
  wf_channel client -> wf_channel server -> mirrored client server ->
  (forall d p, create_channel_data client d = Ok p -> addressable p ->
     exists server', parse_channel_data p server = Ok (d, server') /\
       mirrored (set_windows (local_window client) (remote_window client - size d) client) server') /\
  (forall n p, open client = true -> 0 < n < 2 ^ 32 -> local_window client + n < 2 ^ 32 ->
     create_window_adjust client n = Ok p ->
     exists server', parse_window_adjust p server = Ok server' /\
       mirrored (set_windows (local_window client + n) (remote_window client) client) server').
Proof.
  intros Hc Hs Hm. pose proof Hm as (Hid & Hid' & Hw & Hw' & Hmax & Hmax' & Ho). split.
  - intros d p Hd Ha. rewrite create_channel_data_eq in Hd by done.
    repeat case_match; try done. tests. apply Ok_inj in Hd as <-. rewrite <- Hid in *.
    eexists. split; [|by apply mirrored_send].
    apply parse_channel_data_accepts; [done..|].
    unfold data_accepted. rewrite Ho, Hmax, Hw. split_and!; done || lia.
  - intros n p Hop Hn Hsum Hp. rewrite create_window_adjust_eq in Hp by done.
    apply Ok_inj in Hp as <-. rewrite <- Hid.
    exists (set_windows (local_window server) (remote_window server + n) server). split.
    + apply parse_window_adjust_accepts; [reflexivity|done|].
      exists n. rewrite Ho, Hw'. split_and!; done || lia.
    + unfold mirrored in *. cbn. intuition lia.
Qed.

Definition sample_peer : Channel :=
  {| local_id := 7; remote_id := 0; local_window := 10; remote_window := 1048576;
     local_max_packet := 32768; remote_max_packet := 32768; open := true;
     remote_eof_received := false; remote_close_received := false; local_close_sent := false;
     exit_status_received := false; exit_status := 0 |}.

Lemma channel_ends_agree_witness :
  exists server',
    parse_channel_data (wire [FByte 94; FUint32 7; FString (str "ls")]) sample_peer = Ok (str "ls", server').
Proof.
  destruct (channel_ends_agree sample_channel sample_peer) as [Hd _].
  - apply sample_channel_wf.
  - unfold wf_channel. cbn. lia.
  - unfold mirrored. cbn. tauto.
  - destruct (Hd (str "ls") (wire [FByte 94; FUint32 7; FString (str "ls")])) as (s' & H & _).
    + vm_compute. reflexivity.
    + reflexivity.
    + exists s'. exact H.
Defined.
