(* ===== verification/Socket.v ===== *)
(** * The TCP socket: [src/socket/socket.cpp]

    The kernel's side of the connection is a script: the list of what the
    successive [read] and [write] calls will meet.  The script is arbitrary, so
    every theorem holds for every segmentation of the stream by TCP, every
    signal and every failure.

    [ByteStream] is what the layers above rely on: exact-length reads and writes
    on a stream of incoming and outgoing bytes.  [Socket] is its implementation;
    [ByteStreamLaws] is discharged for it at the end of the file. *)

From S2P Require Import Prelude.

(** ** The interface *)

Class ByteStream (S : Type) := {
  stream_read : Z -> M S bytes;      (** [read_exact]: that many bytes, or an exception *)
  stream_write : bytes -> M S unit;  (** [write_exact]: all the bytes, or an exception *)
  incoming : S -> bytes;             (** what the peer will still deliver *)
  outgoing : S -> bytes;             (** what has been written so far *)
  room : S -> Z;                     (** how many bytes the peer will still take *)
}.

Class ByteStreamLaws (S : Type) `{!ByteStream S} := {
  stream_read_ok (n : Z) (s : S) : 0 <= n <= size (incoming s) -> exists s',
    stream_read n s = (Ok (take (Z.to_nat n) (incoming s)), s') /\
    incoming s' = drop (Z.to_nat n) (incoming s) /\
    outgoing s' = outgoing s /\ room s' = room s;
  stream_read_short (n : Z) (s : S) : size (incoming s) < n -> exists r s',
    stream_read n s = (r, s') /\
    (r = Blocked \/ exists e, r = Throw e) /\ outgoing s' = outgoing s;
  stream_write_ok (d : bytes) (s : S) : size d <= room s -> exists s',
    stream_write d s = (Ok tt, s') /\
    outgoing s' = outgoing s ++ d /\ incoming s' = incoming s /\ room s' = room s - size d;
  stream_write_short (d : bytes) (s : S) : room s < size d -> exists r s' k,
    stream_write d s = (r, s') /\
    (r = Blocked \/ exists e, r = Throw e) /\ outgoing s' = outgoing s ++ take k d /\
    incoming s' = incoming s;
}.

(** ** System calls *)

(** What a system call gives: a value, [-1] with [errno = EINTR], or [-1] with
    another [errno], whose [strerror] is the message. *)
Inductive sys (A : Type) : Type :=
  | SysOk (a : A)
  | SysEintr
  | SysError (msg : string).
Arguments SysOk {_} _.
Arguments SysEintr {_}.
Arguments SysError {_} _.

(** What a [read] meets: a segment of at least one byte, the end of the stream,
    a signal, a failure; and a [write]: room for some bytes, a zero return, a
    signal, a failure. *)
Inductive rx_event : Type :=
  | RxData (b : byte) (d : bytes)
  | RxEof
  | RxEintr
  | RxError (msg : string).

Inductive tx_event : Type :=
  | TxRoom (n : positive)
  | TxZero
  | TxEintr
  | TxError (msg : string).

(** The object, its kernel buffers, and the descriptors the process holds. *)
Record Socket := {
  fd_ : Z;
  rx : list rx_event;
  tx : list tx_event;
  sent : bytes;
  open_fds : gset Z;
}.

Definition set_rx (evs : list rx_event) (s : Socket) : Socket :=
  {| fd_ := fd_ s; rx := evs; tx := tx s; sent := sent s; open_fds := open_fds s |}.
Definition set_tx (evs : list tx_event) (out : bytes) (s : Socket) : Socket :=
  {| fd_ := fd_ s; rx := rx s; tx := evs; sent := out; open_fds := open_fds s |}.
Definition set_fd (fd : Z) (fds : gset Z) (s : Socket) : Socket :=
  {| fd_ := fd; rx := rx s; tx := tx s; sent := sent s; open_fds := fds |}.

(** What is left of a segment after [n] bytes of it were read. *)
Definition rest_of_segment (n : nat) (d : bytes) : list rx_event :=
  match drop n d with [] => [] | b :: d' => [RxData b d'] end.

(** [read(fd_, dst, n)]: at most [n] bytes of the next segment. *)
Definition sys_read (n : Z) : M Socket (sys bytes) := fun s =>
  match rx s with
  | [] => (Blocked, s)
  | RxData b d :: evs =>
      (Ok (SysOk (take (Z.to_nat n) (b :: d))),
       set_rx (rest_of_segment (Z.to_nat n) (b :: d) ++ evs) s)
  | RxEof :: _ => (Ok (SysOk []), s)
  | RxEintr :: evs => (Ok SysEintr, set_rx evs s)
  | RxError e :: evs => (Ok (SysError e), set_rx evs s)
  end.

(** The room left after a write of [n] bytes. *)
Definition rest_of_room (room : positive) (n : Z) : list tx_event :=
  match Z.pos room - n with Zpos r => [TxRoom r] | _ => [] end.

(** [write(fd_, data, size)]: as many of the bytes as there is room for. *)
Definition sys_write (data : bytes) : M Socket (sys Z) := fun s =>
  match tx s with
  | [] => (Blocked, s)
  | TxRoom n :: evs =>
      let w := take (Z.to_nat (Z.pos n)) data in
      (Ok (SysOk (size w)), set_tx (rest_of_room n (size w) ++ evs) (sent s ++ w) s)
  | TxZero :: evs => (Ok (SysOk 0), set_tx evs (sent s) s)
  | TxEintr :: evs => (Ok SysEintr, set_tx evs (sent s) s)
  | TxError e :: evs => (Ok (SysError e), set_tx evs (sent s) s)
  end.

(** ** [class Socket] *)

(** The loop of [read_exact]; [dst] holds the bytes received so far.  Each turn
    that neither ends the loop nor throws consumes an event, so the length of
    the script is enough fuel (lemma [read_loop_spec]). *)
Fixpoint read_loop (fuel : nat) (dst : bytes) (len : Z) : M Socket bytes :=
  let received := size dst in
  if received <? len then
    match fuel with
    | O => fun s => (Blocked, s)
    | S fuel =>
        r ← sys_read (len - received);
        match r with
        | SysOk [] => mthrow "Connection closed"%string
        | SysOk chunk => read_loop fuel (dst ++ chunk) len
        | SysEintr => read_loop fuel dst len
        | SysError e => mthrow e
        end
    end
  else mret dst.

Definition read_exact (len : Z) : M Socket bytes := fun s =>
  read_loop (length (rx s)) [] len s.

(** The loop of [write_exact]; [written] bytes of [src] are on their way. *)
Fixpoint write_loop (fuel : nat) (src : bytes) (written : Z) : M Socket unit :=
  if written <? size src then
    match fuel with
    | O => fun s => (Blocked, s)
    | S fuel =>
        r ← sys_write (drop (Z.to_nat written) src);
        match r with
        | SysOk n =>
            if n >? 0 then write_loop fuel src (written + n)
            else mthrow "Write returned zero"%string
        | SysEintr => write_loop fuel src written
        | SysError e => mthrow e
        end
    end
  else mret tt.

Definition write_exact (src : bytes) : M Socket unit := fun s =>
  write_loop (length (tx s)) src 0 s.

(** [::socket], [getaddrinfo] (the first address of the list) and [::connect]. *)
Record NetEnv := {
  ne_socket : Z;
  ne_getaddrinfo : bytes -> bytes -> option bytes;
  ne_connect : Z -> bytes -> Z;
}.

Definition create (env : NetEnv) : M Socket bool := fun s =>
  let fd := ne_socket env in
  if fd =? -1 then (Ok false, set_fd fd (open_fds s) s)
  else (Ok true, set_fd fd ({[fd]} ∪ open_fds s) s).

Definition connect (env : NetEnv) (host : bytes) (port : Z) : M Socket bool := fun s =>
  match ne_getaddrinfo env host (to_string port) with
  | None => (Ok false, s)
  | Some addr => (Ok (ne_connect env (fd_ s) addr =? 0), s)
  end.

Definition close : M Socket unit := fun s =>
  if fd_ s =? -1 then (Ok tt, s)
  else (Ok tt, set_fd (-1) (open_fds s ∖ {[fd_ s]}) s).

(** The constructor. *)
Definition Socket_new (env : NetEnv) (host : bytes) (port : Z) : M Socket unit :=
  modify (fun s => set_fd (-1) (open_fds s) s);;
  ok ← create env;
  if negb ok then mthrow "Failed to create socket"%string else
  ok ← connect env host port;
  if negb ok then close;; mthrow ("Failed to connect to " ++ text host)%string
  else mret tt.

(** The destructor. *)
Definition Socket_delete : M Socket unit := close.

Definition get_fd (s : Socket) : Z := fd_ s.

(** ** What the scripts stand for *)

(** The bytes the peer delivers before the stream ends or fails. *)
Fixpoint deliverable (evs : list rx_event) : bytes :=
  match evs with
  | RxData b d :: evs => (b :: d) ++ deliverable evs
  | RxEintr :: evs => deliverable evs
  | _ => []
  end.

(** How a read that needs more than [deliverable] ends. *)
Fixpoint rx_fate (evs : list rx_event) : res bytes :=
  match evs with
  | RxData _ _ :: evs | RxEintr :: evs => rx_fate evs
  | RxEof :: _ => Throw "Connection closed"
  | RxError e :: _ => Throw e
  | [] => Blocked
  end.

(** The bytes the peer takes before a write fails, and how it fails. *)
Fixpoint capacity (evs : list tx_event) : Z :=
  match evs with
  | TxRoom n :: evs => Z.pos n + capacity evs
  | TxEintr :: evs => capacity evs
  | _ => 0
  end.

Fixpoint tx_fate (evs : list tx_event) : res unit :=
  match evs with
  | TxRoom _ :: evs | TxEintr :: evs => tx_fate evs
  | TxZero :: _ => Throw "Write returned zero"
  | TxError e :: _ => Throw e
  | [] => Blocked
  end.

#[global] Instance Socket_ByteStream : ByteStream Socket := {|
  stream_read := read_exact;
  stream_write := write_exact;
  incoming := fun s => deliverable (rx s);
  outgoing := sent;
  room := fun s => capacity (tx s);
|}.

(** ** Facts *)

Lemma deliverable_app evs evs' :
  deliverable (rest_of_segment 0 evs ++ evs') = evs ++ deliverable evs'.
Proof. by destruct evs. Qed.

Lemma deliverable_rest n d evs :
  deliverable (rest_of_segment n d ++ evs) = drop n d ++ deliverable evs.
Proof. unfold rest_of_segment. by destruct (drop n d). Qed.

Lemma rx_fate_rest n d evs : rx_fate (rest_of_segment n d ++ evs) = rx_fate evs.
Proof. unfold rest_of_segment. by destruct (drop n d). Qed.

(** Two states that differ only in what is left to read. *)
Definition same_but_rx (s s' : Socket) : Prop :=
  fd_ s' = fd_ s /\ tx s' = tx s /\ sent s' = sent s /\ open_fds s' = open_fds s.

Lemma same_but_rx_trans s evs s' : same_but_rx (set_rx evs s) s' -> same_but_rx s s'.
Proof. done. Qed.

Lemma read_loop_done fuel dst len s : len <= size dst -> read_loop fuel dst len s = (Ok dst, s).
Proof. intros H. destruct fuel; cbn [read_loop]; by rewrite (proj2 (Z.ltb_ge _ _)). Qed.

Lemma read_loop_data fuel dst len b d evs s :
  rx s = RxData b d :: evs -> size dst < len ->
  read_loop (S fuel) dst len s =
    read_loop fuel (dst ++ take (Z.to_nat (len - size dst)) (b :: d)) len
      (set_rx (rest_of_segment (Z.to_nat (len - size dst)) (b :: d) ++ evs) s).
Proof.
  intros Hrx Hlt. cbn [read_loop]. rewrite (proj2 (Z.ltb_lt _ _)) by done.
  unfold mbind at 1, M_bind at 1, sys_read. rewrite Hrx.
  by destruct (Z.to_nat (len - size dst)) eqn:E; [lia|].
Qed.

Lemma read_loop_spec fuel dst len s :
  (length (rx s) <= fuel)%nat -> size dst <= len ->
  let need := len - size dst in
  exists s', same_but_rx s s' /\
    if need <=? size (deliverable (rx s))
    then read_loop fuel dst len s = (Ok (dst ++ take (Z.to_nat need) (deliverable (rx s))), s') /\
         deliverable (rx s') = drop (Z.to_nat need) (deliverable (rx s)) /\
         rx_fate (rx s') = rx_fate (rx s)
    else read_loop fuel dst len s = (rx_fate (rx s), s').
Proof.
  revert dst s. induction fuel as [|fuel IH]; intros dst s Hfuel Hdst need;
    (destruct (Z.leb_spec len (size dst)) as [Hle|Hlt];
     [exists s; subst need; replace (len - size dst) with 0 by lia; rewrite read_loop_done by done;
      rewrite (proj2 (Z.leb_le _ _)) by apply size_nonneg; by rewrite take_0, app_nil_r|]).
  - destruct (rx s) eqn:Hrx; [|cbn in Hfuel; lia]. exists s. split; [done|].
    cbn [deliverable]. rewrite size_nil, (proj2 (Z.leb_gt _ _)) by lia.
    cbn [read_loop]. by rewrite (proj2 (Z.ltb_lt _ _)).
  - destruct (rx s) as [|[b d| | |e] evs] eqn:Hrx.
    + exists s. split; [done|]. rewrite (proj2 (Z.leb_gt _ _)) by (cbn; rewrite size_nil; lia).
      cbn [read_loop]. rewrite (proj2 (Z.ltb_lt _ _)) by done.
      unfold mbind, M_bind, sys_read. by rewrite Hrx.
    + rewrite (read_loop_data _ _ _ _ _ _ _ Hrx Hlt). fold need. cbn [deliverable rx_fate].
      set (seg := b :: d) in *. change (b :: d ++ deliverable evs) with (seg ++ deliverable evs).
      destruct (Z.leb_spec (size seg) need) as [Hle|Hgt].
      * rewrite take_all_size by done. unfold rest_of_segment. rewrite drop_all_size by done.
        destruct (IH (dst ++ seg) (set_rx evs s)) as (s' & Hs & Hrun);
          [cbn in *; lia|rewrite size_app; lia|]. exists s'. split; [done|].
        revert Hrun. cbn [app set_rx rx]. rewrite !size_app, take_app_Z, drop_app_Z, app_assoc by done.
        replace (len - (size dst + size seg)) with (need - size seg) by lia.
        destruct (Z.leb_spec (need - size seg) (size (deliverable evs))).
        { by rewrite (proj2 (Z.leb_le _ _)) by lia. }
        by rewrite (proj2 (Z.leb_gt _ _)) by lia.
      * rewrite read_loop_done by (rewrite size_app, size_take; lia).
        rewrite (proj2 (Z.leb_le _ _)) by (rewrite size_app; pose proof (size_nonneg (deliverable evs)); lia).
        rewrite take_app_le_Z, drop_app_le_Z by lia. eexists. split; [|split; [done|]]; [done|].
        cbn [set_rx rx]. by rewrite deliverable_rest, rx_fate_rest.
    + exists s. split; [done|]. rewrite (proj2 (Z.leb_gt _ _)) by (cbn; rewrite size_nil; lia).
      cbn [read_loop]. rewrite (proj2 (Z.ltb_lt _ _)) by done.
      unfold mbind, M_bind, sys_read. by rewrite Hrx.
    + cbn [read_loop]. rewrite (proj2 (Z.ltb_lt _ _)) by done.
      unfold mbind, M_bind, sys_read. rewrite Hrx. apply (IH dst (set_rx evs s)); [cbn in *; lia|lia].
    + eexists. split; [|rewrite (proj2 (Z.leb_gt _ _)) by (cbn; rewrite size_nil; lia);
        cbn [read_loop]; rewrite (proj2 (Z.ltb_lt _ _)) by done;
        unfold mbind, M_bind, sys_read; rewrite Hrx; reflexivity]. done.
Qed.

(** Two states that differ only in what was written. *)
Definition same_but_tx (s s' : Socket) : Prop :=
  fd_ s' = fd_ s /\ rx s' = rx s /\ open_fds s' = open_fds s.

Lemma capacity_nonneg evs : 0 <= capacity evs.
Proof. induction evs as [|[] evs IH]; cbn [capacity]; lia. Qed.

Lemma write_loop_done fuel src written s :
  size src <= written -> write_loop fuel src written s = (Ok tt, s).
Proof. intros H. destruct fuel; cbn [write_loop]; by rewrite (proj2 (Z.ltb_ge _ _)). Qed.

Lemma write_loop_room fuel src written n evs s :
  tx s = TxRoom n :: evs -> 0 <= written < size src ->
  let w := take (Z.to_nat (Z.pos n)) (drop (Z.to_nat written) src) in
  write_loop (S fuel) src written s =
    write_loop fuel src (written + size w) (set_tx (rest_of_room n (size w) ++ evs) (sent s ++ w) s).
Proof.
  intros Htx Hlt w. cbn [write_loop]. rewrite (proj2 (Z.ltb_lt _ _)) by lia.
  unfold mbind, M_bind, sys_write. rewrite Htx. fold w.
  assert (0 < size w); [|by rewrite (proj2 (Z.gtb_lt _ _))].
  subst w. unfold size in *. rewrite length_take, length_drop. lia.
Qed.

Lemma write_loop_spec fuel src written s :
  (length (tx s) <= fuel)%nat -> 0 <= written <= size src ->
  let pending := drop (Z.to_nat written) src in
  exists s', same_but_tx s s' /\
    if size pending <=? capacity (tx s)
    then write_loop fuel src written s = (Ok tt, s') /\ sent s' = sent s ++ pending /\
         capacity (tx s') = capacity (tx s) - size pending /\ tx_fate (tx s') = tx_fate (tx s)
    else write_loop fuel src written s = (tx_fate (tx s), s') /\
         sent s' = sent s ++ take (Z.to_nat (capacity (tx s))) pending.
Proof.
  revert written s. induction fuel as [|fuel IH]; intros written s Hfuel Hw pending;
    assert (Hp : size pending = size src - written) by (subst pending; rewrite size_drop; lia);
    (destruct (Z.eq_dec written (size src)) as [->|Hne];
     [exists s; rewrite write_loop_done by done;
      assert (pending = []) as -> by (apply size_zero_nil; lia);
      rewrite (proj2 (Z.leb_le _ _)) by apply capacity_nonneg; rewrite app_nil_r, size_nil, Z.sub_0_r; done|]).
  - destruct (tx s) eqn:Htx; [|cbn in Hfuel; lia]. exists s. cbn [capacity].
    rewrite (proj2 (Z.leb_gt _ _)) by lia. cbn [write_loop]. rewrite (proj2 (Z.ltb_lt _ _)) by lia.
    by rewrite take_0, app_nil_r.
  - destruct (tx s) as [|[n| | |e] evs] eqn:Htx.
    2: { rewrite (write_loop_room _ _ _ _ _ _ Htx) by lia. fold pending. cbn [capacity tx_fate].
      destruct (Z.leb_spec (Z.pos n) (size pending)) as [Hle|Hgt].
      - rewrite size_take by lia. unfold rest_of_room. rewrite Z.sub_diag. cbn [app].
        destruct (IH (written + Z.pos n) (set_tx evs (sent s ++ take (Z.to_nat (Z.pos n)) pending) s))
          as (s' & Hs & Hrun); [cbn in *; lia|lia|]. exists s'. split; [done|]. revert Hrun.
        cbn [set_tx tx sent]. rewrite <- drop_drop_Z by lia. fold pending. rewrite size_drop by lia.
        destruct (Z.leb_spec (size pending - Z.pos n) (capacity evs)).
        + rewrite (proj2 (Z.leb_le _ _)) by lia. rewrite <- app_assoc, take_drop.
          intros (? & ? & ? & ?). split_and!; try done; lia.
        + rewrite (proj2 (Z.leb_gt _ _)) by lia. rewrite <- app_assoc.
          intros [? Hsent]. split; [done|]. rewrite Hsent. f_equal.
          rewrite <- (take_drop (Z.to_nat (Z.pos n)) pending) at 3.
          rewrite take_app_Z; rewrite size_take; try (pose proof (capacity_nonneg evs); lia). do 3 f_equal. lia.
      - rewrite take_all_size by lia. rewrite write_loop_done by lia. pose proof (capacity_nonneg evs).
        rewrite (proj2 (Z.leb_le _ _)) by lia. eexists. split; [|split; [done|]]; [done|].
        cbn [set_tx tx sent]. unfold rest_of_room. destruct (Z.pos n - size pending) eqn:E; try lia.
        cbn [app capacity tx_fate]. split_and!; try done; lia. }
    all: cbn [write_loop]; rewrite (proj2 (Z.ltb_lt _ _)) by lia;
      unfold mbind, M_bind, sys_write; rewrite Htx.
    + exists s. cbn [capacity]. rewrite (proj2 (Z.leb_gt _ _)) by lia. by rewrite take_0, app_nil_r.
    + eexists. cbn [capacity]. rewrite (proj2 (Z.leb_gt _ _)) by lia.
      split; [|split; [done|]]; [done|]. cbn. by rewrite take_0, app_nil_r.
    + apply (IH written (set_tx evs (sent s) s)); [cbn in *; lia|lia].
    + eexists. cbn [capacity]. rewrite (proj2 (Z.leb_gt _ _)) by lia.
      split; [|split; [done|]]; [done|]. cbn. by rewrite take_0, app_nil_r.
Qed.

#[global] Instance Socket_ByteStreamLaws : ByteStreamLaws Socket.
Proof.
  split.
  - intros n s Hn. cbn in *. destruct (read_loop_spec (length (rx s)) [] n s) as (s' & Hs & Hrun);
      [done|rewrite size_nil; lia|]. rewrite size_nil, Z.sub_0_r in Hrun.
    rewrite (proj2 (Z.leb_le _ _)) in Hrun by lia. destruct Hrun as (Hrun & Hrx & _), Hs as (_ & Htx & Hsent & _).
    exists s'. unfold read_exact. by rewrite Hrun, Htx.
  - intros n s Hn. cbn in *. pose proof (size_nonneg (deliverable (rx s))).
    destruct (read_loop_spec (length (rx s)) [] n s) as (s' & Hs & Hrun);
      [done|rewrite size_nil; lia|]. rewrite size_nil, Z.sub_0_r in Hrun.
    rewrite (proj2 (Z.leb_gt _ _)) in Hrun by lia. exists (rx_fate (rx s)), s'. split_and!; [done| |apply Hs].
    clear. induction (rx s) as [|[] evs IH]; cbn; eauto.
  - intros d s Hd. cbn in *. destruct (write_loop_spec (length (tx s)) d 0 s) as (s' & Hs & Hrun);
      [done|pose proof (size_nonneg d); lia|]. cbn in Hrun. rewrite drop_0 in Hrun.
    rewrite (proj2 (Z.leb_le _ _)) in Hrun by lia. destruct Hrun as (Hrun & Hsent & Hcap & _).
    destruct Hs as (_ & Hrx & _). exists s'. unfold write_exact. by rewrite Hrun, Hrx.
  - intros d s Hd. cbn in *. destruct (write_loop_spec (length (tx s)) d 0 s) as (s' & Hs & Hrun);
      [done|pose proof (size_nonneg d); lia|]. cbn in Hrun. rewrite drop_0 in Hrun.
    rewrite (proj2 (Z.leb_gt _ _)) in Hrun by lia. destruct Hrun as (Hrun & Hsent), Hs as (_ & Hrx & _).
    exists (tx_fate (tx s)), s', (Z.to_nat (capacity (tx s))). unfold write_exact. rewrite Hrun, Hrx.
    split_and!; try done. clear. induction (tx s) as [|[] evs IH]; cbn; eauto.
Qed.

(** ** Properties *)

(** C33: [read_exact] does not depend on how the stream was cut into segments or
    interrupted by signals.  If the stream holds the requested bytes they are
    returned, in order, and exactly they are consumed; otherwise the call ends
    the way the stream ends: with the exception for a closed connection, with
    the error of the failing call, or waiting for ever. *)
Theorem read_exact_spec len s :
  0 <= len ->
  exists s', fd_ s' = fd_ s /\ sent s' = sent s /\ open_fds s' = open_fds s /\
    if len <=? size (deliverable (rx s))
    then read_exact len s = (Ok (take (Z.to_nat len) (deliverable (rx s))), s') /\
         deliverable (rx s') = drop (Z.to_nat len) (deliverable (rx s)) /\ rx_fate (rx s') = rx_fate (rx s)
    else read_exact len s = (rx_fate (rx s), s').
Proof.
  intros Hlen. destruct (read_loop_spec (length (rx s)) [] len s) as (s' & Hs & Hrun);
    [done|by rewrite size_nil|]. rewrite size_nil, Z.sub_0_r in Hrun.
  exists s'. destruct Hs as (? & _ & ? & ?). split_and!; try done.
Qed.

Definition sample_socket : Socket :=
  {| fd_ := 3; rx := [RxData x53 [x53]; RxEintr; RxData x48 [x2d; x32]; RxEof];
     tx := [TxRoom 2; TxEintr; TxRoom 5]; sent := []; open_fds := {[3]} |}.

Lemma read_exact_spec_witness :
  exists s', read_exact 3 sample_socket = (Ok [x53; x53; x48], s').
Proof.
  destruct (read_exact_spec 3 sample_socket) as (s' & _ & _ & _ & H); [done|].
  destruct H as [H _]. exists s'. exact H.
Defined.

(** [write_exact] sends every byte, in order and once, however the kernel
    splits the writes; if the connection takes fewer bytes than that, a prefix
    has been sent and the call ends with the error of the failing call, with
    the exception for a zero return, or waiting. *)
Theorem write_exact_spec src s :
  exists s', fd_ s' = fd_ s /\ rx s' = rx s /\ open_fds s' = open_fds s /\
    if size src <=? capacity (tx s)
    then write_exact src s = (Ok tt, s') /\ sent s' = sent s ++ src
    else write_exact src s = (tx_fate (tx s), s') /\
         sent s' = sent s ++ take (Z.to_nat (capacity (tx s))) src.
Proof.
  destruct (write_loop_spec (length (tx s)) src 0 s) as (s' & Hs & Hrun);
    [done|pose proof (size_nonneg src); lia|]. cbn in Hrun. rewrite drop_0 in Hrun.
  exists s'. destruct Hs as (? & ? & ?). split_and!; try done. case_match; [|done].
  by destruct Hrun as (? & ? & _).
Qed.

(** The constructor either owns a connected descriptor or throws, and no
    path leaks a descriptor: when it throws, the process holds the descriptors
    it held before, and after a successful construction the destructor gives the
    new one back, once, however often [close] runs.  (The kernel returns a
    descriptor the process does not hold, and never the value -1 as one.) *)
Theorem socket_lifetime env host port s :
  ne_socket env ∉ open_fds s ->
  match Socket_new env host port s with
  | (Ok _, s') =>
      fd_ s' = ne_socket env /\ fd_ s' <> -1 /\ open_fds s' = {[fd_ s']} ∪ open_fds s /\
      (exists addr, ne_getaddrinfo env host (to_string port) = Some addr /\
        ne_connect env (fd_ s') addr = 0) /\
      exists s'', Socket_delete s' = (Ok tt, s'') /\ open_fds s'' = open_fds s /\ fd_ s'' = -1 /\
        close s'' = (Ok tt, s'')
  | (Throw _, s') => fd_ s' = -1 /\ open_fds s' = open_fds s
  | _ => False
  end.
Proof.
  intros Hfresh. unfold Socket_new, Socket_delete, create, connect, close. unfold_M.
  cbn -[to_string union difference text String.append].
  destruct (Z.eqb_spec (ne_socket env) (-1)) as [E|E].
  { cbn. by rewrite E. }
  cbn -[to_string union difference text String.append].
  destruct (ne_getaddrinfo env host (to_string port)) as [addr|] eqn:Ha;
    [destruct (Z.eqb_spec (ne_connect env (ne_socket env) addr) 0) as [Ec|Ec]|];
    cbn -[to_string union difference text String.append];
    rewrite ?(proj2 (Z.eqb_neq _ _) E); cbn -[union difference text String.append];
    (split_and!; try done; try set_solver; eauto).
  eexists. split; [done|]. cbn -[union difference]. split; [set_solver|done].
Qed.

(** A resolver that knows one host, and a server that accepts. *)
Definition sample_env : NetEnv :=
  {| ne_socket := 3;
     ne_getaddrinfo := fun host port =>
       if beq host (str "localhost") && beq port (str "22") then Some (str "127.0.0.1") else None;
     ne_connect := fun _ _ => 0 |}.

Lemma socket_lifetime_witness :
  let s := {| fd_ := 0; rx := []; tx := []; sent := []; open_fds := ∅ |} in
  (Socket_new sample_env (str "localhost") 22 s).1 = Ok tt /\
  open_fds (Socket_new sample_env (str "localhost") 22 s).2 = {[3]} ∪ ∅.
Proof.
  intros s. pose proof (socket_lifetime sample_env (str "localhost") 22 s) as H.
  destruct (Socket_new sample_env (str "localhost") 22 s) as [r s'] eqn:E.
  assert (Er : r = Ok tt) by (apply (f_equal fst) in E; vm_compute in E; congruence).
  subst r. destruct H as (Hfd & _ & Hfds & _); [set_solver|].
  split; [reflexivity|]. cbn. rewrite Hfds, Hfd. reflexivity.
Defined.
