(* ===== verification/Crypto.v ===== *)
(** * The cryptographic libraries, as an interface

    libsodium and OpenSSL are not part of the repository.  [Crypto] lists the
    functions of them that the program calls, with their return codes and
    outputs; every definition that uses one takes the interface as a parameter.
    [CryptoSizes] and [CipherLaws] state the documented behaviour the program
    relies on: output lengths, and AES in counter mode being a stream cipher
    whose decryption undoes encryption.  No theorem assumes that a hash or a MAC
    is free of collisions.

    [Toy] is an instance with a key stream that depends on the key, the IV and
    the position.  It only serves to show that the laws can hold, and to run the
    program on concrete inputs. *)

From S2P Require Import Prelude.

Class Crypto := {
  (** libsodium's random generator, as a state it threads *)
  rng : Type;
  randombytes_buf : Z -> rng -> bytes * rng;
  sodium_init : Z;
  sodium_memcmp : bytes -> bytes -> Z;
  crypto_auth_hmacsha256 : bytes -> bytes -> Z * bytes;       (** input, key *)
  crypto_hash_sha256 : bytes -> bytes;
  crypto_scalarmult_curve25519_base : bytes -> Z * bytes;
  crypto_scalarmult_curve25519 : bytes -> bytes -> Z * bytes; (** scalar, point *)
  crypto_sign_verify_detached : bytes -> bytes -> bytes -> Z; (** signature, message, key *)
  (** base64 with or without padding; the C string without its terminator *)
  sodium_bin2base64 : bool -> bytes -> option bytes;
  cipher_ctx : Type;
  EVP_CIPHER_CTX_new : option cipher_ctx;
  EVP_EncryptInit_ex : cipher_ctx -> bytes -> bytes -> Z * cipher_ctx; (** key, iv *)
  EVP_DecryptInit_ex : cipher_ctx -> bytes -> bytes -> Z * cipher_ctx;
  EVP_EncryptUpdate : cipher_ctx -> bytes -> Z * bytes * cipher_ctx;
  EVP_DecryptUpdate : cipher_ctx -> bytes -> Z * bytes * cipher_ctx;
}.

Class CryptoSizes `{Crypto} := {
  size_randombytes n r : 0 <= n -> size (randombytes_buf n r).1 = n;
  size_hmac input key : size (crypto_auth_hmacsha256 input key).2 = 32;
  size_sha256 input : size (crypto_hash_sha256 input) = 32;
  size_scalarmult_base n : size (crypto_scalarmult_curve25519_base n).2 = 32;
  size_scalarmult n p : size (crypto_scalarmult_curve25519 n p).2 = 32;
  memcmp_zero a b : size a = size b -> sodium_memcmp a b = 0 <-> a = b;
}.

(** The base64 encoder: its output is never empty, holds no white space, and
    determines the input. *)
Class Base64Laws `{Crypto} := {
  base64_some padding d : d <> [] -> exists e, sodium_bin2base64 padding d = Some e /\ token e;
  base64_inj padding d d' e :
    sodium_bin2base64 padding d = Some e -> sodium_bin2base64 padding d' = Some e -> d = d';
}.

(** [in_step e d]: the decrypting context [d] is at the position of the key
    stream where the encrypting context [e] is. *)
Class CipherLaws `{Crypto} := {
  in_step : cipher_ctx -> cipher_ctx -> Prop;
  init_in_step c c' key iv :
    (EVP_EncryptInit_ex c key iv).1 = 1 -> (EVP_DecryptInit_ex c' key iv).1 = 1 ->
    in_step (EVP_EncryptInit_ex c key iv).2 (EVP_DecryptInit_ex c' key iv).2;
  decrypt_encrypt e d plain cipher e' :
    in_step e d -> EVP_EncryptUpdate e plain = (1, cipher, e') ->
    exists d', EVP_DecryptUpdate d cipher = (1, plain, d') /\ in_step e' d';
  encrypt_app e p q c e'' :
    EVP_EncryptUpdate e (p ++ q) = (1, c, e'') ->
    exists c1 c2 e', c = c1 ++ c2 /\ EVP_EncryptUpdate e p = (1, c1, e') /\
      EVP_EncryptUpdate e' q = (1, c2, e'');
  encrypt_length e p c e' : EVP_EncryptUpdate e p = (1, c, e') -> size c = size p;
  decrypt_length d c p d' : EVP_DecryptUpdate d c = (1, p, d') -> size p = size c;
}.

(** The calls that only fail when memory runs out or the context is misused
    succeed.  Only the theorems about progress assume this. *)
Class CryptoSucceeds `{Crypto} := {
  hmac_succeeds input key : (crypto_auth_hmacsha256 input key).1 = 0;
  scalarmult_base_succeeds n : (crypto_scalarmult_curve25519_base n).1 = 0;
  ctx_new_succeeds : is_Some EVP_CIPHER_CTX_new;
  encrypt_init_succeeds c key iv : (EVP_EncryptInit_ex c key iv).1 = 1;
  decrypt_init_succeeds c key iv : (EVP_DecryptInit_ex c key iv).1 = 1;
  encrypt_succeeds e p : (EVP_EncryptUpdate e p).1.1 = 1;
}.

(** ** An instance *)

Module Toy.
(** A context holds the key, the IV and the position in the key stream. *)
Record ctx := { key : bytes; iv : bytes; offset : nat }.

(** Byte [i] of the key stream. *)
Definition keystream (k iv : bytes) (i : nat) : byte :=
  byte_of (u8 (default x00 (k !! (i mod 32)%nat)) + u8 (default x00 (iv !! (i mod 16)%nat)) + Z.of_nat i).

Definition xor (a b : byte) : byte := byte_of (Z.lxor (u8 a) (u8 b)).

Definition apply_stream (c : ctx) (d : bytes) : bytes :=
  imap (fun i b => xor b (keystream (key c) (iv c) (offset c + i))) d.

Definition update (c : ctx) (d : bytes) : Z * bytes * ctx :=
  (1, apply_stream c d, {| key := key c; iv := iv c; offset := (offset c + length d)%nat |}).

(** A digest of 32 bytes: a polynomial of the input, then its successors. *)
Definition digest (input : bytes) : bytes :=
  let h := foldl (fun acc b => (acc * 257 + u8 b + 1) mod 4294967291) 7 input in
  (fun i => byte_of ((h + Z.of_nat i) * (h + 3) / 8)) <$> seq 0 32.

(** Two letters per byte. *)
Definition letters (d : bytes) : bytes :=
  concat ((fun b => [byte_of (65 + u8 b / 16); byte_of (65 + u8 b mod 16)]) <$> d).

#[export] Instance crypto : Crypto := {|
  rng := nat;
  randombytes_buf := fun n r =>
    ((fun i => byte_of (Z.of_nat (r + i) * 37 + 11)) <$> seq 0 (Z.to_nat n), (r + Z.to_nat n)%nat);
  sodium_init := 0;
  sodium_memcmp := fun a b => if beq a b then 0 else -1;
  crypto_auth_hmacsha256 := fun input k => (0, digest (k ++ input));
  crypto_hash_sha256 := digest;
  crypto_scalarmult_curve25519_base := fun n => (0, digest n);
  crypto_scalarmult_curve25519 := fun n p => (0, digest (n ++ p));
  crypto_sign_verify_detached := fun sig msg k => if beq (take 32 sig) (digest (k ++ msg)) then 0 else -1;
  sodium_bin2base64 := fun _ d => Some (letters d);
  cipher_ctx := ctx;
  EVP_CIPHER_CTX_new := Some {| key := []; iv := []; offset := 0 |};
  EVP_EncryptInit_ex := fun _ k iv => (1, {| key := k; iv := iv; offset := 0 |});
  EVP_DecryptInit_ex := fun _ k iv => (1, {| key := k; iv := iv; offset := 0 |});
  EVP_EncryptUpdate := update;
  EVP_DecryptUpdate := update;
|}.

Lemma size_digest d : size (digest d) = 32.
Proof. reflexivity. Qed.

#[export] Instance sizes_ok : CryptoSizes.
Proof.
  split; cbn; intros; try apply size_digest.
  - unfold size. rewrite length_fmap, length_seq. lia.
  - destruct (beq_spec a b); split; congruence.
Qed.

#[export] Instance succeeds : CryptoSucceeds.
Proof. by split. Qed.

Lemma letters_cons b d :
  letters (b :: d) = byte_of (65 + u8 b / 16) :: byte_of (65 + u8 b mod 16) :: letters d.
Proof. reflexivity. Qed.

Lemma letter_ok z : 0 <= z < 16 -> is_space (byte_of (65 + z)) = false.
Proof. intros. unfold is_space. rewrite u8_byte_of_small by lia. lia. Qed.

#[export] Instance base64_ok : Base64Laws.
Proof.
  split; cbn.
  - intros _ d Hd. eexists. split; [done|]. split; [by destruct d|]. clear Hd.
    induction d as [|b d IH]; [constructor|]. rewrite letters_cons. pose proof (u8_range b).
    repeat constructor; [| |done]; apply letter_ok; Z.div_mod_to_equations; lia.
  - intros _ d d' e. intros [= <-] [= H]. revert d' H. induction d as [|b d IH]; intros [|b' d'] H; try done.
    rewrite !letters_cons in H. injection H as H1 H2 H. f_equal; [|by apply IH].
    apply (f_equal u8) in H1, H2. pose proof (u8_range b). pose proof (u8_range b').
    rewrite !u8_byte_of_small in H1, H2 by (Z.div_mod_to_equations; lia).
    apply u8_inj. Z.div_mod_to_equations; lia.
Qed.

Lemma xor_xor a b : xor (xor a b) b = a.
Proof.
  assert (Hlt : forall x y, 0 <= x < 2 ^ 8 -> 0 <= y < 2 ^ 8 -> 0 <= Z.lxor x y < 2 ^ 8).
  { intros x y Hx Hy. assert (Hn : 0 <= Z.lxor x y) by (apply Z.lxor_nonneg; lia).
    split; [done|]. destruct (Z.eq_dec (Z.lxor x y) 0) as [->|]; [done|].
    apply Z.log2_lt_pow2; [lia|]. pose proof (Z.log2_lxor x y).
    assert (forall z, 0 <= z < 2 ^ 8 -> Z.log2 z < 8).
    { intros z Hz. destruct (Z.eq_dec z 0) as [->|]; [done|]. apply Z.log2_lt_pow2; lia. }
    pose proof (H0 x Hx). pose proof (H0 y Hy). lia. }
  unfold xor. pose proof (u8_range a); pose proof (u8_range b).
  rewrite u8_byte_of_small by (apply Hlt; lia).
  by rewrite Z.lxor_assoc, Z.lxor_nilpotent, Z.lxor_0_r, byte_of_u8.
Qed.

Lemma apply_stream_twice c d : apply_stream c (apply_stream c d) = d.
Proof.
  unfold apply_stream. apply list_eq. intros i. rewrite !list_lookup_imap.
  destruct (d !! i); [|done]. cbn. by rewrite xor_xor.
Qed.

Lemma length_apply_stream c d : length (apply_stream c d) = length d.
Proof. apply length_imap. Qed.

#[export] Instance cipher_ok : CipherLaws.
Proof.
  refine {| in_step := (eq : ctx -> ctx -> Prop) |}.
  - done.
  - intros e d plain cipher e' <-. cbn. unfold update. intros [= <- <-].
    eexists. split; [by rewrite apply_stream_twice|]. by rewrite length_apply_stream.
  - intros e p q c e''. cbn. unfold update. intros [= <- <-].
    eexists _, _, _. split_and!; [|reflexivity|].
    + unfold apply_stream. rewrite imap_app. f_equal.
    + cbn. f_equal; [f_equal|]; [|rewrite length_app; f_equal; lia].
      unfold apply_stream. cbn. apply imap_ext. intros i b _. cbn. do 2 f_equal. lia.
  - intros e p c e'. cbn. unfold update. intros [= <- _]. unfold size. by rewrite length_apply_stream.
  - intros e p c e'. cbn. unfold update. intros [= <- _]. unfold size. by rewrite length_apply_stream.
Defined.
End Toy.
