(* ===== verification/Transport.v ===== *)
(** * The binary packet protocol: [src/transport/transport.cpp]

    [Transport] holds the members of the C++ object except its reference to the
    socket; [tstate] puts the object, the socket it refers to and the random
    generator together.  The definitions are written against the [ByteStream]
    interface and the [Crypto] interface.

    Not modelled: the heap management of the OpenSSL contexts (the release of a
    replaced context); the destructor is [Main.Transport_delete]. *)

From S2P Require Import Prelude Encoding Socket Crypto.

Section transport.
Context {C : Crypto} {S : Type} {BS : ByteStream S}.

(** ** State *)

(** The MAC keys are uninitialised until encryption is enabled: [None].  A null
    cipher pointer is [None] as well. *)
Record Transport := {
  incoming_sequence_ : Z;
  outgoing_sequence_ : Z;
  outgoing_encryption_active_ : bool;
  incoming_encryption_active_ : bool;
  outgoing_cipher_ : option cipher_ctx;
  incoming_cipher_ : option cipher_ctx;
  outgoing_mac_key_ : option bytes;
  incoming_mac_key_ : option bytes;
}.

Record tstate := {
  sock_ : S;
  rand : rng;
  obj : Transport;
}.

Definition with_sock (s : S) (t : tstate) : tstate := {| sock_ := s; rand := rand t; obj := obj t |}.
Definition with_rand (r : rng) (t : tstate) : tstate := {| sock_ := sock_ t; rand := r; obj := obj t |}.
Definition with_obj (o : Transport) (t : tstate) : tstate := {| sock_ := sock_ t; rand := rand t; obj := o |}.

Definition set_incoming (seq : Z) (active : bool) (c : option cipher_ctx) (k : option bytes)
    (o : Transport) : Transport :=
  {| incoming_sequence_ := seq; outgoing_sequence_ := outgoing_sequence_ o;
     outgoing_encryption_active_ := outgoing_encryption_active_ o;
     incoming_encryption_active_ := active;
     outgoing_cipher_ := outgoing_cipher_ o; incoming_cipher_ := c;
     outgoing_mac_key_ := outgoing_mac_key_ o; incoming_mac_key_ := k |}.

Definition set_outgoing (seq : Z) (active : bool) (c : option cipher_ctx) (k : option bytes)
    (o : Transport) : Transport :=
  {| incoming_sequence_ := incoming_sequence_ o; outgoing_sequence_ := seq;
     outgoing_encryption_active_ := active;
     incoming_encryption_active_ := incoming_encryption_active_ o;
     outgoing_cipher_ := c; incoming_cipher_ := incoming_cipher_ o;
     outgoing_mac_key_ := k; incoming_mac_key_ := incoming_mac_key_ o |}.

(** The constructor. *)
Definition Transport_new : Transport :=
  {| incoming_sequence_ := 0; outgoing_sequence_ := 0;
     outgoing_encryption_active_ := false; incoming_encryption_active_ := false;
     outgoing_cipher_ := None; incoming_cipher_ := None;
     outgoing_mac_key_ := None; incoming_mac_key_ := None |}.

Definition sock_read (n : Z) : M tstate bytes := zoom sock_ with_sock (stream_read n).
Definition sock_write (d : bytes) : M tstate unit := zoom sock_ with_sock (stream_write d).

(** ** Constants *)

Definition packet_length_bytes : Z := 4.
Definition min_packet_size : Z := 16.
Definition max_packet_size : Z := 35000.
Definition block_size : Z := 8.
Definition aes_block_size : Z := 16.
Definition min_padding_length : Z := 4.
Definition min_payload_bytes : Z := 1.
Definition padding_length_bytes : Z := 1.
Definition uint8_max : Z := 255.
Definition int_max : Z := 2 ^ 31 - 1.

(** ** Framing and validation helpers *)

Definition decode_packet_length (length_bytes : bytes) : Z :=
  foldl (fun acc b => Z.lor (u32 (Z.shiftl acc bits_per_byte)) (u8 b)) 0 length_bytes.

Definition validate_packet_length (incoming_active : bool) (packet_length : Z) : res unit :=
  if packet_length <? min_packet_size - packet_length_bytes
  then mthrow "SSH packet length is below minimum"%string else
  if u64 (packet_length + packet_length_bytes) >? max_packet_size
  then mthrow "SSH packet length is above maximum"%string else
  let block := if incoming_active then aes_block_size else block_size in
  if negb (u64 (packet_length + packet_length_bytes) mod block =? 0)
  then mthrow "SSH packet is not aligned"%string else
  mret tt.

Definition validate_packet_padding (packet_length padding_length : Z) : res unit :=
  if padding_length <? min_padding_length
  then mthrow "SSH packet does not have the minimum amount of padding required"%string else
  if u64 (padding_length + padding_length_bytes + min_payload_bytes) >? packet_length
  then mthrow "SSH packet does not contain the correct amount of padding"%string else
  mret tt.

Definition validate_payload_size (payload_size : Z) : res unit :=
  if payload_size <? 1 then mthrow "Payload cannot be empty"%string else mret tt.

Definition calculate_padding_length (outgoing_active : bool) (payload_size : Z) : Z :=
  let b_size := if outgoing_active then aes_block_size else block_size in
  let base := u64 (payload_size + packet_length_bytes + padding_length_bytes) in
  let total := u64 (min_padding_length + base) in
  let remainder := total mod b_size in
  u64 (min_padding_length + (b_size - remainder) mod b_size).

Definition encode_packet_length (packet_length : Z) : bytes :=
  (fun i => byte_of (Z.shiftr packet_length ((packet_length_bytes - 1 - Z.of_nat i) * bits_per_byte)))
    <$> seq 0 (Z.to_nat packet_length_bytes).

Definition generate_padding (padding_length : Z) : M tstate bytes := fun t =>
  let '(padding, r) := randombytes_buf padding_length (rand t) in (Ok padding, with_rand r t).

Definition calculate_hmac (sequence_number : Z) (plaintext_packet mac_key : bytes) : res bytes :=
  let input := encode_uint32 sequence_number ++ plaintext_packet in
  let '(status, result) := crypto_auth_hmacsha256 input mac_key in
  if negb (status =? 0) then mthrow "Failed to calculate hmac value"%string else
  mret result.

(** The read of a key member. *)
Definition key_of (k : option bytes) : res bytes :=
  match k with Some k => Ok k | None => Undef end.

(** ** Cipher state *)

Definition enable_outgoing_encryption (iv encryption_key mac_key : bytes) : M tstate unit := fun t =>
  match EVP_CIPHER_CTX_new with
  | None => (Throw "Failed to create temporary cipher context"%string, t)
  | Some new_context =>
      let '(status, new_context) := EVP_EncryptInit_ex new_context encryption_key iv in
      let r := negb (status =? 0) in
      if negb r then (Throw "Failed to initialise encryption"%string, t) else
      (Ok tt, with_obj (set_outgoing (outgoing_sequence_ (obj t)) true (Some new_context)
                          (Some mac_key) (obj t)) t)
  end.

Definition enable_incoming_encryption (iv encryption_key mac_key : bytes) : M tstate unit := fun t =>
  match EVP_CIPHER_CTX_new with
  | None => (Throw "Failed to create temporary cipher context"%string, t)
  | Some new_context =>
      let '(status, new_context) := EVP_DecryptInit_ex new_context encryption_key iv in
      let r := negb (status =? 0) in
      if negb r then (Throw "Failed to initialise encryption"%string, t) else
      (Ok tt, with_obj (set_incoming (incoming_sequence_ (obj t)) true (Some new_context)
                          (Some mac_key) (obj t)) t)
  end.

Definition encrypt_outgoing_packet (plaintext_packet : bytes) : M tstate bytes := fun t =>
  let o := obj t in
  if negb (outgoing_encryption_active_ o) then (Throw "Encryption not active"%string, t) else
  match outgoing_cipher_ o with
  | None => (Throw "Outgoing cipher not set"%string, t)
  | Some c =>
      if size plaintext_packet >? int_max then (Throw "Packet is too large for OpenSSL"%string, t) else
      let '(status, ciphertext, c') := EVP_EncryptUpdate c plaintext_packet in
      let t := with_obj (set_outgoing (outgoing_sequence_ o) (outgoing_encryption_active_ o)
                           (Some c') (outgoing_mac_key_ o) o) t in
      if negb (status =? 1) then (Throw "Failed to encrypt the packet"%string, t) else
      if negb (size ciphertext =? size plaintext_packet)
      then (Throw "AES-CTR output length was unexpected"%string, t) else
      (Ok ciphertext, t)
  end.

Definition decrypt_incoming_bytes (ciphertext : bytes) : M tstate bytes := fun t =>
  let o := obj t in
  if negb (incoming_encryption_active_ o) then (Throw "Encryption not active"%string, t) else
  match incoming_cipher_ o with
  | None => (Throw "Incoming cipher not set"%string, t)
  | Some c =>
      if size ciphertext >? int_max then (Throw "Ciphertext is too large for OpenSSL"%string, t) else
      let '(status, plain, c') := EVP_DecryptUpdate c ciphertext in
      let t := with_obj (set_incoming (incoming_sequence_ o) (incoming_encryption_active_ o)
                           (Some c') (incoming_mac_key_ o) o) t in
      if negb (status =? 1) then (Throw "Failed to decrypt the packet"%string, t) else
      if negb (size plain =? size ciphertext)
      then (Throw "AES-CTR length was unexpected"%string, t) else
      (Ok plain, t)
  end.

(** [incoming_sequence_++] and [outgoing_sequence_++] on [uint32_t]. *)
Definition bump_incoming : M tstate unit := modify (fun t =>
  let o := obj t in
  with_obj (set_incoming (u32 (incoming_sequence_ o + 1)) (incoming_encryption_active_ o)
              (incoming_cipher_ o) (incoming_mac_key_ o) o) t).

Definition bump_outgoing : M tstate unit := modify (fun t =>
  let o := obj t in
  with_obj (set_outgoing (u32 (outgoing_sequence_ o + 1)) (outgoing_encryption_active_ o)
              (outgoing_cipher_ o) (outgoing_mac_key_ o) o) t).

(** ** Packets *)

(** The branch of [receive_packet] before encryption. *)
Definition receive_plain : M tstate bytes :=
  length_bytes ← sock_read packet_length_bytes;
  let packet_length := decode_packet_length length_bytes in
  active ← gets (fun t => incoming_encryption_active_ (obj t));
  lift (validate_packet_length active packet_length);;
  pbody ← sock_read packet_length;
  padding_length ← lift (index pbody 0);
  lift (validate_packet_padding packet_length padding_length);;
  let payload_length := u64 (packet_length - padding_length_bytes - padding_length) in
  payload ← lift (range pbody 1 (1 + payload_length));
  bump_incoming;;
  mret payload.

(** The end of the encrypted branch: the MAC of the whole plaintext, then the
    padding. *)
Definition verify_packet (packet_length : Z) (plaintext_packet server_mac : bytes) : M tstate bytes :=
  seq ← gets (fun t => incoming_sequence_ (obj t));
  key ← gets (fun t => incoming_mac_key_ (obj t));
  key ← lift (key_of key);
  calculated_mac ← lift (calculate_hmac seq plaintext_packet key);
  if negb (sodium_memcmp server_mac calculated_mac =? 0)
  then mthrow "SSH packet MAC verification failed"%string else
  padding_length ← lift (index plaintext_packet packet_length_bytes);
  lift (validate_packet_padding packet_length padding_length);;
  let payload_length := u64 (packet_length - padding_length_bytes - padding_length) in
  let payload_start := packet_length_bytes + padding_length_bytes in
  payload ← lift (range plaintext_packet payload_start (payload_start + payload_length));
  bump_incoming;;
  mret payload.

(** The branch of [receive_packet] under encryption. *)
Definition receive_encrypted : M tstate bytes :=
  ciphertext ← sock_read aes_block_size;
  plaintext_bytes ← decrypt_incoming_bytes ciphertext;
  length_bytes ← lift (copy_n plaintext_bytes 0 4);
  let packet_length := decode_packet_length length_bytes in
  active ← gets (fun t => incoming_encryption_active_ (obj t));
  lift (validate_packet_length active packet_length);;
  let total_encrypted_bytes := u32 (packet_length_bytes + packet_length) in
  let remaining_bytes := u32 (total_encrypted_bytes - aes_block_size) in
  remaining_ciphertext ← sock_read remaining_bytes;
  remaining_plaintext_bytes ← decrypt_incoming_bytes remaining_ciphertext;
  let plaintext_packet := plaintext_bytes ++ remaining_plaintext_bytes in
  if negb (size plaintext_packet =? total_encrypted_bytes)
  then mthrow "Packet size is incorrect"%string else
  server_mac ← sock_read 32;
  verify_packet packet_length plaintext_packet server_mac.

Definition receive_packet : M tstate bytes :=
  active ← gets (fun t => incoming_encryption_active_ (obj t));
  if negb active then receive_plain else receive_encrypted.

(** The packet [send_packet] builds from a payload and its padding. *)
Definition build_packet (packet_length padding_length : Z) (payload padding : bytes) : bytes :=
  let packet := encode_packet_length (u32 packet_length) in
  let packet := packet ++ [byte_of padding_length] in
  let packet := packet ++ payload in
  packet ++ padding.

Definition send_packet (payload : bytes) : M tstate unit :=
  lift (validate_payload_size (size payload));;
  active ← gets (fun t => outgoing_encryption_active_ (obj t));
  let padding_length := calculate_padding_length active (size payload) in
  let packet_length := u64 (padding_length_bytes + size payload + padding_length) in
  if u64 (packet_length + packet_length_bytes) >? max_packet_size
  then mthrow "Packet size exceeds maximum"%string else
  if padding_length >? uint8_max then mthrow "Padding size exceeds maximum"%string else
  if packet_length >? uint32_max then mthrow "Packet length exceeds maximum"%string else
  padding ← generate_padding padding_length;
  let packet := build_packet packet_length padding_length payload padding in
  if negb (size packet =? u64 (packet_length + packet_length_bytes))
  then mthrow "Internal: packet constructed incorrectly"%string else
  (if active then
     seq ← gets (fun t => outgoing_sequence_ (obj t));
     key ← gets (fun t => outgoing_mac_key_ (obj t));
     key ← lift (key_of key);
     hmac ← lift (calculate_hmac seq packet key);
     encrypted_packet ← encrypt_outgoing_packet packet;
     sock_write (encrypted_packet ++ hmac)
   else sock_write packet);;
  bump_outgoing.

(** ** Specification: RFC 4253, section 6 *)

(** The binary packet of a payload and its padding, and when a pair is a legal
    one for the cipher block size [b] and this implementation's size limit. *)
Definition frame (payload padding : bytes) : bytes :=
  be32 (1 + size payload + size padding) ++ byte_of (size padding) :: payload ++ padding.

Definition frame_ok (b : Z) (payload padding : bytes) : Prop :=
  1 <= size payload /\ 4 <= size padding <= 255 /\
  size (frame payload padding) mod b = 0 /\ size (frame payload padding) <= max_packet_size.

Definition block (active : bool) : Z := if active then aes_block_size else block_size.

(** Encryption is only active with a cipher and a MAC key in place, and the
    sequence numbers are 32-bit values. *)
Definition wf_transport (o : Transport) : Prop :=
  0 <= incoming_sequence_ o < 2 ^ 32 /\ 0 <= outgoing_sequence_ o < 2 ^ 32 /\
  (outgoing_encryption_active_ o = true ->
    is_Some (outgoing_cipher_ o) /\ is_Some (outgoing_mac_key_ o)) /\
  (incoming_encryption_active_ o = true ->
    is_Some (incoming_cipher_ o) /\ is_Some (incoming_mac_key_ o)).

End transport.

#[global] Arguments tstate {_} _.
#[global] Arguments Transport_new {_}.

(** ** Facts *)

Section facts.
Context {C : Crypto} {CS : CryptoSizes} {S : Type} {BS : ByteStream S} {BL : ByteStreamLaws S}.
Implicit Types (t : tstate S) (o : Transport).

Lemma size_frame payload padding : size (frame payload padding) = 5 + size payload + size padding.
Proof. unfold frame. rewrite size_app, size_be32, size_cons, size_app. lia. Qed.

Lemma block_cases active : block active = 8 \/ block active = 16.
Proof. destruct active; auto. Qed.

(** The smallest legal packet has 16 bytes. *)
Lemma frame_ok_min active payload padding :
  frame_ok (block active) payload padding -> 16 <= size (frame payload padding).
Proof.
  intros (Hp & Hq & Hm & _). rewrite size_frame in *.
  destruct (block_cases active) as [E|E]; rewrite E in Hm; Z.div_mod_to_equations; lia.
Qed.

Lemma padding_length_spec active n :
  0 <= n < 2 ^ 63 ->
  let p := calculate_padding_length active n in
  4 <= p < 4 + block active /\ (n + 5 + p) mod block active = 0.
Proof.
  intros Hn. unfold calculate_padding_length, packet_length_bytes, padding_length_bytes, min_padding_length.
  rewrite (u64_small (n + 4 + 1)), (u64_small (4 + (n + 4 + 1))) by lia.
  fold (block active). set (b := block active).
  assert (Hb : b = 8 \/ b = 16) by apply block_cases.
  clearbody b. set (r := (4 + (n + 4 + 1)) mod b).
  assert (Hr : 0 <= r < b) by (apply Z.mod_pos_bound; lia).
  assert (Hq : 0 <= (b - r) mod b < b) by (apply Z.mod_pos_bound; lia).
  cbn zeta. rewrite u64_small by lia. split; [lia|].
  replace (n + 5 + (4 + (b - r) mod b)) with ((4 + (n + 4 + 1)) + (b - r) mod b) by lia.
  rewrite Z.add_mod_idemp_r, <- Z.add_mod_idemp_l by lia. fold r.
  replace (r + (b - r)) with b by lia. apply Z.mod_same. lia.
Qed.

Lemma validate_packet_length_ok active n :
  12 <= n -> n + 4 <= 35000 -> (n + 4) mod block active = 0 -> validate_packet_length active n = Ok tt.
Proof.
  intros H1 H2 H3. unfold validate_packet_length, min_packet_size, packet_length_bytes, max_packet_size.
  rewrite u64_small by lia. fold (block active). rewrite H3.
  rewrite (proj2 (Z.ltb_ge _ _)) by lia. rewrite Z.gtb_ltb, (proj2 (Z.ltb_ge _ _)) by lia. done.
Qed.

Lemma validate_packet_length_safe active n :
  0 <= n < 2 ^ 32 ->
  safe (validate_packet_length active n) (fun _ => 12 <= n <= 34996 /\ (n + 4) mod block active = 0).
Proof.
  intros Hn. unfold validate_packet_length, min_packet_size, packet_length_bytes, max_packet_size.
  rewrite u64_small by lia. fold (block active). repeat safe_step. cbn. tests. lia.
Qed.

Lemma validate_packet_padding_ok n p :
  4 <= p <= 255 -> p + 2 <= n -> validate_packet_padding n p = Ok tt.
Proof.
  intros H1 H2. unfold validate_packet_padding, min_padding_length, padding_length_bytes, min_payload_bytes.
  rewrite u64_small by lia. rewrite (proj2 (Z.ltb_ge _ _)) by lia.
  by rewrite Z.gtb_ltb, (proj2 (Z.ltb_ge _ _)) by lia.
Qed.

Lemma validate_packet_padding_safe n p :
  0 <= p < 256 -> safe (validate_packet_padding n p) (fun _ => 4 <= p /\ p + 2 <= n).
Proof.
  intros Hp. unfold validate_packet_padding, min_padding_length, padding_length_bytes, min_payload_bytes.
  rewrite u64_small by lia. repeat safe_step. cbn. tests. lia.
Qed.

Lemma build_packet_frame payload padding :
  1 + size payload + size padding < 2 ^ 32 ->
  build_packet (1 + size payload + size padding) (size padding) payload padding = frame payload padding.
Proof.
  intros Hlt. pose proof (size_nonneg payload); pose proof (size_nonneg padding).
  unfold build_packet, frame. rewrite u32_small by lia.
  change (encode_packet_length (1 + size payload + size padding))
    with (encode_uint32 (1 + size payload + size padding)).
  rewrite encode_uint32_be32, <- !app_assoc. done.
Qed.

(** *** Reading and writing the socket of a transport *)

Lemma sock_read_ok t n w rest :
  incoming (sock_ t) = w ++ rest -> size w = n -> exists s',
  sock_read n t = (Ok w, with_sock s' t) /\ incoming s' = rest /\
  outgoing s' = outgoing (sock_ t) /\ room s' = room (sock_ t).
Proof.
  intros Hin Hn. destruct (stream_read_ok n (sock_ t)) as (s' & Hrun & Hs' & Ho & Hr).
  { rewrite Hin, size_app. pose proof (size_nonneg w); pose proof (size_nonneg rest). lia. }
  exists s'. unfold sock_read, zoom. rewrite Hrun, Hs', Hin, <- Hn, take_size_app, drop_size_app. done.
Qed.

Lemma sock_read_cases t n :
  0 <= n -> exists r s', sock_read n t = (r, with_sock s' t) /\ outgoing s' = outgoing (sock_ t) /\
  match r with
  | Ok w => size w = n /\ incoming (sock_ t) = w ++ incoming s' /\ room s' = room (sock_ t)
  | Undef => False
  | _ => size (incoming (sock_ t)) < n
  end.
Proof.
  intros Hn. destruct (Z.le_gt_cases n (size (incoming (sock_ t)))).
  - destruct (stream_read_ok n (sock_ t)) as (s' & Hrun & Hs' & Ho & Hr); [done|].
    eexists (Ok _), s'. unfold sock_read, zoom. rewrite Hrun. cbn -[take].
    rewrite Hs', take_drop, size_take by lia. done.
  - destruct (stream_read_short n (sock_ t)) as (r & s' & Hrun & Hr & Ho); [lia|].
    exists r, s'. unfold sock_read, zoom. rewrite Hrun.
    destruct Hr as [->|[e ->]]; (split_and!; [done..|lia]).
Qed.

Lemma sock_write_ok t d :
  size d <= room (sock_ t) -> exists s',
  sock_write d t = (Ok tt, with_sock s' t) /\ outgoing s' = outgoing (sock_ t) ++ d /\
  incoming s' = incoming (sock_ t) /\ room s' = room (sock_ t) - size d.
Proof.
  intros Hd. destruct (stream_write_ok d (sock_ t)) as (s' & Hrun & Hs); [done|].
  exists s'. unfold sock_write, zoom. by rewrite Hrun.
Qed.

Lemma sock_write_cases t d :
  exists r s', sock_write d t = (r, with_sock s' t) /\ incoming s' = incoming (sock_ t) /\
  match r with
  | Ok _ => outgoing s' = outgoing (sock_ t) ++ d /\ room s' = room (sock_ t) - size d /\ size d <= room (sock_ t)
  | Undef => False
  | _ => room (sock_ t) < size d /\ exists k, outgoing s' = outgoing (sock_ t) ++ take k d
  end.
Proof.
  destruct (Z.le_gt_cases (size d) (room (sock_ t))).
  - destruct (stream_write_ok d (sock_ t)) as (s' & Hrun & ? & ? & ?); [done|].
    eexists (Ok _), s'. unfold sock_write, zoom. rewrite Hrun. by split_and!.
  - destruct (stream_write_short d (sock_ t)) as (r & s' & k & Hrun & Hr & ? & ?); [lia|].
    exists r, s'. unfold sock_write, zoom. rewrite Hrun.
    destruct Hr as [->|[e ->]]; (split_and!; [done..|lia|eauto]).
Qed.

(** *** Receiving *)

(** The state after a packet was received: the socket has moved on and the
    packet is counted. *)
Definition received (s : S) (c : option cipher_ctx) t : tstate S :=
  with_obj (set_incoming (u32 (incoming_sequence_ (obj t) + 1)) (incoming_encryption_active_ (obj t))
              c (incoming_mac_key_ (obj t)) (obj t)) (with_sock s t).

Lemma frame_split payload padding :
  1 + size payload + size padding < 2 ^ 32 ->
  decode_packet_length (take 4 (frame payload padding)) = 1 + size payload + size padding.
Proof.
  intros Hlt. change 4%nat with (Z.to_nat (size (be32 (1 + size payload + size padding)))).
  unfold frame. rewrite take_size_app. change decode_packet_length with decode_uint32.
  apply decode_be32. pose proof (size_nonneg payload); pose proof (size_nonneg padding). lia.
Qed.

Lemma frame_payload payload padding before :
  range (before ++ payload ++ padding) (size before) (size before + size payload) = Ok payload.
Proof.
  pose proof (size_nonneg before); pose proof (size_nonneg payload); pose proof (size_nonneg padding).
  rewrite range_ok by (rewrite ?size_app; lia). rewrite drop_size_app.
  replace (size before + size payload - size before) with (size payload) by lia. by rewrite take_size_app.
Qed.

Lemma frame_padding_length payload padding :
  4 <= size padding <= 255 -> index (frame payload padding) 4 = Ok (size padding).
Proof.
  intros Hq. unfold frame. set (n := 1 + size payload + size padding).
  pose proof (index_app_r (be32 n) (byte_of (size padding) :: payload ++ padding) 0) as Hi.
  rewrite size_be32, index_0, u8_byte_of_small in Hi by lia. by apply Hi.
Qed.

Lemma frame_range payload padding :
  range (frame payload padding) (4 + 1) (4 + 1 + size payload) = Ok payload.
Proof.
  set (n := 1 + size payload + size padding).
  rewrite <- (frame_payload payload padding (be32 n ++ [byte_of (size padding)])).
  unfold frame. rewrite <- !app_assoc. done.
Qed.

Lemma frame_ok_bounds active payload padding :
  frame_ok (block active) payload padding ->
  1 <= size payload /\ 4 <= size padding <= 255 /\ 16 <= size (frame payload padding) <= 35000 /\
  validate_packet_length active (1 + size payload + size padding) = Ok tt /\
  validate_packet_padding (1 + size payload + size padding) (size padding) = Ok tt.
Proof.
  intros Hok. pose proof (frame_ok_min _ _ _ Hok). destruct Hok as (Hp & Hq & Hm & Hmax).
  unfold max_packet_size in *. rewrite size_frame in *. split_and!; try done; try lia.
  - apply validate_packet_length_ok; [lia|lia|]. by replace (1 + size payload + size padding + 4)
      with (5 + size payload + size padding) by lia.
  - apply validate_packet_padding_ok; lia.
Qed.

Lemma receive_plain_frame t payload padding rest :
  incoming_encryption_active_ (obj t) = false -> frame_ok (block false) payload padding ->
  incoming (sock_ t) = frame payload padding ++ rest -> exists s',
  receive_packet t = (Ok payload, received s' (incoming_cipher_ (obj t)) t) /\
  incoming s' = rest /\ outgoing s' = outgoing (sock_ t) /\ room s' = room (sock_ t).
Proof.
  intros Hact Hok Hin. pose proof (frame_ok_bounds _ _ _ Hok) as (Hp & Hq & Hsz & Hvl & Hvp).
  rewrite size_frame in Hsz. set (n := 1 + size payload + size padding) in *.
  unfold frame in Hin. fold n in Hin. rewrite <- app_assoc in Hin.
  destruct (sock_read_ok _ 4 _ _ Hin) as (s1 & Hr1 & Hin1 & Ho1 & Hm1); [done|].
  destruct (sock_read_ok (with_sock s1 t) n _ _ Hin1) as (s2 & Hr2 & Hin2 & Ho2 & Hm2).
  { rewrite size_cons, size_app. lia. }
  exists s2. unfold receive_packet. rewrite M_gets_run, Hact. cbn [negb]. unfold receive_plain.
  rewrite (M_bind_run _ _ _ _ _ Hr1), M_gets_run. cbn zeta.
  change (decode_packet_length (be32 n)) with (decode_uint32 (be32 n)). rewrite decode_be32 by lia.
  cbn [obj with_sock]. rewrite Hact, (M_lift_run _ _ _ _ Hvl), (M_bind_run _ _ _ _ _ Hr2).
  cbn [app]. rewrite (M_lift_run _ _ _ _ (index_0 _ _)), u8_byte_of_small by lia.
  rewrite (M_lift_run _ _ _ _ Hvp). unfold padding_length_bytes. rewrite u64_small by lia.
  replace (n - 1 - size padding) with (size payload) by lia.
  pose proof (frame_payload payload padding [byte_of (size padding)]) as Hpay.
  rewrite (M_lift_run _ _ _ _ Hpay).
  cbn in Ho2, Hm2. split_and!; [done|congruence..].
Qed.
(** The state with another incoming cipher context. *)
Definition with_incoming_cipher (c : cipher_ctx) t : tstate S :=
  with_obj (set_incoming (incoming_sequence_ (obj t)) (incoming_encryption_active_ (obj t))
              (Some c) (incoming_mac_key_ (obj t)) (obj t)) t.

Lemma decrypt_ok {CL : CipherLaws} t d e plain c e' :
  incoming_encryption_active_ (obj t) = true -> incoming_cipher_ (obj t) = Some d ->
  in_step e d -> EVP_EncryptUpdate e plain = (1, c, e') -> size plain <= 35000 ->
  exists d', decrypt_incoming_bytes c t = (Ok plain, with_incoming_cipher d' t) /\ in_step e' d'.
Proof.
  intros Hact Hd Hstep Henc Hsz. destruct (decrypt_encrypt _ _ _ _ _ Hstep Henc) as (d' & Hdec & Hstep').
  exists d'. split; [|done]. unfold decrypt_incoming_bytes. rewrite Hact, Hd. cbn [negb].
  rewrite (encrypt_length _ _ _ _ Henc). unfold int_max.
  rewrite Z.gtb_ltb, (proj2 (Z.ltb_ge _ _)) by lia. rewrite Hdec. cbn [negb Z.eqb Pos.eqb].
  rewrite Z.eqb_refl. unfold with_incoming_cipher. by rewrite Hact.
Qed.

Lemma size_calculate_hmac seq packet key mac :
  calculate_hmac seq packet key = Ok mac -> size mac = 32.
Proof.
  unfold calculate_hmac. pose proof (size_hmac (encode_uint32 seq ++ packet) key) as Hs.
  destruct (crypto_auth_hmacsha256 _ _) as [st r]. destruct (negb _); [done|]. by intros [= <-].
Qed.

Lemma calculate_hmac_safe seq packet key : calculate_hmac seq packet key <> Undef.
Proof.
  unfold calculate_hmac. destruct (crypto_auth_hmacsha256 _ _) as [st r]. by destruct (negb _).
Qed.

(** An encrypted frame followed by the 32 bytes [sent_mac]: the packet is
    decrypted, and delivered when [sent_mac] is its MAC. *)
(** The checks at the end of the encrypted branch, on the plaintext of a frame. *)
Lemma verify_packet_frame t key payload padding mac sent_mac :
  incoming_mac_key_ (obj t) = Some key -> frame_ok (block true) payload padding ->
  calculate_hmac (incoming_sequence_ (obj t)) (frame payload padding) key = Ok mac -> size sent_mac = 32 ->
  verify_packet (1 + size payload + size padding) (frame payload padding) sent_mac t =
    if beq sent_mac mac then (Ok payload, received (sock_ t) (incoming_cipher_ (obj t)) t)
    else (Throw "SSH packet MAC verification failed", t).
Proof.
  intros Hkey Hok Hmac Hsent. pose proof (frame_ok_bounds _ _ _ Hok) as (Hp & Hq & Hsz & Hvl & Hvp).
  pose proof (size_calculate_hmac _ _ _ _ Hmac) as Hmsz.
  unfold verify_packet. rewrite !M_gets_run, Hkey, (M_lift_run (key_of (Some key)) _ _ key eq_refl), (M_lift_run _ _ _ _ Hmac).
  assert (Hcmp : (sodium_memcmp sent_mac mac =? 0) = beq sent_mac mac).
  { apply eq_bool_prop_intro. rewrite !Is_true_true, beq_true, Z.eqb_eq. apply memcmp_zero. congruence. }
  rewrite Hcmp. destruct (beq sent_mac mac); cbn [negb]; [|done].
  rewrite (M_lift_run _ _ _ _ (frame_padding_length _ _ Hq)), (M_lift_run _ _ _ _ Hvp).
  rewrite size_frame in Hsz. unfold padding_length_bytes. rewrite u64_small by lia.
  replace (1 + size payload + size padding - 1 - size padding) with (size payload) by lia.
  rewrite (M_lift_run _ _ _ _ (frame_range _ _)). by destruct t.
Qed.

Lemma receive_encrypted_checks {CL : CipherLaws} t d e key payload padding c e' mac sent_mac rest :
  incoming_encryption_active_ (obj t) = true -> incoming_cipher_ (obj t) = Some d ->
  incoming_mac_key_ (obj t) = Some key -> in_step e d -> frame_ok (block true) payload padding ->
  EVP_EncryptUpdate e (frame payload padding) = (1, c, e') ->
  calculate_hmac (incoming_sequence_ (obj t)) (frame payload padding) key = Ok mac ->
  size sent_mac = 32 -> incoming (sock_ t) = c ++ sent_mac ++ rest ->
  exists s' d',
  receive_packet t = (if beq sent_mac mac then (Ok payload, received s' (Some d') t)
    else (Throw "SSH packet MAC verification failed", with_incoming_cipher d' (with_sock s' t))) /\
  in_step e' d' /\
  incoming s' = rest /\ outgoing s' = outgoing (sock_ t) /\ room s' = room (sock_ t).
Proof.
  intros Hact Hd Hkey Hstep Hok Henc Hmac Hsent Hin.
  pose proof (frame_ok_bounds _ _ _ Hok) as (Hp & Hq & Hsz & Hvl & Hvp).
  set (n := 1 + size payload + size padding) in *.
  assert (Hn : size (frame payload padding) = n + 4) by (rewrite size_frame; lia).
  destruct (split_at_size (frame payload padding) 16) as (p1 & p2 & Hsplit & Hp1); [lia|].
  assert (Hp2 : size p2 = n + 4 - 16) by (rewrite <- Hn, Hsplit, size_app; lia).
  assert (Hdec : decode_packet_length (take 4 p1) = n).
  { unfold n. rewrite <- (frame_split payload padding), Hsplit by lia. by rewrite take_app_le by (unfold size in Hp1; lia). }
  pose proof (size_calculate_hmac _ _ _ _ Hmac) as Hmsz.
  rewrite Hsplit in Henc, Hmac. destruct (encrypt_app _ _ _ _ _ Henc) as (c1 & c2 & e1 & -> & Henc1 & Henc2).
  pose proof (encrypt_length _ _ _ _ Henc1) as Hc1. pose proof (encrypt_length _ _ _ _ Henc2) as Hc2.
  rewrite <- app_assoc in Hin.
  destruct (sock_read_ok t 16 _ _ Hin) as (s1 & Hr1 & Hin1 & Ho1 & Hm1); [congruence|].
  destruct (decrypt_ok (with_sock s1 t) d e p1 c1 e1 Hact Hd Hstep Henc1) as (d1 & Hd1 & Hstep1); [lia|].
  set (t1 := with_incoming_cipher d1 (with_sock s1 t)) in *.
  destruct (sock_read_ok t1 (n + 4 - 16) _ _ Hin1) as (s2 & Hr2 & Hin2 & Ho2 & Hm2); [congruence|].
  destruct (decrypt_ok (with_sock s2 t1) d1 e1 p2 c2 e') as (d2 & Hd2 & Hstep2); [done..|lia|].
  set (t2 := with_incoming_cipher d2 (with_sock s2 t1)) in *.
  destruct (sock_read_ok t2 32 _ _ Hin2) as (s3 & Hr3 & Hin3 & Ho3 & Hm3); [done|].
  exists s3, d2. unfold receive_packet. rewrite M_gets_run, Hact. cbn [negb]. unfold receive_encrypted.
  rewrite (M_bind_run _ _ _ _ _ Hr1), (M_bind_run _ _ _ _ _ Hd1).
  rewrite (M_lift_run (copy_n p1 0 4) _ _ (take 4 p1)) by (unfold copy_n; by rewrite range_ok by lia).
  cbn zeta. rewrite Hdec, M_gets_run. change (incoming_encryption_active_ (obj t1)) with (incoming_encryption_active_ (obj t)).
  rewrite Hact, (M_lift_run _ _ _ _ Hvl). unfold packet_length_bytes, aes_block_size, padding_length_bytes.
  rewrite !(u32_small (4 + n)), (u32_small (4 + n - 16)) by lia.
  replace (4 + n - 16) with (n + 4 - 16) by lia.
  rewrite (M_bind_run _ _ _ _ _ Hr2), (M_bind_run _ _ _ _ _ Hd2).
  rewrite <- Hsplit in *. rewrite Hn, (proj2 (Z.eqb_eq (n + 4) (4 + n))) by lia. cbn [negb].
  rewrite (M_bind_run _ _ _ _ _ Hr3). unfold n.
  rewrite (verify_packet_frame (with_sock s3 t2) key payload padding mac sent_mac) by done.
  cbn in Ho1, Ho2, Ho3, Hm1, Hm2, Hm3. destruct (beq sent_mac mac); split_and!; done || congruence.
Qed.
Lemma receive_encrypted_frame {CL : CipherLaws} t d e key payload padding c e' mac rest :
  incoming_encryption_active_ (obj t) = true -> incoming_cipher_ (obj t) = Some d ->
  incoming_mac_key_ (obj t) = Some key -> in_step e d -> frame_ok (block true) payload padding ->
  EVP_EncryptUpdate e (frame payload padding) = (1, c, e') ->
  calculate_hmac (incoming_sequence_ (obj t)) (frame payload padding) key = Ok mac ->
  incoming (sock_ t) = c ++ mac ++ rest ->
  exists s' d', receive_packet t = (Ok payload, received s' (Some d') t) /\ in_step e' d' /\
  incoming s' = rest /\ outgoing s' = outgoing (sock_ t) /\ room s' = room (sock_ t).
Proof.
  intros. destruct (receive_encrypted_checks t d e key payload padding c e' mac mac rest)
    as (s' & d' & Hr & Hrest); try done; [by eapply size_calculate_hmac|].
  rewrite beq_refl in Hr. by exists s', d'.
Qed.

(** *** Sending *)

(** The state after a packet was sent. *)
Definition counted (s : S) (r : rng) (c : option cipher_ctx) t : tstate S :=
  with_obj (set_outgoing (u32 (outgoing_sequence_ (obj t) + 1)) (outgoing_encryption_active_ (obj t))
              c (outgoing_mac_key_ (obj t)) (obj t)) (with_rand r (with_sock s t)).

(** What a sender puts on the wire for a payload: the frame with [padding],
    or its encryption followed by the MAC. *)
Definition sent_as (o : Transport) (payload padding w : bytes) (c : option cipher_ctx) : Prop :=
  if outgoing_encryption_active_ o then
    exists e e' key cipher mac,
      outgoing_cipher_ o = Some e /\ outgoing_mac_key_ o = Some key /\ c = Some e' /\
      EVP_EncryptUpdate e (frame payload padding) = (1, cipher, e') /\
      calculate_hmac (outgoing_sequence_ o) (frame payload padding) key = Ok mac /\
      w = cipher ++ mac
  else w = frame payload padding /\ c = outgoing_cipher_ o.

Lemma encrypt_Ok t plain cipher t' :
  encrypt_outgoing_packet plain t = (Ok cipher, t') ->
  exists e e', outgoing_cipher_ (obj t) = Some e /\ EVP_EncryptUpdate e plain = (1, cipher, e') /\
    t' = with_obj (set_outgoing (outgoing_sequence_ (obj t)) (outgoing_encryption_active_ (obj t))
                    (Some e') (outgoing_mac_key_ (obj t)) (obj t)) t.
Proof.
  unfold encrypt_outgoing_packet. destruct (negb _); [done|].
  destruct (outgoing_cipher_ (obj t)) as [e|] eqn:He; [|done].
  destruct (_ >? _); [done|]. destruct (EVP_EncryptUpdate e plain) as [[st c] e'] eqn:Henc.
  destruct (Z.eqb_spec st 1) as [->|]; [|done]. cbn [negb].
  destruct (negb _); [done|]. intros [= -> <-]. eauto.
Qed.

(** The size tests of [send_packet] in terms of the size of the frame. *)
Lemma send_packet_start t payload :
  size payload < 2 ^ 63 ->
  let active := outgoing_encryption_active_ (obj t) in
  let pad := calculate_padding_length active (size payload) in
  let '(padding, r) := randombytes_buf pad (rand t) in
  send_packet payload t =
    if size payload <? 1 then (Throw "Payload cannot be empty", t) else
    if 5 + size payload + pad >? max_packet_size then (Throw "Packet size exceeds maximum", t) else
    (((if active then
         seq ← gets (fun t => outgoing_sequence_ (obj t));
         key ← gets (fun t => outgoing_mac_key_ (obj t));
         key ← lift (key_of key);
         hmac ← lift (calculate_hmac seq (frame payload padding) key);
         encrypted_packet ← encrypt_outgoing_packet (frame payload padding);
         sock_write (encrypted_packet ++ hmac)
       else sock_write (frame payload padding));; bump_outgoing) : M (tstate S) unit) (with_rand r t).
Proof.
  intros Hsz active pad. pose proof (size_nonneg payload) as Hnn.
  destruct (padding_length_spec active (size payload)) as [Hpad _]; [lia|]. fold pad in Hpad.
  assert (Hpad' : 4 <= pad < 20) by (destruct (block_cases active); lia).
  destruct (randombytes_buf pad (rand t)) as [padding r] eqn:Hrand.
  pose proof (size_randombytes pad (rand t)) as Hq. rewrite Hrand in Hq. cbn in Hq.
  specialize (Hq ltac:(lia)).
  unfold send_packet, validate_payload_size.
  destruct (Z.ltb_spec (size payload) 1); [done|].
  rewrite (M_lift_run (mret tt) _ _ tt eq_refl), M_gets_run. fold active. fold pad. cbn zeta.
  unfold padding_length_bytes, packet_length_bytes, uint8_max, uint32_max.
  rewrite !(u64_small (1 + size payload + pad)), !(u64_small (1 + size payload + pad + 4)) by lia.
  replace (1 + size payload + pad + 4) with (5 + size payload + pad) by lia.
  destruct (Z.gtb_spec (5 + size payload + pad) max_packet_size) as [|Hmax]; [done|].
  unfold max_packet_size in Hmax.
  rewrite !Z.gtb_ltb, !(proj2 (Z.ltb_ge _ _)) by lia.
  rewrite (M_bind_run (generate_padding pad) _ _ padding (with_rand r t))
    by (unfold generate_padding; by rewrite Hrand).
  assert (build_packet (1 + size payload + pad) pad payload padding = frame payload padding) as ->
    by (rewrite <- Hq; apply build_packet_frame; lia).
  rewrite size_frame, Hq, Z.eqb_refl. done.
Qed.
Lemma send_packet_Ok t payload t' :
  size payload < 2 ^ 63 -> send_packet payload t = (Ok tt, t') ->
  exists padding w s' r c,
    frame_ok (block (outgoing_encryption_active_ (obj t))) payload padding /\
    sent_as (obj t) payload padding w c /\ t' = counted s' r c t /\
    outgoing s' = outgoing (sock_ t) ++ w /\ incoming s' = incoming (sock_ t).
Proof.
  intros Hsz Hrun. pose proof (size_nonneg payload) as Hnn.
  pose proof (send_packet_start t payload Hsz) as Hstart. cbn zeta in Hstart.
  set (active := outgoing_encryption_active_ (obj t)) in *.
  set (pad := calculate_padding_length active (size payload)) in *.
  destruct (padding_length_spec active (size payload)) as [Hpad Hmod]; [lia|]. fold pad in Hpad, Hmod.
  pose proof (size_randombytes pad (rand t)) as Hq.
  destruct (randombytes_buf pad (rand t)) as [padding r]. cbn in Hq. specialize (Hq ltac:(lia)).
  rewrite Hstart in Hrun. clear Hstart.
  destruct (Z.ltb_spec (size payload) 1) as [|Hp]; [done|].
  destruct (Z.gtb_spec (5 + size payload + pad) max_packet_size) as [|Hmax]; [done|].
  assert (Hok : frame_ok (block active) payload padding).
  { split_and!; try (destruct (block_cases active); lia); rewrite size_frame, Hq; [|lia].
    rewrite <- Hmod. f_equal. lia. }
  exists padding. apply M_bind_Ok in Hrun as ([] & t1 & Hrun & Hbump).
  unfold sent_as. fold active. destruct active eqn:Hact; unfold active in Hact.
  - rewrite !M_gets_run in Hrun. cbn [obj with_rand] in Hrun.
    destruct (outgoing_mac_key_ (obj t)) as [key|] eqn:Hkey; [|done].
    rewrite (M_lift_run (key_of (Some key)) _ _ key eq_refl) in Hrun.
    destruct (calculate_hmac _ _ _) as [mac| | |] eqn:Hmac; try done.
    rewrite (M_lift_run (Ok mac) _ _ mac eq_refl) in Hrun.
    apply M_bind_Ok in Hrun as (cipher & t2 & Henc & Hwrite).
    apply encrypt_Ok in Henc as (e & e' & He & Henc & ->). cbn [obj with_rand] in *.
    match type of Hwrite with sock_write _ ?x = _ => set (t2 := x) in * end.
    destruct (sock_write_cases t2 (cipher ++ mac)) as (rr & s' & Hw & Hin & Hout).
    rewrite Hw in Hwrite. injection Hwrite as -> <-. destruct Hout as (Hout & _).
    exists (cipher ++ mac), s', r, (Some e'). split_and!; try done.
    + exists e, e', key, cipher, mac. done.
    + injection Hbump as <-. subst t2. unfold counted, with_obj, with_sock, with_rand. cbn. by rewrite Hkey.
  - destruct (sock_write_cases (with_rand r t) (frame payload padding)) as (rr & s' & Hw & Hin & Hout).
    rewrite Hw in Hrun. injection Hrun as -> <-. destruct Hout as (Hout & _).
    exists (frame payload padding), s', r, (outgoing_cipher_ (obj t)). split_and!; try done.
    by injection Hbump as <-.
Qed.
(** *** Receiving anything *)

(** Length bytes and body that pass the checks are a legal frame. *)
Lemma frame_of_body active n b body :
  size (b :: body) = n -> 12 <= n <= 34996 -> (n + 4) mod block active = 0 ->
  4 <= u8 b -> u8 b + 2 <= n ->
  exists payload padding, body = payload ++ padding /\ size padding = u8 b /\
    size payload = n - 1 - u8 b /\ be32 n ++ b :: body = frame payload padding /\
    frame_ok (block active) payload padding.
Proof.
  rewrite size_cons. intros Hn Hb Hm Hq Hp. pose proof (u8_range b).
  destruct (split_at_size body (n - 1 - u8 b)) as (payload & padding & -> & Hs); [lia|].
  rewrite size_app in Hn. exists payload, padding.
  assert (Hf : be32 n ++ b :: payload ++ padding = frame payload padding).
  { unfold frame. replace (1 + size payload + size padding) with n by lia.
    replace (size padding) with (u8 b) by lia. by rewrite byte_of_u8. }
  split; [done|]. split; [lia|]. split; [lia|]. split; [done|].
  assert (size (frame payload padding) = n + 4) as Hsz by (rewrite size_frame; lia).
  unfold frame_ok, max_packet_size. rewrite Hsz. split_and!; lia || done.
Qed.

(** Accepting a payload in state [t], leaving [t']. *)
Definition accepted t (payload : bytes) t' : Prop :=
  let o := obj t in
  exists padding,
    frame_ok (block (incoming_encryption_active_ o)) payload padding /\
    incoming_sequence_ (obj t') = u32 (incoming_sequence_ o + 1) /\
    if incoming_encryption_active_ o then
      exists cipher mac key, incoming (sock_ t) = cipher ++ mac ++ incoming (sock_ t') /\
        size cipher = size (frame payload padding) /\ incoming_mac_key_ o = Some key /\
        calculate_hmac (incoming_sequence_ o) (frame payload padding) key = Ok mac
    else incoming (sock_ t) = frame payload padding ++ incoming (sock_ t').

(** What receiving leaves alone, whatever happens. *)
Definition sender_unchanged t t' : Prop :=
  outgoing (sock_ t') = outgoing (sock_ t) /\ rand t' = rand t /\
  exists seq c, 0 <= seq < 2 ^ 32 /\ (is_Some (incoming_cipher_ (obj t)) -> is_Some c) /\
    obj t' = set_incoming seq (incoming_encryption_active_ (obj t)) c (incoming_mac_key_ (obj t)) (obj t).

Lemma sender_unchanged_wf t t' :
  wf_transport (obj t) -> sender_unchanged t t' -> wf_transport (obj t').
Proof.
  intros (Hi & Ho & Hout & Hin) (_ & _ & seq & c & Hseq & Hc & ->).
  split_and!; cbn; try done; try lia. intros Hact. destruct (Hin Hact). auto.
Qed.

(** Reading and decrypting are not sending. *)
Lemma sender_unchanged_sock t : wf_transport (obj t) ->
  forall s', outgoing s' = outgoing (sock_ t) -> sender_unchanged t (with_sock s' t).
Proof.
  intros (Hseq & _) s' Hs'. split_and!; [done..|]. exists (incoming_sequence_ (obj t)), (incoming_cipher_ (obj t)).
  cbn. by destruct (obj t).
Qed.

Lemma receive_plain_cases t :
  wf_transport (obj t) -> incoming_encryption_active_ (obj t) = false ->
  match receive_plain t with
  | (Ok payload, t') => accepted t payload t' /\ sender_unchanged t t'
  | (Undef, _) => False
  | (_, t') => sender_unchanged t t'
  end.
Proof.
  intros Hwf Hact. pose proof Hwf as (Hseq & _).
  pose proof (sender_unchanged_sock t Hwf) as Hsame.
  unfold receive_plain, packet_length_bytes.
  destruct (sock_read_cases t 4) as (r & s1 & Hr & Ho1 & Hcase); [lia|].
  rewrite (M_bind_res _ _ _ _ _ Hr). destruct r as [w|e| |]; try by auto. destruct Hcase as (Hw & Hin & _).
  rewrite M_gets_run. cbn [obj with_sock]. rewrite Hact. cbn zeta.
  change (decode_packet_length w) with (decode_uint32 w).
  pose proof (decode_uint32_range w Hw) as Hn. set (n := decode_uint32 w) in *.
  pose proof (validate_packet_length_safe false n Hn) as Hv. rewrite M_lift_res.
  destruct (validate_packet_length false n) as [[]|e| |]; try done; [|by auto]. cbn in Hv. destruct Hv as [Hv Hm].
  destruct (sock_read_cases (with_sock s1 t) n) as (r & s2 & Hr2 & Ho2 & Hcase); [lia|]. cbn in Ho2.
  rewrite (M_bind_res _ _ _ _ _ Hr2). assert (Hs2 : outgoing s2 = outgoing (sock_ t)) by congruence.
  destruct r as [pbody|e| |]; try (done || by apply (Hsame s2)). destruct Hcase as (Hb & Hin2 & _). cbn in Hin2.
  destruct pbody as [|b body]; [rewrite size_nil in Hb; lia|].
  rewrite (M_lift_run _ _ _ _ (index_0 _ _)), M_lift_res. pose proof (u8_range b).
  pose proof (validate_packet_padding_safe n (u8 b) ltac:(lia)) as Hp.
  destruct (validate_packet_padding n (u8 b)) as [[]|e| |]; try done; [|by apply (Hsame s2)].
  cbn in Hp. destruct Hp as [Hp1 Hp2].
  destruct (frame_of_body false n b body) as (payload & padding & -> & Hq & Hps & Hf & Hok); try done.
  unfold padding_length_bytes. rewrite u64_small, <- Hps by lia.
  rewrite (M_lift_run _ _ _ _ (frame_payload payload padding [b])). cbn.
  split; [exists padding; rewrite Hact; split_and!; try done; cbn|].
  - rewrite <- Hf, Hin, Hin2, <- app_assoc. f_equal. unfold n. rewrite decode_uint32_be_value by done.
    symmetry. by apply be32_be_value.
  - split_and!; [done..|]. eexists _, (incoming_cipher_ (obj t)). split; [apply u32_range|]. done.
Qed.
Lemma decrypt_cases t c :
  wf_transport (obj t) -> incoming_encryption_active_ (obj t) = true ->
  exists r d, decrypt_incoming_bytes c t = (r, with_incoming_cipher d t) /\
    match r with Ok plain => size plain = size c | Undef | Blocked => False | Throw _ => True end.
Proof.
  intros (_ & _ & _ & Hin) Hact. destruct (Hin Hact) as [[d Hd] _].
  unfold decrypt_incoming_bytes. rewrite Hact, Hd. cbn [negb].
  assert (Hsame : with_incoming_cipher d t = t).
  { unfold with_incoming_cipher, set_incoming, with_obj. rewrite <- Hd. by destruct t as [? ? []]. }
  destruct (_ >? _); [exists (Throw "Ciphertext is too large for OpenSSL"), d; by rewrite Hsame|].
  destruct (EVP_DecryptUpdate d c) as [[st plain] d']. unfold with_incoming_cipher. rewrite Hact.
  destruct (negb (st =? 1)); [by eexists (Throw _), d'|].
  destruct (Z.eqb_spec (size plain) (size c)); [|by eexists (Throw _), d'].
  by eexists (Ok plain), d'.
Qed.

(** A packet whose length bytes pass the check, cut at the 16th byte. *)
Lemma plaintext_frame active p1 p2 :
  let n := decode_packet_length (take 4 p1) in
  size p1 = 16 -> size p2 = n - 12 -> 12 <= n <= 34996 -> (n + 4) mod block active = 0 ->
  exists b, index (p1 ++ p2) 4 = Ok (u8 b) /\
  (4 <= u8 b -> u8 b + 2 <= n ->
   exists payload padding, p1 ++ p2 = frame payload padding /\ frame_ok (block active) payload padding /\
     size payload = n - 1 - u8 b).
Proof.
  intros n H1 H2 Hn Hm. destruct (split_at_size p1 4) as (w & p1' & -> & Hw); [lia|].
  rewrite size_app in H1. destruct p1' as [|b p1']; [rewrite size_nil in H1; lia|].
  assert (Ht : take 4 (w ++ b :: p1') = w) by (rewrite take_app_le, take_ge; unfold size in Hw; lia || done).
  subst n. rewrite Ht in *. change (decode_packet_length w) with (decode_uint32 w) in *.
  exists b. split.
  - rewrite <- app_assoc. rewrite <- Hw at 1. rewrite <- (Z.add_0_r (size w)).
    by rewrite index_app_r by lia.
  - intros Hq Hp. destruct (frame_of_body active (decode_uint32 w) b (p1' ++ p2))
      as (payload & padding & _ & _ & Hs & Hf & Hok); try done.
    { rewrite size_cons in H1. rewrite size_cons, size_app. lia. }
    exists payload, padding. split_and!; try done. rewrite <- Hf, <- app_assoc, decode_uint32_be_value by done.
    by rewrite be32_be_value.
Qed.

(** What the checks at the end of the encrypted branch establish. *)
Lemma verify_packet_cases t key p1 p2 server_mac :
  let n := decode_packet_length (take 4 p1) in
  incoming_mac_key_ (obj t) = Some key -> size p1 = 16 -> size p2 = n - 12 ->
  12 <= n <= 34996 -> (n + 4) mod block true = 0 -> size server_mac = 32 ->
  match verify_packet n (p1 ++ p2) server_mac t with
  | (Ok payload, t') => exists padding, p1 ++ p2 = frame payload padding /\ frame_ok (block true) payload padding /\
      calculate_hmac (incoming_sequence_ (obj t)) (frame payload padding) key = Ok server_mac /\
      t' = received (sock_ t) (incoming_cipher_ (obj t)) t
  | (Undef, _) => False
  | (_, t') => t' = t
  end.
Proof.
  intros n Hkey Hp1 Hp2 Hn Hm Hsz. unfold verify_packet. rewrite !M_gets_run, Hkey.
  rewrite (M_lift_run (key_of (Some key)) _ _ key eq_refl), M_lift_res.
  destruct (calculate_hmac _ _ _) as [mac|e| |] eqn:Hmac; [|done|by apply calculate_hmac_safe in Hmac|done].
  destruct (Z.eqb_spec (sodium_memcmp server_mac mac) 0) as [Heq|]; [|done].
  apply memcmp_zero in Heq as ->; [|by rewrite (size_calculate_hmac _ _ _ _ Hmac)]. cbn [negb].
  destruct (plaintext_frame true p1 p2) as (b & Hb & Hframe); [done..|]. fold n in Hframe.
  unfold packet_length_bytes. rewrite (M_lift_run _ _ _ _ Hb), M_lift_res. pose proof (u8_range b).
  pose proof (validate_packet_padding_safe n (u8 b) ltac:(lia)) as Hp.
  destruct (validate_packet_padding n (u8 b)) as [[]|e| |]; try done.
  cbn in Hp. destruct Hp as [Hq Hqn]. destruct (Hframe Hq Hqn) as (payload & padding & Hf & Hok & Hps).
  unfold padding_length_bytes. rewrite u64_small, <- Hps, Hf by lia.
  rewrite (M_lift_run _ _ _ _ (frame_range _ _)). exists padding. rewrite Hf in Hmac. by split_and!.
Qed.

Lemma sender_unchanged_cipher t : wf_transport (obj t) ->
  forall s' d, outgoing s' = outgoing (sock_ t) -> sender_unchanged t (with_incoming_cipher d (with_sock s' t)).
Proof. intros (Hseq & _) s' d Hs'. split_and!; [done..|]. exists (incoming_sequence_ (obj t)), (Some d). by cbn. Qed.

Lemma receive_encrypted_cases t :
  wf_transport (obj t) -> incoming_encryption_active_ (obj t) = true ->
  match receive_encrypted t with
  | (Ok payload, t') => accepted t payload t' /\ sender_unchanged t t'
  | (Undef, _) => False
  | (_, t') => sender_unchanged t t'
  end.
Proof.
  intros Hwf Hact. pose proof Hwf as (Hseq & _ & _ & Hkeys). destruct (Hkeys Hact) as [[d Hd] [key Hkey]].
  pose proof (sender_unchanged_cipher t Hwf) as Hsame.
  unfold receive_encrypted, packet_length_bytes, aes_block_size.
  destruct (sock_read_cases t 16) as (r & s1 & Hr & Ho1 & Hcase); [lia|].
  rewrite (M_bind_res _ _ _ _ _ Hr). destruct r as [c1|e| |]; try (done || by apply (sender_unchanged_sock t Hwf s1)).
  destruct Hcase as (Hc1 & Hin1 & _).
  destruct (decrypt_cases (with_sock s1 t) c1) as (r & d1 & Hr1 & Hcase); [done..|].
  rewrite (M_bind_res _ _ _ _ _ Hr1). destruct r as [p1|e| |]; try done; [|by apply (Hsame s1)].
  set (t1 := with_incoming_cipher d1 (with_sock s1 t)) in *.
  assert (Hp1 : size p1 = 16) by congruence. clear Hcase.
  rewrite (M_lift_run (copy_n p1 0 4) _ _ (take 4 p1)) by (unfold copy_n; by rewrite range_ok by lia).
  rewrite M_gets_run. change (incoming_encryption_active_ (obj t1)) with (incoming_encryption_active_ (obj t)).
  rewrite Hact. cbn zeta. set (n := decode_packet_length (take 4 p1)).
  assert (Hn : 0 <= n < 2 ^ 32).
  { apply (decode_uint32_range (take 4 p1)). change 4%nat with (Z.to_nat 4). rewrite size_take; lia. }
  rewrite M_lift_res. pose proof (validate_packet_length_safe true n Hn) as Hv.
  destruct (validate_packet_length true n) as [[]|e| |]; try done; [|by apply (Hsame s1)].
  cbn in Hv. destruct Hv as [Hv Hm].
  rewrite !(u32_small (4 + n)), !(u32_small (4 + n - 16)) by lia.
  destruct (sock_read_cases t1 (4 + n - 16)) as (r & s2 & Hr2 & Ho2 & Hcase); [lia|].
  assert (Hs2 : outgoing s2 = outgoing (sock_ t)) by (cbn in Ho2; congruence).
  rewrite (M_bind_res _ _ _ _ _ Hr2). destruct r as [c2|e| |]; try (done || by apply (Hsame s2)).
  destruct Hcase as (Hc2 & Hin2 & _).
  destruct (decrypt_cases (with_sock s2 t1) c2) as (r & d2 & Hrd2 & Hcase); [|done|].
  { by apply (sender_unchanged_wf t), (Hsame s2). }
  rewrite (M_bind_res _ _ _ _ _ Hrd2). destruct r as [p2|e| |]; try done; [|by apply (Hsame s2)].
  set (t2 := with_incoming_cipher d2 (with_sock s2 t1)) in *.
  assert (Hp2 : size p2 = n - 12) by lia. clear Hcase.
  rewrite size_app, Hp1, Hp2, (proj2 (Z.eqb_eq (16 + (n - 12)) (4 + n))) by lia. cbn [negb].
  destruct (sock_read_cases t2 32) as (r & s3 & Hr3 & Ho3 & Hcase); [lia|].
  assert (Hs3 : outgoing s3 = outgoing (sock_ t)) by (cbn in Ho3; congruence).
  rewrite (M_bind_res _ _ _ _ _ Hr3). destruct r as [mac|e| |]; try (done || by apply (Hsame s3)).
  destruct Hcase as (Hmacsz & Hin3 & _).
  pose proof (verify_packet_cases (with_sock s3 t2) key p1 p2 mac Hkey Hp1 Hp2 Hv Hm Hmacsz) as Hver.
  destruct (verify_packet _ _ _ _) as [[payload|e| |] t']; [|subst t'; by apply (Hsame s3)|done|subst t'; by apply (Hsame s3)].
  destruct Hver as (padding & Hf & Hok & Hmac & ->). split; [exists padding; rewrite Hact; split_and!; try done|].
  - exists (c1 ++ c2), mac, key. cbn in Hin2, Hin3 |- *. split_and!; try done.
    + by rewrite Hin1, Hin2, Hin3, <- !app_assoc.
    + rewrite <- Hf, !size_app. lia.
  - split_and!; [done..|]. eexists _, (Some d2). split; [apply u32_range|]. done.
Qed.

End facts.
