(* ===== verification/Packets.v ===== *)
(** * What the packet layer promises

    The theorems about [Transport]: padding, what a packet looks like on the
    wire, what a received packet has been checked for, and the agreement of the
    two ends of a connection over any sequence of packets and key changes. *)

From S2P Require Import Prelude Encoding Socket Crypto Transport.

(** ** Two ends of one direction *)

Section ends.
Context {C : Crypto} {CS : CryptoSizes} {CL : CipherLaws}.
Context {S : Type} {BS : ByteStream S} {BL : ByteStreamLaws S}.
Context {S' : Type} {BS' : ByteStream S'} {BL' : ByteStreamLaws S'}.

Implicit Types (a : tstate S) (b : tstate S').

(** The sending state of [a] and the receiving state of [b] match: same
    encryption flag, same packet count, same MAC key, and cipher contexts at the
    same position of the same key stream. *)
Definition synced (a : tstate S) (b : tstate S') : Prop :=
  outgoing_encryption_active_ (obj a) = incoming_encryption_active_ (obj b) /\
  outgoing_sequence_ (obj a) = incoming_sequence_ (obj b) /\
  (outgoing_encryption_active_ (obj a) = true ->
    outgoing_mac_key_ (obj a) = incoming_mac_key_ (obj b) /\
    exists e d, outgoing_cipher_ (obj a) = Some e /\ incoming_cipher_ (obj b) = Some d /\ in_step e d).

(** One direction of a session: packets, and the change of keys that NEWKEYS
    announces. *)
Inductive action : Type :=
  | Packet (payload : bytes)
  | NewKeys (iv key mac : bytes).

Definition action_ok (x : action) : Prop :=
  match x with
  | Packet payload => size payload < 2 ^ 63
  | NewKeys iv key _ => forall c, (EVP_EncryptInit_ex c key iv).1 = 1 /\ (EVP_DecryptInit_ex c key iv).1 = 1
  end.

Fixpoint packets (xs : list action) : list bytes :=
  match xs with
  | [] => []
  | Packet p :: xs => p :: packets xs
  | NewKeys _ _ _ :: xs => packets xs
  end.

Fixpoint run_sender (xs : list action) : M (tstate S) unit :=
  match xs with
  | [] => mret tt
  | Packet p :: xs => send_packet p;; run_sender xs
  | NewKeys iv key mac :: xs => enable_outgoing_encryption iv key mac;; run_sender xs
  end.

Fixpoint run_receiver (xs : list action) : M (tstate S') (list bytes) :=
  match xs with
  | [] => mret []
  | Packet _ :: xs => p ← receive_packet; ps ← run_receiver xs; mret (p :: ps)
  | NewKeys iv key mac :: xs => enable_incoming_encryption iv key mac;; run_receiver xs
  end.

(** ** Facts *)

Lemma synced_packet a b payload a' w rest :
  synced a b -> size payload < 2 ^ 63 -> send_packet payload a = (Ok tt, a') ->
  outgoing (sock_ a') = outgoing (sock_ a) ++ w -> incoming (sock_ b) = w ++ rest ->
  exists b', receive_packet b = (Ok payload, b') /\ incoming (sock_ b') = rest /\ synced a' b' /\
    room (sock_ b') = room (sock_ b).
Proof.
  intros (Hact & Hseq & Hkeys) Hsz Hrun Hw Hin.
  destruct (send_packet_Ok _ _ _ Hsz Hrun) as (padding & w' & s' & r & c & Hok & Hsent & -> & Hout & _).
  cbn in Hw. rewrite Hout in Hw. apply app_inv_head in Hw as ->. unfold sent_as in Hsent.
  destruct (outgoing_encryption_active_ (obj a)) eqn:Ha.
  - destruct Hsent as (e & e' & key & cipher & mac & He & Hk & -> & Henc & Hmac & ->).
    destruct (Hkeys eq_refl) as (Hkey & e1 & d & He1 & Hd & Hstep). simplify_eq.
    rewrite Hk in Hkey. rewrite Hseq in Hmac. rewrite <- app_assoc in Hin.
    destruct (receive_encrypted_frame b d e key payload padding cipher e' mac rest)
      as (s2 & d' & Hr & Hstep' & Hin' & _ & Hroom); try done.
    exists (received s2 (Some d') b). split; [done|]. split; [done|]. split; [|exact Hroom].
    split; [cbn; congruence|]. split; [cbn; by rewrite Hseq|]. cbn.
    intros _. split; [congruence|]. by exists e', d'.
  - destruct Hsent as [-> ->].
    destruct (receive_plain_frame b payload padding rest) as (s2 & Hr & Hin' & _ & Hroom); try done.
    exists (received s2 (incoming_cipher_ (obj b)) b). split; [done|]. split; [done|]. split; [|exact Hroom].
    split; [cbn; congruence|]. split; [cbn; by rewrite Hseq|]. cbn. by rewrite Ha.
Qed.

Lemma synced_newkeys a b iv key mac a' :
  synced a b -> action_ok (NewKeys iv key mac) ->
  enable_outgoing_encryption iv key mac a = (Ok tt, a') ->
  outgoing (sock_ a') = outgoing (sock_ a) /\
  exists b', enable_incoming_encryption iv key mac b = (Ok tt, b') /\
    incoming (sock_ b') = incoming (sock_ b) /\ synced a' b'.
Proof.
  intros (_ & Hseq & _) Hok. unfold enable_outgoing_encryption, enable_incoming_encryption.
  destruct EVP_CIPHER_CTX_new as [c|]; [|done]. destruct (Hok c) as [He Hd].
  destruct (EVP_EncryptInit_ex c key iv) as [st e] eqn:Eenc, (EVP_DecryptInit_ex c key iv) as [st' d] eqn:Edec.
  cbn in He, Hd. subst st st'. cbn. intros [= <-]. split; [done|].
  eexists. split; [done|]. split; [done|]. split_and!; [done|done|]. intros _. split; [done|].
  exists e, d. split_and!; [done|done|].
  pose proof (init_in_step c c key iv) as Hi. rewrite Eenc, Edec in Hi. by apply Hi.
Qed.

Lemma send_appends payload (a a' : tstate S) :
  size payload < 2 ^ 63 -> send_packet payload a = (Ok tt, a') ->
  exists w, outgoing (sock_ a') = outgoing (sock_ a) ++ w.
Proof.
  intros Hsz Hrun. destruct (send_packet_Ok _ _ _ Hsz Hrun) as (? & w & s' & ? & ? & _ & _ & -> & Hout & _).
  by exists w.
Qed.

Lemma run_sender_appends xs a a' :
  Forall action_ok xs -> run_sender xs a = (Ok tt, a') ->
  exists w, outgoing (sock_ a') = outgoing (sock_ a) ++ w.
Proof.
  intros Hok. revert a. induction Hok as [|[payload|iv key mac] xs Hx Hxs IH]; intros a Hrun.
  - injection Hrun as <-. exists []. by rewrite app_nil_r.
  - apply M_bind_Ok in Hrun as ([] & a1 & H1 & Hrun).
    destruct (send_appends _ _ _ Hx H1) as [w1 Hw1], (IH _ Hrun) as [w2 Hw2].
    exists (w1 ++ w2). by rewrite Hw2, Hw1, app_assoc.
  - apply M_bind_Ok in Hrun as ([] & a1 & H1 & Hrun). destruct (IH _ Hrun) as [w Hw]. exists w.
    revert H1 Hw. unfold enable_outgoing_encryption. destruct EVP_CIPHER_CTX_new; [|done].
    destruct (EVP_EncryptInit_ex _ _ _) as [st e]. destruct (negb _); [done|]. by intros [= <-].
Qed.

(** ** Properties *)

(** C5: over any sequence of packets and key changes, a receiver in step with the
    sender gets exactly the payloads that were sent, in order, however the
    stream was segmented; it consumes exactly the bytes that were written, and
    the two ends are still in step afterwards.  In particular the packet
    counters run on across a change of keys. *)
Theorem session_roundtrip xs a b a' w rest :
  synced a b -> Forall action_ok xs -> run_sender xs a = (Ok tt, a') ->
  outgoing (sock_ a') = outgoing (sock_ a) ++ w -> incoming (sock_ b) = w ++ rest ->
  exists b', run_receiver xs b = (Ok (packets xs), b') /\ incoming (sock_ b') = rest /\ synced a' b'.
Proof.
  intros Hs Hok. revert a b w Hs. induction Hok as [|[payload|iv key mac] xs Hx Hxs IH];
    intros a b w Hs Hrun Hw Hin; cbn [run_sender run_receiver packets] in *.
  - injection Hrun as <-. rewrite <- (app_nil_r (outgoing _)) in Hw at 1.
    apply app_inv_head in Hw as <-. by exists b.
  - apply M_bind_Ok in Hrun as ([] & a1 & H1 & Hrun).
    destruct (send_appends _ _ _ Hx H1) as [w1 Hw1], (run_sender_appends _ _ _ Hxs Hrun) as [w2 Hw2].
    rewrite Hw2, Hw1, <- app_assoc in Hw. apply app_inv_head in Hw as <-. rewrite <- app_assoc in Hin.
    destruct (synced_packet _ _ _ _ _ _ Hs Hx H1 Hw1 Hin) as (b1 & Hr1 & Hin1 & Hs1 & _).
    destruct (IH _ _ _ Hs1 Hrun Hw2 Hin1) as (b2 & Hr2 & Hin2 & Hs2).
    exists b2. by rewrite (M_bind_run _ _ _ _ _ Hr1), (M_bind_run _ _ _ _ _ Hr2).
  - apply M_bind_Ok in Hrun as ([] & a1 & H1 & Hrun).
    destruct (synced_newkeys _ _ _ _ _ _ Hs Hx H1) as (Ho & b1 & Hr1 & Hin1 & Hs1).
    rewrite <- Ho in Hw. rewrite <- Hin1 in Hin.
    destruct (IH _ _ _ Hs1 Hrun Hw Hin) as (b2 & Hr2 & Hin2 & Hs2).
    exists b2. by rewrite (M_bind_run _ _ _ _ _ Hr1).
Qed.

End ends.

#[local] Existing Instances Toy.crypto Toy.sizes_ok Toy.cipher_ok.

(** A sender and a receiver as the constructors leave them, over a connection
    that delivers every byte in a segment of its own. *)
Definition sample_sender : tstate (C := Toy.crypto) Socket :=
  {| sock_ := {| fd_ := 3; rx := []; tx := [TxRoom 5; TxEintr; TxRoom 500]; sent := []; open_fds := {[3]} |};
     rand := 0%nat; obj := Transport_new |}.

Definition sample_actions : list action :=
  [Packet [x15]; NewKeys (replicate 16 x01) (replicate 32 x02) (replicate 32 x03); Packet (str "secret")].

Definition sample_wire : bytes := outgoing (sock_ (run_sender sample_actions sample_sender).2).

Definition sample_receiver : tstate (C := Toy.crypto) Socket :=
  {| sock_ := {| fd_ := 3; rx := (fun b => RxData b []) <$> sample_wire; tx := []; sent := []; open_fds := {[3]} |};
     rand := 0%nat; obj := Transport_new |}.

Lemma session_roundtrip_witness :
  exists b', run_receiver sample_actions sample_receiver = (Ok [[x15]; str "secret"], b').
Proof.
  destruct (session_roundtrip (S := Socket) (S' := Socket) sample_actions sample_sender sample_receiver
    (run_sender sample_actions sample_sender).2 sample_wire []) as (b' & H & _).
  - split_and!; done.
  - repeat constructor.
  - apply outcome_of. vm_compute. reflexivity.
  - vm_compute. reflexivity.
  - vm_compute. reflexivity.
  - exists b'. exact H.
Defined.

(** ** One packet *)

Section one_packet.
Context {C : Crypto} {CS : CryptoSizes} {S : Type} {BS : ByteStream S} {BL : ByteStreamLaws S}.
Implicit Types t : tstate S.

(** C27: the padding [calculate_padding_length] chooses is the smallest one that
    RFC 4253 allows: at least four bytes, and the whole packet a multiple of the
    block size (16 under encryption, 8 before).  It never needs more than 19
    bytes, so it always fits the one-byte length field. *)
Theorem padding_minimal active n :
  0 <= n < 2 ^ 63 ->
  let p := calculate_padding_length active n in
  4 <= p <= 19 /\ (n + 5 + p) mod block active = 0 /\
  forall q, 4 <= q -> (n + 5 + q) mod block active = 0 -> p <= q.
Proof.
  intros Hn p. destruct (padding_length_spec active n Hn) as [Hp Hm]. fold p in Hp, Hm.
  destruct (block_cases active) as [E|E]; rewrite E in *; (split_and!; [lia|lia|done|]);
    intros q Hq Hqm; Z.div_mod_to_equations; lia.
Qed.

Lemma padding_minimal_witness : calculate_padding_length true 12 = 15.
Proof.
  destruct (padding_minimal true 12) as (Hp & Hm & Hmin); [lia|].
  pose proof (Hmin 15). vm_compute. reflexivity.
Defined.

(** Sending a payload that is not empty and whose packet is within 35000
    bytes, with enough room on the connection and no encryption, succeeds: the
    bytes written are the RFC 4253 packet of that payload with a legal padding,
    the packet is counted modulo 2^32, and nothing else of the transport
    changes. *)
Theorem send_plain_ok t payload :
  let pad := calculate_padding_length false (size payload) in
  outgoing_encryption_active_ (obj t) = false ->
  1 <= size payload -> 5 + size payload + pad <= max_packet_size -> 5 + size payload + pad <= room (sock_ t) ->
  exists padding s' r,
    send_packet payload t = (Ok tt, counted s' r (outgoing_cipher_ (obj t)) t) /\
    frame_ok 8 payload padding /\ size padding = pad /\
    outgoing s' = outgoing (sock_ t) ++ frame payload padding /\ incoming s' = incoming (sock_ t).
Proof.
  intros pad Hact Hp Hmax Hroom. unfold max_packet_size in Hmax.
  destruct (padding_length_spec false (size payload)) as [Hpad Hmod].
  { pose proof (size_nonneg payload). split; [done|].
    assert (0 <= pad) by (unfold pad, calculate_padding_length; apply Z.mod_pos_bound; lia). lia. }
  fold pad in Hpad, Hmod. assert (Hsz : size payload < 2 ^ 63) by lia.
  pose proof (send_packet_start t payload Hsz) as Hstart. cbn zeta in Hstart. rewrite Hact in Hstart.
  fold pad in Hstart. pose proof (size_randombytes pad (rand t)) as Hq.
  destruct (randombytes_buf pad (rand t)) as [padding r]. cbn in Hq. specialize (Hq ltac:(lia)).
  unfold max_packet_size in Hstart.
  rewrite (proj2 (Z.ltb_ge _ _)), Z.gtb_ltb, (proj2 (Z.ltb_ge _ _)) in Hstart by lia.
  destruct (sock_write_ok (with_rand r t) (frame payload padding)) as (s' & Hw & Hout & Hin & _).
  { rewrite size_frame, Hq. cbn. lia. }
  rewrite (M_bind_run _ _ _ _ _ Hw) in Hstart.
  exists padding, s', r. split; [by rewrite Hstart|]. split; [|done].
  change (block false) with 8 in *. split_and!; [done|lia|lia|rewrite size_frame, Hq..].
  - rewrite <- Hmod. f_equal. lia.
  - unfold max_packet_size. lia.
Qed.


Lemma receive_packet_cases t :
  wf_transport (obj t) ->
  match receive_packet t with
  | (Ok payload, t') => accepted t payload t' /\ sender_unchanged t t'
  | (Undef, _) => False
  | (_, t') => sender_unchanged t t'
  end.
Proof.
  intros Hwf. unfold receive_packet. rewrite M_gets_run.
  destruct (incoming_encryption_active_ (obj t)) eqn:Ha; cbn [negb];
    [by apply receive_encrypted_cases|by apply receive_plain_cases].
Qed.

(** C25: whatever bytes the server sends, [receive_packet] never runs into
    undefined behaviour and keeps the transport well formed and its sending half
    untouched.  A payload it returns is not empty, is smaller than 35000 bytes,
    was framed as RFC 4253 asks with a legal padding, advances the packet
    counter by one modulo 2^32, and, under encryption, came with the MAC of the
    whole plaintext packet under the counter and the key of this direction. *)
Theorem receive_checked t :
  wf_transport (obj t) ->
  match receive_packet t with
  | (Ok payload, t') =>
      1 <= size payload <= 34991 /\ accepted t payload t' /\
      wf_transport (obj t') /\ sender_unchanged t t'
  | (Undef, _) => False
  | (_, t') => wf_transport (obj t') /\ sender_unchanged t t'
  end.
Proof.
  intros Hwf. pose proof (receive_packet_cases t Hwf) as Hc. pose proof (sender_unchanged_wf t) as Hw.
  destruct (receive_packet t) as [[payload|e| |] t']; try done; [|by auto..].
  destruct Hc as [Hacc Hs]. split; [|by auto]. destruct Hacc as (padding & Hok & _).
  apply frame_ok_bounds in Hok as (? & ? & Hb & _). rewrite size_frame in Hb. lia.
Qed.

(** C9: a packet whose MAC was tampered with is refused: the receiver decrypts
    the frame, throws, delivers nothing, does not count the packet and does not
    touch the sending half.  The comparison looks at every byte of the MAC, so
    one wrong bit is enough. *)
Theorem forged_packet_rejected {CL : CipherLaws} t d e key payload padding c e' mac forged rest :
  incoming_encryption_active_ (obj t) = true -> incoming_cipher_ (obj t) = Some d ->
  incoming_mac_key_ (obj t) = Some key -> in_step e d -> frame_ok (block true) payload padding ->
  EVP_EncryptUpdate e (frame payload padding) = (1, c, e') ->
  calculate_hmac (incoming_sequence_ (obj t)) (frame payload padding) key = Ok mac ->
  size forged = 32 -> forged <> mac -> incoming (sock_ t) = c ++ forged ++ rest ->
  exists t', receive_packet t = (Throw "SSH packet MAC verification failed", t') /\
    incoming_sequence_ (obj t') = incoming_sequence_ (obj t) /\ incoming (sock_ t') = rest /\
    outgoing (sock_ t') = outgoing (sock_ t).
Proof.
  intros Hact Hd Hkey Hstep Hok Henc Hmac Hsz Hne Hin.
  destruct (receive_encrypted_checks t d e key payload padding c e' mac forged rest)
    as (s' & d' & Hr & _ & Hi & Ho & _); try done.
  rewrite (proj2 (beq_false _ _) Hne) in Hr. eexists. split; [exact Hr|]. done.
Qed.

End one_packet.

(** ** Concrete runs *)

Lemma send_plain_ok_witness :
  exists padding t', send_packet [x15] sample_sender = (Ok tt, t') /\ outgoing (sock_ t') = frame [x15] padding /\ size padding = 10.
Proof.
  destruct (send_plain_ok sample_sender [x15]) as (padding & s' & r & H & _ & Hp & Ho & _);
    [reflexivity|vm_compute; congruence..|].
  exists padding. eexists. split; [exact H|]. split; [exact Ho|]. rewrite Hp. reflexivity.
Defined.


(** A server that closes the connection in the middle of a packet. *)
Definition sample_cut : tstate (C := Toy.crypto) Socket :=
  with_sock {| fd_ := 3; rx := [RxData x00 (str "nothing"); RxEof]; tx := []; sent := []; open_fds := {[3]} |}
    sample_receiver.

Lemma receive_checked_witness : exists e t', receive_packet sample_cut = (Throw e, t') /\ wf_transport (obj t').
Proof.
  pose proof (receive_checked sample_cut) as H. destruct (receive_packet sample_cut) as [r t'] eqn:E.
  assert (Hr : r = Throw "SSH packet length is above maximum").
  { change r with (r, t').1. rewrite <- E. vm_compute. reflexivity. }
  subst r. eexists _, t'. split; [reflexivity|]. apply H.
  split_and!; cbn; try done; lia.
Defined.

(** An encrypted packet and a MAC of zeros. *)
Definition sample_context : Toy.ctx := {| Toy.key := replicate 32 x02; Toy.iv := replicate 16 x01; Toy.offset := 0 |}.
Definition sample_forgery : tstate (C := Toy.crypto) Socket :=
  let cipher := Toy.apply_stream sample_context (frame (str "hello") (replicate 6 x00)) in
  {| sock_ := {| fd_ := 3; rx := [RxData (default x00 (head cipher)) (tail cipher ++ replicate 32 x00)];
                 tx := []; sent := []; open_fds := {[3]} |};
     rand := 0%nat;
     obj := set_incoming 3 true (Some sample_context) (Some (str "key")) Transport_new |}.

Lemma forged_packet_rejected_witness :
  exists t', receive_packet sample_forgery = (Throw "SSH packet MAC verification failed", t').
Proof.
  destruct (forged_packet_rejected sample_forgery sample_context sample_context (str "key") (str "hello")
    (replicate 6 x00) (Toy.apply_stream sample_context (frame (str "hello") (replicate 6 x00)))
    {| Toy.key := replicate 32 x02; Toy.iv := replicate 16 x01; Toy.offset := 16 |}
    (Toy.digest (str "key" ++ be32 3 ++ frame (str "hello") (replicate 6 x00))) (replicate 32 x00) [])
    as (t' & H & _); try reflexivity.
  - split_and!; vm_compute; congruence.
  - vm_compute. congruence.
  - exists t'. exact H.
Defined.
