(* ===== verification/Kex.v ===== *)
(** * Key exchange: [src/kex/kex.cpp]

    Algorithm negotiation, the messages of the Curve25519 exchange, the exchange
    hash, the host key signature and the derivation of the transport keys.  A
    C++ array is a vector with the array's length; that the crypto library fills
    an array is [CryptoSizes]. *)

From S2P Require Import Prelude Encoding Crypto.

(** ** Data *)

(** [struct KexInit] *)
Record KexInit := {
  raw_payload : bytes;
  cookie : bytes;
  kex_algorithms : bytes;
  host_key_algorithms : bytes;
  encryption_cs_algorithms : bytes;
  encryption_sc_algorithms : bytes;
  mac_cs_algorithms : bytes;
  mac_sc_algorithms : bytes;
  compression_cs_algorithms : bytes;
  compression_sc_algorithms : bytes;
  languages_cs : bytes;
  languages_sc : bytes;
  first_kex_packet_follows : bool;
}.

(** [struct NegotiatedAlgorithms] *)
Record NegotiatedAlgorithms := {
  kex_algorithm : bytes;
  host_key_algorithm : bytes;
  encryption_cs_algorithm : bytes;
  encryption_sc_algorithm : bytes;
  mac_cs_algorithm : bytes;
  mac_sc_algorithm : bytes;
  compression_cs_algorithm : bytes;
  compression_sc_algorithm : bytes;
}.

(** [struct Curve25519State] *)
Record Curve25519State := {
  client_private_key : bytes;
  client_public_key : bytes;
  shared_secret : bytes;
}.

(** [struct EcdhReply] *)
Record EcdhReply := {
  server_host_key : bytes;
  server_public_key : bytes;
  signature : bytes;
}.

(** [struct Ed25519VerificationData] *)
Record Ed25519VerificationData := {
  ed_public_key : bytes;
  ed_signature : bytes;
}.

(** [struct TransportKeyMaterial] *)
Record TransportKeyMaterial := {
  iv_cs : bytes;
  iv_sc : bytes;
  encryption_key_cs : bytes;
  encryption_key_sc : bytes;
  mac_key_cs : bytes;
  mac_key_sc : bytes;
}.

(** ** KEXINIT and negotiation *)

Definition cookie_bytes : Z := 16.
Definition length_of_key : Z := 32.

Definition read_name_list (payload : bytes) (position : Z) : res (bytes * Z) :=
  if position >? size payload then mthrow "SSH Payload missing expected bytes"%string else
  if size_sub (size payload) position <? uint32_bytes
  then mthrow "Expected list length"%string else
  length ← copy_n payload position uint32_bytes;
  let list_length := decode_uint32 length in
  let position := u64 (position + uint32_bytes) in
  if size_sub (size payload) position <? list_length
  then mthrow "Expected list"%string else
  list_text ← range payload position (position + list_length);
  let position := u64 (position + list_length) in
  mret (list_text, position).

Definition parse_boolean (payload : bytes) (position : Z) : res (bool * Z) :=
  if position >? size payload then mthrow "SSH Payload missing expected bytes"%string else
  if size_sub (size payload) position <? 1 then mthrow "Expected 1 byte"%string else
  b ← index payload position;
  let result := negb (b =? 0) in
  let position := u64 (position + 1) in
  mret (result, position).

Definition parse_kexinit (payload : bytes) : res KexInit :=
  if size payload <? 1 then mthrow "Payload should not be empty"%string else
  b ← index payload 0;
  if negb (b =? ssh_message.KEXINIT) then mthrow "SSH KEXINIT packet was expected"%string else
  let position := 1 in
  if size_sub (size payload) position <? cookie_bytes
  then mthrow "Payload should contain a cookie"%string else
  cookie ← copy_n payload position cookie_bytes;
  let position := u64 (position + cookie_bytes) in
  '(kex_algorithms, position) ← read_name_list payload position;
  '(host_key_algorithms, position) ← read_name_list payload position;
  '(encryption_cs_algorithms, position) ← read_name_list payload position;
  '(encryption_sc_algorithms, position) ← read_name_list payload position;
  '(mac_cs_algorithms, position) ← read_name_list payload position;
  '(mac_sc_algorithms, position) ← read_name_list payload position;
  '(compression_cs_algorithms, position) ← read_name_list payload position;
  '(compression_sc_algorithms, position) ← read_name_list payload position;
  '(languages_cs, position) ← read_name_list payload position;
  '(languages_sc, position) ← read_name_list payload position;
  '(first_kex_packet_follows, position) ← parse_boolean payload position;
  if size_sub (size payload) position <? uint32_bytes
  then mthrow "4 reserved bytes expected"%string else
  reserved ← copy_n payload position uint32_bytes;
  let reserved_value := decode_uint32 reserved in
  let position := u64 (position + uint32_bytes) in
  if negb (reserved_value =? 0)
  then mthrow "Reserved bytes expected to be equal to 0"%string else
  if negb (size payload =? position) then mthrow "Additional bytes not expected"%string else
  mret {| raw_payload := payload; cookie := cookie; kex_algorithms := kex_algorithms;
          host_key_algorithms := host_key_algorithms;
          encryption_cs_algorithms := encryption_cs_algorithms;
          encryption_sc_algorithms := encryption_sc_algorithms;
          mac_cs_algorithms := mac_cs_algorithms; mac_sc_algorithms := mac_sc_algorithms;
          compression_cs_algorithms := compression_cs_algorithms;
          compression_sc_algorithms := compression_sc_algorithms;
          languages_cs := languages_cs; languages_sc := languages_sc;
          first_kex_packet_follows := first_kex_packet_follows |}.

Definition append_name_list (payload list : bytes) : res bytes :=
  if size list >? uint32_max then mthrow "Length doesn't bit into 32 bits"%string else
  let length := u32 (size list) in
  let length_array := encode_uint32 length in
  let payload := payload ++ length_array in
  mret (payload ++ list).

Definition bool_byte (b : bool) : byte := if b then x01 else x00.

Definition choose_algorithm (client_list server_list : bytes) : res bytes :=
  let client := getlines x2c client_list in
  let server := getlines x2c server_list in
  match find (fun c => existsb (beq c) server) client with
  | Some c => mret c
  | None => mthrow "No mutually supported SSH algorithm"%string
  end.

Definition negotiate (client server : KexInit) : res NegotiatedAlgorithms :=
  kex_algorithm ← choose_algorithm (kex_algorithms client) (kex_algorithms server);
  host_key_algorithm ← choose_algorithm (host_key_algorithms client) (host_key_algorithms server);
  encryption_cs_algorithm ←
    choose_algorithm (encryption_cs_algorithms client) (encryption_cs_algorithms server);
  encryption_sc_algorithm ←
    choose_algorithm (encryption_sc_algorithms client) (encryption_sc_algorithms server);
  mac_cs_algorithm ← choose_algorithm (mac_cs_algorithms client) (mac_cs_algorithms server);
  mac_sc_algorithm ← choose_algorithm (mac_sc_algorithms client) (mac_sc_algorithms server);
  compression_cs_algorithm ←
    choose_algorithm (compression_cs_algorithms client) (compression_cs_algorithms server);
  compression_sc_algorithm ←
    choose_algorithm (compression_sc_algorithms client) (compression_sc_algorithms server);
  mret {| kex_algorithm := kex_algorithm; host_key_algorithm := host_key_algorithm;
          encryption_cs_algorithm := encryption_cs_algorithm;
          encryption_sc_algorithm := encryption_sc_algorithm;
          mac_cs_algorithm := mac_cs_algorithm; mac_sc_algorithm := mac_sc_algorithm;
          compression_cs_algorithm := compression_cs_algorithm;
          compression_sc_algorithm := compression_sc_algorithm |}.

(** ** The exchange *)

Section kex.
Context {C : Crypto}.

(** The lists of [create_client_kexinit], and the payload it builds from them. *)
Definition create_client_kexinit : M rng KexInit := fun r =>
  let '(cookie, r) := randombytes_buf cookie_bytes r in
  let build raw :=
    {| raw_payload := raw; cookie := cookie; kex_algorithms := str "curve25519-sha256";
       host_key_algorithms := str "ssh-ed25519";
       encryption_cs_algorithms := str "aes256-ctr"; encryption_sc_algorithms := str "aes256-ctr";
       mac_cs_algorithms := str "hmac-sha2-256"; mac_sc_algorithms := str "hmac-sha2-256";
       compression_cs_algorithms := str "none"; compression_sc_algorithms := str "none";
       languages_cs := str ""; languages_sc := str ""; first_kex_packet_follows := false |} in
  let result := build [] in
  (raw_payload ← mret ([byte_of ssh_message.KEXINIT] ++ cookie);
   raw_payload ← append_name_list raw_payload (kex_algorithms result);
   raw_payload ← append_name_list raw_payload (host_key_algorithms result);
   raw_payload ← append_name_list raw_payload (encryption_cs_algorithms result);
   raw_payload ← append_name_list raw_payload (encryption_sc_algorithms result);
   raw_payload ← append_name_list raw_payload (mac_cs_algorithms result);
   raw_payload ← append_name_list raw_payload (mac_sc_algorithms result);
   raw_payload ← append_name_list raw_payload (compression_cs_algorithms result);
   raw_payload ← append_name_list raw_payload (compression_sc_algorithms result);
   raw_payload ← append_name_list raw_payload (languages_cs result);
   raw_payload ← append_name_list raw_payload (languages_sc result);
   let raw_payload := raw_payload ++ [bool_byte (first_kex_packet_follows result)] in
   let reserved := encode_uint32 0 in
   mret (build (raw_payload ++ reserved)), r).

Definition create_curve25519_keypair : M rng Curve25519State := fun r =>
  let '(client_private_key, r) := randombytes_buf 32 r in
  let '(result, client_public_key) := crypto_scalarmult_curve25519_base client_private_key in
  if negb (result =? 0) then (Throw "Curve25519 algorithm failed to generate keys"%string, r) else
  (Ok {| client_private_key := client_private_key; client_public_key := client_public_key;
         shared_secret := replicate 32 x00 |}, r).

Definition create_ecdh_init_payload (state : Curve25519State) : bytes :=
  let payload := [byte_of ssh_message.KEX_ECDH_INIT] in
  let length := encode_uint32 (u32 length_of_key) in
  let payload := payload ++ length in
  payload ++ client_public_key state.

Definition parse_ecdh_reply (payload : bytes) : res EcdhReply :=
  if size payload <? 1 then mthrow "Payload should not be empty"%string else
  b ← index payload 0;
  if negb (b =? ssh_message.KEX_ECDH_REPLY)
  then mthrow "SSH_MSG_KEX_ECDH_REPLY packet was expected"%string else
  let position := 1 in
  '(server_host_key, position) ← read_string payload position;
  '(server_public_key, position) ← read_string payload position;
  if negb (size server_public_key =? 32)
  then mthrow "Curve25519 server public key must be 32 bytes"%string else
  '(signature, position) ← read_string payload position;
  if negb (position =? size payload) then mthrow "No more bytes expected"%string else
  mret {| server_host_key := server_host_key; server_public_key := server_public_key;
          signature := signature |}.

Definition calculate_shared_secret (state : Curve25519State) (server_public_key : bytes)
    : res Curve25519State :=
  let '(result, secret) := crypto_scalarmult_curve25519 (client_private_key state) server_public_key in
  if result =? -1 then mthrow "Invalid server public key"%string else
  mret {| client_private_key := client_private_key state;
          client_public_key := client_public_key state; shared_secret := secret |}.

(** The loop of [append_positive_mpint] that skips leading zeros. *)
Fixpoint leading_zeros (value : bytes) : nat :=
  match value with
  | b :: value => if u8 b =? 0 then Datatypes.S (leading_zeros value) else 0
  | [] => 0
  end.

Definition mpint_magnitude (value : bytes) : bytes :=
  let magnitude := drop (leading_zeros value) value in
  match magnitude with
  | b :: _ => if negb (Z.land (u8 b) 128 =? 0) then byte_of 0 :: magnitude else magnitude
  | [] => magnitude
  end.

Definition append_positive_mpint (destination value : bytes) : res bytes :=
  append_string destination (mpint_magnitude value).

Definition calculate_exchange_hash (client_identification server_identification : bytes)
    (client_kexinit server_kexinit : KexInit) (curve_state : Curve25519State)
    (ecdh_reply : EcdhReply) : res bytes :=
  destination ← append_string [] client_identification;
  destination ← append_string destination server_identification;
  destination ← append_string destination (raw_payload client_kexinit);
  destination ← append_string destination (raw_payload server_kexinit);
  destination ← append_string destination (server_host_key ecdh_reply);
  destination ← append_string destination (client_public_key curve_state);
  destination ← append_string destination (server_public_key ecdh_reply);
  destination ← append_positive_mpint destination (shared_secret curve_state);
  mret (crypto_hash_sha256 destination).

Definition parse_ed25519_verification_data (reply : EcdhReply)
    (negotiated_host_key_algorithm : bytes) : res Ed25519VerificationData :=
  let position := 0 in
  '(algorithm_name, position) ← read_string (server_host_key reply) position;
  if negb (beq algorithm_name negotiated_host_key_algorithm) ||
     negb (beq algorithm_name (str "ssh-ed25519"))
  then mthrow "Algorithm is not the negotiated ssh-ed25519."%string else
  '(public_key, position) ← read_string (server_host_key reply) position;
  if negb (size public_key =? 32) then mthrow "Ed25519 public key must be 32 bytes"%string else
  if negb (position =? size (server_host_key reply))
  then mthrow "Unexpected bytes in Ed25519 host key"%string else
  let position := 0 in
  '(algorithm_sig_name, position) ← read_string (signature reply) position;
  if negb (beq algorithm_name negotiated_host_key_algorithm) ||
     negb (beq algorithm_sig_name (str "ssh-ed25519"))
  then mthrow "Algorithm is not the negotiated ssh-ed25519."%string else
  '(signature_bytes, position) ← read_string (signature reply) position;
  if negb (size signature_bytes =? 64) then mthrow "Ed25519 signature must be 64 bytes"%string else
  if negb (position =? size (signature reply))
  then mthrow "Unexpected bytes in Ed25519 signature"%string else
  mret {| ed_public_key := public_key; ed_signature := signature_bytes |}.

Definition verify_ed25519_signature (data : Ed25519VerificationData) (exchange_hash : bytes) : res unit :=
  let result := crypto_sign_verify_detached (ed_signature data) exchange_hash (ed_public_key data) in
  if negb (result =? 0) then mthrow "Server Ed25519 signature verification failed"%string else
  mret tt.

Definition calculate_host_key_fingerprint (server_host_key : bytes) : bytes :=
  crypto_hash_sha256 server_host_key.

Definition derive_key_material (shared_secret exchange_hash : bytes) (letter : Z)
    (session_id : bytes) : res bytes :=
  input ← append_positive_mpint [] shared_secret;
  let input := input ++ exchange_hash in
  let input := input ++ [byte_of letter] in
  let input := input ++ session_id in
  mret (crypto_hash_sha256 input).

Definition derive_transport_keys (shared_secret exchange_hash session_id : bytes)
    : res TransportKeyMaterial :=
  key1 ← derive_key_material shared_secret exchange_hash 65 session_id;
  key2 ← derive_key_material shared_secret exchange_hash 66 session_id;
  iv_cs ← copy_n key1 0 16;
  iv_sc ← copy_n key2 0 16;
  encryption_key_cs ← derive_key_material shared_secret exchange_hash 67 session_id;
  encryption_key_sc ← derive_key_material shared_secret exchange_hash 68 session_id;
  mac_key_cs ← derive_key_material shared_secret exchange_hash 69 session_id;
  mac_key_sc ← derive_key_material shared_secret exchange_hash 70 session_id;
  mret {| iv_cs := iv_cs; iv_sc := iv_sc; encryption_key_cs := encryption_key_cs;
          encryption_key_sc := encryption_key_sc; mac_key_cs := mac_key_cs; mac_key_sc := mac_key_sc |}.

End kex.

(** ** Specification *)

(** The KEXINIT message of RFC 4253, section 7.1; [follows] is the byte of the
    flag [first_kex_packet_follows]. *)
Definition kexinit_wire (k : KexInit) (follows : byte) : bytes :=
  wire [FByte ssh_message.KEXINIT; FRaw (cookie k); FString (kex_algorithms k);
        FString (host_key_algorithms k); FString (encryption_cs_algorithms k);
        FString (encryption_sc_algorithms k); FString (mac_cs_algorithms k);
        FString (mac_sc_algorithms k); FString (compression_cs_algorithms k);
        FString (compression_sc_algorithms k); FString (languages_cs k);
        FString (languages_sc k); FRaw [follows]; FUint32 0].

(** The lists of a KEXINIT message. *)
Definition name_lists (k : KexInit) : list bytes :=
  [kex_algorithms k; host_key_algorithms k; encryption_cs_algorithms k; encryption_sc_algorithms k;
   mac_cs_algorithms k; mac_sc_algorithms k; compression_cs_algorithms k;
   compression_sc_algorithms k; languages_cs k; languages_sc k].

(** The [mpint] notation of a non-negative number (RFC 4251, section 5): the top
    bit clear, and no leading byte that the sign does not need. *)
Definition canonical_mpint (m : bytes) : Prop :=
  match m with
  | [] => True
  | b :: m' => u8 b < 128 /\ (u8 b = 0 -> match m' with [] => False | b' :: _ => 128 <= u8 b' end)
  end.

(** What the exchange hash is computed over (RFC 8731, RFC 5656). *)
Definition transcript (client_id server_id client_payload server_payload host_key client_key server_key
    secret : bytes) : bytes :=
  wire [FString client_id; FString server_id; FString client_payload; FString server_payload;
        FString host_key; FString client_key; FString server_key; FString (mpint_magnitude secret)].

(** What a key is the hash of (RFC 4253, section 7.2). *)
Definition key_input (secret hash : bytes) (letter : Z) (session_id : bytes) : bytes :=
  wire [FString (mpint_magnitude secret); FRaw hash; FByte letter; FRaw session_id].

(** ** Facts: KEXINIT *)

Lemma at_position_take payload position rest n :
  at_position payload position rest -> 0 <= n -> (size_sub (size payload) position <? n) = false ->
  exists w rest', rest = w ++ rest' /\ size w = n /\ copy_n payload position n = Ok w /\
    u64 (position + n) = position + n /\ at_position payload (position + n) rest'.
Proof.
  intros Hp Hn Hsz. rewrite (at_position_left _ _ _ Hp) in Hsz. tests.
  destruct (split_at_size rest n) as (w & rest' & -> & Hw); [lia|]. exists w, rest'.
  pose proof (at_position_bounds _ _ _ Hp) as Hb. rewrite size_app in Hb. pose proof (size_nonneg rest').
  split_and!; [done|done|by eapply at_position_copy|apply u64_small; lia|by eapply at_position_skip_n].
Qed.

(** [read_name_list] reads what [read_string] reads. *)
Lemma read_name_list_string payload position rest :
  at_position payload position rest ->
  match read_string payload position with
  | Ok r => read_name_list payload position = Ok r
  | Throw _ => exists e, read_name_list payload position = Throw e
  | _ => True
  end.
Proof.
  intros Hp. unfold read_string, read_name_list, uint32_bytes. rewrite (at_position_within _ _ _ Hp). cbn [orb].
  destruct (_ <? _) eqn:Hsz; [by eexists|].
  destruct (at_position_take _ _ _ 4 Hp) as (w & rest' & -> & Hw & -> & -> & Hp'); [done..|].
  cbn [mbind res_bind]. cbn zeta. rewrite (at_position_within _ _ _ Hp'). cbn [orb].
  destruct (size_sub _ (position + 4) <? _); [cbn; eauto|]. destruct (range _ _ _); cbn; eauto.
Qed.

Lemma read_name_list_at payload position s rest :
  at_position payload position ((be32 (size s) ++ s) ++ rest) -> size s < 2 ^ 32 ->
  read_name_list payload position = Ok (s, position + 4 + size s).
Proof.
  intros Hp Hs. pose proof (read_name_list_string _ _ _ Hp) as H.
  by rewrite (read_string_at _ _ _ _ Hp Hs) in H.
Qed.

Lemma read_name_list_safe payload position rest :
  at_position payload position rest ->
  safe (read_name_list payload position) (fun '(s, position') =>
    exists rest', rest = (be32 (size s) ++ s) ++ rest' /\ size s < 2 ^ 32 /\
      at_position payload position' rest').
Proof.
  intros Hp. pose proof (read_string_safe _ _ _ Hp) as Hs.
  pose proof (read_name_list_string _ _ _ Hp) as H.
  destruct (read_string payload position); try done; [by rewrite H|]. by destruct H as [e ->].
Qed.

Lemma parse_boolean_at payload position b rest :
  at_position payload position (b :: rest) ->
  parse_boolean payload position = Ok (negb (u8 b =? 0), position + 1).
Proof.
  intros Hp. unfold parse_boolean. rewrite (at_position_within _ _ _ Hp), (at_position_left _ _ _ Hp), size_cons.
  pose proof (size_nonneg rest). rewrite (proj2 (Z.ltb_ge _ _)) by lia.
  rewrite (at_position_index _ _ _ _ Hp). cbn. by rewrite (at_position_u64_next _ _ _ _ Hp).
Qed.

Lemma parse_boolean_safe payload position rest :
  at_position payload position rest ->
  safe (parse_boolean payload position) (fun '(v, position') =>
    exists b rest', rest = b :: rest' /\ v = negb (u8 b =? 0) /\ at_position payload position' rest').
Proof.
  intros Hp. destruct rest as [|b rest].
  - unfold parse_boolean. by rewrite (at_position_within _ _ _ Hp), (at_position_left _ _ _ Hp).
  - rewrite (parse_boolean_at _ _ _ _ Hp). cbn. exists b, rest. split_and!; [done..|].
    by apply at_position_next in Hp.
Qed.

(** The first guard of this file's parsers, for a message number. *)
Lemma safe_header_lt {A} payload number (e1 e2 : string) (k : res A) Q :
  addressable payload ->
  (forall rest, payload = byte_of number :: rest -> at_position payload 1 rest -> safe k Q) ->
  safe (if size payload <? 1 then mthrow e1 else
        b ← index payload 0;
        if negb (b =? number) then mthrow e2 else k) Q.
Proof.
  intros Ha Hk. destruct payload as [|b rest]; [done|].
  rewrite size_cons. pose proof (size_nonneg rest).
  rewrite (proj2 (Z.ltb_ge _ _)), index_0 by lia. cbn.
  destruct (Z.eqb_spec (u8 b) number) as [<-|]; [|done].
  apply (Hk rest); [by rewrite byte_of_u8|]. by apply (at_position_tail _ b).
Qed.

Lemma run_header_lt {A} payload rest number (e1 e2 : string) (k : res A) :
  payload = byte_of number :: rest -> 0 <= number < 256 ->
  (if size payload <? 1 then mthrow e1 else
   b ← index payload 0;
   if negb (b =? number) then mthrow e2 else k) = k.
Proof.
  intros -> Hn. rewrite size_cons. pose proof (size_nonneg rest).
  rewrite (proj2 (Z.ltb_ge _ _)), index_0 by lia. cbn. by rewrite u8_byte_of_small, Z.eqb_refl.
Qed.

(** One statement of [parse_kexinit], forwards and backwards. *)
Ltac name_list_step :=
  match goal with
  | H : at_position ?p ?pos ?rest |- safe (read_name_list ?p ?pos ≫= _) _ =>
      eapply safe_bind; [exact (read_name_list_safe _ _ _ H)|];
      let v := fresh "l" in let q := fresh "position" in let r := fresh "rest" in
      let E := fresh "E" in
      intros [v q] (r & E & ? & ?); clear H; subst rest
  | H : at_position ?p ?pos ?rest |- safe (parse_boolean ?p ?pos ≫= _) _ =>
      eapply safe_bind; [exact (parse_boolean_safe _ _ _ H)|];
      let v := fresh "v" in let q := fresh "position" in let r := fresh "rest" in
      let b := fresh "b" in let E := fresh "E" in
      intros [v q] (b & r & E & ? & ?); clear H; subst rest
  | H : at_position ?p ?pos ?rest |- safe (if size_sub (size ?p) ?pos <? ?n then _ else _) _ =>
      let E := fresh "E" in
      destruct (size_sub (size p) pos <? n) eqn:E; [exact I|];
      let w := fresh "w" in let r := fresh "rest" in
      destruct (at_position_take _ _ _ n H) as (w & r & -> & ? & -> & -> & ?); [done..|]; clear H;
      cbn [mbind res_bind]
  end; cbn beta iota zeta.

Lemma parse_kexinit_safe payload :
  addressable payload ->
  safe (parse_kexinit payload) (fun k =>
    raw_payload k = payload /\ size (cookie k) = 16 /\ Forall (fun l => size l < 2 ^ 32) (name_lists k) /\
    exists b, payload = kexinit_wire k b /\ first_kex_packet_follows k = negb (u8 b =? 0)).
Proof.
  intros Ha. unfold parse_kexinit, cookie_bytes, uint32_bytes. apply safe_header_lt; [done|].
  intros rest Hpayload Hp. cbn zeta.
  repeat name_list_step.
  safe_step. rewrite Z.eqb_sym. safe_step. cbn. unfold name_lists; cbn.
  split_and!; [done|done|by repeat (constructor; [done|])|]. eexists. split; [|done].
  tests. rewrite decode_uint32_be_value in * by done.
  assert (Hz : w0 = be32 0) by (rewrite <- (be32_be_value w0); congruence). subst.
  unfold kexinit_wire. wire_eq.
Qed.

Ltac run_name_list :=
  match goal with
  | H : at_position ?p ?pos ((be32 (size ?s) ++ ?s) ++ _) |- context [read_name_list ?p ?pos] =>
      rewrite (read_name_list_at _ _ _ _ H) by done; cbn [mbind res_bind];
      apply (at_position_skip_n _ _ _ (4 + size s)) in H;
      [rewrite Z.add_assoc in H|by rewrite size_app]
  | H : at_position ?p ?pos (?w ++ ?r) |- context [copy_n ?p ?pos ?n] =>
      rewrite (at_position_left _ _ _ H), (proj2 (Z.ltb_ge (size (w ++ r)) n))
        by (rewrite size_app, ?size_be32; pose proof (size_nonneg r); lia);
      rewrite (at_position_copy _ _ w n r H) by done; cbn [mbind res_bind];
      rewrite (u64_small (pos + n))
        by (pose proof (at_position_bounds _ _ _ H) as Hb; rewrite size_app, ?size_be32 in Hb;
            pose proof (size_nonneg r); lia);
      apply (at_position_skip_n _ _ _ n) in H; [|done]
  end.

Lemma parse_kexinit_wire k b :
  size (cookie k) = 16 -> Forall (fun l => size l < 2 ^ 32) (name_lists k) ->
  addressable (kexinit_wire k b) -> raw_payload k = kexinit_wire k b ->
  first_kex_packet_follows k = negb (u8 b =? 0) -> parse_kexinit (kexinit_wire k b) = Ok k.
Proof.
  destruct k as [raw ck l0 l1 l2 l3 l4 l5 l6 l7 l8 l9 follows]. cbn. intros Hck Hl Ha -> ->.
  unfold name_lists in Hl. cbn in Hl. repeat (apply Forall_cons in Hl as [? Hl]). clear Hl.
  unfold kexinit_wire in *. cbn in *. run_start Ha. rewrite Hpayload at 2.
  unfold parse_kexinit, cookie_bytes, uint32_bytes.
  rewrite (run_header_lt _ _ _ _ _ _ Hpayload) by done. cbn zeta.
  repeat run_name_list. rewrite (parse_boolean_at _ _ _ _ H9). cbn [mbind res_bind app].
  apply at_position_next in H9. run_name_list. rewrite decode_be32 by done. cbn [negb Z.eqb].
  rewrite Z.eqb_sym, (at_position_done _ _ H9). by rewrite <- Hpayload.
Qed.

(** The payload is kept as it came, whatever its size. *)
Lemma parse_kexinit_raw payload k : parse_kexinit payload = Ok k -> raw_payload k = payload.
Proof.
  unfold parse_kexinit. intros H.
  repeat match goal with
  | H : (if ?b then _ else _) = Ok _ |- _ => destruct b; [done|]
  | H : _ ≫= _ = Ok _ |- _ =>
      first [apply res_bind_Ok in H as ([? ?] & _ & H) | apply res_bind_Ok in H as (? & _ & H)]
  end.
  by injection H as <-.
Qed.

(** ** Facts: negotiation *)

Lemma choose_algorithm_spec client_list server_list :
  match choose_algorithm client_list server_list with
  | Ok c => exists before after, getlines x2c client_list = before ++ c :: after /\
      c ∈ getlines x2c server_list /\ Forall (fun c' => c' ∉ getlines x2c server_list) before
  | Throw _ => Forall (fun c => c ∉ getlines x2c server_list) (getlines x2c client_list)
  | _ => False
  end.
Proof.
  unfold choose_algorithm. set (server := getlines _ server_list).
  assert (Hin : forall c, existsb (beq c) server = true <-> c ∈ server).
  { intros c. rewrite existsb_exists. split.
    - by intros (c' & ?%list_elem_of_In & ->%beq_true).
    - intros ?%list_elem_of_In. exists c. by rewrite beq_refl. }
  induction (getlines _ client_list) as [|c client IH]; cbn; [constructor|].
  destruct (existsb (beq c) server) eqn:E; cbn.
  - exists [], client. split; [done|]. split; [by apply Hin|constructor].
  - assert (Hc : c ∉ server) by (rewrite <- Hin; congruence).
    destruct (find _ client); cbn in *; [|by constructor].
    destruct IH as (before & after & -> & Hs & Hb). exists (c :: before), after. by split_and!; [|done|constructor].
Qed.

(** A client that offers one algorithm. *)
Lemma choose_algorithm_single c server_list :
  x2c ∉ c -> c <> [] ->
  (forall a, choose_algorithm c server_list = Ok a <-> a = c /\ c ∈ getlines x2c server_list).
Proof.
  intros Hc Hne a. pose proof (choose_algorithm_spec c server_list) as H.
  rewrite getlines_last in H by done. destruct (choose_algorithm c server_list) as [a'|e| |]; [|..|done].
  - destruct H as (before & after & H & Ha & _).
    assert (a' = c) as -> by (destruct before as [|? [|]]; simplify_eq/=; done).
    split; [by intros [= <-]|]. by intros [-> _].
  - rewrite Forall_singleton in H. split; [done|]. intros [-> Hin]. by destruct (H Hin).
  - done.
Qed.

(** C19: negotiation picks, for one category, the first algorithm of the client's
    list that the server's list contains (RFC 4253, section 7.1), and throws
    exactly when the lists have no algorithm in common. *)
Theorem choose_algorithm_first client_list server_list :
  (forall c, choose_algorithm client_list server_list = Ok c <->
    exists before after, getlines x2c client_list = before ++ c :: after /\
      c ∈ getlines x2c server_list /\ Forall (fun c' => c' ∉ getlines x2c server_list) before) /\
  (choose_algorithm client_list server_list = Throw "No mutually supported SSH algorithm" <->
    Forall (fun c => c ∉ getlines x2c server_list) (getlines x2c client_list)).
Proof.
  pose proof (choose_algorithm_spec client_list server_list) as H. split.
  - intros c. split; [by intros E; rewrite E in H|]. intros (before & after & Hc & Hin & Hb).
    destruct (choose_algorithm _ _) as [c'|e| |]; [|..|done].
    + destruct H as (before' & after' & Hc' & Hin' & Hb'). rewrite Hc in Hc'. clear Hc. f_equal.
      rewrite Forall_forall in Hb, Hb'. revert before' Hc' Hb'.
      induction before as [|x before IH]; intros [|y before'] Hc' Hb'; injection Hc' as E Hc'; subst.
      * done.
      * by destruct (Hb' y (list_elem_of_here _ _)).
      * by destruct (Hb c' (list_elem_of_here _ _)).
      * eapply IH; [|done|]; intros z Hz; [apply Hb|apply Hb']; by apply list_elem_of_further.
    + rewrite Forall_forall in H. destruct (H c); [|done]. rewrite Hc. set_solver.
    + done.
  - split; [by intros E; rewrite E in H|]. intros Hd.
    unfold choose_algorithm in *. destruct (find _ _); [|done]. cbn in H.
    destruct H as (before & after & E & Hin & _). rewrite E, Forall_app, Forall_cons in Hd.
    by destruct Hd as (_ & Hn & _).
Qed.

(** ** Facts: numbers and hashes *)

Lemma sign_bit b : negb (Z.land (u8 b) 128 =? 0) = (128 <=? u8 b).
Proof. by destruct b. Qed.

Lemma be_value_leading_zeros v : be_value (drop (leading_zeros v) v) = be_value v.
Proof.
  induction v as [|b v IH]; [done|]. cbn [leading_zeros].
  destruct (Z.eqb_spec (u8 b) 0) as [E|]; [|done]. cbn [drop be_value]. rewrite IH, E. lia.
Qed.

Lemma leading_zeros_head v b v' : drop (leading_zeros v) v = b :: v' -> u8 b <> 0.
Proof.
  induction v as [|c v IH]; [done|]. cbn [leading_zeros].
  destruct (Z.eqb_spec (u8 c) 0); [done|]. cbn. by intros [= -> _].
Qed.

Lemma be_value_inj a b : size a = size b -> be_value a = be_value b -> a = b.
Proof.
  revert b. induction a as [|x a IH]; intros [|y b] Hs Hv; try done.
  rewrite !size_cons in Hs.
  assert (Hsz : size a = size b) by lia. cbn [be_value] in Hv. rewrite Hsz in Hv.
  pose proof (be_value_range a) as Ha. pose proof (be_value_range b) as Hb. rewrite Hsz in Ha.
  assert (u8 x = u8 y) as Hxy by nia. f_equal; [by apply u8_inj|]. apply IH; [done|]. rewrite Hxy in Hv. lia.
Qed.

(** Digits without leading zeros are determined by the number they denote. *)
Lemma be_value_head x a : u8 x <> 0 -> 256 ^ size a <= be_value (x :: a).
Proof.
  intros Hx. cbn [be_value]. pose proof (u8_range x). pose proof (be_value_range a).
  assert (0 < 256 ^ size a) by (apply Z.pow_pos_nonneg; [lia|apply size_nonneg]). nia.
Qed.

Lemma be_value_size a y b :
  u8 y <> 0 -> be_value a = be_value (y :: b) -> size (y :: b) <= size a.
Proof.
  intros Hy Hv. rewrite size_cons. pose proof (be_value_head _ b Hy) as Hh. rewrite <- Hv in Hh.
  pose proof (be_value_range a) as [_ Ha].
  assert (Hlt : 256 ^ size b < 256 ^ size a) by lia.
  apply Z.pow_lt_mono_r_iff in Hlt; [lia|lia|apply size_nonneg].
Qed.

Lemma be_value_unique a b :
  match a with x :: _ => u8 x <> 0 | [] => True end ->
  match b with y :: _ => u8 y <> 0 | [] => True end -> be_value a = be_value b -> a = b.
Proof.
  intros Ha Hb Hv. apply be_value_inj; [|done]. destruct a as [|x a], b as [|y b]; [done| | |].
  - pose proof (be_value_size [] y b Hb Hv) as Hs. rewrite size_nil, size_cons in Hs. pose proof (size_nonneg b). lia.
  - pose proof (be_value_size [] x a Ha (eq_sym Hv)) as Hs. rewrite size_nil, size_cons in Hs. pose proof (size_nonneg a). lia.
  - pose proof (be_value_size (x :: a) y b Hb Hv). pose proof (be_value_size (y :: b) x a Ha (eq_sym Hv)). lia.
Qed.

Lemma mpint_magnitude_value v : be_value (mpint_magnitude v) = be_value v.
Proof.
  unfold mpint_magnitude. rewrite <- (be_value_leading_zeros v).
  destruct (drop _ v) as [|b m]; [done|]. destruct (negb _); [|done]. reflexivity.
Qed.

Lemma mpint_magnitude_canonical v : canonical_mpint (mpint_magnitude v).
Proof.
  unfold mpint_magnitude. pose proof (leading_zeros_head v) as Hh.
  destruct (drop _ v) as [|b m]; [done|]. specialize (Hh b m eq_refl).
  rewrite sign_bit. destruct (Z.leb_spec 128 (u8 b)); cbn; [done|]. split; [lia|done].
Qed.

Lemma canonical_unique m m' :
  canonical_mpint m -> canonical_mpint m' -> be_value m = be_value m' -> m = m'.
Proof.
  (* the digits behind the sign byte, and how they determine the notation *)
  set (strip m := match m with b :: m' => if u8 b =? 0 then m' else m | [] => [] end).
  assert (Hstrip : forall m, canonical_mpint m -> be_value (strip m) = be_value m /\
    match strip m with x :: _ => u8 x <> 0 | [] => True end /\
    m = match strip m with x :: _ => if 128 <=? u8 x then x00 :: strip m else strip m | [] => [] end).
  { clear. intros [|b m]; [done|]. cbn [canonical_mpint strip]. intros [Hb Hz].
    destruct (Z.eqb_spec (u8 b) 0) as [E|Hne].
    - specialize (Hz E). destruct m as [|c m]; [done|]. split_and!; [|lia|].
      + cbn [be_value]. rewrite E. lia.
      + rewrite (proj2 (Z.leb_le _ _)) by done. f_equal. by apply u8_inj.
    - split_and!; [done..|]. by rewrite (proj2 (Z.leb_gt _ _)). }
  intros Hm Hm' Hv. destruct (Hstrip _ Hm) as (Hv1 & Hn1 & ->), (Hstrip _ Hm') as (Hv2 & Hn2 & ->).
  by rewrite (be_value_unique (strip m) (strip m')) by congruence.
Qed.

Lemma size_mpint_magnitude v : size (mpint_magnitude v) <= size v + 1.
Proof.
  unfold mpint_magnitude.
  assert (Hd : size (drop (leading_zeros v) v) <= size v) by (unfold size; rewrite length_drop; lia).
  destruct (drop _ v) as [|b m]; [pose proof (size_nonneg v); rewrite size_nil; lia|].
  destruct (negb _); rewrite ?size_cons in *; lia.
Qed.

Lemma mpint_magnitude_inj v w : size v = size w -> mpint_magnitude v = mpint_magnitude w -> v = w.
Proof.
  intros Hs H. apply be_value_inj; [done|].
  by rewrite <- (mpint_magnitude_value v), H, mpint_magnitude_value.
Qed.

Lemma append_positive_mpint_ok destination v :
  size v = 32 ->
  append_positive_mpint destination v =
    Ok (destination ++ be32 (size (mpint_magnitude v)) ++ mpint_magnitude v).
Proof.
  intros Hv. unfold append_positive_mpint. apply append_string_ok.
  pose proof (size_mpint_magnitude v). lia.
Qed.

(** A string field can be told from what follows it. *)
Lemma wire_string_inj s s' fs fs' :
  size s < 2 ^ 32 -> size s' < 2 ^ 32 -> wire (FString s :: fs) = wire (FString s' :: fs') ->
  s = s' /\ wire fs = wire fs'.
Proof.
  rewrite !wire_cons. cbn [wire_field]. intros Hs Hs' H. rewrite <- !app_assoc in H.
  apply app_inj_size in H as [Hl H]; [|by rewrite !size_be32].
  apply be32_inj in Hl; [|pose proof (size_nonneg s); lia|pose proof (size_nonneg s'); lia].
  by apply app_inj_size in H.
Qed.

Section kex_facts.
Context {C : Crypto} {CS : CryptoSizes}.

Lemma append_name_list_ok payload l :
  size l < 2 ^ 32 -> append_name_list payload l = Ok (payload ++ be32 (size l) ++ l).
Proof.
  intros Hl. unfold append_name_list, uint32_max. pose proof (size_nonneg l).
  rewrite Z.gtb_ltb, (proj2 (Z.ltb_ge _ _)), u32_small, encode_uint32_be32 by lia.
  by rewrite <- app_assoc.
Qed.

(** The suite this client offers, as the lists of its KEXINIT. *)
Definition client_lists : list bytes :=
  str <$> ["curve25519-sha256"; "ssh-ed25519"; "aes256-ctr"; "aes256-ctr"; "hmac-sha2-256"; "hmac-sha2-256";
           "none"; "none"; ""; ""]%string.

Lemma create_client_kexinit_eq r :
  exists k r', create_client_kexinit r = (Ok k, r') /\ raw_payload k = kexinit_wire k x00 /\
    size (cookie k) = 16 /\ name_lists k = client_lists /\ first_kex_packet_follows k = false.
Proof.
  unfold create_client_kexinit, cookie_bytes. pose proof (size_randombytes 16 r ltac:(lia)) as Hck.
  destruct (randombytes_buf 16 r) as [ck r']. cbn in Hck. cbn zeta beta iota.
  cbn [mbind res_bind mret res_ret kex_algorithms host_key_algorithms encryption_cs_algorithms
       encryption_sc_algorithms mac_cs_algorithms mac_sc_algorithms compression_cs_algorithms
       compression_sc_algorithms languages_cs languages_sc first_kex_packet_follows].
  repeat (rewrite append_name_list_ok by done; cbn [mbind res_bind]).
  rewrite encode_uint32_be32. eexists _, _. split; [reflexivity|]. cbn [raw_payload cookie]. split_and!; [|done..].
  unfold kexinit_wire. wire_eq.
Qed.

Lemma kexinit_wire_addressable k b :
  size (cookie k) = 16 -> name_lists k = client_lists -> addressable (kexinit_wire k b).
Proof.
  destruct k. unfold name_lists, kexinit_wire. cbn. intros Hc [= -> -> -> -> -> -> -> -> -> ->].
  unfold wire. cbn [fmap list_fmap concat wire_field]. unfold addressable.
  autorewrite with size. rewrite !size_be32, Hc. by vm_compute.
Qed.

Lemma parse_ecdh_reply_safe payload :
  addressable payload ->
  safe (parse_ecdh_reply payload) (fun r =>
    payload = wire [FByte ssh_message.KEX_ECDH_REPLY; FString (server_host_key r);
                    FString (server_public_key r); FString (signature r)] /\
    size (server_host_key r) < 2 ^ 32 /\ size (server_public_key r) = 32 /\ size (signature r) < 2 ^ 32).
Proof.
  intros Ha. unfold parse_ecdh_reply. apply safe_header_lt; [done|]. intros rest Hpayload Hp. cbn zeta.
  repeat safe_step. cbn. tests. split_and!; [|done..]. rewrite Hpayload. wire_eq.
Qed.

Lemma parse_ecdh_reply_wire r :
  let payload := wire [FByte ssh_message.KEX_ECDH_REPLY; FString (server_host_key r);
                       FString (server_public_key r); FString (signature r)] in
  addressable payload -> size (server_host_key r) < 2 ^ 32 -> size (server_public_key r) = 32 ->
  size (signature r) < 2 ^ 32 -> parse_ecdh_reply payload = Ok r.
Proof.
  destruct r as [hk spk sig]. cbn. intros Ha H1 H2 H3. run_start Ha. unfold parse_ecdh_reply.
  rewrite (run_header_lt _ _ _ _ _ _ Hpayload) by done. cbn zeta.
  run_step. run_step. rewrite (proj2 (Z.eqb_eq _ _) H2). cbn [negb]. run_step. by run_step.
Qed.

Lemma at_position_begin payload :
  addressable payload -> exists rest, payload = rest /\ at_position payload 0 rest.
Proof. intros Ha. exists payload. split; [done|]. by apply at_position_start. Qed.

Definition ed25519_name : bytes := str "ssh-ed25519".

Lemma parse_ed25519_safe r name :
  addressable (server_host_key r) -> addressable (signature r) ->
  safe (parse_ed25519_verification_data r name) (fun d =>
    name = ed25519_name /\ size (ed_public_key d) = 32 /\ size (ed_signature d) = 64 /\
    server_host_key r = wire [FString ed25519_name; FString (ed_public_key d)] /\
    signature r = wire [FString ed25519_name; FString (ed_signature d)]).
Proof.
  destruct r as [hk spk sig]. cbn. intros Ha Hs.
  destruct (at_position_begin _ Ha) as (rest & Hhk & Hp), (at_position_begin _ Hs) as (rest' & Hsig & Hq).
  unfold parse_ed25519_verification_data. cbn [server_host_key signature] in *. cbn zeta.
  repeat safe_step. tests. subst. cbn. split_and!; [done..| |].
  - wire_eq.
  - wire_eq.
Qed.

Lemma at_position_wire fs : addressable (wire fs) -> at_position (wire fs) 0 (concat (wire_field <$> fs)).
Proof. apply at_position_start. Qed.

Lemma parse_ed25519_wire spk pk sig :
  size pk = 32 -> size sig = 64 ->
  parse_ed25519_verification_data
    {| server_host_key := wire [FString ed25519_name; FString pk]; server_public_key := spk;
       signature := wire [FString ed25519_name; FString sig] |} ed25519_name =
  Ok {| ed_public_key := pk; ed_signature := sig |}.
Proof.
  intros Hpk Hsig.
  assert (H : forall s, size s = 32 \/ size s = 64 -> at_position (wire [FString ed25519_name; FString s]) 0
      ((be32 (size ed25519_name) ++ ed25519_name) ++ (be32 (size s) ++ s) ++ [])).
  { intros s Hs. apply at_position_wire. unfold addressable, wire. cbn [fmap list_fmap concat wire_field].
    autorewrite with size. rewrite !size_be32. change (size ed25519_name) with 11. lia. }
  pose proof (H pk (or_introl Hpk)) as Hp. pose proof (H sig (or_intror Hsig)) as Hq. clear H.
  unfold parse_ed25519_verification_data. cbn [server_host_key signature]. cbn zeta.
  set (hk := wire [_; FString pk]) in *. set (sg := wire [_; FString sig]) in *. clearbody hk sg.
  assert (Hn : size ed25519_name < 2 ^ 32) by done.
  change (str "ssh-ed25519") with ed25519_name.
  repeat run_step. rewrite !beq_refl. cbn [negb orb]. repeat run_step.
  by rewrite (proj2 (Z.eqb_eq _ _) Hpk), (proj2 (Z.eqb_eq _ _) Hsig).
Qed.

Lemma calculate_exchange_hash_eq ci si ck sk cs er :
  Forall (fun s => size s < 2 ^ 32)
    [ci; si; raw_payload ck; raw_payload sk; server_host_key er; client_public_key cs; server_public_key er] ->
  size (shared_secret cs) = 32 ->
  calculate_exchange_hash ci si ck sk cs er =
    Ok (crypto_hash_sha256 (transcript ci si (raw_payload ck) (raw_payload sk) (server_host_key er)
          (client_public_key cs) (server_public_key er) (shared_secret cs))).
Proof.
  intros Hf Hs. repeat (apply Forall_cons in Hf as [? Hf]). unfold calculate_exchange_hash.
  repeat (rewrite append_string_ok by done; cbn [mbind res_bind]).
  rewrite append_positive_mpint_ok by done. cbn [mbind res_bind]. unfold mret, res_ret. do 2 f_equal.
  unfold transcript. wire_eq.
Qed.

Lemma derive_key_material_eq K H letter sid :
  size K = 32 -> derive_key_material K H letter sid = Ok (crypto_hash_sha256 (key_input K H letter sid)).
Proof.
  intros HK. unfold derive_key_material. rewrite append_positive_mpint_ok by done. cbn. do 2 f_equal.
  unfold key_input. wire_eq.
Qed.

Lemma derive_transport_keys_eq K H sid :
  size K = 32 ->
  let key letter := crypto_hash_sha256 (key_input K H letter sid) in
  derive_transport_keys K H sid =
    Ok {| iv_cs := take 16 (key 65); iv_sc := take 16 (key 66);
          encryption_key_cs := key 67; encryption_key_sc := key 68;
          mac_key_cs := key 69; mac_key_sc := key 70 |}.
Proof.
  intros HK key. assert (Hk : forall x, size (key x) = 32) by (intros; apply size_sha256).
  assert (Ht : forall x, copy_n (key x) 0 16 = Ok (take 16 (key x))).
  { intros x. unfold copy_n. by rewrite range_ok by (rewrite ?Hk; lia). }
  assert (Hd : forall x, derive_key_material K H x sid = Ok (key x)) by (intros; by apply derive_key_material_eq).
  unfold derive_transport_keys. rewrite !Hd. cbn [mbind res_bind]. by rewrite !Ht.
Qed.

Lemma key_input_inj K H x sid K' H' x' sid' :
  size K = 32 -> size K' = 32 -> size H = size H' -> 0 <= x < 256 -> 0 <= x' < 256 ->
  key_input K H x sid = key_input K' H' x' sid' -> K = K' /\ H = H' /\ x = x' /\ sid = sid'.
Proof.
  intros HK HK' HH Hx Hx' He. unfold key_input in He. pose proof (size_mpint_magnitude K).
  pose proof (size_mpint_magnitude K').
  apply wire_string_inj in He as [Hm He]; [|lia..]. apply mpint_magnitude_inj in Hm; [|congruence].
  rewrite !wire_cons in He. cbn [wire_field] in He. apply app_inj_size in He as [-> He]; [|done].
  apply app_inj_size in He as [Hb He]; [|done]. injection Hb as Hb. apply (f_equal u8) in Hb.
  rewrite !u8_byte_of_small in Hb by done. apply app_inv_tail in He. by subst.
Qed.

(** ** Properties *)

(** The KEXINIT message this client sends is the RFC 4253 message of its
    algorithm lists with a random 16-byte cookie, and [parse_kexinit] reads back
    exactly the record it was built from. *)
Theorem kexinit_roundtrip r :
  exists k r', create_client_kexinit r = (Ok k, r') /\ parse_kexinit (raw_payload k) = Ok k /\
    raw_payload k = kexinit_wire k x00 /\ name_lists k = client_lists /\ size (cookie k) = 16.
Proof.
  destruct (create_client_kexinit_eq r) as (k & r' & Hrun & Hraw & Hck & Hl & Hf).
  exists k, r'. split_and!; try done. rewrite Hraw. apply parse_kexinit_wire; try done.
  - rewrite Hl. by repeat constructor.
  - by apply kexinit_wire_addressable.
Qed.

(** C20: [parse_kexinit] accepts exactly the well-formed KEXINIT messages: message
    number, 16 bytes of cookie, ten name-lists, the flag byte, a zero reserved
    word and nothing else; the record keeps the payload as it was received,
    which is what goes into the exchange hash. *)
Theorem parse_kexinit_iff payload k :
  addressable payload ->
  parse_kexinit payload = Ok k <->
    raw_payload k = payload /\ size (cookie k) = 16 /\ Forall (fun l => size l < 2 ^ 32) (name_lists k) /\
    exists b, payload = kexinit_wire k b /\ first_kex_packet_follows k = negb (u8 b =? 0).
Proof.
  intros Ha. split; [exact (safe_Ok _ _ _ (parse_kexinit_safe _ Ha))|].
  intros (Hraw & Hck & Hl & b & -> & Hf). by apply parse_kexinit_wire.
Qed.

(** The one suite this client supports. *)
Definition client_suite : NegotiatedAlgorithms :=
  {| kex_algorithm := str "curve25519-sha256"; host_key_algorithm := str "ssh-ed25519";
     encryption_cs_algorithm := str "aes256-ctr"; encryption_sc_algorithm := str "aes256-ctr";
     mac_cs_algorithm := str "hmac-sha2-256"; mac_sc_algorithm := str "hmac-sha2-256";
     compression_cs_algorithm := str "none"; compression_sc_algorithm := str "none" |}.

Lemma negotiate_bind_single c s (k : bytes -> res NegotiatedAlgorithms) a :
  x2c ∉ c -> c <> [] ->
  (choose_algorithm c s ≫= k = Ok a) <-> c ∈ getlines x2c s /\ k c = Ok a.
Proof.
  intros Hc Hne. rewrite res_bind_Ok. split.
  - intros (c' & H & Hk). apply choose_algorithm_single in H as [-> ?]; done.
  - intros [Hin Hk]. exists c. split; [|done]. by apply choose_algorithm_single.
Qed.

(** Negotiation with the client's lists. *)
Lemma negotiate_lists client server a :
  name_lists client = client_lists ->
  negotiate client server = Ok a <->
    a = client_suite /\
    Forall2 (fun c s => c ∈ getlines x2c s) (take 8 client_lists) (take 8 (name_lists server)).
Proof.
  intros Hl. destruct client. unfold name_lists in Hl. cbn in Hl.
  injection Hl as -> -> -> -> -> -> -> -> -> ->. unfold negotiate. cbn [kex_algorithms host_key_algorithms
    encryption_cs_algorithms encryption_sc_algorithms mac_cs_algorithms mac_sc_algorithms
    compression_cs_algorithms compression_sc_algorithms].
  rewrite !negotiate_bind_single by (vm_compute; try set_solver; done).
  unfold client_lists, name_lists. cbn [fmap list_fmap take]. rewrite !Forall2_cons, Forall2_nil.
  unfold mret, res_ret. split; [|naive_solver].
  intros (? & ? & ? & ? & ? & ? & ? & ? & <-%Ok_inj). by split_and!.
Qed.

(** C18: with the KEXINIT this client creates, negotiation either throws or
    selects exactly the suite the client implements, and it succeeds exactly
    when the server lists every algorithm of the suite in its category, at any
    place and next to whatever else: no server can downgrade the connection to
    something else, and a language list never matters. *)
Theorem negotiate_client_suite r client r' server a :
  create_client_kexinit r = (Ok client, r') ->
  negotiate client server = Ok a <->
    a = client_suite /\
    Forall2 (fun c s => c ∈ getlines x2c s) (take 8 client_lists) (take 8 (name_lists server)).
Proof.
  intros Hrun. destruct (create_client_kexinit_eq r) as (k & r1 & Hk & _ & _ & Hl & _).
  rewrite Hk in Hrun. injection Hrun as <- <-. by apply negotiate_lists.
Qed.

(** C21: [append_positive_mpint] writes the RFC 4251 [mpint] of the number whose
    big-endian digits the 32 bytes are: the magnitude it appends denotes the
    same number, it is positive and as short as possible, and it is the only
    notation with these properties. *)
Theorem mpint_canonical destination value :
  size value = 32 ->
  exists m, append_positive_mpint destination value = Ok (destination ++ be32 (size m) ++ m) /\
    be_value m = be_value value /\ canonical_mpint m /\ size m <= 33 /\
    forall m', canonical_mpint m' -> be_value m' = be_value value -> m' = m.
Proof.
  intros Hv. exists (mpint_magnitude value). split; [by apply append_positive_mpint_ok|].
  split; [apply mpint_magnitude_value|]. split; [apply mpint_magnitude_canonical|].
  split; [pose proof (size_mpint_magnitude value); lia|]. intros m' Hm' Hval.
  apply canonical_unique; [done|apply mpint_magnitude_canonical|]. by rewrite mpint_magnitude_value.
Qed.

(** C13: the exchange hash is the SHA-256 of the transcript: both identification
    strings, both KEXINIT payloads, the host key, both ephemeral keys and the
    shared secret, each as an SSH string (the secret as an [mpint]).  The
    transcript is unambiguous: equal transcripts have all eight parts equal, so
    the signed hash binds every one of them. *)
Theorem exchange_hash_binds ci si ck sk cs er ci' si' ck' sk' cs' er' :
  Forall (fun s => size s < 2 ^ 32)
    [ci; si; raw_payload ck; raw_payload sk; server_host_key er; client_public_key cs; server_public_key er] ->
  Forall (fun s => size s < 2 ^ 32)
    [ci'; si'; raw_payload ck'; raw_payload sk'; server_host_key er'; client_public_key cs'; server_public_key er'] ->
  size (shared_secret cs) = 32 -> size (shared_secret cs') = 32 ->
  let t := transcript ci si (raw_payload ck) (raw_payload sk) (server_host_key er)
             (client_public_key cs) (server_public_key er) (shared_secret cs) in
  let t' := transcript ci' si' (raw_payload ck') (raw_payload sk') (server_host_key er')
             (client_public_key cs') (server_public_key er') (shared_secret cs') in
  calculate_exchange_hash ci si ck sk cs er = Ok (crypto_hash_sha256 t) /\
  calculate_exchange_hash ci' si' ck' sk' cs' er' = Ok (crypto_hash_sha256 t') /\
  (t = t' -> ci = ci' /\ si = si' /\ raw_payload ck = raw_payload ck' /\ raw_payload sk = raw_payload sk' /\
     server_host_key er = server_host_key er' /\ client_public_key cs = client_public_key cs' /\
     server_public_key er = server_public_key er' /\ shared_secret cs = shared_secret cs').
Proof.
  intros Hf Hf' Hs Hs' t t'. split; [by apply calculate_exchange_hash_eq|].
  split; [by apply calculate_exchange_hash_eq|]. unfold t, t', transcript. intros He.
  pose proof (size_mpint_magnitude (shared_secret cs)). pose proof (size_mpint_magnitude (shared_secret cs')).
  repeat (apply Forall_cons in Hf as [? Hf]; apply Forall_cons in Hf' as [? Hf'];
    apply wire_string_inj in He as [? He]; [|done..]).
  apply wire_string_inj in He as [Hm _]; [|lia..]. apply mpint_magnitude_inj in Hm; [|congruence].
  by split_and!.
Qed.

(** [parse_ecdh_reply] accepts exactly an SSH_MSG_KEX_ECDH_REPLY with three
    strings, the second of 32 bytes, and nothing behind them. *)
Theorem ecdh_reply_iff payload reply :
  addressable payload ->
  parse_ecdh_reply payload = Ok reply <->
    payload = wire [FByte ssh_message.KEX_ECDH_REPLY; FString (server_host_key reply);
                    FString (server_public_key reply); FString (signature reply)] /\
    size (server_host_key reply) < 2 ^ 32 /\ size (server_public_key reply) = 32 /\
    size (signature reply) < 2 ^ 32.
Proof.
  intros Ha. split; [exact (safe_Ok _ _ _ (parse_ecdh_reply_safe _ Ha))|].
  intros (-> & H1 & H2 & H3). by apply parse_ecdh_reply_wire.
Qed.

(** C23: verification data is extracted exactly when "ssh-ed25519" was negotiated
    and both the host key and the signature are that name followed by one string,
    of 32 and 64 bytes, with nothing behind: the key whose fingerprint the user
    trusts is the key the signature is checked with. *)
Theorem ed25519_data_iff reply name data :
  addressable (server_host_key reply) -> addressable (signature reply) ->
  parse_ed25519_verification_data reply name = Ok data <->
    name = ed25519_name /\ size (ed_public_key data) = 32 /\ size (ed_signature data) = 64 /\
    server_host_key reply = wire [FString ed25519_name; FString (ed_public_key data)] /\
    signature reply = wire [FString ed25519_name; FString (ed_signature data)].
Proof.
  intros Ha Hs. split; [exact (safe_Ok _ _ _ (parse_ed25519_safe _ _ Ha Hs))|].
  destruct reply as [hk spk sig], data as [pk ds]. cbn. intros (-> & Hpk & Hds & -> & ->).
  by apply parse_ed25519_wire.
Qed.

(** C24: the transport keys are those of RFC 4253, section 7.2: each is the hash
    of the secret, the exchange hash, one letter and the session identifier,
    A to F in the order of the RFC with the client's direction first; the
    initialisation vectors are cut to the 16 bytes of an AES block and the keys
    have the 32 bytes AES-256 and HMAC-SHA-256 need.  The six hash inputs are
    pairwise different. *)
Theorem transport_keys_layout K H sid :
  size K = 32 ->
  let key letter := crypto_hash_sha256 (key_input K H letter sid) in
  derive_transport_keys K H sid =
    Ok {| iv_cs := take 16 (key 65); iv_sc := take 16 (key 66);
          encryption_key_cs := key 67; encryption_key_sc := key 68;
          mac_key_cs := key 69; mac_key_sc := key 70 |} /\
  size (take 16 (key 65)) = 16 /\ size (take 16 (key 66)) = 16 /\ (forall letter, size (key letter) = 32) /\
  NoDup ((fun letter => key_input K H letter sid) <$> [65; 66; 67; 68; 69; 70]).
Proof.
  intros HK key. assert (Hk : forall x, size (key x) = 32) by (intros; apply size_sha256).
  split_and!; [|change 16%nat with (Z.to_nat 16); rewrite size_take; rewrite ?Hk; lia..|done|].
  - by apply derive_transport_keys_eq.
  - apply (NoDup_fmap_2_strong _ [65; 66; 67; 68; 69; 70]).
    + intros x y Hx Hy He.
      assert (Hr : forall z, z ∈ [65; 66; 67; 68; 69; 70] -> 0 <= z < 256) by (intros z Hz; set_unfold; lia).
      apply key_input_inj in He as (_ & _ & ? & _); auto.
    + apply (bool_decide_unpack _). by vm_compute.
Qed.

End kex_facts.

(** ** Concrete runs *)

Section samples.
#[local] Existing Instances Toy.crypto Toy.sizes_ok.

Definition sample_seed : @rng Toy.crypto := 5%nat.

Definition sample_kexinit : KexInit :=
  {| raw_payload := [x14] ++ replicate 16 x07 ++
       concat ((fun l => be32 (size l) ++ l) <$> client_lists) ++ [x01] ++ be32 0;
     cookie := replicate 16 x07; kex_algorithms := str "curve25519-sha256";
     host_key_algorithms := str "ssh-ed25519"; encryption_cs_algorithms := str "aes256-ctr";
     encryption_sc_algorithms := str "aes256-ctr"; mac_cs_algorithms := str "hmac-sha2-256";
     mac_sc_algorithms := str "hmac-sha2-256"; compression_cs_algorithms := str "none";
     compression_sc_algorithms := str "none"; languages_cs := []; languages_sc := [];
     first_kex_packet_follows := true |}.

Definition sample_server : KexInit :=
  {| raw_payload := []; cookie := []; kex_algorithms := str "sntrup761x25519-sha512,curve25519-sha256";
     host_key_algorithms := str "rsa-sha2-512,ssh-ed25519"; encryption_cs_algorithms := str "aes128-ctr,aes256-ctr";
     encryption_sc_algorithms := str "aes256-ctr"; mac_cs_algorithms := str "hmac-sha2-256";
     mac_sc_algorithms := str "hmac-sha2-512,hmac-sha2-256"; compression_cs_algorithms := str "none,zlib@openssh.com";
     compression_sc_algorithms := str "none"; languages_cs := []; languages_sc := [];
     first_kex_packet_follows := false |}.

Lemma kexinit_roundtrip_witness :
  exists k r', create_client_kexinit sample_seed = (Ok k, r') /\ parse_kexinit (raw_payload k) = Ok k.
Proof. destruct (kexinit_roundtrip sample_seed) as (k & r' & H1 & H2 & _). exists k, r'. split; assumption. Defined.

Lemma parse_kexinit_iff_witness : parse_kexinit (raw_payload sample_kexinit) = Ok sample_kexinit.
Proof.
  apply (parse_kexinit_iff (raw_payload sample_kexinit) sample_kexinit); [vm_compute; reflexivity|].
  split; [reflexivity|]. split; [reflexivity|]. split; [repeat constructor|].
  exists x01. split; vm_compute; reflexivity.
Defined.

Lemma negotiate_client_suite_witness : exists client r',
  create_client_kexinit sample_seed = (Ok client, r') /\ negotiate client sample_server = Ok client_suite.
Proof.
  destruct (create_client_kexinit sample_seed) as [[client|e| |] r'] eqn:E; [|vm_compute in E; discriminate E..].
  exists client, r'. split; [reflexivity|].
  apply (negotiate_client_suite sample_seed client r' sample_server client_suite E). split; [reflexivity|].
  repeat constructor; apply (bool_decide_unpack _); vm_compute; reflexivity.
Defined.

Lemma mpint_canonical_witness :
  append_positive_mpint [] (replicate 31 x00 ++ [x80]) = Ok [x00; x00; x00; x02; x00; x80].
Proof.
  destruct (mpint_canonical [] (replicate 31 x00 ++ [x80])) as (m & H & _ & _ & _ & Hu); [reflexivity|].
  rewrite H, <- (Hu [x00; x80]); [vm_compute; reflexivity| |vm_compute; reflexivity].
  vm_compute. split; congruence.
Defined.

Definition sample_curve : Curve25519State :=
  {| client_private_key := replicate 32 x01; client_public_key := replicate 32 x02; shared_secret := replicate 32 x03 |}.

Definition sample_reply : EcdhReply :=
  {| server_host_key := wire [FString ed25519_name; FString (replicate 32 x04)];
     server_public_key := replicate 32 x05;
     signature := wire [FString ed25519_name; FString (replicate 64 x06)] |}.

Lemma exchange_hash_binds_witness :
  calculate_exchange_hash (str "SSH-2.0-a") (str "SSH-2.0-b") sample_kexinit sample_server sample_curve sample_reply =
  Ok (crypto_hash_sha256 (transcript (str "SSH-2.0-a") (str "SSH-2.0-b") (raw_payload sample_kexinit) []
    (server_host_key sample_reply) (replicate 32 x02) (replicate 32 x05) (replicate 32 x03))).
Proof.
  apply (exchange_hash_binds (str "SSH-2.0-a") (str "SSH-2.0-b") sample_kexinit sample_server sample_curve sample_reply
    (str "SSH-2.0-a") (str "SSH-2.0-b") sample_kexinit sample_server sample_curve sample_reply);
    try reflexivity; repeat constructor.
Defined.

Lemma ecdh_reply_iff_witness :
  parse_ecdh_reply (wire [FByte 31; FString (server_host_key sample_reply);
    FString (server_public_key sample_reply); FString (signature sample_reply)]) = Ok sample_reply.
Proof. apply ecdh_reply_iff; [vm_compute; reflexivity|]. split; [|split; [|split]]; vm_compute; reflexivity. Defined.

Lemma ed25519_data_iff_witness :
  parse_ed25519_verification_data sample_reply ed25519_name =
    Ok {| ed_public_key := replicate 32 x04; ed_signature := replicate 64 x06 |}.
Proof.
  apply ed25519_data_iff; [vm_compute; reflexivity..|].
  split; [|split; [|split; [|split]]]; vm_compute; reflexivity.
Defined.

Lemma transport_keys_layout_witness :
  exists keys, derive_transport_keys (replicate 32 x03) (str "hash") (str "session") = Ok keys /\
    size (iv_cs keys) = 16 /\ size (mac_key_sc keys) = 32.
Proof.
  destruct (transport_keys_layout (replicate 32 x03) (str "hash") (str "session")) as (H & Hiv & _ & Hk & _); [reflexivity|].
  eexists. split; [exact H|]. split; [exact Hiv|apply (Hk 70)].
Defined.

End samples.
