(* ===== verification/KnownHosts.v ===== *)
(** * The known-hosts file: [src/known_hosts/known_hosts.cpp]

    The file system is a map from paths to contents, with an oracle for each
    way an access can fail.  [KnownHosts] is its path.  The second half gives
    the abstract view of the file, a list of trusted entries, and relates
    [check] and [add] to it. *)

From S2P Require Import Prelude Crypto.

(** ** The file system *)

(** [exists_fails], [open_fails], [mkdir_fails] and [append_fails] are the calls
    that the system refuses for a path.  [read_stops p = Some n] is a read error
    after [n] bytes.  [write_stops p = Some (n, seen)]: only [n] bytes of what is
    written reach the file, and [seen] tells whether the stream notices before it
    is closed (its destructor flushes the buffer and ignores errors). *)
Record Disk := {
  files : gmap bytes bytes;
  exists_fails : bytes -> bool;
  open_fails : bytes -> bool;
  mkdir_fails : bytes -> bool;
  append_fails : bytes -> bool;
  read_stops : bytes -> option nat;
  write_stops : bytes -> option (nat * bool);
}.

Definition with_files (f : gmap bytes bytes) (d : Disk) : Disk :=
  {| files := f; exists_fails := exists_fails d; open_fails := open_fails d;
     mkdir_fails := mkdir_fails d; append_fails := append_fails d;
     read_stops := read_stops d; write_stops := write_stops d |}.

(** The lines of a stream that goes bad at the end of [s]: the last one counts
    only when its newline was read. *)
Fixpoint whole_lines_from (line s : bytes) : list bytes :=
  match s with
  | [] => []
  | b :: s => if decide (b = x0a) then line :: whole_lines_from [] s
              else whole_lines_from (line ++ [b]) s
  end.

(** What the loop [while (std::getline(file, line))] sees of a file, and
    [file.bad()] after it. *)
Definition file_lines (path : bytes) (d : Disk) : list bytes * bool :=
  let content := default [] (files d !! path) in
  match read_stops d path with
  | Some n => (whole_lines_from [] (take n content), true)
  | None => (getlines x0a content, false)
  end.

(** [std::filesystem::path::parent_path]: what precedes the last slash, without
    trailing slashes, except for the root. *)
Fixpoint strip_slashes (reversed : bytes) : bytes :=
  match reversed with
  | [] | [_] => reversed
  | b :: s => if decide (b = x2f) then strip_slashes s else reversed
  end.

Fixpoint drop_filename (reversed : bytes) : bytes :=
  match reversed with
  | [] => []
  | b :: s => if decide (b = x2f) then reversed else drop_filename s
  end.

Definition parent_path (path : bytes) : bytes := rev (strip_slashes (drop_filename (rev path))).

(** ** [namespace] of the file, and [class KnownHosts] *)

(** [enum class HostKeyStatus] *)
Inductive HostKeyStatus : Type := Unknown | Match | Changed.

#[global] Instance HostKeyStatus_eq_dec : EqDecision HostKeyStatus.
Proof. solve_decision. Defined.

Section known_hosts.
Context {C : Crypto}.

Definition encode_base64 (data : bytes) : res bytes :=
  if size data =? 0 then mthrow "Cannot encode an empty host key"%string else
  match sodium_bin2base64 true data with
  | None => mthrow "Failed to encode host key"%string
  | Some encoded => mret encoded
  end.

(** The loop of [check]: the status at which it returns, or [None] when the
    lines end. *)
Fixpoint check_lines (hostname algorithm encoded_key : bytes) (lines : list bytes)
    : res (option HostKeyStatus) :=
  match lines with
  | [] => mret None
  | line :: lines =>
      if size line =? 0 then check_lines hostname algorithm encoded_key lines else
      match words line with
      | saved_hostname :: saved_algorithm :: saved_key :: _ =>
          if negb (beq saved_hostname hostname)
          then check_lines hostname algorithm encoded_key lines else
          if beq saved_algorithm algorithm && beq saved_key encoded_key
          then mret (Some Match) else mret (Some Changed)
      | _ => mthrow "Malformed known-hosts entry"%string
      end
  end.

Definition check (file_path hostname algorithm host_key : bytes) (d : Disk) : res HostKeyStatus :=
  encoded_key ← encode_base64 host_key;
  if exists_fails d file_path then mthrow "filesystem error: status"%string else
  match files d !! file_path with
  | None => mret Unknown
  | Some _ =>
      if open_fails d file_path then mthrow "Failed to open known-hosts file"%string else
      let '(lines, bad) := file_lines file_path d in
      found ← check_lines hostname algorithm encoded_key lines;
      match found with
      | Some status => mret status
      | None =>
          if bad : bool then mthrow "Failed while reading known-hosts file"%string else mret Unknown
      end
  end.

(** Opening with [std::ios::app] creates the file. *)
Definition open_append (path : bytes) : M Disk unit := fun d =>
  if append_fails d path then (Throw "Failed to open known-hosts file for writing"%string, d)
  else (Ok tt, with_files (<[path := default [] (files d !! path)]> (files d)) d).

(** The entry goes to the end of the file. *)
Definition append_file (path entry : bytes) : M Disk unit := fun d =>
  let content := default [] (files d !! path) in
  match write_stops d path with
  | None => (Ok tt, with_files (<[path := content ++ entry]> (files d)) d)
  | Some (n, seen) =>
      (if seen : bool then Throw "Failed to write known-hosts entry"%string else Ok tt,
       with_files (<[path := content ++ take n entry]> (files d)) d)
  end.

Definition create_directories (directory : bytes) : M Disk unit := fun d =>
  if mkdir_fails d directory then (Throw "filesystem error: cannot create directories"%string, d)
  else (Ok tt, d).

(** The key is encoded in the middle of the output statement; the encoding is the
    one [check] has just computed, so it does not fail there. *)
Definition add (file_path hostname algorithm host_key : bytes) : M Disk unit :=
  d ← get;
  status ← lift (check file_path hostname algorithm host_key d);
  match status with
  | Match => mret tt
  | Changed => mthrow "Refusing to replace existing host key"%string
  | Unknown =>
      let directory := parent_path file_path in
      (if negb (size directory =? 0) then create_directories directory else mret tt);;
      open_append file_path;;
      encoded ← lift (encode_base64 host_key);
      append_file file_path (hostname ++ [x20] ++ algorithm ++ [x20] ++ encoded ++ [x0a])
  end.

(** ** Specification: a list of trusted keys *)

(** Host, algorithm and key of an entry. *)
Definition entry : Type := (bytes * bytes * bytes)%type.

Definition entry_line (e : entry) (l : bytes) : Prop :=
  let '(h, a, k) := e in
  exists b, sodium_bin2base64 true k = Some b /\ l = h ++ x20 :: a ++ x20 :: b.

(** A file stands for a list of entries: one line each, in order, every line
    ended by a newline. *)
Inductive represents : bytes -> list entry -> Prop :=
  | represents_nil : represents [] []
  | represents_cons h a k l s es :
      token h -> token a -> k <> [] -> entry_line (h, a, k) l -> represents s es ->
      represents (l ++ x0a :: s) ((h, a, k) :: es).

(** The status a list of entries gives: the first entry of the host decides. *)
Definition status_in (es : list entry) (h a k : bytes) : HostKeyStatus :=
  match find (fun '(h', _, _) => beq h' h) es with
  | None => Unknown
  | Some (_, a', k') => if beq a' a && beq k' k then Match else Changed
  end.

(** No access to [path] fails. *)
Definition healthy (path : bytes) (d : Disk) : Prop :=
  exists_fails d path = false /\ open_fails d path = false /\ append_fails d path = false /\
  mkdir_fails d (parent_path path) = false /\ read_stops d path = None /\ write_stops d path = None.

End known_hosts.

#[global] Arguments entry : clear implicits.

(** ** Facts *)

Lemma token_no_newline w : token w -> x0a ∉ w.
Proof. intros [_ Hw] Hin. rewrite Forall_forall in Hw. by apply Hw in Hin. Qed.

Section facts.
Context {C : Crypto} {BL : Base64Laws}.

Lemma encode_base64_ok k e : k <> [] -> encode_base64 k = Ok e <-> sodium_bin2base64 true k = Some e.
Proof.
  intros Hk. unfold encode_base64. destruct k as [|b k]; [done|].
  rewrite size_cons. pose proof (size_nonneg k). rewrite (proj2 (Z.eqb_neq _ _)) by lia.
  destruct (sodium_bin2base64 true (b :: k)); cbn; split; by intros [= ->].
Qed.

Lemma entry_line_facts h a k l :
  token h -> token a -> k <> [] -> entry_line (h, a, k) l ->
  exists b, sodium_bin2base64 true k = Some b /\ l = h ++ x20 :: a ++ x20 :: b /\
    words l = [h; a; b] /\ (x0a ∉ l) /\ l <> [].
Proof.
  intros Hh Ha Hk (b & Hb & ->). exists b.
  destruct (base64_some true k Hk) as (b' & Hb' & Ht). rewrite Hb in Hb'. injection Hb' as <-.
  split_and!; try done.
  - rewrite !words_token_space by done. by rewrite words_token.
  - pose proof (token_no_newline _ Hh). pose proof (token_no_newline _ Ha). pose proof (token_no_newline _ Ht).
    rewrite elem_of_app, elem_of_cons, elem_of_app, elem_of_cons. naive_solver.
  - by destruct h.
Qed.

(** The scan of a represented file is the search in the list of entries, and
    goes on to what follows it when the host is not among them. *)
Lemma check_lines_represents s t es h a k key :
  represents s es -> sodium_bin2base64 true k = Some key ->
  check_lines h a key (getlines x0a (s ++ t)) =
    match status_in es h a k with
    | Unknown => check_lines h a key (getlines x0a t)
    | st => Ok (Some st)
    end.
Proof.
  intros Hs Hkey. induction Hs as [|h' a' k' l s es Hh Ha Hk' Hl Hs IH]; [done|].
  rewrite <- app_assoc. cbn [app].
  destruct (entry_line_facts _ _ _ _ Hh Ha Hk' Hl) as (b & Hb & Hlb & Hw & Hn & Hne).
  rewrite getlines_item by done. cbn [check_lines].
  rewrite (proj2 (Z.eqb_neq _ _)), Hw by (intros ?%size_zero_nil; done).
  unfold status_in. cbn [find]. destruct (beq_spec h' h) as [->|Hne']; cbn [negb]; [|done].
  assert (Hkk : beq b key = beq k' k).
  { destruct (beq_spec k' k) as [->|Hd], (beq_spec b key) as [->|]; try congruence.
    destruct Hd. by eapply base64_inj. }
  rewrite Hkk. by destruct (_ && _).
Qed.

Lemma check_represents path h a k d es :
  healthy path d -> k <> [] -> represents (default [] (files d !! path)) es ->
  check path h a k d = Ok (status_in es h a k).
Proof.
  intros (He & Ho & _ & _ & Hr & _) Hk Hs. unfold check.
  destruct (base64_some true k Hk) as (key & Hkey & _).
  rewrite (proj2 (encode_base64_ok k key Hk)), He by done. cbn [mbind res_bind].
  destruct (files d !! path) as [s|] eqn:Ef.
  - rewrite Ho. unfold file_lines. rewrite Ef, Hr. cbn [default id] in *.
    rewrite <- (app_nil_r s), (check_lines_represents s [] es h a k key) by done.
    by destruct (status_in es h a k).
  - cbn in Hs. remember (@nil byte) as s eqn:Es. destruct Hs; [done|]. by destruct l.
Qed.

Lemma represents_app s es e l :
  represents s es -> (let '(h, a, k) := e in token h /\ token a /\ k <> []) -> entry_line e l ->
  represents (s ++ l ++ [x0a]) (es ++ [e]).
Proof.
  destruct e as [[h a] k]. intros Hs (Hh & Ha & Hk) Hl.
  induction Hs as [|h' a' k' l' s es Hh' Ha' Hk' Hl' Hs IH]; cbn [app].
  - apply (represents_cons h a k l [] []); [done..|constructor].
  - rewrite <- app_assoc. by constructor.
Qed.

(** The file after it was opened and written to. *)
Lemma open_append_cases path d :
  (exists e, open_append path d = (Throw e, d)) \/
  append_fails d path = false /\
  open_append path d = (Ok tt, with_files (<[path := default [] (files d !! path)]> (files d)) d).
Proof. unfold open_append. destruct (append_fails d path); eauto. Qed.

Lemma append_opened path s entry d :
  append_file path entry (with_files (<[path := s]> (files d)) d) =
    match write_stops d path with
    | None => (Ok tt, with_files (<[path := s ++ entry]> (files d)) d)
    | Some (n, seen) =>
        (if seen : bool then Throw "Failed to write known-hosts entry"%string else Ok tt,
         with_files (<[path := s ++ take n entry]> (files d)) d)
    end.
Proof.
  unfold append_file. cbn [files write_stops with_files]. rewrite lookup_insert_eq.
  destruct (write_stops d path) as [[]|]; by rewrite insert_insert_eq.
Qed.

Lemma check_Ok_encodes path h a k d st : check path h a k d = Ok st -> exists key, encode_base64 k = Ok key.
Proof. unfold check. intros (key & Hk & _)%res_bind_Ok. by exists key. Qed.

(** What [add] does once the host is unknown. *)
Lemma add_unknown path h a k key d :
  healthy path d -> k <> [] -> sodium_bin2base64 true k = Some key ->
  check path h a k d = Ok Unknown ->
  add path h a k d = (Ok tt, with_files (<[path := default [] (files d !! path) ++
    (h ++ x20 :: a ++ x20 :: key) ++ [x0a]]> (files d)) d).
Proof.
  intros (He & Ho & Hap & Hm & _ & Hw) Hk Hkey Hc. unfold add.
  rewrite (M_bind_run get _ d d d eq_refl), (M_lift_run _ _ _ _ Hc).
  assert (Hdir : (if negb (size (parent_path path) =? 0) then create_directories (parent_path path) else mret tt) d
    = (Ok tt, d)).
  { destruct (negb _); [|done]. unfold create_directories. by rewrite Hm. }
  destruct (open_append_cases path d) as [[e Hopen]|[_ Hopen]]; [unfold open_append in Hopen; by rewrite Hap in Hopen|].
  rewrite (M_bind_run _ _ _ _ _ Hdir), (M_bind_run _ _ _ _ _ Hopen), (M_lift_run _ _ _ key) by (by apply encode_base64_ok).
  rewrite append_opened, Hw. do 4 f_equal. by rewrite <- !app_assoc; cbn; rewrite <- !app_assoc.
Qed.

Lemma status_in_app es e h a k :
  status_in (es ++ [e]) h a k =
    match status_in es h a k with Unknown => status_in [e] h a k | st => st end.
Proof.
  unfold status_in. induction es as [|[[h' a'] k'] es IH]; cbn [find app]; [done|].
  destruct (beq h' h); [by destruct (_ && _)|]. apply IH.
Qed.

(** The scan of a file that goes bad sees no more than the lines of its prefix. *)
Lemma add_effect path h a k d :
  let '(r, d') := add path h a k d in
  d' = d \/ exists n key, encode_base64 k = Ok key /\ check path h a k d = Ok Unknown /\
    d' = with_files (<[path := default [] (files d !! path) ++ take n (h ++ [x20] ++ a ++ [x20] ++ key ++ [x0a])]>
           (files d)) d.
Proof.
  unfold add. rewrite (M_bind_run get _ d d d eq_refl), M_lift_res.
  destruct (check path h a k d) as [[]|e| |] eqn:Hc; try by left.
  destruct (check_Ok_encodes _ _ _ _ _ _ Hc) as [key Hk].
  set (dir := if negb _ then _ else _).
  assert (Hd : exists r, dir d = (r, d)).
  { unfold dir, create_directories. destruct (negb _); [|by exists (Ok tt)].
    destruct (mkdir_fails _ _); eauto. }
  destruct Hd as [r Hd]. rewrite (M_bind_res _ _ _ _ _ Hd). destruct r; try by left.
  destruct (open_append_cases path d) as [[e Hopen]|[_ Hopen]]; rewrite (M_bind_res _ _ _ _ _ Hopen); [by left|].
  rewrite M_lift_res, Hk, append_opened.
  destruct (write_stops d path) as [[n seen]|]; cbv beta iota zeta; right.
  - by exists n, key.
  - exists (length (h ++ [x20] ++ a ++ [x20] ++ key ++ [x0a])), key. by rewrite take_ge.
Qed.

(** ** Properties *)

(** C11: on a file that holds a list of entries, with no failing access,
    [check] and [add] are the operations of that list: [check] gives the verdict
    of the first entry of the host (no entry: unknown; same algorithm and key:
    match; anything else: changed), and [add] appends an entry for an unknown
    host, does nothing for a match and refuses a changed key. *)
Theorem known_hosts_refines path h a k d es :
  healthy path d -> represents (default [] (files d !! path)) es ->
  token h -> token a -> k <> [] ->
  check path h a k d = Ok (status_in es h a k) /\
  match status_in es h a k with
  | Unknown => exists d', add path h a k d = (Ok tt, d') /\ healthy path d' /\
      represents (default [] (files d' !! path)) (es ++ [(h, a, k)])
  | Match => add path h a k d = (Ok tt, d)
  | Changed => add path h a k d = (Throw "Refusing to replace existing host key", d)
  end.
Proof.
  intros Hd Hs Hh Ha Hk. pose proof (check_represents path h a k d es Hd Hk Hs) as Hc.
  split; [done|]. destruct (status_in es h a k) eqn:Est.
  - destruct (base64_some true k Hk) as (key & Hkey & _). eexists.
    split; [by apply add_unknown|]. split; [done|]. cbn [files with_files]. rewrite lookup_insert_eq. cbn [default id].
    apply represents_app; [done|done|]. by exists key.
  - unfold add. by rewrite (M_bind_run get _ d d d eq_refl), (M_lift_run _ _ _ _ Hc).
  - unfold add. by rewrite (M_bind_run get _ d d d eq_refl), (M_lift_run _ _ _ _ Hc).
Qed.

(** C32: trust is persistent and exact: after [add] has stored a key for a host
    it did not know, that key matches, every other key or algorithm for the host
    is reported as changed, and the verdict on every other host is what it was. *)
Theorem trust_persists path h a k d d' es :
  healthy path d -> represents (default [] (files d !! path)) es ->
  token h -> token a -> k <> [] -> status_in es h a k = Unknown ->
  add path h a k d = (Ok tt, d') ->
  check path h a k d' = Ok Match /\
  (forall a' k', k' <> [] -> (a', k') <> (a, k) -> check path h a' k' d' = Ok Changed) /\
  (forall h' a' k', k' <> [] -> h' <> h -> check path h' a' k' d' = check path h' a' k' d).
Proof.
  intros Hd Hs Hh Ha Hk Hst Hadd.
  destruct (base64_some true k Hk) as (key & Hkey & _).
  rewrite (add_unknown path h a k key d) in Hadd; [|done..|].
  2:{ rewrite (check_represents path h a k d es) by done. by rewrite Hst. }
  injection Hadd as <-. set (d' := with_files _ d).
  assert (Hd' : healthy path d') by done.
  assert (Hs' : represents (default [] (files d' !! path)) (es ++ [(h, a, k)])).
  { unfold d'. cbn [files with_files]. rewrite lookup_insert_eq. cbn [default id].
    apply represents_app; [done|done|]. by exists key. }
  assert (Hnew : forall a' k', status_in es h a' k' = Unknown).
  { intros a' k'. revert Hst. unfold status_in.
    repeat case_match; done. }
  assert (Hnew' : forall a' k', k' <> [] ->
    check path h a' k' d' = Ok (if beq a a' && beq k k' then Match else Changed)).
  { intros a' k' Hk'. rewrite (check_represents path h a' k' d' _ Hd' Hk' Hs'), status_in_app, Hnew.
    unfold status_in. cbn [find]. by rewrite beq_refl. }
  split_and!.
  - by rewrite Hnew', !beq_refl.
  - intros a' k' Hk' Hne. rewrite Hnew' by done. destruct (beq_spec a a') as [->|], (beq_spec k k') as [->|]; done.
  - intros h' a' k' Hk' Hne. rewrite (check_represents path h' a' k' d' _ Hd' Hk' Hs'), status_in_app.
    rewrite (check_represents path h' a' k' d es) by done.
    destruct (status_in es h' a' k'); [|done..]. unfold status_in. cbn [find].
    by rewrite (proj2 (beq_false h h')) by congruence.
Qed.

(** Whatever the file holds and whatever fails on the way, [add] never
    changes a byte that was there: it leaves the disk alone or puts (a prefix
    of) one entry at the end of its own file, and it touches the file only when
    the check of the same key found the host unknown.  In particular a changed
    key never overwrites the trusted one. *)
Theorem add_only_appends path h a k d r d' :
  add path h a k d = (r, d') ->
  (forall p, p <> path -> files d' !! p = files d !! p) /\
  (exists s, default [] (files d' !! path) = default [] (files d !! path) ++ s) /\
  (check path h a k d <> Ok Unknown -> d' = d).
Proof.
  intros Hadd. pose proof (add_effect path h a k d) as He. rewrite Hadd in He.
  destruct He as [->|(n & key & _ & Hc & ->)].
  - split_and!; [done| |done]. exists []. by rewrite app_nil_r.
  - cbn [files with_files]. split_and!.
    + intros p Hp. by rewrite lookup_insert_ne.
    + rewrite lookup_insert_eq. cbn. eauto.
    + done.
Qed.

Lemma check_healthy path h a k key d c :
  healthy path d -> k <> [] -> sodium_bin2base64 true k = Some key -> files d !! path = Some c ->
  check path h a k d =
    (found ← check_lines h a key (getlines x0a c);
     mret (match found with Some status => status | None => Unknown end)).
Proof.
  intros (He & Ho & _ & _ & Hr & _) Hk Hkey Ef. unfold check.
  rewrite (proj2 (encode_base64_ok k key Hk)), He by done. cbn [mbind res_bind]. rewrite Ef, Ho.
  unfold file_lines. rewrite Ef, Hr. cbn [default id]. by destruct (check_lines _ _ _ _) as [[]| | |].
Qed.

(** The verdict of one line. *)
Lemma check_lines_one h a key h' a' k' ws l :
  words l = h' :: a' :: k' :: ws -> l <> [] ->
  check_lines h a key [l] =
    Ok (if beq h' h then Some (if beq a' a && beq k' key then Match else Changed) else None).
Proof.
  intros Hw Hl. cbn [check_lines]. rewrite (proj2 (Z.eqb_neq _ _)), Hw by (intros ?%size_zero_nil; done).
  destruct (beq h' h); cbn [negb]; [|done]. by destruct (_ && _).
Qed.

(** C40: a known-hosts file whose last line has no newline is damaged by [add]:
    the new entry is glued to that line.  The host of the last line, which
    matched before, is reported as changed from then on, and the host that was
    added is still unknown. *)
Theorem unterminated_entry_merges path s es h a k l h2 a2 k2 d :
  healthy path d -> files d !! path = Some (s ++ l) -> represents s es ->
  token h -> token a -> k <> [] -> entry_line (h, a, k) l -> (forall a k, status_in es h a k = Unknown) ->
  token h2 -> token a2 -> k2 <> [] -> h2 <> h -> status_in es h2 a2 k2 = Unknown ->
  exists d', add path h2 a2 k2 d = (Ok tt, d') /\
    check path h a k d = Ok Match /\ check path h a k d' = Ok Changed /\
    check path h2 a2 k2 d' = Ok Unknown.
Proof.
  intros Hd Ef Hs Hh Ha Hk Hl Hun Hh2 Ha2 Hk2 Hne Hun2.
  destruct (entry_line_facts h a k l Hh Ha Hk Hl) as (b & Hb & Hlb & Hw & Hn & Hnil).
  destruct (base64_some true k2 Hk2) as (key2 & Hkey2 & Ht2).
  assert (Hlast : forall h' a' k' key, sodium_bin2base64 true k' = Some key -> status_in es h' a' k' = Unknown ->
    check_lines h' a' key (getlines x0a (s ++ l)) =
      Ok (if beq h h' then Some (if beq a a' && beq b key then Match else Changed) else None)).
  { intros h' a' k' key Hkey Hst. rewrite (check_lines_represents s l es h' a' k' key), Hst by done.
    rewrite getlines_last by done. by apply (check_lines_one _ _ _ _ _ _ []). }
  assert (Hc2 : check path h2 a2 k2 d = Ok Unknown).
  { rewrite (check_healthy path h2 a2 k2 key2 d (s ++ l)), (Hlast h2 a2 k2 key2) by done.
    by rewrite (proj2 (beq_false h h2)) by congruence. }
  eexists. split; [by apply add_unknown|].
  rewrite (check_healthy path h a k b d (s ++ l)), (Hlast h a k b), !beq_refl by done. split; [done|].
  set (d' := with_files _ d). assert (Hd' : healthy path d') by done.
  set (l2 := h ++ x20 :: a ++ x20 :: (b ++ h2) ++ x20 :: a2 ++ x20 :: key2).
  assert (Ef' : files d' !! path = Some (s ++ l2 ++ x0a :: [])).
  { unfold d'. cbn [files with_files]. rewrite lookup_insert_eq, Ef. cbn [default id]. unfold l2. rewrite Hlb.
    repeat (rewrite <- ?app_assoc; cbn [app]). done. }
  assert (Hbh : token (b ++ h2)).
  { destruct (base64_some true k Hk) as (b' & Hb' & [Hb1 Hb2]). rewrite Hb in Hb'. injection Hb' as <-.
    destruct Hh2 as [_ Hh2']. split; [by destruct b|]. by apply Forall_app. }
  assert (Hw2 : words l2 = [h; a; b ++ h2; a2; key2]).
  { unfold l2. rewrite !words_token_space by done. by rewrite words_token. }
  assert (Hn2 : x0a ∉ l2).
  { pose proof (token_no_newline _ Hh). pose proof (token_no_newline _ Ha). pose proof (token_no_newline _ Hbh).
    pose proof (token_no_newline _ Ha2). pose proof (token_no_newline _ Ht2).
    unfold l2. repeat (rewrite elem_of_app || rewrite elem_of_cons). rewrite elem_of_app in *. naive_solver. }
  assert (Hscan : forall h' a' k' key, sodium_bin2base64 true k' = Some key -> status_in es h' a' k' = Unknown ->
    check_lines h' a' key (getlines x0a (s ++ l2 ++ x0a :: [])) =
      Ok (if beq h h' then Some (if beq a a' && beq (b ++ h2) key then Match else Changed) else None)).
  { intros h' a' k' key Hkey Hst. rewrite (check_lines_represents s _ es h' a' k' key), Hst by done.
    rewrite getlines_item by done. apply (check_lines_one _ _ _ _ _ _ [a2; key2]); [done|]. by destruct h. }
  rewrite (check_healthy path h a k b d' _ Hd' Hk Hb Ef'), (Hscan h a k b), !beq_refl by done.
  rewrite (check_healthy path h2 a2 k2 key2 d' _ Hd' Hk2 Hkey2 Ef'), (Hscan h2 a2 k2 key2) by done.
  rewrite (proj2 (beq_false h h2)), (proj2 (beq_false (b ++ h2) b)); [done| |congruence].
  destruct Hh2 as [Hh2 _]. intros E. apply Hh2. apply (f_equal length) in E. rewrite length_app in E.
  destruct h2; [done|cbn in E; lia].
Qed.

End facts.

(** ** Concrete runs *)

Section samples.
#[local] Existing Instances Toy.crypto Toy.base64_ok.

Definition sample_path : bytes := str "/home/me/.conorssh/known_hosts".

(** A disk on which nothing fails. *)
Definition sample_disk (f : gmap bytes bytes) : Disk :=
  {| files := f; exists_fails := fun _ => false; open_fails := fun _ => false; mkdir_fails := fun _ => false;
     append_fails := fun _ => false; read_stops := fun _ => None; write_stops := fun _ => None |}.

Definition sample_line : bytes := str "alpha ssh-ed25519 " ++ Toy.letters [x01; x02].

Lemma sample_represents :
  represents (sample_line ++ x0a :: []) [(str "alpha", str "ssh-ed25519", [x01; x02])].
Proof.
  constructor; [split; [done|by repeat constructor]..|done| |constructor].
  eexists. split; reflexivity.
Qed.

Lemma known_hosts_refines_witness :
  check sample_path (str "alpha") (str "ssh-ed25519") [x01; x03]
    (sample_disk {[sample_path := sample_line ++ [x0a]]}) = Ok Changed.
Proof.
  refine (proj1 (known_hosts_refines sample_path (str "alpha") (str "ssh-ed25519") [x01; x03]
    (sample_disk {[sample_path := sample_line ++ [x0a]]}) [(str "alpha", str "ssh-ed25519", [x01; x02])] _ _ _ _ _)).
  - repeat split.
  - exact sample_represents.
  - split; [discriminate|repeat constructor].
  - split; [discriminate|repeat constructor].
  - discriminate.
Defined.

Lemma trust_persists_witness : exists d',
  add sample_path (str "beta") (str "ssh-ed25519") [x07]
    (sample_disk {[sample_path := sample_line ++ [x0a]]}) = (Ok tt, d') /\
  check sample_path (str "beta") (str "ssh-ed25519") [x07] d' = Ok Match.
Proof.
  eexists. split; [apply outcome_of; vm_compute; reflexivity|].
  refine (proj1 (trust_persists sample_path (str "beta") (str "ssh-ed25519") [x07]
    (sample_disk {[sample_path := sample_line ++ [x0a]]}) _ [(str "alpha", str "ssh-ed25519", [x01; x02])]
    _ _ _ _ _ _ _)).
  - repeat split.
  - exact sample_represents.
  - split; [discriminate|repeat constructor].
  - split; [discriminate|repeat constructor].
  - discriminate.
  - vm_compute. reflexivity.
  - apply outcome_of. vm_compute. reflexivity.
Defined.

Lemma add_only_appends_witness : exists d',
  add sample_path (str "alpha") (str "ssh-ed25519") [x07] (sample_disk {[sample_path := sample_line]}) =
    (Throw "Refusing to replace existing host key", d') /\ d' = sample_disk {[sample_path := sample_line]}.
Proof.
  exists (sample_disk {[sample_path := sample_line]}). split; [vm_compute; reflexivity|].
  refine (proj2 (proj2 (add_only_appends sample_path (str "alpha") (str "ssh-ed25519") [x07]
    (sample_disk {[sample_path := sample_line]}) (Throw "Refusing to replace existing host key") _ _)) _).
  - vm_compute. reflexivity.
  - vm_compute. discriminate.
Defined.

Lemma unterminated_entry_merges_witness : exists d',
  add sample_path (str "beta") (str "ssh-ed25519") [x07] (sample_disk {[sample_path := sample_line]}) = (Ok tt, d') /\
  check sample_path (str "alpha") (str "ssh-ed25519") [x01; x02] d' = Ok Changed.
Proof.
  destruct (unterminated_entry_merges sample_path [] [] (str "alpha") (str "ssh-ed25519") [x01; x02] sample_line
    (str "beta") (str "ssh-ed25519") [x07] (sample_disk {[sample_path := sample_line]})) as (d' & H1 & _ & H2 & _);
    try reflexivity; try discriminate; try (split; [discriminate|repeat constructor]).
  - repeat split.
  - constructor.
  - eexists. split; reflexivity.
  - exists d'. split; assumption.
Defined.

End samples.
