(* ===== verification/Terminal.v ===== *)
(** * The local terminal: [src/terminal/terminal.cpp]

    [Console] is the user's side: the settings of the terminal, the outcomes of
    the calls that read and change them, what the user types, and what was
    printed.  [Terminal] is the C++ object.

    A [termios] is its flag words and its control characters.  [cfmakeraw] is a
    parameter; no theorem depends on what it does. *)

From S2P Require Import Prelude.

(** ** The console *)

(** [struct termios] *)
Record Termios := {
  c_iflag : Z;
  c_oflag : Z;
  c_cflag : Z;
  c_lflag : Z;
  c_cc : bytes;
}.

(** What [std::getline(std::cin, line)] meets: a line, a stream that fails (with
    the characters it could still read), an exception, or a user who never
    answers ([[]] at the end of the script). *)
Inductive line_event : Type :=
  | Line (text : bytes)
  | NoLine (rest : bytes)
  | LineThrows (msg : string).

(** What [read(STDIN_FILENO)] meets: keys, the end of the input, a failure. *)
Inductive key_event : Type :=
  | Keys (b : byte) (d : bytes)
  | KeysEof
  | KeysError.

(** [tc_calls] tells for each coming [tcgetattr] or [tcsetattr] whether it
    succeeds; past its end they do.  [line_log] is history: the settings under
    which each line was read. *)
Record Console := {
  settings : Termios;
  tc_calls : list bool;
  lines : list line_event;
  keyboard : list key_event;
  term_env : option bytes;
  window_size : option (Z * Z);
  out : bytes;
  err : bytes;
  line_log : list Termios;
}.

Definition set_tty (st : Termios) (calls : list bool) (c : Console) : Console :=
  {| settings := st; tc_calls := calls; lines := lines c; keyboard := keyboard c; term_env := term_env c;
     window_size := window_size c; out := out c; err := err c; line_log := line_log c |}.
Definition set_lines (l : list line_event) (log : list Termios) (c : Console) : Console :=
  {| settings := settings c; tc_calls := tc_calls c; lines := l; keyboard := keyboard c; term_env := term_env c;
     window_size := window_size c; out := out c; err := err c; line_log := log |}.
Definition set_keyboard (k : list key_event) (c : Console) : Console :=
  {| settings := settings c; tc_calls := tc_calls c; lines := lines c; keyboard := k; term_env := term_env c;
     window_size := window_size c; out := out c; err := err c; line_log := line_log c |}.
Definition set_output (o e : bytes) (c : Console) : Console :=
  {| settings := settings c; tc_calls := tc_calls c; lines := lines c; keyboard := keyboard c; term_env := term_env c;
     window_size := window_size c; out := o; err := e; line_log := line_log c |}.

(** [std::cout << s] and [std::cerr << s]. *)
Definition print (s : bytes) : M Console unit := modify (fun c => set_output (out c ++ s) (err c) c).
Definition print_err (s : bytes) : M Console unit := modify (fun c => set_output (out c) (err c ++ s) c).

(** [tcgetattr(STDIN_FILENO, &t) != -1] and [tcsetattr(STDIN_FILENO, TCSANOW, &t) != -1]. *)
Definition tcgetattr : M Console (option Termios) := fun c =>
  match tc_calls c with
  | false :: calls => (Ok None, set_tty (settings c) calls c)
  | calls => (Ok (Some (settings c)), set_tty (settings c) (tail calls) c)
  end.

Definition tcsetattr (t : Termios) : M Console bool := fun c =>
  match tc_calls c with
  | false :: calls => (Ok false, set_tty (settings c) calls c)
  | calls => (Ok true, set_tty t (tail calls) c)
  end.

(** [std::getline(std::cin, line)]: whether it succeeded, and the string. *)
Definition getline_cin : M Console (bool * bytes) := fun c =>
  let log := line_log c ++ [settings c] in
  match lines c with
  | [] => (Blocked, c)
  | Line s :: l => (Ok (true, s), set_lines l log c)
  | NoLine s :: l => (Ok (false, s), set_lines l log c)
  | LineThrows e :: l => (Throw e, set_lines l log c)
  end.

(** [try { m } catch (...) { h; throw; }] *)
Definition on_throw {S A} (m : M S A) (h : M S unit) : M S A := fun s =>
  match m s with
  | (Throw e, s') =>
      match h s' with
      | (Ok _, s'') => (Throw e, s'')
      | (Throw e', s'') => (Throw e', s'')
      | (Undef, s'') => (Undef, s'')
      | (Blocked, s'') => (Blocked, s'')
      end
  | r => r
  end.

(** ** [class Terminal] *)

Definition DEFAULT_TERMINAL_COLUMNS : Z := 80.
Definition DEFAULT_TERMINAL_ROWS : Z := 24.
Definition DEFAULT_TERMINAL_TYPE : bytes := str "xterm-256color".
Definition ECHO : Z := 8.

(** [struct TerminalInfo] *)
Record TerminalInfo := {
  type : bytes;
  columns : Z;
  rows : Z;
}.

Record Terminal := {
  original_settings_ : Termios;
  raw_mode_active_ : bool;
}.

(** The constructor zero-initialises the saved settings. *)
Definition Terminal_new : Terminal :=
  {| original_settings_ := {| c_iflag := 0; c_oflag := 0; c_cflag := 0; c_lflag := 0; c_cc := [] |};
     raw_mode_active_ := false |}.

(** [hidden.c_lflag &= ~ECHO] *)
Definition hide (t : Termios) : Termios :=
  {| c_iflag := c_iflag t; c_oflag := c_oflag t; c_cflag := c_cflag t;
     c_lflag := Z.ldiff (c_lflag t) ECHO; c_cc := c_cc t |}.

Definition read_hidden_input (prompt : bytes) : M Console bytes :=
  print prompt;;
  original ← tcgetattr;
  match original with
  | None => mthrow "Failed to save current terminal settings"%string
  | Some original =>
      let hidden := hide original in
      ok ← tcsetattr hidden;
      if negb ok then mthrow "Failed to disable terminal echo"%string else
      '(read_succeeded, password) ←
        on_throw getline_cin (tcsetattr original;; print (str "
"));
      ok ← tcsetattr original;
      if negb ok then mthrow "Failed to reenable terminal echo"%string else
      if negb read_succeeded then mthrow "Password not read correctly"%string else
      print (str "
");;
      mret password
  end.

(** [TERM] as a C string: what precedes the first NUL. *)
Definition get_terminal_info : M Console TerminalInfo := gets (fun c =>
  let type :=
    match term_env c with
    | None | Some [] => DEFAULT_TERMINAL_TYPE
    | Some term_value => term_value
    end in
  match window_size c with
  | Some (ws_col, ws_row) =>
      if negb (ws_col =? 0) && negb (ws_row =? 0)
      then {| type := type; columns := ws_col; rows := ws_row |}
      else {| type := type; columns := DEFAULT_TERMINAL_COLUMNS; rows := DEFAULT_TERMINAL_ROWS |}
  | None => {| type := type; columns := DEFAULT_TERMINAL_COLUMNS; rows := DEFAULT_TERMINAL_ROWS |}
  end).

Section terminal.
Context (cfmakeraw : Termios -> Termios).

(** The object and the console it acts on. *)
Definition tm : Type := (Terminal * Console)%type.

Definition tty {A} (m : M Console A) : M tm A := zoom snd (fun c x => (x.1, c)) m.
Definition set_terminal (t : Terminal) : M tm unit := modify (fun x => (t, x.2)).

Definition enable_raw_mode : M tm unit :=
  t ← gets fst;
  if raw_mode_active_ t then mret tt else
  original ← tty tcgetattr;
  match original with
  | None => mthrow "Failed to read terminal settings"%string
  | Some original =>
      set_terminal {| original_settings_ := original; raw_mode_active_ := raw_mode_active_ t |};;
      let raw_settings := cfmakeraw original in
      ok ← tty (tcsetattr raw_settings);
      if negb ok then mthrow "Failed to enable raw terminal mode"%string else
      set_terminal {| original_settings_ := original; raw_mode_active_ := true |}
  end.

Definition restore : M tm unit :=
  t ← gets fst;
  if negb (raw_mode_active_ t) then mret tt else
  ok ← tty (tcsetattr (original_settings_ t));
  if negb ok then mthrow "Failed to restore terminal settings"%string else
  set_terminal {| original_settings_ := original_settings_ t; raw_mode_active_ := false |}.

(** The destructor ignores a failure. *)
Definition Terminal_delete : M tm unit :=
  t ← gets fst;
  if raw_mode_active_ t then tty (tcsetattr (original_settings_ t));; mret tt else mret tt.

End terminal.

(** ** Facts *)

(** Whether the next call on the terminal settings succeeds. *)
Definition next_ok (c : Console) : bool := match tc_calls c with false :: _ => false | _ => true end.

Lemma tcsetattr_cases t c :
  tcsetattr t c =
    (Ok (next_ok c), set_tty (if next_ok c then t else settings c) (tail (tc_calls c)) c).
Proof. unfold tcsetattr, next_ok. by destruct (tc_calls c) as [|[] ?]. Qed.

Lemma tcgetattr_cases c :
  tcgetattr c =
    (Ok (if next_ok c then Some (settings c) else None), set_tty (settings c) (tail (tc_calls c)) c).
Proof. unfold tcgetattr, next_ok. by destruct (tc_calls c) as [|[] ?]. Qed.

Lemma hide_no_echo t : Z.land (c_lflag (hide t)) ECHO = 0.
Proof.
  cbn. apply Z.bits_inj'. intros n Hn. rewrite Z.land_spec, Z.ldiff_spec, Z.bits_0.
  by destruct (Z.testbit (c_lflag t) n), (Z.testbit ECHO n).
Qed.

(** Reading the hidden line: on an exception the settings are put back. *)
Lemma hidden_line_cases original c :
  let c' l := set_lines l (line_log c ++ [settings c]) c in
  on_throw getline_cin (tcsetattr original;; print (str "
")) c =
    match lines c with
    | [] => (Blocked, c)
    | Line s :: l => (Ok (true, s), c' l)
    | NoLine s :: l => (Ok (false, s), c' l)
    | LineThrows e :: l =>
        (Throw e, set_output (out c ++ str "
") (err c) (set_tty (if next_ok (c' l) then original else settings c) (tail (tc_calls c)) (c' l)))
    end.
Proof.
  intros c'. unfold on_throw, getline_cin. destruct (lines c) as [|[s|s|e] l]; try done.
  by rewrite (M_bind_run _ _ _ _ _ (tcsetattr_cases original (c' l))).
Qed.

(** The outcome of the call number [n] from now. *)
Definition call_ok (n : nat) (c : Console) : bool := default true (tc_calls c !! n).

Lemma next_ok_call c : next_ok c = call_ok 0 c.
Proof. unfold next_ok, call_ok. by destruct (tc_calls c) as [|[] ?]. Qed.

Lemma read_hidden_input_spec prompt c :
  let '(r, c') := read_hidden_input prompt c in
  (line_log c' = line_log c \/
    line_log c' = line_log c ++ [hide (settings c)]) /\
  Z.land (c_lflag (hide (settings c))) ECHO = 0 /\
  (r <> Blocked -> call_ok 2 c = true -> settings c' = settings c) /\
  (forall password, r = Ok password ->
     lines c = Line password :: lines c' /\ settings c' = settings c /\
     line_log c' = line_log c ++ [hide (settings c)]) /\
  r <> Undef.
Proof.
  unfold read_hidden_input. rewrite (M_bind_run (print prompt) _ c tt _ eq_refl).
  set (c0 := set_output _ _ c). rewrite (M_bind_run _ _ _ _ _ (tcgetattr_cases c0)).
  rewrite next_ok_call. unfold call_ok. change (tc_calls c0) with (tc_calls c).
  pose proof (hide_no_echo (settings c)) as Hecho. change (settings c0) with (settings c).
  destruct (default true (tc_calls c !! 0%nat)); [|cbn; by split_and!; auto].
  cbn zeta beta iota. set (c1 := set_tty _ _ c0).
  rewrite (M_bind_run _ _ _ _ _ (tcsetattr_cases (hide (settings c)) c1)).
  rewrite next_ok_call. unfold call_ok. change (tc_calls c1) with (tail (tc_calls c)).
  destruct (default true (tail (tc_calls c) !! 0%nat)); [|cbn; by split_and!; auto]. cbn [negb].
  set (c2 := set_tty _ _ c1).
  assert (Hlast : forall c3, tc_calls c3 = tail (tail (tc_calls c)) -> next_ok c3 = default true (tc_calls c !! 2%nat)).
  { intros c3 Hc3. rewrite next_ok_call. unfold call_ok. rewrite Hc3. by destruct (tc_calls c) as [|? [|? ?]]. }
  pose proof (hidden_line_cases (settings c) c2) as Hline. cbn zeta in Hline.
  change (lines c2) with (lines c) in Hline.
  destruct (lines c) as [|[s|s|e] l] eqn:El; rewrite (M_bind_res _ _ _ _ _ Hline); cbn beta iota zeta.
  - split_and!; auto; naive_solver.
  - set (c3 := set_lines _ _ c2).
    rewrite (M_bind_run _ _ _ _ _ (tcsetattr_cases (settings c) c3)), (Hlast c3 eq_refl).
    destruct (default true (tc_calls c !! 2%nat)); cbn; split_and!; auto; congruence || naive_solver.
  - set (c3 := set_lines _ _ c2).
    rewrite (M_bind_run _ _ _ _ _ (tcsetattr_cases (settings c) c3)), (Hlast c3 eq_refl).
    destruct (default true (tc_calls c !! 2%nat)); cbn; split_and!; auto; congruence || naive_solver.
  - set (c3 := set_lines _ _ c2). rewrite (Hlast c3 eq_refl).
    destruct (default true (tc_calls c !! 2%nat)); cbn; split_and!; auto; congruence || naive_solver.
Qed.

(** Every call on the settings to come succeeds. *)
Definition calls_ok (c : Console) : Prop := Forall (fun b => b = true) (tc_calls c).

Lemma calls_ok_next c : calls_ok c -> next_ok c = true.
Proof. unfold calls_ok, next_ok. by intros [|b l ->]. Qed.

Lemma calls_ok_call n c : calls_ok c -> call_ok n c = true.
Proof.
  unfold calls_ok, call_ok. intros H. destruct (tc_calls c !! n) as [b|] eqn:E; [|done]. cbn.
  by apply (Forall_lookup_1 _ _ _ _ H E).
Qed.

Lemma calls_ok_tail st c : calls_ok c -> calls_ok (set_tty st (tail (tc_calls c)) c).
Proof. unfold calls_ok. cbn. destruct 1; by cbn. Qed.

Lemma set_tty_same c : set_tty (settings c) (tc_calls c) c = c.
Proof. by destruct c. Qed.

(** When the calls succeed, reading the password leaves the terminal as it was. *)
Lemma read_hidden_input_calls prompt c :
  calls_ok c ->
  match read_hidden_input prompt c with
  | (Undef, _) => False
  | (Blocked, _) => True
  | (_, c') => settings c' = settings c /\ calls_ok c'
  end.
Proof.
  intros Hc. unfold read_hidden_input. rewrite (M_bind_run (print prompt) _ c tt _ eq_refl).
  set (c0 := set_output _ _ c). assert (Hc0 : calls_ok c0) by exact Hc.
  rewrite (M_bind_run _ _ _ _ _ (tcgetattr_cases c0)), (calls_ok_next c0 Hc0).
  set (c1 := set_tty _ _ c0). assert (Hc1 : calls_ok c1) by by apply calls_ok_tail. cbn beta iota zeta.
  rewrite (M_bind_run _ _ _ _ _ (tcsetattr_cases _ c1)), (calls_ok_next c1 Hc1). cbn [negb].
  set (c2 := set_tty _ _ c1). assert (Hc2 : calls_ok c2) by by apply calls_ok_tail.
  pose proof (hidden_line_cases (settings c0) c2) as Hline. cbn zeta in Hline.
  destruct (lines c2) as [|[s|s|e] l]; rewrite (M_bind_res _ _ _ _ _ Hline); cbn beta iota zeta; [done|..];
    set (c3 := set_lines _ _ c2) in *; assert (Hc3 : calls_ok c3) by exact Hc2.
  1, 2: rewrite (M_bind_run _ _ _ _ _ (tcsetattr_cases _ c3)), (calls_ok_next c3 Hc3); cbn [negb].
  - split; [done|]. by apply (calls_ok_tail (settings c0) c3).
  - split; [done|]. by apply (calls_ok_tail (settings c0) c3).
  - rewrite (calls_ok_next c3 Hc3). split; [done|]. by apply (calls_ok_tail (settings c0) c3).
Qed.

Section raw_mode_facts.
Context (cfmakeraw : Termios -> Termios).

(** The calls on the terminal only change its settings. *)
Lemma enable_raw_mode_cases t c :
  raw_mode_active_ t = false ->
  exists r t' st calls, enable_raw_mode cfmakeraw (t, c) = (r, (t', set_tty st calls c)) /\
    (calls_ok c -> calls_ok (set_tty st calls c) /\ r = Ok tt) /\
    ((r = Ok tt /\ t' = {| original_settings_ := settings c; raw_mode_active_ := true |} /\ st = cfmakeraw (settings c)) \/
     ((exists e, r = Throw e) /\ raw_mode_active_ t' = false /\ st = settings c)).
Proof.
  intros Ht. assert (Htty : forall A (m : M Console A) t0 c0, tty m (t0, c0) = let '(r, c1) := m c0 in (r, (t0, c1))) by done.
  unfold enable_raw_mode. rewrite M_gets_run. cbn [fst]. rewrite Ht.
  unfold mbind, M_bind. rewrite Htty, tcgetattr_cases. destruct (next_ok c) eqn:E1.
  2: { eexists _, _, _, _. split; [done|]. split; [|right; by eauto]. intros H. apply calls_ok_next in H. congruence. }
  cbn. rewrite Htty, tcsetattr_cases. set (c1 := set_tty _ _ c). destruct (next_ok c1) eqn:E2; cbn.
  - eexists _, _, _, _. split; [done|]. split; [|left; by eauto]. intros H. split; [|done].
    by apply (calls_ok_tail (cfmakeraw (settings c)) c1), calls_ok_tail.
  - eexists _, _, _, _. split; [done|]. split; [|right; by eauto].
    intros H. apply (calls_ok_tail (settings c)), calls_ok_next in H. fold c1 in H. congruence.
Qed.

Lemma restore_cases t c :
  exists r t' st calls, restore (t, c) = (r, (t', set_tty st calls c)) /\
    (calls_ok c -> calls_ok (set_tty st calls c) /\ r = Ok tt) /\
    if raw_mode_active_ t then
      (r = Ok tt /\ raw_mode_active_ t' = false /\ st = original_settings_ t) \/
      ((exists e, r = Throw e) /\ t' = t /\ st = settings c)
    else r = Ok tt /\ t' = t /\ st = settings c /\ calls = tc_calls c.
Proof.
  assert (Htty : forall A (m : M Console A) t0 c0, tty m (t0, c0) = let '(r, c1) := m c0 in (r, (t0, c1))) by done.
  unfold restore. rewrite M_gets_run. cbn [fst]. destruct (raw_mode_active_ t); cbn [negb].
  2: { exists (Ok tt), t, (settings c), (tc_calls c). rewrite set_tty_same. by split_and!. }
  unfold mbind, M_bind. rewrite Htty, tcsetattr_cases. destruct (next_ok c) eqn:E; cbn.
  - eexists _, _, _, _. split; [done|]. split; [|left; by eauto]. intros H. by split; [apply calls_ok_tail|].
  - eexists _, _, _, _. split; [done|]. split; [|right; by eauto]. intros H. apply calls_ok_next in H. congruence.
Qed.

Lemma Terminal_delete_cases t c :
  exists st calls, Terminal_delete (t, c) = (Ok tt, (t, set_tty st calls c)) /\
    st = if raw_mode_active_ t && next_ok c then original_settings_ t else settings c.
Proof.
  assert (Htty : forall A (m : M Console A) t0 c0, tty m (t0, c0) = let '(r, c1) := m c0 in (r, (t0, c1))) by done.
  unfold Terminal_delete. rewrite M_gets_run. cbn [fst]. destruct (raw_mode_active_ t); cbn [andb].
  - unfold mbind, M_bind. rewrite Htty, tcsetattr_cases. by eexists _, _.
  - exists (settings c), (tc_calls c). by rewrite set_tty_same.
Qed.

End raw_mode_facts.

(** ** Properties *)

(** C35: a password is only read while the terminal does not echo, and the echo
    is switched back on.  Whatever happens, at most one line is read, under the
    settings the terminal had with ECHO cleared; afterwards the settings are
    those from before, unless the very call that restores them fails (which
    raises an exception) or the user never answers.  A returned password is a
    line the user typed. *)
Theorem password_never_echoed prompt c :
  let '(r, c') := read_hidden_input prompt c in
  (line_log c' = line_log c \/
    line_log c' = line_log c ++ [hide (settings c)]) /\
  Z.land (c_lflag (hide (settings c))) ECHO = 0 /\
  (r <> Blocked -> call_ok 2 c = true -> settings c' = settings c) /\
  (forall password, r = Ok password ->
     lines c = Line password :: lines c' /\ settings c' = settings c /\
     line_log c' = line_log c ++ [hide (settings c)]) /\
  r <> Undef.
Proof. exact (read_hidden_input_spec prompt c). Qed.

Section raw_mode.
Context (cfmakeraw : Termios -> Termios).

(** C34: raw mode is entered at most once and always left for the settings of the
    user.  [enable_raw_mode] saves the current settings and sets the raw ones;
    while it is active a second call does nothing (so it cannot save the raw
    settings); when it throws, the terminal was not touched.  [restore] sets
    exactly the saved settings, and when it throws the object still knows that it
    must restore, so that the destructor, which runs on every path, tries
    again. *)
Theorem raw_mode_restored t c :
  (raw_mode_active_ t = true -> enable_raw_mode cfmakeraw (t, c) = (Ok tt, (t, c))) /\
  (raw_mode_active_ t = false ->
    let '(r, (t', c')) := enable_raw_mode cfmakeraw (t, c) in
    (r = Ok tt /\ t' = {| original_settings_ := settings c; raw_mode_active_ := true |} /\
       settings c' = cfmakeraw (settings c)) \/
    ((exists e, r = Throw e) /\ raw_mode_active_ t' = false /\ settings c' = settings c)) /\
  (let '(r, (t', c')) := restore (t, c) in
    if raw_mode_active_ t then
      (r = Ok tt /\ raw_mode_active_ t' = false /\ settings c' = original_settings_ t) \/
      ((exists e, r = Throw e) /\ t' = t /\ settings c' = settings c)
    else r = Ok tt /\ t' = t /\ c' = c) /\
  (let '(r, (t', c')) := Terminal_delete (t, c) in
    r = Ok tt /\ t' = t /\
    settings c' = if raw_mode_active_ t && next_ok c then original_settings_ t else settings c).
Proof.
  split_and!.
  - intros Ht. unfold enable_raw_mode. rewrite M_gets_run. cbn [fst]. by rewrite Ht.
  - intros Ht. destruct (enable_raw_mode_cases cfmakeraw t c Ht) as (r & t' & st & calls & -> & _ & H). exact H.
  - destruct (restore_cases t c) as (r & t' & st & calls & -> & _ & H). destruct (raw_mode_active_ t); [exact H|].
    destruct H as (-> & -> & -> & ->). by rewrite set_tty_same.
  - by destruct (Terminal_delete_cases t c) as (st & calls & -> & ->).
Qed.

End raw_mode.

(** ** Concrete runs *)

Definition sample_settings : Termios :=
  {| c_iflag := 0; c_oflag := 0; c_cflag := 0; c_lflag := 59; c_cc := [] |}.

Definition sample_console : Console :=
  {| settings := sample_settings; tc_calls := []; lines := [Line (str "secret")]; keyboard := [];
     term_env := None; window_size := Some (120, 40); out := []; err := []; line_log := [] |}.

Lemma raw_mode_restored_witness : exists x,
  enable_raw_mode hide (Terminal_new, sample_console) = (Ok tt, x) /\
  enable_raw_mode hide x = (Ok tt, x).
Proof.
  destruct (enable_raw_mode hide (Terminal_new, sample_console)) as [r [t c]] eqn:E.
  vm_compute in E. injection E as Er Et Ec. subst r. exists (t, c). split; [reflexivity|].
  apply (raw_mode_restored hide t c). subst t. reflexivity.
Defined.

Lemma password_never_echoed_witness : exists c',
  read_hidden_input (str "Password: ") sample_console = (Ok (str "secret"), c') /\
  settings c' = sample_settings /\ line_log c' = [hide sample_settings].
Proof.
  pose proof (password_never_echoed (str "Password: ") sample_console) as H.
  destruct (read_hidden_input (str "Password: ") sample_console) as [r c'] eqn:E.
  assert (Hr : r = Ok (str "secret")).
  { change r with (r, c').1. rewrite <- E. vm_compute. reflexivity. }
  subst r. exists c'. split; [reflexivity|]. destruct H as (_ & _ & _ & H & _).
  destruct (H _ eq_refl) as (_ & H1 & H2). split; [exact H1|exact H2].
Defined.
