(* ===== verification/Config.v ===== *)
(** * The command line: [src/main.cpp], lines 23 to 107

    The parsing of [username@host] and of the port, the name under which a
    host's key is stored, and the text of a fingerprint. *)

From S2P Require Import Prelude Crypto.

Definition DEFAULT_SSH_PORT : Z := 22.

(** [struct ClientConfig] *)
Record ClientConfig := {
  hostname : bytes;
  port : Z;
  username : bytes;
  identification : bytes;
  known_hosts_relative_path : bytes;
}.

Definition ClientConfig_new : ClientConfig :=
  {| hostname := []; port := DEFAULT_SSH_PORT; username := [];
     identification := str "SSH-2.0-ConorSSH_0.1";
     known_hosts_relative_path := str "/.conorssh/known_hosts" |}.

(** [s.find(c, from)] on a [std::string]. *)
Fixpoint find_from (c : byte) (i : Z) (s : bytes) : option Z :=
  match s with
  | [] => None
  | b :: s => if decide (b = c) then Some i else find_from c (i + 1) s
  end.

Definition find_char (c : byte) (from : Z) (s : bytes) : option Z :=
  find_from c from (drop (Z.to_nat from) s).

(** [std::stoul(s, &parsed)]: white space, an optional sign, decimal digits.
    Without a digit, or when the digits denote 2^64 or more, it throws; a minus
    sign negates the value modulo 2^64. *)
Definition is_digit (b : byte) : bool := (48 <=? u8 b) && (u8 b <=? 57).

Fixpoint span (p : byte -> bool) (s : bytes) : bytes * bytes :=
  match s with
  | b :: s' => if p b then let '(a, r) := span p s' in (b :: a, r) else ([], s)
  | [] => ([], [])
  end.

Definition digits_value (ds : bytes) : Z := foldl (fun acc b => acc * 10 + (u8 b - 48)) 0 ds.

Definition stoul (s : bytes) : res (Z * Z) :=
  let '(space, s1) := span is_space s in
  let '(sign, negative, s2) :=
    match s1 with
    | b :: s2 => if u8 b =? 45 then (1, true, s2) else if u8 b =? 43 then (1, false, s2) else (0, false, s1)
    | [] => (0, false, [])
    end in
  let '(ds, _) := span is_digit s2 in
  if size ds =? 0 then mthrow "stoul"%string else
  let value := digits_value ds in
  if value >? 2 ^ 64 - 1 then mthrow "stoul"%string else
  mret (if negative : bool then u64 (- value) else value, size space + sign + size ds).

(** The port argument of the command line. *)
Definition parse_port (port_text : bytes) : res Z :=
  match stoul port_text with
  | Ok (parsed_port, parsed_characters) =>
      if negb (parsed_characters =? size port_text) || (parsed_port =? 0) || (parsed_port >? 65535)
      then mthrow "Port must be an integer from 1 to 65535"%string
      else mret (u16 parsed_port)
  | _ => mthrow "Port must be an integer from 1 to 65535"%string
  end.

(** [argv] with its [argc] strings. *)
Definition parse_client_config (argv : list bytes) : res ClientConfig :=
  let argc := size argv in
  if negb (argc =? 2) && negb (argc =? 3)
  then mthrow "Usage: ssh <username>@<host> [port]"%string else
  let target := default [] (argv !! 1%nat) in
  match find_char x40 0 target with
  | None => mthrow "Target must use the format <username>@<host>"%string
  | Some separator =>
      if (separator =? 0) || (separator =? size target - 1) ||
         match find_char x40 (separator + 1) target with Some _ => true | None => false end
      then mthrow "Target must use the format <username>@<host>"%string else
      username ← mret (take (Z.to_nat separator) target);
      hostname ← mret (drop (Z.to_nat (separator + 1)) target);
      port ← (if argc =? 3 then parse_port (default [] (argv !! 2%nat)) else mret DEFAULT_SSH_PORT);
      mret {| hostname := hostname; port := port; username := username;
              identification := identification ClientConfig_new;
              known_hosts_relative_path := known_hosts_relative_path ClientConfig_new |}
  end.

Definition known_host_identifier (config : ClientConfig) : bytes :=
  if port config =? DEFAULT_SSH_PORT then hostname config
  else str "[" ++ hostname config ++ str "]:" ++ to_string (port config).

Section fingerprint.
Context {C : Crypto}.

(** The return value of the encoder is not tested; when it fails the buffer
    still holds its zeros, an empty C string. *)
Definition format_sha256_fingerprint (fingerprint : bytes) : bytes :=
  str "SHA256:" ++ default [] (sodium_bin2base64 false fingerprint).
End fingerprint.

(** ** Specification *)

(** A decimal number: at least one digit. *)
Definition decimal (ds : bytes) : Prop := ds <> [] /\ Forall (fun b => is_digit b = true) ds.

Definition at_sign : byte := x40.

(** What a port text means, said without the parser.  A numeral is read place by
    place: a digit counts as many times as its position weighs. *)
Definition white_space : list byte := [x20; x09; x0a; x0b; x0c; x0d].

Fixpoint place_value (ds : bytes) : Z :=
  match ds with
  | [] => 0
  | b :: ds => (u8 b - 48) * 10 ^ size ds + place_value ds
  end.

Definition numeral (ds : bytes) : Prop := ds <> [] /\ Forall (fun b => 48 <= u8 b <= 57) ds.

(** The text names the port [p]: white space, then the number [p], possibly after
    a plus sign, or a minus sign and the number [2^64 - p]; no sign but this one,
    and nothing behind the digits. *)
Definition port_spec (text : bytes) (p : Z) : Prop :=
  1 <= p <= 65535 /\ exists sp sign ds,
    text = sp ++ sign ++ ds /\ Forall (fun b => b ∈ white_space) sp /\ numeral ds /\
    ((sign = [] \/ sign = [x2b]) /\ place_value ds = p \/ sign = [x2d] /\ place_value ds = 2 ^ 64 - p).

(** What the command line means. *)
Definition config_spec (argv : list bytes) (c : ClientConfig) : Prop :=
  exists program,
  let target := username c ++ [at_sign] ++ hostname c in
  username c <> [] /\ hostname c <> [] /\ (at_sign ∉ username c) /\ (at_sign ∉ hostname c) /\
  identification c = str "SSH-2.0-ConorSSH_0.1" /\ known_hosts_relative_path c = str "/.conorssh/known_hosts" /\
  (argv = [program; target] /\ port c = 22 \/
   exists text, argv = [program; target; text] /\ port_spec text (port c)).

(** ** Facts *)

Lemma find_from_None c i s : find_from c i s = None <-> c ∉ s.
Proof.
  revert i. induction s as [|b s IH]; intros i; cbn; [set_solver|].
  destruct (decide (b = c)) as [->|]; [set_solver|]. rewrite IH. set_solver.
Qed.

Lemma find_from_Some c i s k :
  find_from c i s = Some k <-> exists a r, s = a ++ c :: r /\ (c ∉ a) /\ k = i + size a.
Proof.
  revert i. induction s as [|b s IH]; intros i; cbn.
  - split; [done|]. by intros ([] & ? & ? & _).
  - destruct (decide (b = c)) as [->|Hne].
    + split.
      * intros [= <-]. exists [], s. rewrite size_nil. split_and!; [done|set_solver|lia].
      * intros ([|x a] & r & E & Hn & ->); [f_equal; rewrite size_nil; lia|].
        injection E as -> _. set_solver.
    + rewrite IH. split.
      * intros (a & r & -> & Hn & ->). exists (b :: a), r. rewrite size_cons. split_and!; [done|set_solver|lia].
      * intros ([|x a] & r & E & Hn & ->); injection E as -> ->; [done|]. exists a, r. rewrite size_cons. split_and!; [done|set_solver|lia].
Qed.

Lemma span_all p s : Forall (fun b => p b = true) s -> span p s = (s, []).
Proof. induction 1 as [|b s Hb _ IH]; cbn; [done|]. by rewrite Hb, IH. Qed.

Lemma span_none p b s : p b = false -> span p (b :: s) = ([], b :: s).
Proof. intros H. cbn. by rewrite H. Qed.

Lemma is_digit_facts b : is_digit b = true -> is_space b = false /\ u8 b <> 45 /\ u8 b <> 43.
Proof. unfold is_digit, is_space. intros H. tests. split; [|lia]. lia. Qed.

Lemma parse_client_config_safe argv : safe (parse_client_config argv) (fun _ => True).
Proof.
  assert (Hport : forall t, safe (parse_port t) (fun _ => True)).
  { intros t. unfold parse_port. destruct (stoul t) as [[p n]| | |]; try done. by destruct (_ || _). }
  unfold parse_client_config. destruct (_ && _); [done|]. destruct (find_char x40 0 _) as [sep|]; [|done].
  destruct (_ || _); [done|]. cbn [mbind res_bind mret res_ret]. destruct (size argv =? 3); [|done].
  specialize (Hport (default [] (argv !! 2%nat))). by destruct (parse_port _).
Qed.

(** *** Printed numbers *)

Lemma str_cons a s : str (String a s) = Ascii.byte_of_ascii a :: str s.
Proof. reflexivity. Qed.

Lemma str_inj s t : str s = str t -> s = t.
Proof.
  unfold str. intros H. apply (f_equal String.string_of_list_byte) in H.
  by rewrite !String.string_of_list_byte_of_string in H.
Qed.

Lemma pretty_digit (x : N) :
  (x < 10)%N -> let b := Ascii.byte_of_ascii (pretty_N_char x) in is_digit b = true /\ u8 b - 48 = Z.of_N x.
Proof.
  intros Hx. assert (H : (x = 0 \/ x = 1 \/ x = 2 \/ x = 3 \/ x = 4 \/ x = 5 \/ x = 6 \/ x = 7 \/ x = 8 \/ x = 9)%N) by lia.
  repeat (destruct H as [->|H]; [by vm_compute|]). subst x. by vm_compute.
Qed.

Lemma pretty_N_go_digits (x : N) (s : string) :
  Forall (fun b => is_digit b = true) (str s) ->
  Forall (fun b => is_digit b = true) (str (pretty_N_go x s)) /\
  foldl (fun acc b => acc * 10 + (u8 b - 48)) 0 (str (pretty_N_go x s)) =
    foldl (fun acc b => acc * 10 + (u8 b - 48)) (Z.of_N x) (str s).
Proof.
  revert s. induction (N.lt_wf_0 x) as [x _ IH]. intros s Hs.
  destruct (N.eq_dec x 0%N) as [->|Hx]; [by rewrite pretty_N_go_0|].
  rewrite pretty_N_go_step by lia.
  destruct (pretty_digit (x `mod` 10)%N) as [Hd Hv]; [by apply N.mod_lt|].
  destruct (IH (x `div` 10)%N) with (s := String (pretty_N_char (x `mod` 10)%N) s) as [H1 H2].
  { apply N.div_lt; lia. }
  { rewrite str_cons. by constructor. }
  split; [done|]. rewrite H2, str_cons. cbn [foldl]. f_equal. rewrite Hv.
  rewrite N2Z.inj_div, N2Z.inj_mod. pose proof (Z.div_mod (Z.of_N x) 10). lia.
Qed.

Lemma to_string_decimal z : 0 <= z -> decimal (to_string z) /\ digits_value (to_string z) = z.
Proof.
  intros Hz. unfold to_string, decimal, digits_value, pretty, pretty_N.
  destruct (decide (Z.to_N z = 0%N)) as [E|E].
  - assert (z = 0) as -> by lia. split; [|done]. split; [done|]. by repeat constructor.
  - destruct (pretty_N_go_digits (Z.to_N z) "") as [H1 H2]; [constructor|].
    rewrite H2. cbn [foldl]. cbn [str]. change (str "") with (@nil byte). cbn [foldl].
    split; [|lia]. split; [|done]. intros Hnil. rewrite Hnil in H2. cbn in H2. change (str "") with (@nil byte) in H2.
    cbn in H2. lia.
Qed.

Lemma to_string_inj a b : 0 <= a -> 0 <= b -> to_string a = to_string b -> a = b.
Proof.
  intros Ha Hb H. destruct (to_string_decimal a Ha) as [_ Hva], (to_string_decimal b Hb) as [_ Hvb]. congruence.
Qed.

Lemma span_spec p s a r :
  span p s = (a, r) -> s = a ++ r /\ Forall (fun b => p b = true) a /\ (match r with b :: _ => p b = false | [] => True end).
Proof.
  revert a r. induction s as [|b s IH]; intros a r H; cbn in H; [by injection H as <- <-|].
  destruct (p b) eqn:Hb; [|by injection H as <- <-].
  destruct (span p s) as [a' r'] eqn:E. injection H as <- <-. destruct (IH _ _ eq_refl) as (-> & Ha & Hr). auto.
Qed.

Lemma span_app p a r :
  Forall (fun b => p b = true) a -> (match r with b :: _ => p b = false | [] => True end) -> span p (a ++ r) = (a, r).
Proof.
  intros Ha Hr. induction Ha as [|b a Hb _ IH]; cbn; [|by rewrite Hb, IH].
  destruct r as [|b r]; [done|]. cbn. by rewrite Hr.
Qed.

Lemma digits_value_nonneg ds : Forall (fun b => is_digit b = true) ds -> 0 <= digits_value ds.
Proof.
  unfold digits_value. assert (H : forall acc, 0 <= acc -> Forall (fun b => is_digit b = true) ds ->
    0 <= foldl (fun acc b => acc * 10 + (u8 b - 48)) acc ds); [|by apply H].
  induction ds as [|b ds IH]; intros acc Hacc Hd; cbn [foldl]; [done|].
  inversion Hd as [|? ? Hb Hds]; subst. apply IH; [|done]. unfold is_digit in Hb. tests. lia.
Qed.

(** The sign characters, and the value a sign and digits stand for. *)
Definition signed_value (sign : bytes) (value : Z) : option Z :=
  if bool_decide (sign = []) || bool_decide (sign = [x2b]) then Some value
  else if bool_decide (sign = [x2d]) then Some ((2 ^ 64 - value) mod 2 ^ 64) else None.

Lemma negated_value value : (2 ^ 64 - value) mod 2 ^ 64 = u64 (- value).
Proof. unfold u64. replace (2 ^ 64 - value) with (- value + 1 * 2 ^ 64) by lia. by rewrite Z.mod_add. Qed.

Lemma stoul_sign sp sign ds v :
  Forall (fun b => is_space b = true) sp -> decimal ds -> signed_value sign (digits_value ds) = Some v ->
  digits_value ds < 2 ^ 64 -> stoul (sp ++ sign ++ ds) = Ok (v, size (sp ++ sign ++ ds)).
Proof.
  intros Hsp [Hne Hd] Hv Hmax. destruct ds as [|b ds]; [done|]. set (w := b :: ds) in *.
  destruct (is_digit_facts b) as (Hb1 & Hb2 & Hb3); [by inversion Hd|].
  assert (Hsz : (size w =? 0) = false) by (apply Z.eqb_neq; intros ?%size_zero_nil; done).
  assert (Hval : (digits_value w >? 2 ^ 64 - 1) = false) by (rewrite Z.gtb_ltb; apply Z.ltb_ge; lia).
  unfold signed_value in Hv. unfold stoul.
  case_bool_decide as Hs0; [subst sign|case_bool_decide as Hs1; [subst sign|case_bool_decide as Hs2; [subst sign|done]]];
    cbn [orb] in Hv; injection Hv as <-.
  - cbn [app]. rewrite span_app by done. unfold w at 1. rewrite (proj2 (Z.eqb_neq _ 45)), (proj2 (Z.eqb_neq _ 43)) by done.
    fold w. cbn beta iota zeta. rewrite span_all, Hsz, Hval by done. unfold mret, res_ret. do 2 f_equal. rewrite size_app. lia.
  - cbn [app]. rewrite span_app by done. change (u8 x2b =? 45) with false. change (u8 x2b =? 43) with true.
    cbn beta iota zeta.
    rewrite span_all, Hsz, Hval by done. unfold mret, res_ret. do 2 f_equal. rewrite size_app, size_cons. lia.
  - cbn [app]. rewrite span_app by done. change (u8 x2d =? 45) with true.
    cbn beta iota zeta.
    rewrite span_all, Hsz, Hval by done. unfold mret, res_ret. f_equal. f_equal.
    + by rewrite negated_value.
    + rewrite size_app, size_cons. lia.
Qed.

Lemma stoul_Ok s v :
  stoul s = Ok (v, size s) -> exists sp sign ds, s = sp ++ sign ++ ds /\
    Forall (fun b => is_space b = true) sp /\ decimal ds /\ digits_value ds < 2 ^ 64 /\
    signed_value sign (digits_value ds) = Some v.
Proof.
  unfold stoul. destruct (span is_space s) as [sp s1] eqn:E1. apply span_spec in E1 as (-> & Hsp & _).
  assert (Hsign : exists sign s2 (neg : bool), s1 = sign ++ s2 /\
    (match s1 with
    | b :: s2 => if u8 b =? 45 then (1, true, s2) else if u8 b =? 43 then (1, false, s2) else (0, false, s1)
    | [] => (0, false, [])
    end) = (size sign, neg, s2) /\
    forall value, 0 <= value < 2 ^ 64 -> signed_value sign value = Some (if neg then u64 (- value) else value)).
  { assert (Hnil : forall value, 0 <= value < 2 ^ 64 -> signed_value [] value = Some value) by done.
    destruct s1 as [|b s2]; [exists [], [], false; done|].
    destruct (Z.eqb_spec (u8 b) 45) as [E|].
    - assert (b = x2d) as -> by (by apply u8_inj). exists [x2d], s2, true. split_and!; [done..|].
      intros value Hv. unfold signed_value. by rewrite negated_value.
    - destruct (Z.eqb_spec (u8 b) 43) as [E|]; [|exists [], (b :: s2), false; done].
      assert (b = x2b) as -> by (by apply u8_inj). by exists [x2b], s2, false. }
  destruct Hsign as (sign & s2 & neg & -> & -> & Hval).
  destruct (span is_digit s2) as [ds r] eqn:E2. apply span_spec in E2 as (-> & Hd & _).
  destruct (Z.eqb_spec (size ds) 0) as [|Hne]; [done|]. destruct (Z.gtb_spec (digits_value ds) (2 ^ 64 - 1)); [done|].
  intros [= Hv Hs]. rewrite !size_app in Hs. assert (r = []) as -> by (apply size_zero_nil; lia).
  exists sp, sign, ds. rewrite app_nil_r. split_and!; [done|done| |lia|].
  - split; [by intros ->|done].
  - rewrite Hval, Hv; [done|]. pose proof (digits_value_nonneg ds Hd). lia.
Qed.

(** *** The port text *)

Lemma white_space_iff b : b ∈ white_space <-> is_space b = true.
Proof.
  transitivity (In b white_space); [by rewrite list_elem_of_In|]. by destruct b; vm_compute; intuition discriminate.
Qed.

Lemma digits_value_acc ds acc :
  foldl (fun acc b => acc * 10 + (u8 b - 48)) acc ds = acc * 10 ^ size ds + place_value ds.
Proof.
  revert acc. induction ds as [|b ds IH]; intros acc; cbn [foldl place_value]; [rewrite size_nil; lia|].
  rewrite IH, size_cons, Z.pow_add_r by (pose proof (size_nonneg ds); lia). lia.
Qed.

Lemma digits_value_place ds : digits_value ds = place_value ds.
Proof. unfold digits_value. by rewrite digits_value_acc. Qed.

Lemma decimal_numeral ds : decimal ds <-> numeral ds.
Proof.
  unfold decimal, numeral. rewrite !Forall_forall. unfold is_digit.
  split; intros [H1 H2]; (split; [done|]); intros b Hb; specialize (H2 b Hb); lia.
Qed.

(** The sign of a port text says how its digits stand for the port. *)
Lemma signed_value_port sign value p :
  0 <= value < 2 ^ 64 -> 1 <= p <= 65535 ->
  signed_value sign value = Some p <->
  (sign = [] \/ sign = [x2b]) /\ value = p \/ sign = [x2d] /\ value = 2 ^ 64 - p.
Proof.
  intros Hv Hp. unfold signed_value.
  assert (Hneg : (2 ^ 64 - value) mod 2 ^ 64 = p <-> value = 2 ^ 64 - p).
  { split; [|intros ->; replace (2 ^ 64 - (2 ^ 64 - p)) with p by lia; apply Z.mod_small; lia].
    destruct (Z.eq_dec value 0) as [->|]; [intros E; vm_compute in E; lia|].
    rewrite Z.mod_small by lia. lia. }
  case_bool_decide as H0; [subst sign; cbn [orb]; naive_solver congruence|].
  case_bool_decide as H1; [subst sign; cbn [orb]; naive_solver congruence|].
  case_bool_decide as H2; [subst sign; cbn [orb]; naive_solver congruence|].
  naive_solver.
Qed.

Lemma parse_port_iff s p : parse_port s = Ok p <-> port_spec s p.
Proof.
  unfold port_spec. split.
  - unfold parse_port. destruct (stoul s) as [[v n]|e| |] eqn:Hs; try done.
    destruct (_ || _) eqn:E; [done|]. intros [= <-].
    apply orb_false_iff in E as [[En E0]%orb_false_iff Emax].
    apply negb_false_iff, Z.eqb_eq in En as ->. apply Z.eqb_neq in E0. rewrite Z.gtb_ltb in Emax.
    apply Z.ltb_ge in Emax. destruct (stoul_Ok _ _ Hs) as (sp & sign & ds & -> & Hsp & Hd & Hmax & Hv).
    pose proof (digits_value_nonneg ds (proj2 Hd)).
    assert (Hnn : 0 <= v).
    { unfold signed_value in Hv. repeat case_bool_decide; cbn [orb] in Hv; try discriminate Hv; injection Hv as <-; try done;
        apply Z.mod_pos_bound; lia. }
    rewrite u16_small by lia. split; [lia|]. exists sp, sign, ds. split; [done|].
    split; [by setoid_rewrite white_space_iff|]. split; [by apply decimal_numeral|].
    rewrite <- digits_value_place. apply signed_value_port; done || lia.
  - intros (Hp & sp & sign & ds & -> & Hsp & Hd & Hv). setoid_rewrite white_space_iff in Hsp.
    apply decimal_numeral in Hd. rewrite <- digits_value_place in Hv. pose proof (digits_value_nonneg ds (proj2 Hd)).
    assert (Hmax : digits_value ds < 2 ^ 64) by lia.
    unfold parse_port. rewrite (stoul_sign sp sign ds p), Z.eqb_refl, (proj2 (Z.eqb_neq p 0))
      by (done || lia || by apply signed_value_port; done || lia).
    rewrite Z.gtb_ltb, (proj2 (Z.ltb_ge _ _)) by lia. cbn. by rewrite u16_small by lia.
Qed.

(** What [std::to_string] prints is such a text, and so is the number behind a
    minus sign. *)
Lemma port_spec_printed p :
  1 <= p <= 65535 -> port_spec (to_string p) p /\ port_spec (str "-" ++ to_string (2 ^ 64 - p)) p.
Proof.
  intros Hp. destruct (to_string_decimal p) as [Hd Hv]; [lia|].
  destruct (to_string_decimal (2 ^ 64 - p)) as [Hd' Hv']; [lia|].
  rewrite digits_value_place in Hv, Hv'. apply decimal_numeral in Hd, Hd'. split; (split; [done|]).
  - exists [], [], (to_string p). split_and!; [done|constructor|done|]. left. auto.
  - exists [], [x2d], (to_string (2 ^ 64 - p)). split_and!; [done|constructor|done|]. right. auto.
Qed.

(** ** Properties *)

Lemma parse_client_config_sound argv c : parse_client_config argv = Ok c -> config_spec argv c.
Proof.
  unfold parse_client_config, config_spec. destruct c as [host p user ident path]. cbn [username hostname port
    identification known_hosts_relative_path].
  intros H. destruct (negb _ && negb _) eqn:Hargc; [done|].
  remember (default [] (argv !! 1%nat)) as target eqn:Htarget.
  destruct (find_char x40 0 target) as [sep|] eqn:Hsep; [|done].
  destruct (_ || _) eqn:Hbad; [done|]. cbn [mret res_ret mbind res_bind] in H.
  apply res_bind_Ok in H as (p' & Hp & [= <- <- <- <- <-]%Ok_inj).
  apply find_from_Some in Hsep as (a & r & Ht & Ha & ->). cbn [drop Z.to_nat] in Ht. subst target.
  rewrite Z.add_0_l in *. rewrite drop_0 in Ht. rewrite Ht in *.
  apply orb_false_iff in Hbad as [[H0 Hlast]%orb_false_iff Hsecond]. apply Z.eqb_neq in H0, Hlast.
  rewrite size_app, size_cons in Hlast.
  assert (Hdrop : drop (Z.to_nat (size a + 1)) (a ++ x40 :: r) = r).
  { rewrite drop_app_Z by lia. by replace (size a + 1 - size a) with 1 by lia. }
  unfold find_char in Hsecond. rewrite Hdrop in Hsecond |- *. rewrite take_size_app.
  destruct (find_from x40 _ r) eqn:Hr; [done|]. apply find_from_None in Hr.
  assert (Hsz : size argv = 2 \/ size argv = 3).
  { revert Hargc. destruct (Z.eqb_spec (size argv) 2), (Z.eqb_spec (size argv) 3); auto. done. }
  destruct argv as [|program [|target rest]]; rewrite ?size_cons, ?size_nil in Hsz; [lia|lia|].
  cbn in Ht. subst target.
  exists program. split_and!; [by intros ->|intros ->; rewrite size_nil in Hlast; lia|done|done|done|done|].
  destruct rest as [|text [|? more]].
  + left. cbn in Hp. by injection Hp.
  + right. exists text. split; [done|]. by apply parse_port_iff.
  + rewrite !size_cons in Hsz. pose proof (size_nonneg more). lia.
Qed.

Lemma parse_client_config_complete argv c : config_spec argv c -> parse_client_config argv = Ok c.
Proof.
  unfold parse_client_config, config_spec. destruct c as [host p user ident path]. cbn [username hostname port
    identification known_hosts_relative_path].
  intros (program & Hu & Hh & Hau & Hah & -> & -> & Hargv).
  assert (Hsep : forall rest, find_char x40 0 (default [] ((program :: (user ++ [at_sign] ++ host) :: rest) !! 1%nat)) = Some (size user)).
  { intros rest. apply find_from_Some. exists user, host. split_and!; [done|done|lia]. }
  assert (Hdrop : drop (Z.to_nat (size user + 1)) (user ++ [at_sign] ++ host) = host).
  { rewrite drop_app_Z by lia. by replace (size user + 1 - size user) with 1 by lia. }
  assert (Hu0 : size user <> 0) by (intros ?%size_zero_nil; done).
  assert (Hh0 : size host <> 0) by (intros ?%size_zero_nil; done).
  assert (Hguard : forall rest, let target := default [] ((program :: (user ++ [at_sign] ++ host) :: rest) !! 1%nat) in
    (size user =? 0) || (size user =? size target - 1) ||
    match find_char x40 (size user + 1) target with Some _ => true | None => false end = false).
  { intros rest. cbn [lookup list_lookup default id]. unfold find_char. rewrite Hdrop, (proj2 (find_from_None _ _ _)) by done.
    rewrite (proj2 (Z.eqb_neq (size user) 0)) by done. autorewrite with size.
    by rewrite (proj2 (Z.eqb_neq _ _)) by lia. }
  destruct Hargv as [[-> ->]|(text & -> & Hp%parse_port_iff)].
  + rewrite Hsep. cbn [negb andb]. rewrite Hguard. cbn [lookup list_lookup default id mbind res_bind mret res_ret].
    by rewrite Hdrop, take_size_app.
  + rewrite Hsep. cbn [negb andb]. rewrite Hguard. cbn [lookup list_lookup default id mbind res_bind mret res_ret].
    by rewrite Hp, Hdrop, take_size_app.
Qed.

(** C36: the command line is accepted exactly in the forms
    [program user@host] and [program user@host port], with a user and a host that
    are not empty and hold no other "@"; the parts come back unchanged and the
    port is 22 when none is given.  A port is white space, a sign or none, and
    decimal digits with nothing behind them, which denote a number from 1 to
    65535, or, after a minus sign, that number less than 2^64: every port can also
    be written as a negative number, against the program's own message that it
    "must be an integer from 1 to 65535".  Every other command line is refused
    with an exception. *)
Theorem parse_client_config_iff argv :
  (forall c, parse_client_config argv = Ok c <-> config_spec argv c) /\
  ((forall c, ~ config_spec argv c) <-> exists e, parse_client_config argv = Throw e) /\
  (forall p, 1 <= p <= 65535 -> port_spec (to_string p) p /\ port_spec (str "-" ++ to_string (2 ^ 64 - p)) p).
Proof.
  assert (Hiff : forall c, parse_client_config argv = Ok c <-> config_spec argv c).
  { split; [apply parse_client_config_sound|apply parse_client_config_complete]. }
  split; [exact Hiff|]. split; [|exact port_spec_printed]. setoid_rewrite <- Hiff.
  pose proof (parse_client_config_safe argv) as Hsafe.
  destruct (parse_client_config argv) as [c|e| |]; try done; split; intros H.
  - by destruct (H c).
  - by destruct H as [e He].
  - by exists e.
  - done.
Qed.

(** The port 22, written as a negative number. *)
Lemma parse_client_config_iff_witness :
  parse_client_config [str "ssh"; str "me@example.org"; str "-18446744073709551594"] =
    Ok {| hostname := str "example.org"; port := 22; username := str "me";
          identification := str "SSH-2.0-ConorSSH_0.1"; known_hosts_relative_path := str "/.conorssh/known_hosts" |}.
Proof.
  destruct (parse_client_config_iff [str "ssh"; str "me@example.org"; str "-18446744073709551594"]) as (H & _ & Hp).
  apply H. exists (str "ssh"). split_and!; try (vm_compute; congruence).
  1, 2: apply (bool_decide_unpack _); vm_compute; exact I.
  right. exists (str "-18446744073709551594"). split; [reflexivity|]. cbn [port].
  assert (E : str "-18446744073709551594" = str "-" ++ to_string (2 ^ 64 - 22)) by (vm_compute; reflexivity).
  rewrite E. apply (Hp 22). lia.
Defined.

(** Two destinations share an entry of the known-hosts file only when they
    are the same host and port, for hosts that do not start with a bracket. *)
Theorem known_host_identifier_inj c c' :
  (forall h, hostname c <> x5b :: h) -> (forall h, hostname c' <> x5b :: h) -> 0 <= port c -> 0 <= port c' ->
  known_host_identifier c = known_host_identifier c' -> hostname c = hostname c' /\ port c = port c'.
Proof.
  intros Hc Hc' Hp Hp' He. unfold known_host_identifier, DEFAULT_SSH_PORT in He.
  assert (Hnum : forall p, 0 <= p -> x5d ∉ to_string p).
  { intros p Hpp Hin. destruct (to_string_decimal p Hpp) as [[_ Hd] _]. rewrite Forall_forall in Hd.
    by apply Hd in Hin. }
  assert (Hsplit : forall h h' p p', 0 <= p -> 0 <= p' ->
    h ++ x5d :: x3a :: to_string p = h' ++ x5d :: x3a :: to_string p' -> h = h' /\ p = p').
  { intros h h' p p' H1 H2 H. revert h' H. induction h as [|b h IH]; intros [|b' h'] H; cbn in H.
    - injection H as H. split; [done|]. by apply to_string_inj.
    - injection H as _ H. destruct (Hnum p H1).
      destruct h' as [|? h']; cbn in H; [done|]. injection H as _ H. rewrite H. set_solver.
    - injection H as _ H. destruct (Hnum p' H2).
      destruct h as [|? h]; cbn in H; [done|]. injection H as _ H. rewrite <- H. set_solver.
    - injection H as -> H. destruct (IH _ H) as [-> ->]. done. }
  destruct (Z.eqb_spec (port c) 22), (Z.eqb_spec (port c') 22).
  - split; congruence.
  - by destruct (Hc (hostname c' ++ str "]:" ++ to_string (port c'))).
  - by destruct (Hc' (hostname c ++ str "]:" ++ to_string (port c))).
  - change (str "[" ++ ?x) with (x5b :: x) in He. injection He as He. by apply Hsplit.
Qed.

Lemma known_host_identifier_inj_witness :
  known_host_identifier {| hostname := str "host"; port := 22; username := []; identification := [];
                           known_hosts_relative_path := [] |} <>
  known_host_identifier {| hostname := str "host"; port := 2222; username := []; identification := [];
                           known_hosts_relative_path := [] |}.
Proof.
  intros E. apply known_host_identifier_inj in E as [_ E]; [|vm_compute; congruence..].
  discriminate E.
Defined.

(** A run of the whole parser. *)
Example parse_client_config_run :
  parse_client_config [str "ssh"; str "me@example.org"; str "2222"] =
    Ok {| hostname := str "example.org"; port := 2222; username := str "me";
          identification := str "SSH-2.0-ConorSSH_0.1"; known_hosts_relative_path := str "/.conorssh/known_hosts" |}.
Proof. vm_compute. reflexivity. Qed.
