(* ===== verification/World.v ===== *)
(** * The state [main] works on, and what is observed of it

    [src/main.cpp] calls the other components one after the other on objects
    that live in [main].  [World] puts them together; [on_net], [on_disk],
    [on_con], [on_tm] and [on_rng] run a component's operation on its part.

    [history] is a history variable: the packets the program hands to
    [send_packet], whether or not the write succeeds, and those [receive_packet]
    returns, each with the state of the encryption of its direction.  It does not
    influence the program. *)

From S2P Require Import Prelude Encoding Connection Socket Crypto Transport KnownHosts Terminal.

Inductive event : Type :=
  | Send (encrypted : bool) (payload : bytes)
  | Recv (encrypted : bool) (payload : bytes).

(** Handled under encryption. *)
Definition encrypted_event (e : event) : Prop := match e with Send b _ | Recv b _ => b = true end.

(** What one [poll] meets: a failure, a signal, or readiness: input on the
    keyboard, input on the socket, and an error or hang-up of the socket. *)
Inductive poll_event : Type :=
  | PollError
  | PollEintr
  | PollReady (keyboard_in socket_in socket_error : bool).

Section world.
Context {C : Crypto} {S : Type} {BS : ByteStream S}.

Record World := {
  net : tstate S;
  disk : Disk;
  con : Console;
  term : Terminal;
  chan : Channel;
  polls : list poll_event;
  history : list event;
}.

Definition set_net (t : tstate S) (w : World) : World :=
  {| net := t; disk := disk w; con := con w; term := term w; chan := chan w; polls := polls w; history := history w |}.
Definition set_disk (d : Disk) (w : World) : World :=
  {| net := net w; disk := d; con := con w; term := term w; chan := chan w; polls := polls w; history := history w |}.
Definition set_con (c : Console) (w : World) : World :=
  {| net := net w; disk := disk w; con := c; term := term w; chan := chan w; polls := polls w; history := history w |}.
Definition set_tm (x : tm) (w : World) : World :=
  {| net := net w; disk := disk w; con := x.2; term := x.1; chan := chan w; polls := polls w; history := history w |}.
Definition set_chan (c : Channel) (w : World) : World :=
  {| net := net w; disk := disk w; con := con w; term := term w; chan := c; polls := polls w; history := history w |}.
Definition set_polls (p : list poll_event) (w : World) : World :=
  {| net := net w; disk := disk w; con := con w; term := term w; chan := chan w; polls := p; history := history w |}.
Definition log (e : event) (w : World) : World :=
  {| net := net w; disk := disk w; con := con w; term := term w; chan := chan w; polls := polls w;
     history := history w ++ [e] |}.

Definition on_net {A} (m : M (tstate S) A) : M World A := zoom net set_net m.
Definition on_disk {A} (m : M Disk A) : M World A := zoom disk set_disk m.
Definition on_con {A} (m : M Console A) : M World A := zoom con set_con m.
Definition on_tm {A} (m : M tm A) : M World A := zoom (fun w => (term w, con w)) set_tm m.
Definition on_rng {A} (m : M rng A) : M World A :=
  zoom (fun w => rand (net w)) (fun r w => set_net (with_rand r (net w)) w) m.

(** [transport.send_packet(p)] and [transport.receive_packet()], recorded. *)
Definition send (p : bytes) : M World unit :=
  modify (fun w => log (Send (outgoing_encryption_active_ (obj (net w))) p) w);;
  on_net (send_packet p).

Definition receive : M World bytes :=
  encrypted ← gets (fun w => incoming_encryption_active_ (obj (net w)));
  p ← on_net receive_packet;
  modify (log (Recv encrypted p));;
  mret p.

(** A loop whose body returns [None] to go round again.  Out of fuel, it waits
    forever; [loop_iterates] states when that cannot happen. *)
Fixpoint loop {A} (fuel : nat) (body : M World (option A)) : M World A :=
  match fuel with
  | O => fun w => (Blocked, w)
  | Datatypes.S fuel =>
      r ← body;
      match r with
      | Some a => mret a
      | None => loop fuel body
      end
  end.

(** The same loop without fuel: what finitely many rounds come to. *)
Inductive iterates {A} (body : M World (option A)) : World -> res A * World -> Prop :=
  | iterates_end w a w' : body w = (Ok (Some a), w') -> iterates body w (Ok a, w')
  | iterates_throw w e w' : body w = (Throw e, w') -> iterates body w (Throw e, w')
  | iterates_undef w w' : body w = (Undef, w') -> iterates body w (Undef, w')
  | iterates_blocked w w' : body w = (Blocked, w') -> iterates body w (Blocked, w')
  | iterates_again w w1 x : body w = (Ok None, w1) -> iterates body w1 x -> iterates body w x.

(** A loop in which every round that goes on has received a packet: the bytes
    the server will still deliver bound the number of rounds. *)
Definition bytes_left (w : World) : nat := length (incoming (sock_ (net w))).

Definition packet_loop {A} (body : M World (option A)) : M World A := fun w =>
  loop (Datatypes.S (bytes_left w)) body w.

(** ** Observations *)

(** Encryption is on in both directions and the packet layer is sound. *)
Definition encrypted (w : World) : Prop :=
  wf_transport (obj (net w)) /\
  outgoing_encryption_active_ (obj (net w)) = true /\
  incoming_encryption_active_ (obj (net w)) = true.

(** The packets since [h] were all handled under encryption. *)
Definition all_encrypted_since (h : list event) (w : World) : Prop :=
  exists l, history w = h ++ l /\ Forall encrypted_event l.

(** The settings of the user's terminal are in place, or saved where
    [restore] and the destructor will find them. *)
Definition restorable (original : Termios) (w : World) : Prop :=
  if raw_mode_active_ (term w) then original_settings_ (term w) = original
  else settings (con w) = original.

End world.

#[global] Arguments World {_} _.

(** ** Facts *)

Section facts.
Context {C : Crypto} {CS : CryptoSizes} {S : Type} {BS : ByteStream S} {BL : ByteStreamLaws S}.
Implicit Types w : World S.

Lemma receive_packet_spec (t : tstate S) :
  wf_transport (obj t) ->
  match receive_packet t with
  | (Ok payload, t') =>
      (exists skipped, incoming (sock_ t) = skipped ++ incoming (sock_ t') /\ 16 <= size skipped) /\
      1 <= size payload <= 34991 /\ sender_unchanged t t'
  | (Undef, _) => False
  | (_, t') => sender_unchanged t t'
  end.
Proof.
  intros Hwf. unfold receive_packet. rewrite M_gets_run.
  assert (Hsz : forall active payload padding, frame_ok (block active) payload padding ->
    1 <= size payload <= 34991 /\ 16 <= size (frame payload padding)).
  { intros active payload padding (? & ? & Hb & _)%frame_ok_bounds. rewrite size_frame in *. lia. }
  destruct (incoming_encryption_active_ (obj t)) eqn:Ha; cbn [negb].
  - pose proof (receive_encrypted_cases t Hwf Ha) as H. destruct (receive_encrypted t) as [[p|e| |] t']; try done.
    destruct H as [(padding & Hok & _ & Hacc) Hs]. rewrite Ha in *. apply Hsz in Hok as [? ?].
    destruct Hacc as (cipher & mac & key & Hin & Hc & _). split; [|done].
    exists (cipher ++ mac). rewrite <- app_assoc, size_app. pose proof (size_nonneg mac). split; [done|lia].
  - pose proof (receive_plain_cases t Hwf Ha) as H. destruct (receive_plain t) as [[p|e| |] t']; try done.
    destruct H as [(padding & Hok & _ & Hacc) Hs]. rewrite Ha in *. apply Hsz in Hok as [? ?].
    split; [|done]. by exists (frame p padding).
Qed.

(** What sending leaves alone, whatever happens. *)
Definition receiver_unchanged (t t' : tstate S) : Prop :=
  incoming (sock_ t') = incoming (sock_ t) /\
  exists seq c, 0 <= seq < 2 ^ 32 /\ (is_Some (outgoing_cipher_ (obj t)) -> is_Some c) /\
    obj t' = set_outgoing seq (outgoing_encryption_active_ (obj t)) c (outgoing_mac_key_ (obj t)) (obj t).

Lemma receiver_unchanged_wf (t t' : tstate S) :
  wf_transport (obj t) -> receiver_unchanged t t' -> wf_transport (obj t').
Proof.
  intros (Hi & Ho & Hout & Hin) (_ & seq & c & Hseq & Hc & ->).
  split_and!; cbn; try done; try lia. intros Hact. destruct (Hout Hact). auto.
Qed.

Lemma receiver_unchanged_intro (t t' : tstate S) :
  wf_transport (obj t) -> incoming (sock_ t') = incoming (sock_ t) -> obj t' = obj t -> receiver_unchanged t t'.
Proof.
  intros (_ & Hseq & _) Hin Hobj. split; [done|].
  exists (outgoing_sequence_ (obj t)), (outgoing_cipher_ (obj t)). split_and!; try done; try lia.
  rewrite Hobj. by destruct (obj t).
Qed.

Definition with_outgoing_cipher (e : cipher_ctx) (t : tstate S) : tstate S :=
  with_obj (set_outgoing (outgoing_sequence_ (obj t)) true (Some e) (outgoing_mac_key_ (obj t)) (obj t)) t.

Lemma encrypt_cases (t : tstate S) plain e :
  outgoing_encryption_active_ (obj t) = true -> outgoing_cipher_ (obj t) = Some e ->
  exists r e', encrypt_outgoing_packet plain t = (r, with_outgoing_cipher e' t) /\ r <> Undef.
Proof.
  intros Hact He. unfold encrypt_outgoing_packet. rewrite Hact, He. cbn [negb]. destruct (_ >? _).
  - exists (Throw "Packet is too large for OpenSSL"), e. split; [|done]. f_equal.
    unfold with_outgoing_cipher, with_obj, set_outgoing. rewrite <- He, <- Hact at 1. by destruct t as [? ? []].
  - destruct (EVP_EncryptUpdate e plain) as [[st c] e'].
    destruct (negb _); [by eexists (Throw _), e'|]. destruct (negb _); [by eexists (Throw _), e'|].
    by exists (Ok c), e'.
Qed.

Lemma send_packet_spec (t : tstate S) payload :
  wf_transport (obj t) -> size payload < 2 ^ 63 ->
  match send_packet payload t with
  | (Undef, _) => False
  | (_, t') => receiver_unchanged t t'
  end.
Proof.
  intros Hwf Hsz. pose proof (send_packet_start t payload Hsz) as Hstart. cbn zeta in Hstart.
  destruct (randombytes_buf _ (rand t)) as [padding r]. rewrite Hstart. clear Hstart.
  pose proof (receiver_unchanged_intro t t Hwf eq_refl eq_refl) as Hsame.
  destruct (size payload <? 1); [done|]. destruct (_ >? max_packet_size); [done|].
  pose proof Hwf as (_ & Hseq & Hkeys & _).
  assert (Hcount : forall s' c, incoming s' = incoming (sock_ t) -> (is_Some (outgoing_cipher_ (obj t)) -> is_Some c) ->
    receiver_unchanged t (counted s' r c t)).
  { intros s' c Hin Hc. split; [done|]. eexists _, c. split; [apply u32_range|]. done. }
  assert (Hnot : forall s' c, incoming s' = incoming (sock_ t) -> is_Some c ->
    receiver_unchanged t (with_obj (set_outgoing (outgoing_sequence_ (obj t)) (outgoing_encryption_active_ (obj t))
      c (outgoing_mac_key_ (obj t)) (obj t)) (with_rand r (with_sock s' t)))).
  { intros s' c Hin Hc. split; [done|]. by eexists _, c. }
  destruct (outgoing_encryption_active_ (obj t)) eqn:Hact.
  - destruct (Hkeys eq_refl) as [[e He] [key Hkey]]. unfold mbind at 1, M_bind at 1.
    rewrite !M_gets_run. cbn [obj with_rand]. rewrite Hkey, (M_lift_run (key_of (Some key)) _ _ key eq_refl), M_lift_res.
    destruct (calculate_hmac _ _ _) as [mac|x| |] eqn:Hmac; try (by apply receiver_unchanged_intro);
      [|by apply calculate_hmac_safe in Hmac].
    destruct (encrypt_cases (with_rand r t) (frame payload padding) e Hact He) as (rr & e' & Henc & Hrr).
    rewrite (M_bind_res _ _ _ _ _ Henc). unfold with_outgoing_cipher. cbn [obj with_rand].
    pose proof (Hnot (sock_ t) (Some e') eq_refl ltac:(by eexists)) as Hn.
    destruct rr as [cipher|x| |]; try done. clear Hn.
    match goal with |- context [sock_write _ ?x] => destruct (sock_write_cases x (cipher ++ mac)) as (rw & s' & Hw & Hin & Hcase) end.
    rewrite Hw. pose proof (Hnot s' (Some e') Hin ltac:(by eexists)) as Hn. destruct rw; try done.
    specialize (Hcount s' (Some e') Hin ltac:(by eexists)). unfold counted in Hcount.
    by rewrite Hact in Hcount.
  - unfold mbind at 1, M_bind at 1.
    destruct (sock_write_cases (with_rand r t) (frame payload padding)) as (rw & s' & Hw & Hin & Hcase).
    rewrite Hw. pose proof (receiver_unchanged_intro t (with_sock s' (with_rand r t)) Hwf Hin eq_refl) as Hn.
    destruct rw; try done. by apply (Hcount s' (outgoing_cipher_ (obj t))).
Qed.

(** *** Phases of the session *)

(** The encryption flags are [bo] (outgoing) and [bi] (incoming), and every
    packet since [h] satisfies [ok]. *)
Definition phase (bo bi : bool) (ok : event -> Prop) (h : list event) (w : World S) : Prop :=
  wf_transport (obj (net w)) /\
  outgoing_encryption_active_ (obj (net w)) = bo /\ incoming_encryption_active_ (obj (net w)) = bi /\
  exists l, history w = h ++ l /\ Forall ok l.

(** Conditions on the parts of the world that packets do not touch. *)
Definition local (R : World S -> Prop) : Prop :=
  forall w w', disk w' = disk w -> con w' = con w -> term w' = term w -> chan w' = chan w ->
    polls w' = polls w -> R w -> R w'.

Lemma phase_log bo bi (ok : event -> Prop) h e w : ok e -> phase bo bi ok h w -> phase bo bi ok h (log e w).
Proof.
  intros He (Hwf & Ho & Hi & l & Hl & Hok). split_and!; [done..|]. exists (l ++ [e]).
  cbn. rewrite Hl, <- app_assoc. split; [done|]. apply Forall_app; auto.
Qed.

Lemma phase_receiver bo bi ok h w t :
  phase bo bi ok h w -> receiver_unchanged (net w) t -> phase bo bi ok h (set_net t w).
Proof.
  intros (Hwf & Ho & Hi & Hl) Hr. split; [by eapply receiver_unchanged_wf|].
  destruct Hr as (_ & seq & c & _ & _ & E). cbn. rewrite E. by cbn.
Qed.

Lemma phase_sender bo bi ok h w t :
  phase bo bi ok h w -> sender_unchanged (net w) t -> phase bo bi ok h (set_net t w).
Proof.
  intros (Hwf & Ho & Hi & Hl) Hr. split; [by eapply sender_unchanged_wf|].
  destruct Hr as (_ & _ & seq & c & _ & _ & E). cbn. rewrite E. by cbn.
Qed.

(** Anything that leaves the network and the history alone keeps the phase. *)
Lemma phase_local bo bi ok h w w' :
  net w' = net w -> history w' = history w -> phase bo bi ok h w -> phase bo bi ok h w'.
Proof. unfold phase. by intros -> ->. Qed.

Lemma triple_send bo bi (ok : event -> Prop) h R p :
  local R -> ok (Send bo p) -> size p < 2 ^ 63 ->
  keeps (fun w => phase bo bi ok h w /\ R w) (send p).
Proof.
  intros HR Hok Hp w [Hph Hw]. unfold send.
  rewrite M_modify_run.
  set (w1 := log _ w). unfold on_net, zoom.
  assert (Hph1 : phase bo bi ok h w1).
  { apply phase_log; [|done]. destruct Hph as (_ & -> & _). done. }
  pose proof (send_packet_spec (net w1) p (proj1 Hph1) Hp) as Hs.
  assert (Hall : forall t, receiver_unchanged (net w1) t -> phase bo bi ok h (set_net t w1) /\ R (set_net t w1)).
  { intros t Ht. split; [by apply phase_receiver|]. by apply (HR w). }
  destruct (send_packet p (net w1)) as [[]]; auto.
Qed.

Lemma triple_receive bo bi (ok : event -> Prop) h R :
  local R -> (forall p, 1 <= size p <= 34991 -> ok (Recv bi p)) ->
  triple (fun w => phase bo bi ok h w /\ R w) receive
    (fun p w => 1 <= size p <= 34991 /\ phase bo bi ok h w /\ R w)
    (fun w => phase bo bi ok h w /\ R w) (fun w => phase bo bi ok h w /\ R w).
Proof.
  intros HR Hok w [Hph Hw]. unfold receive. rewrite M_gets_run.
  pose proof (receive_packet_spec (net w) (proj1 Hph)) as Hs.
  assert (Hi : incoming_encryption_active_ (obj (net w)) = bi) by by destruct Hph as (_ & _ & Hi & _).
  assert (Hall : forall t, sender_unchanged (net w) t -> phase bo bi ok h (set_net t w) /\ R (set_net t w)).
  { intros t Ht. split; [by apply phase_sender|]. by apply (HR w). }
  unfold mbind at 1, M_bind at 1, on_net, zoom.
  destruct (receive_packet (net w)) as [[p|e| |] t]; try by auto.
  destruct Hs as (_ & Hsz & Hs). destruct (Hall t Hs) as [H1 H2].
  cbn. split; [done|]. split; [apply phase_log; [rewrite Hi; by apply Hok|done]|]. by apply (HR (set_net t w)).
Qed.

(** Operations on the user's side. *)
Lemma triple_con {A} bo bi ok h (R R' : World S -> Prop) (Q : A -> World S -> Prop) (m : M Console A) :
  triple (fun w => R w) (on_con m) Q R' R' ->
  triple (fun w => phase bo bi ok h w /\ R w) (on_con m) (fun a w => phase bo bi ok h w /\ Q a w)
    (fun w => phase bo bi ok h w /\ R' w) (fun w => phase bo bi ok h w /\ R' w).
Proof.
  intros Hm w [Hph HR]. specialize (Hm w HR). revert Hm. unfold on_con, zoom.
  destruct (m (con w)) as [[] c]; intros; try done; (split; [by apply (phase_local _ _ _ _ w)|done]).
Qed.

(** *** Loops *)

Lemma triple_loop {A} (I : World S -> Prop) (Q : A -> World S -> Prop) (E B : World S -> Prop) n body :
  triple I body (fun r w => match r with None => I w | Some a => Q a w end) E B ->
  (forall w, I w -> B w) -> triple I (loop n body) Q E B.
Proof.
  intros Hb HB. induction n as [|n IH]; intros w Hw; cbn [loop]; [by apply HB|].
  specialize (Hb w Hw). unfold mbind, M_bind. destruct (body w) as [[[a|]| | |] w1]; try done. by apply IH.
Qed.

Lemma triple_packet_loop {A} (I : World S -> Prop) (Q : A -> World S -> Prop) (E B : World S -> Prop) body :
  triple I body (fun r w => match r with None => I w | Some a => Q a w end) E B ->
  (forall w, I w -> B w) -> triple I (packet_loop body) Q E B.
Proof. intros Hb HB w Hw. unfold packet_loop. by apply (triple_loop I Q E B). Qed.

(** Rounds that go on decrease the measure [mu], so fuel above it is never used
    up. *)
Lemma loop_iterates {A} (I : World S -> Prop) (mu : World S -> nat) body :
  (forall w, I w -> match (body w : res (option A) * World S) with
     | (Ok None, w') => I w' /\ (mu w' < mu w)%nat
     | _ => True
     end) ->
  forall n w, I w -> (mu w < n)%nat -> iterates body w (loop n body w).
Proof.
  intros Hb n. induction n as [|n IH]; intros w Hw Hn; [lia|]. cbn [loop].
  specialize (Hb w Hw). unfold mbind, M_bind.
  destruct (body w) as [[[a|]|e| |] w'] eqn:E; [by apply iterates_end| |by apply iterates_throw|by apply iterates_undef|by apply iterates_blocked].
  destruct Hb as [Hw' Hlt]. eapply iterates_again; [exact E|]. apply IH; [done|lia].
Qed.

(** A loop has one outcome. *)
Lemma iterates_det {A} body w (x y : res A * World S) : iterates body w x -> iterates body w y -> x = y.
Proof.
  intros H. revert y. induction H as [w a w' E|w e w' E|w w' E|w w' E|w w1 x E _ IH]; intros y Hy; inversion Hy as [? ? ? E'|? ? ? E'|? ? E'|? ? E'|? ? ? E'];
    subst; rewrite E in E'; simplify_eq; auto.
Qed.

Lemma receive_shrinks w :
  wf_transport (obj (net w)) ->
  match receive w with
  | (Ok _, w') => wf_transport (obj (net w')) /\ (bytes_left w' < bytes_left w)%nat
  | _ => True
  end.
Proof.
  intros Hwf. unfold receive. rewrite M_gets_run. pose proof (receive_packet_spec (net w) Hwf) as Hs.
  unfold mbind at 1, M_bind at 1, on_net, zoom.
  destruct (receive_packet (net w)) as [[p|e| |] t]; try done.
  destruct Hs as ((sk & Hin & Hsk) & _ & Hs). cbn. split; [by eapply sender_unchanged_wf|].
  unfold bytes_left. cbn. rewrite Hin, length_app. unfold size in Hsk. lia.
Qed.

Lemma send_keeps_bytes w p :
  wf_transport (obj (net w)) -> size p < 2 ^ 63 ->
  match send p w with
  | (Ok _, w') => wf_transport (obj (net w')) /\ bytes_left w' = bytes_left w
  | _ => True
  end.
Proof.
  intros Hwf Hp. unfold send. rewrite M_modify_run.
  unfold on_net, zoom. cbn [net log]. pose proof (send_packet_spec (net w) p Hwf Hp) as Hs.
  destruct (send_packet p (net w)) as [[] t]; try done. split; [by eapply receiver_unchanged_wf|].
  unfold bytes_left. cbn. destruct Hs as [-> _]. done.
Qed.

End facts.
