(* ===== verification/Handshake.v ===== *)
(** * From the connection to an authenticated session: [src/main.cpp], lines 109-161 and 331-445

    The identification exchange, the key exchange with the decision to trust the
    host, and password authentication. *)

From S2P Require Import Prelude Encoding Auth Connection Socket Crypto Transport Packets Kex KnownHosts Terminal Config World.

(** [struct IdentificationExchange] *)
Record IdentificationExchange := {
  id_client : bytes;
  id_server : bytes;
}.

Definition NEWKEYS_PAYLOAD_SIZE : Z := 1.

(** ** The identification strings *)

Section identification.
Context {S : Type} {BS : ByteStream S}.

(** The loop reads one byte a turn, so the bytes the server will still deliver
    bound it (lemma [read_version_line]). *)
Fixpoint read_version_loop (fuel : nat) (version : bytes) : M S bytes :=
  match fuel with
  | O => fun s => (Blocked, s)
  | Datatypes.S fuel =>
      data ← stream_read 1;
      byte ← lift (index data 0);
      if byte =? 10 then mret version else
      read_version_loop fuel (if negb (byte =? 13) then version ++ [byte_of byte] else version)
  end.

Definition read_version : M S bytes := fun s =>
  read_version_loop (Datatypes.S (length (incoming s))) [] s.

Definition exchange_identification (client_version : bytes) : M S IdentificationExchange :=
  server_version ← read_version;
  if negb (beq (take 7 server_version) (str "SSH-2.0"))
  then mthrow ("Not SSH-2.0: " ++ text server_version)%string else
  let line := client_version ++ [x0d; x0a] in
  stream_write line;;
  mret {| id_client := client_version; id_server := server_version |}.

End identification.

(** ** Key exchange and authentication *)

Section handshake.
Context {C : Crypto} {S : Type} {BS : ByteStream S}.

Definition send_kexinit : M (World S) KexInit :=
  payload ← on_rng create_client_kexinit;
  send (raw_payload payload);;
  mret payload.

Definition receive_kexinit : M (World S) KexInit :=
  payload ← receive;
  if size payload =? 0 then mthrow "SSH Packet is empty"%string else
  b ← lift (index payload 0);
  if negb (b =? ssh_message.KEXINIT)
  then mthrow "SSH Packet doesn't contain expected KEX information"%string else
  lift (parse_kexinit payload).

(** The dialogue about the host key in [perform_key_exchange]. *)
Definition confirm_host_key (known_hosts hostname algorithm host_key fingerprint_text : bytes)
    : M (World S) unit :=
  d ← gets disk;
  host_status ← lift (check known_hosts hostname algorithm host_key d);
  match host_status with
  | Match => on_con (print (str "Server host key matches known host
"))
  | Changed =>
      on_con (print_err (str "WARNING: Server host key has changed!
"));;
      on_con (print_err (str "Received fingerprint: " ++ fingerprint_text ++ [x0a]));;
      mthrow "Refusing connection due to changed host key"%string
  | Unknown =>
      on_con (print (str "Unknown server host key
"));;
      on_con (print (str "Fingerprint: " ++ fingerprint_text ++ [x0a]));;
      on_con (print (str "Do you trust this host key? [yes/no]: "));;
      '(_, answer) ← on_con getline_cin;
      if negb (beq answer (str "yes")) then mthrow "Host key was not trusted"%string else
      on_disk (add known_hosts hostname algorithm host_key);;
      on_con (print (str "Host key saved
"))
  end.

(** [perform_key_exchange] up to the session identifier: the shared secret and
    the exchange hash, once the host is verified and trusted. *)
Definition agree_on_keys (id : IdentificationExchange) (known_hosts hostname : bytes)
    : M (World S) (bytes * bytes) :=
  client_kexinit ← send_kexinit;
  server_kexinit ← receive_kexinit;
  algorithms ← lift (negotiate client_kexinit server_kexinit);
  keypair ← (if beq (kex_algorithm algorithms) (str "curve25519-sha256")
             then on_rng create_curve25519_keypair
             else mthrow "Negotiated algorithm not implemented"%string);
  let ecdh_init := create_ecdh_init_payload keypair in
  send ecdh_init;;
  reply ← receive;
  if size reply =? 0 then mthrow "Empty SSH reply"%string else
  b ← lift (index reply 0);
  if negb (b =? ssh_message.KEX_ECDH_REPLY)
  then mthrow "Expected an SSH_MSG_KEX_ECDH_REPLY"%string else
  ecdh_reply ← lift (parse_ecdh_reply reply);
  keypair ← lift (calculate_shared_secret keypair (server_public_key ecdh_reply));
  exchange_hash ← lift (calculate_exchange_hash (id_client id) (id_server id) client_kexinit
                          server_kexinit keypair ecdh_reply);
  verification_data ← lift (parse_ed25519_verification_data ecdh_reply (host_key_algorithm algorithms));
  lift (verify_ed25519_signature verification_data exchange_hash);;
  let fingerprint := calculate_host_key_fingerprint (server_host_key ecdh_reply) in
  let fingerprint_text := format_sha256_fingerprint fingerprint in
  confirm_host_key known_hosts hostname (host_key_algorithm algorithms) (server_host_key ecdh_reply)
    fingerprint_text;;
  mret (shared_secret keypair, exchange_hash).

(** The rest of it: NEWKEYS in both directions. *)
Definition switch_to_keys (shared_secret exchange_hash : bytes) : M (World S) unit :=
  let session_id := exchange_hash in
  transport_keys ← lift (derive_transport_keys shared_secret exchange_hash session_id);
  send [byte_of ssh_message.NEWKEYS];;
  on_net (enable_outgoing_encryption (iv_cs transport_keys) (encryption_key_cs transport_keys)
            (mac_key_cs transport_keys));;
  server_newkeys ← receive;
  if negb (size server_newkeys =? NEWKEYS_PAYLOAD_SIZE)
  then mthrow "Expected a packet of length 1 byte"%string else
  b ← lift (index server_newkeys 0);
  if negb (b =? ssh_message.NEWKEYS) then mthrow "Expected a SSH_MSG_NEWKEYS packet"%string else
  on_net (enable_incoming_encryption (iv_sc transport_keys) (encryption_key_sc transport_keys)
            (mac_key_sc transport_keys)).

Definition perform_key_exchange (id : IdentificationExchange) (known_hosts hostname : bytes)
    : M (World S) unit :=
  '(shared_secret, exchange_hash) ← agree_on_keys id known_hosts hostname;
  switch_to_keys shared_secret exchange_hash.

Definition authenticate_user (username : bytes) : M (World S) unit :=
  payload ← lift create_service_request;
  send payload;;
  auth_response ← receive;
  lift (validate_service_accept auth_response);;
  payload ← lift (create_none_auth_request username);
  send payload;;
  response ← receive;
  lift (parse_auth_failure response);;
  password ← on_con (read_hidden_input (str "Password: "));
  auth_request ← lift (create_password_auth_request username password);
  send auth_request;;
  auth_response ← receive;
  if size auth_response =? 0 then mthrow "Packet contained 0 bytes"%string else
  b ← lift (index auth_response 0);
  if b =? ssh_message.USERAUTH_SUCCESS then
    lift (validate_auth_success auth_response);;
    on_con (print (str "Authentication Complete
"))
  else if b =? ssh_message.USERAUTH_FAILURE then
    lift (parse_auth_failure auth_response);;
    mthrow "Password authentication rejected"%string
  else mthrow "Unexpected response - authentication"%string.

End handshake.

(** ** Specification *)

(** A string that begins with [x]. *)
Definition begins (x : Z) (p : bytes) : Prop := exists p', p = byte_of x :: p'.

(** The packets of the first part of the key exchange: KEXINIT and the client's
    ephemeral key, in clear. *)
Definition opening (e : event) : Prop :=
  match e with
  | Send b p => b = false /\ (begins ssh_message.KEXINIT p \/ begins ssh_message.KEX_ECDH_INIT p)
  | Recv b p => b = false /\ size p <= 34991
  end.

(** The server proved that it holds the private key of [host_key] for this very
    exchange: both KEXINIT payloads and the reply are packets of the history,
    the signature over the exchange hash verifies under the Ed25519 key inside
    [host_key], and the secret is the Curve25519 one. *)
Definition host_verified `{Crypto} (id : IdentificationExchange) (secret hash host_key : bytes)
    (events : list event) : Prop :=
  exists client server keypair reply pk sig reply_payload,
    Send false (raw_payload client) ∈ events /\ Recv false (raw_payload server) ∈ events /\
    Recv false reply_payload ∈ events /\
    parse_kexinit (raw_payload server) = Ok server /\ negotiate client server = Ok client_suite /\
    parse_ecdh_reply reply_payload = Ok reply /\ server_host_key reply = host_key /\
    host_key = wire [FString ed25519_name; FString pk] /\ size pk = 32 /\
    signature reply = wire [FString ed25519_name; FString sig] /\ size sig = 64 /\
    secret = (crypto_scalarmult_curve25519 (client_private_key keypair) (server_public_key reply)).2 /\
    Send false (create_ecdh_init_payload keypair) ∈ events /\
    hash = crypto_hash_sha256 (transcript (id_client id) (id_server id) (raw_payload client)
      (raw_payload server) host_key (client_public_key keypair) (server_public_key reply) secret) /\
    crypto_sign_verify_detached sig hash pk = 0.

(** What the user typed at the question about the host. *)
Definition answered (c : Console) (s : bytes) : Prop :=
  exists l, lines c = Line s :: l \/ lines c = NoLine s :: l.

(** The host key is trusted: it was known, or the user accepted it and it was
    stored. *)
Definition host_trusted `{Crypto} (known_hosts hostname host_key : bytes) (c : Console) (d d' : Disk) : Prop :=
  (check known_hosts hostname ed25519_name host_key d = Ok Match /\ d' = d) \/
  (check known_hosts hostname ed25519_name host_key d = Ok Unknown /\ answered c (str "yes") /\
   add known_hosts hostname ed25519_name host_key d = (Ok tt, d')).

(** ** Facts: the identification strings *)

Section identification_facts.
Context {S : Type} {BS : ByteStream S} {BL : ByteStreamLaws S}.

(** The line without its carriage returns. *)
Definition no_cr (line : bytes) : bytes := filter (fun b => b <> x0d) line.

Lemma read_version_loop_line line fuel version s rest :
  incoming s = line ++ x0a :: rest -> (x0a ∉ line) -> (length line < fuel)%nat ->
  exists s', read_version_loop fuel version s = (Ok (version ++ no_cr line), s') /\
    incoming s' = rest /\ outgoing s' = outgoing s /\ room s' = room s.
Proof.
  revert fuel version s. induction line as [|b line IH]; intros fuel version s Hin Hn Hf;
    (destruct fuel as [|fuel]; [cbn in Hf; lia|]); cbn [read_version_loop app] in *;
    (destruct (stream_read_ok 1 s) as (s1 & Hrun & Hin1 & Ho1 & Hr1);
     [rewrite Hin, size_cons; match goal with |- context [size ?v] => pose proof (size_nonneg v) end; lia|]);
    rewrite (M_bind_run _ _ _ _ _ Hrun), Hin; change (Z.to_nat 1) with 1%nat; cbn [take drop];
    rewrite (M_lift_run _ _ _ _ (index_0 _ _)); rewrite Hin in Hin1; change (Z.to_nat 1) with 1%nat in Hin1; cbn [drop] in Hin1.
  - exists s1. cbn. by rewrite app_nil_r.
  - apply not_elem_of_cons in Hn as [Hb Hn].
    destruct (Z.eqb_spec (u8 b) 10) as [E|_]; [destruct Hb; by apply u8_inj|].
    destruct (IH fuel (if negb (u8 b =? 13) then version ++ [byte_of (u8 b)] else version) s1)
      as (s' & Hr & Hi & Ho & Hm); [done|done|cbn in Hf; lia|].
    exists s'. rewrite Hr. split; [|split_and!; congruence]. f_equal. f_equal.
    unfold no_cr. rewrite filter_cons. destruct (Z.eqb_spec (u8 b) 13) as [E|E]; cbn [negb].
    + rewrite decide_False; [done|]. intros H. apply H. by apply u8_inj.
    + rewrite decide_True by (intros ->; done). by rewrite byte_of_u8, <- app_assoc.
Qed.

Lemma read_version_line s line rest :
  incoming s = line ++ x0a :: rest -> (x0a ∉ line) ->
  exists s', read_version s = (Ok (no_cr line), s') /\
    incoming s' = rest /\ outgoing s' = outgoing s /\ room s' = room s.
Proof.
  intros Hin Hn. apply (read_version_loop_line line _ [] s rest Hin Hn).
  rewrite Hin, length_app. cbn. lia.
Qed.

(** Without a line end the call fails or waits. *)
Lemma read_version_loop_total fuel version s :
  match read_version_loop fuel version s with
  | (Undef, _) => False
  | (Ok v, s') => outgoing s' = outgoing s
  | (_, s') => outgoing s' = outgoing s
  end.
Proof.
  revert version s. induction fuel as [|fuel IH]; intros version s; cbn [read_version_loop]; [done|].
  destruct (Z.le_gt_cases 1 (size (incoming s))) as [Hle|Hgt].
  - destruct (stream_read_ok 1 s) as (s1 & Hrun & _ & Ho1 & _); [lia|].
    rewrite (M_bind_run _ _ _ _ _ Hrun). destruct (incoming s) as [|b i]; [rewrite size_nil in Hle; lia|].
    change (Z.to_nat 1) with 1%nat. cbn [take]. rewrite (M_lift_run _ _ _ _ (index_0 _ _)).
    destruct (u8 b =? 10); [done|]. specialize (IH (if negb (u8 b =? 13) then version ++ [byte_of (u8 b)] else version) s1).
    destruct (read_version_loop _ _ s1) as [[] ?]; congruence || done.
  - destruct (stream_read_short 1 s) as (r & s1 & Hrun & Hr & Ho); [lia|].
    rewrite (M_bind_res _ _ _ _ _ Hrun). by destruct Hr as [->|[e ->]].
Qed.

Lemma exchange_identification_total client s :
  match exchange_identification client s with
  | (Undef, _) => False
  | (Ok id, _) => id_client id = client
  | _ => True
  end.
Proof.
  unfold exchange_identification, read_version. pose proof (read_version_loop_total (Datatypes.S (length (incoming s))) [] s) as H.
  unfold mbind at 1, M_bind at 1. destruct (read_version_loop _ _ s) as [[v|e| |] s1]; try done.
  destruct (negb _); [done|]. cbv zeta.
  destruct (Z.le_gt_cases (size (client ++ [x0d; x0a])) (room s1)).
  - destruct (stream_write_ok (client ++ [x0d; x0a]) s1) as (s2 & Hrun & _); [done|].
    by rewrite (M_bind_run _ _ _ _ _ Hrun).
  - destruct (stream_write_short (client ++ [x0d; x0a]) s1) as (r & s2 & k & Hrun & Hr & _); [lia|].
    rewrite (M_bind_res _ _ _ _ _ Hrun). by destruct Hr as [->|[e ->]].
Qed.

End identification_facts.

(** ** Facts: the key exchange *)

Lemma safe_True {A} (r : res A) : r <> Undef -> r <> Blocked -> safe r (fun _ => True).
Proof. by destruct r. Qed.

Lemma negotiate_safe client server : safe (negotiate client server) (fun _ => True).
Proof.
  unfold negotiate.
  repeat (eapply (safe_bind _ _ (fun _ => True));
    [match goal with |- safe (choose_algorithm ?a ?b) _ =>
       pose proof (choose_algorithm_spec a b); by destruct (choose_algorithm a b) end|]; intros ? _).
  done.
Qed.

Lemma addressable_packet (p : bytes) : size p <= 34991 -> addressable p.
Proof. unfold addressable. lia. Qed.

Section handshake_facts.
Context {C : Crypto} {CS : CryptoSizes} {S : Type} {BS : ByteStream S} {BL : ByteStreamLaws S}.
Implicit Types w : World S.

(** Conditions that neither packets nor the random generator touch, and that
    the dialogue about the host keeps. *)
Definition settled (st : Termios) (calls : list bool) (t : Terminal) (c : Channel) (p : list poll_event) w : Prop :=
  settings (con w) = st /\ tc_calls (con w) = calls /\ term w = t /\ chan w = c /\ polls w = p.

Lemma settled_local st calls t c p : local (settled st calls t c p).
Proof. intros w w' _ Hc Ht Hch Hp. unfold settled. by rewrite Hc, Ht, Hch, Hp. Qed.

Section opening.
Context (ok : event -> Prop) (h : list event) (R : World S -> Prop) (HR : local R).
Context (HRcon : forall w c, settings c = settings (con w) -> tc_calls c = tc_calls (con w) -> R w -> R (set_con c w)).
Context (HRdisk : forall w d, R w -> R (set_disk d w)).
Context (Hsend : forall e, opening e -> ok e).

Let I w := phase false false ok h w /\ R w.

Lemma I_rng r w : I w -> I (set_net (with_rand r (net w)) w).
Proof. intros [Hph Hw]. split; [done|]. by apply (HR w). Qed.

Lemma keeps_con {A} (m : M Console A) :
  (forall c, match m c with
    | (Undef, _) => False
    | (_, c') => settings c' = settings c /\ tc_calls c' = tc_calls c
    end) -> keeps I (on_con m).
Proof.
  intros Hm. apply triple_zoom. intros w [Hph Hw]. specialize (Hm (con w)).
  destruct (m (con w)) as [[] c']; try done; destruct Hm as [H1 H2];
    (split; [by apply (phase_local _ _ _ _ w)|by apply HRcon]).
Qed.

Lemma keeps_print s : keeps I (on_con (print s)).
Proof. by apply keeps_con. Qed.
Lemma keeps_print_err s : keeps I (on_con (print_err s)).
Proof. by apply keeps_con. Qed.
Lemma keeps_getline : keeps I (on_con getline_cin).
Proof. apply keeps_con. intros c. unfold getline_cin. by destruct (lines c) as [|[]]. Qed.

Lemma check_lines_safe h' a k ls : safe (check_lines h' a k ls) (fun _ => True).
Proof.
  induction ls as [|l ls IH]; cbn [check_lines]; [done|]. destruct (size l =? 0); [done|].
  destruct (words l) as [|? [|? [|? ?]]]; try done. destruct (negb _); [done|]. by destruct (_ && _).
Qed.

Lemma check_safe p h' a k d : safe (check p h' a k d) (fun _ => True).
Proof.
  unfold check, encode_base64. destruct (size k =? 0); [done|]. destruct (sodium_bin2base64 true k) as [key|]; [|done].
  cbn [mbind res_bind mret res_ret]. destruct (exists_fails d p); [done|]. destruct (files d !! p); [|done].
  destruct (open_fails d p); [done|]. destruct (file_lines p d) as [ls bad].
  pose proof (check_lines_safe h' a key ls) as Hs. destruct (check_lines h' a key ls) as [[]| | |]; try done. by destruct bad.
Qed.

Lemma add_total p h' a k d : match add p h' a k d with (Undef, _) | (Blocked, _) => False | _ => True end.
Proof.
  unfold add. rewrite (M_bind_run get _ d d d eq_refl), M_lift_res.
  pose proof (check_safe p h' a k d) as Hs. destruct (check p h' a k d) as [[]| | |] eqn:Hc; try done.
  destruct (check_Ok_encodes _ _ _ _ _ _ Hc) as [key Hk].
  set (dir := if negb _ then _ else _).
  assert (Hd : dir d = (Ok tt, d) \/ exists e, dir d = (Throw e, d)).
  { unfold dir, create_directories. destruct (negb _); [|by left]. destruct (mkdir_fails _ _); eauto. }
  destruct Hd as [Hd|[e Hd]]; rewrite (M_bind_res _ _ _ _ _ Hd); [|done].
  destruct (open_append_cases p d) as [[e Hopen]|[_ Hopen]]; rewrite (M_bind_res _ _ _ _ _ Hopen); [done|].
  rewrite M_lift_res, Hk, append_opened. destruct (write_stops d p) as [[n []]|]; done.
Qed.

Lemma keeps_confirm path hostname a hk f : keeps I (confirm_host_key path hostname a hk f).
Proof.
  unfold keeps, confirm_host_key. apply keeps_bind; [apply keeps_gets|]. intros d.
  apply keeps_bind; [apply keeps_lift, check_safe|].
  intros [].
  - repeat (apply keeps_bind; [apply keeps_print|]; intros _).
    apply keeps_bind; [apply keeps_getline|]. intros [ok' answer]. apply triple_if; intros _; [by apply triple_throw|].
    apply keeps_bind; [|intros _; apply keeps_print].
    apply triple_zoom. intros w [Hph Hw]. pose proof (add_total path hostname a hk (disk w)) as Ha.
    assert (Hall : forall d', I (set_disk d' w)) by (intros d'; split; [by apply (phase_local _ _ _ _ w)|by apply HRdisk]).
    destruct (add _ _ _ _ _) as [[] d']; try done; apply Hall.
  - apply keeps_print.
  - repeat (apply keeps_bind; [apply keeps_print_err|]; intros _). by apply triple_throw.
Qed.

(** The guard on the message number. *)
Lemma triple_guard {A} (p : bytes) n (e1 e2 : string) (m : M (World S) A) Q :
  triple I m Q I I ->
  triple I (if size p =? 0 then mthrow e1 else
            b ← lift (index p 0);
            if negb (b =? n) then mthrow e2 else m) Q I I.
Proof.
  intros Hm. apply triple_if; intros Hp; [by apply triple_throw|].
  apply keeps_bind.
  - apply keeps_lift. destruct p as [|b p]; [done|]. by rewrite index_0.
  - intros b. apply triple_if; intros _; [by apply triple_throw|done].
Qed.

Lemma triple_receive_packet :
  triple I receive (fun p w => 1 <= size p <= 34991 /\ I w) I I.
Proof. apply triple_receive; [done|]. intros p ?. apply Hsend. split; [done|lia]. Qed.

Lemma keeps_send p :
  begins ssh_message.KEXINIT p \/ begins ssh_message.KEX_ECDH_INIT p -> size p < 2 ^ 63 -> keeps I (send p).
Proof. intros Hb Hp. apply triple_send; [done| |done]. by apply Hsend. Qed.

Lemma triple_send_kexinit :
  triple I send_kexinit (fun k w => (name_lists k = client_lists /\ size (raw_payload k) < 2 ^ 32) /\ I w) I I.
Proof.
  unfold send_kexinit. apply triple_bind with (fun k w => (raw_payload k = kexinit_wire k x00 /\
    name_lists k = client_lists /\ size (raw_payload k) < 2 ^ 32) /\ I w).
  - apply triple_zoom. intros w Hw.
    destruct (create_client_kexinit_eq (rand (net w))) as (k & r & -> & Hraw & Hck & Hl & _).
    split; [|by apply I_rng]. split_and!; [done|done|].
    destruct k. unfold name_lists, kexinit_wire in *. cbn in *. injection Hl as -> -> -> -> -> -> -> -> -> ->.
    rewrite Hraw. unfold wire. cbn [fmap list_fmap concat wire_field]. autorewrite with size.
    rewrite !size_be32, Hck. by vm_compute.
  - intros k. apply triple_pure. intros (Hraw & Hl & Hsz). apply keeps_bind.
    + apply keeps_send; [|lia]. left. rewrite Hraw. by eexists.
    + intros _. by apply triple_ret.
Qed.

Lemma triple_receive_kexinit :
  triple I receive_kexinit (fun k w => size (raw_payload k) < 2 ^ 32 /\ I w) I I.
Proof.
  unfold receive_kexinit. eapply triple_bind; [apply triple_receive_packet|].
  intros p. apply triple_pure. intros Hp. apply triple_guard. apply triple_lift; [|done].
  eapply safe_mono; [apply parse_kexinit_safe, addressable_packet; lia|].
  cbn. intros k (-> & _). lia.
Qed.

Lemma triple_keypair (b : bool) (e : string) :
  triple I (if b then on_rng create_curve25519_keypair else mthrow e)
    (fun k w => size (client_public_key k) = 32 /\ I w) I I.
Proof.
  apply triple_if; intros _; [|by apply triple_throw]. apply triple_zoom. intros w Hw.
  unfold create_curve25519_keypair. destruct (randombytes_buf 32 (rand (net w))) as [pr r].
  pose proof (size_scalarmult_base pr) as Hs. destruct (crypto_scalarmult_curve25519_base pr) as [st pu].
  destruct (negb _); (split; [done|]) || idtac; by apply I_rng.
Qed.

Lemma calculate_shared_secret_safe keypair pub :
  safe (calculate_shared_secret keypair pub) (fun k =>
    size (shared_secret k) = 32 /\ client_public_key k = client_public_key keypair /\
    client_private_key k = client_private_key keypair /\
    shared_secret k = (crypto_scalarmult_curve25519 (client_private_key keypair) pub).2).
Proof.
  unfold calculate_shared_secret. pose proof (size_scalarmult (client_private_key keypair) pub) as Hs.
  destruct (crypto_scalarmult_curve25519 _ _) as [st k]. by destruct (st =? -1).
Qed.

Lemma exchange_hash_safe ci si ck sk cs er :
  safe (calculate_exchange_hash ci si ck sk cs er) (fun _ => True).
Proof.
  unfold calculate_exchange_hash, append_positive_mpint.
  repeat (eapply (safe_bind _ _ (fun _ => True)); [rewrite append_string_eq; by destruct (_ <? _)|]; intros ? _).
  done.
Qed.

Lemma verify_safe d x : safe (verify_ed25519_signature d x) (fun _ => True).
Proof. unfold verify_ed25519_signature. by destruct (negb _). Qed.

(** Up to the session identifier only KEXINIT and the ephemeral key are sent. *)
Lemma triple_agree id path hostname :
  triple I (agree_on_keys id path hostname) (fun r w => size r.1 = 32 /\ I w) I I.
Proof.
  unfold agree_on_keys. eapply triple_bind; [apply triple_send_kexinit|]. intros ck.
  apply triple_pure. intros [_ Hck]. eapply triple_bind; [apply triple_receive_kexinit|]. intros sk.
  apply triple_pure. intros Hsk. apply keeps_bind; [apply keeps_lift, negotiate_safe|]. intros alg.
  eapply triple_bind; [apply triple_keypair|]. intros kp. apply triple_pure. intros Hkp.
  apply keeps_bind.
  { apply keeps_send; [right; by eexists|]. unfold create_ecdh_init_payload.
    rewrite encode_uint32_be32, !size_app, size_be32, Hkp. by vm_compute. }
  intros _. eapply triple_bind; [apply triple_receive_packet|]. intros p. apply triple_pure. intros Hp.
  apply triple_guard. eapply triple_bind;
    [apply triple_lift; [apply parse_ecdh_reply_safe, addressable_packet; lia|done]|].
  intros reply. apply triple_pure. intros (Hpay & Hhk & _ & Hsig).
  eapply triple_bind; [apply triple_lift; [apply calculate_shared_secret_safe|done]|].
  intros kp'. apply triple_pure. intros (Hsz & _).
  apply keeps_bind; [apply keeps_lift, exchange_hash_safe|]. intros x.
  apply keeps_bind.
  { apply keeps_lift. eapply safe_mono; [apply parse_ed25519_safe; unfold addressable; lia|done]. }
  intros data. apply keeps_bind; [apply keeps_lift, verify_safe|]. intros _.
  apply keeps_bind; [apply keeps_confirm|]. intros _. by apply triple_ret.
Qed.

End opening.

(** *** What a completed exchange has established *)

Lemma send_Ok p w w' :
  send p w = (Ok tt, w') ->
  (exists b, history w' = history w ++ [Send b p]) /\ disk w' = disk w /\ con w' = con w.
Proof.
  unfold send. rewrite M_modify_run. unfold on_net, zoom. cbn [net log].
  destruct (send_packet p (net w)) as [[[]| | |] t]; try done. intros [= <-]. cbn. eauto.
Qed.

Lemma receive_Ok p w w' :
  receive w = (Ok p, w') ->
  (exists b, history w' = history w ++ [Recv b p]) /\ disk w' = disk w /\ con w' = con w.
Proof.
  unfold receive. rewrite M_gets_run. unfold mbind at 1, M_bind at 1, on_net, zoom.
  destruct (receive_packet (net w)) as [[] t]; try done. cbn. intros [= <- <-]. cbn. eauto.
Qed.

Lemma guard_Ok {A} (p : bytes) n (e1 e2 : string) (m : M (World S) A) a w w' :
  (if size p =? 0 then mthrow e1 else
   b ← lift (index p 0);
   if negb (b =? n) then mthrow e2 else m) w = (Ok a, w') -> m w = (Ok a, w').
Proof.
  destruct (size p =? 0); [done|]. intros (b & w1 & Hb & H)%M_bind_Ok.
  injection Hb as Hb <-. by destruct (negb _).
Qed.

Lemma lift_Ok {A} (r : res A) a w w' : lift r w = (Ok a, w') -> r = Ok a /\ w' = w.
Proof. by intros [= -> <-]. Qed.

Lemma rng_Ok {A} (m : M rng A) a w w' :
  on_rng m w = (Ok a, w') -> history w' = history w /\ disk w' = disk w /\ con w' = con w.
Proof. unfold on_rng, zoom. destruct (m _) as [r x]. by intros [= _ <-]. Qed.

Lemma confirm_Ok path hostname a hk f w w' :
  confirm_host_key path hostname a hk f w = (Ok tt, w') ->
  history w' = history w /\
  ((check path hostname a hk (disk w) = Ok Match /\ disk w' = disk w) \/
   (check path hostname a hk (disk w) = Ok Unknown /\ answered (con w) (str "yes") /\
    add path hostname a hk (disk w) = (Ok tt, disk w'))).
Proof.
  unfold confirm_host_key. rewrite M_gets_run. intros (st & w0 & [Hc ->]%lift_Ok & H)%M_bind_Ok.
  destruct st; [|injection H as <-; auto|].
  - unfold mbind, M_bind, on_con, on_disk, zoom, print, modify, getline_cin in H. cbn in H.
    destruct (lines (con w)) as [|[s|s|e] l] eqn:El; try done; cbn in H;
      (destruct (beq_spec s (str "yes")) as [->|]; [|done]); cbn [negb] in H; cbn in H;
      destruct (add path hostname a hk (disk w)) as [[[]| | |] d']; try done; injection H as <-;
      (split; [done|]); right; (split; [done|]); (split; [|done]); exists l; auto.
  - unfold mbind, M_bind, on_con, zoom, print_err, modify in H. done.
Qed.

Lemma agree_Ok id path hostname K H w w' :
  agree_on_keys id path hostname w = (Ok (K, H), w') ->
  exists client server keypair reply pk sig p b1 b2 b3 b4,
    history w' = history w ++ [Send b1 (raw_payload client); Recv b2 (raw_payload server);
                               Send b3 (create_ecdh_init_payload keypair); Recv b4 p] /\
    (exists r r', create_client_kexinit r = (Ok client, r')) /\
    (exists algorithms, parse_kexinit (raw_payload server) = Ok server /\ negotiate client server = Ok algorithms /\
       parse_ed25519_verification_data reply (host_key_algorithm algorithms) =
         Ok {| ed_public_key := pk; ed_signature := sig |} /\
       ((check path hostname (host_key_algorithm algorithms) (server_host_key reply) (disk w) = Ok Match /\
           disk w' = disk w) \/
        (check path hostname (host_key_algorithm algorithms) (server_host_key reply) (disk w) = Ok Unknown /\
           answered (con w) (str "yes") /\
           add path hostname (host_key_algorithm algorithms) (server_host_key reply) (disk w) = (Ok tt, disk w')))) /\
    parse_ecdh_reply p = Ok reply /\
    (exists keypair', calculate_shared_secret keypair (server_public_key reply) = Ok keypair' /\
       shared_secret keypair' = K /\
       calculate_exchange_hash (id_client id) (id_server id) client server keypair' reply = Ok H) /\
    verify_ed25519_signature {| ed_public_key := pk; ed_signature := sig |} H = Ok tt.
Proof.
  unfold agree_on_keys, send_kexinit, receive_kexinit. intros Hrun.
  apply M_bind_Ok in Hrun as (client & w1 & Hck & Hrun).
  apply M_bind_Ok in Hck as (client' & w0 & Hrng & Hck). apply M_bind_Ok in Hck as ([] & w0' & Hs1 & Hck).
  injection Hck as -> <-. destruct (rng_Ok _ _ _ _ Hrng) as (Hh0 & Hd0 & Hc0).
  apply send_Ok in Hs1 as ([b1 Hh1] & Hd1 & Hc1).
  apply M_bind_Ok in Hrun as (server & w2 & Hsk & Hrun).
  apply M_bind_Ok in Hsk as (p1 & w2' & Hr1 & Hsk). apply receive_Ok in Hr1 as ([b2 Hh2] & Hd2 & Hc2).
  apply guard_Ok, lift_Ok in Hsk as [Hparse ->].
  apply M_bind_Ok in Hrun as (alg & w3 & [Hneg ->]%lift_Ok & Hrun).
  apply M_bind_Ok in Hrun as (kp & w4 & Hkp & Hrun).
  destruct (beq _ _) in Hkp; [|done]. destruct (rng_Ok _ _ _ _ Hkp) as (Hh3 & Hd3 & Hc3).
  apply M_bind_Ok in Hrun as ([] & w5 & Hs2 & Hrun). apply send_Ok in Hs2 as ([b3 Hh4] & Hd4 & Hc4).
  apply M_bind_Ok in Hrun as (p2 & w6 & Hr2 & Hrun). apply receive_Ok in Hr2 as ([b4 Hh5] & Hd5 & Hc5).
  apply guard_Ok in Hrun. apply M_bind_Ok in Hrun as (reply & w7 & [Hreply ->]%lift_Ok & Hrun).
  apply M_bind_Ok in Hrun as (kp' & w7 & [Hsec ->]%lift_Ok & Hrun).
  apply M_bind_Ok in Hrun as (x & w7 & [Hx ->]%lift_Ok & Hrun).
  apply M_bind_Ok in Hrun as ([pk sig] & w7 & [Hdata ->]%lift_Ok & Hrun).
  apply M_bind_Ok in Hrun as ([] & w7 & [Hver ->]%lift_Ok & Hrun).
  apply M_bind_Ok in Hrun as ([] & w7 & Hconf & Hrun). injection Hrun as <- <- <-.
  apply confirm_Ok in Hconf as [Hh6 Hconf].
  assert (Hraw : raw_payload server = p1).
  { by apply parse_kexinit_raw in Hparse. }
  assert (Hd : disk w6 = disk w) by congruence. assert (Hc : con w6 = con w) by congruence.
  rewrite Hd, Hc in Hconf.
  exists client, server, kp, reply, pk, sig, p2, b1, b2, b3, b4. split_and!; try done.
  - rewrite Hh6, Hh5, Hh4, Hh3, Hh2, Hh1, Hh0, Hraw, <- !app_assoc. done.
  - unfold on_rng, zoom in Hrng. destruct (create_client_kexinit (rand (net w))) as [rr r'] eqn:E.
    injection Hrng as -> _. eauto.
  - exists alg. by rewrite Hraw.
  - by exists kp'.
Qed.

(** *** NEWKEYS *)

Lemma enable_outgoing_spec iv k m (t : tstate S) :
  wf_transport (obj t) ->
  match enable_outgoing_encryption iv k m t with
  | (Ok _, t') => wf_transport (obj t') /\ outgoing_encryption_active_ (obj t') = true /\
      incoming_encryption_active_ (obj t') = incoming_encryption_active_ (obj t)
  | (Throw _, t') => t' = t
  | _ => False
  end.
Proof.
  intros (Hi & Ho & _ & Hin). unfold enable_outgoing_encryption. destruct EVP_CIPHER_CTX_new as [c|]; [|done].
  destruct (EVP_EncryptInit_ex c k iv) as [st e]. destruct (negb _); [done|]. cbn.
  split; [|done]. split_and!; cbn; eauto; lia.
Qed.

Lemma enable_incoming_spec iv k m (t : tstate S) :
  wf_transport (obj t) ->
  match enable_incoming_encryption iv k m t with
  | (Ok _, t') => wf_transport (obj t') /\ incoming_encryption_active_ (obj t') = true /\
      outgoing_encryption_active_ (obj t') = outgoing_encryption_active_ (obj t)
  | (Throw _, t') => t' = t
  | _ => False
  end.
Proof.
  intros (Hi & Ho & Hout & _). unfold enable_incoming_encryption. destruct EVP_CIPHER_CTX_new as [c|]; [|done].
  destruct (EVP_DecryptInit_ex c k iv) as [st e]. destruct (negb _); [done|]. cbn.
  split; [|done]. split_and!; cbn; eauto; lia.
Qed.

(** Some phase of the session. *)
Definition some_phase (ok : event -> Prop) (h : list event) (R : World S -> Prop) w : Prop :=
  exists bo bi, phase bo bi ok h w /\ R w.

Lemma triple_switch (ok : event -> Prop) h (R : World S -> Prop) K H :
  local R -> (forall p, begins ssh_message.NEWKEYS p -> ok (Send false p)) -> (forall p, ok (Recv false p)) ->
  size K = 32 ->
  triple (fun w => phase false false ok h w /\ R w) (switch_to_keys K H)
    (fun _ w => phase true true ok h w /\ R w) (some_phase ok h R) (some_phase ok h R).
Proof.
  intros HR Hs Hr HK. unfold switch_to_keys.
  assert (Hsome : forall bo bi w, phase bo bi ok h w /\ R w -> some_phase ok h R w) by (intros bo bi w Hw; by exists bo, bi).
  rewrite (derive_transport_keys_eq K H H HK).
  apply triple_bind with (fun k w => phase false false ok h w /\ R w).
  { intros w Hw. done. }
  intros k. apply triple_bind with (fun _ w => phase false false ok h w /\ R w).
  { eapply triple_conseq; [apply (triple_send false false ok h R); [done|apply Hs; by eexists|by vm_compute]|..]; try done; apply Hsome. }
  intros _. apply triple_bind with (fun _ w => phase true false ok h w /\ R w).
  { apply triple_zoom. intros w [(Hwf & Ho & Hi & Hl) Hw].
    pose proof (enable_outgoing_spec (iv_cs k) (encryption_key_cs k) (mac_key_cs k) (net w) Hwf) as He.
    destruct (enable_outgoing_encryption _ _ _ _) as [[] t]; try done.
    - destruct He as (Hwf' & Ho' & Hi'). split; [|by apply (HR w)]. split_and!; try done. cbn. congruence.
    - subst t. apply (Hsome false false). split; [done|]. by apply (HR w). }
  intros _. eapply triple_bind.
  { eapply triple_conseq; [apply (triple_receive true false ok h R); done|..]; try done; apply Hsome. }
  intros p. apply triple_pure. intros Hp. apply triple_if; intros H1; [apply triple_throw; by apply Hsome|].
  apply triple_bind with (fun _ w => phase true false ok h w /\ R w).
  { eapply triple_conseq; [apply (keeps_lift (fun w => phase true false ok h w /\ R w))|..]; try done; [|apply Hsome..].
    destruct p as [|b p]; [done|]. by rewrite index_0. }
  intros b. apply triple_if; intros H2; [apply triple_throw; by apply Hsome|].
  apply triple_zoom. intros w [(Hwf & Ho & Hi & Hl) Hw].
  pose proof (enable_incoming_spec (iv_sc k) (encryption_key_sc k) (mac_key_sc k) (net w) Hwf) as He.
  destruct (enable_incoming_encryption _ _ _ _) as [[] t]; try done.
  - destruct He as (Hwf' & Hi' & Ho'). split; [|by apply (HR w)]. split_and!; try done. cbn. congruence.
  - subst t. apply (Hsome true false). split; [done|]. by apply (HR w).
Qed.

End handshake_facts.

(** ** Properties *)

(** The identification exchange: whatever the segmentation, the server's
    string is its first line without carriage returns and the line end is the
    last byte consumed.  The client answers with its own string and CR LF exactly
    when the server speaks "SSH-2.0"; otherwise it writes nothing and throws. *)
Theorem identification_exchange {S} {BS : ByteStream S} {BL : ByteStreamLaws S} client line rest s :
  incoming s = line ++ x0a :: rest -> (x0a ∉ line) -> size client + 2 <= room s ->
  exists s', incoming s' = rest /\
    if beq (take 7 (no_cr line)) (str "SSH-2.0")
    then exchange_identification client s = (Ok {| id_client := client; id_server := no_cr line |}, s') /\
         outgoing s' = outgoing s ++ client ++ [x0d; x0a]
    else (exists e, exchange_identification client s = (Throw e, s')) /\ outgoing s' = outgoing s.
Proof.
  intros Hin Hn Hroom. destruct (read_version_line s line rest Hin Hn) as (s1 & Hrun & Hi & Ho & Hr).
  unfold exchange_identification. rewrite (M_bind_run _ _ _ _ _ Hrun).
  destruct (beq (take 7 (no_cr line)) (str "SSH-2.0")); cbn [negb].
  - destruct (stream_write_ok (client ++ [x0d; x0a]) s1) as (s2 & Hw & Ho2 & Hi2 & _).
    { rewrite size_app, Hr. change (size [x0d; x0a]) with 2. lia. }
    exists s2. cbv zeta. rewrite (M_bind_run _ _ _ _ _ Hw). split; [congruence|]. split; [done|].
    by rewrite Ho2, Ho.
  - exists s1. split; [done|]. split; [by eexists|done].
Qed.

Section properties.
Context {C : Crypto} {CS : CryptoSizes} {S : Type} {BS : ByteStream S} {BL : ByteStreamLaws S}.
Implicit Types w : World S.

(** What a run from the first packet on can send in clear. *)
Definition handshake_event (e : event) : Prop :=
  match e with
  | Send b p => b = false -> begins ssh_message.KEXINIT p \/ begins ssh_message.KEX_ECDH_INIT p \/
      begins ssh_message.NEWKEYS p
  | Recv _ _ => True
  end.

Lemma phase_here bo bi ok w :
  wf_transport (obj (net w)) -> outgoing_encryption_active_ (obj (net w)) = bo ->
  incoming_encryption_active_ (obj (net w)) = bi -> phase bo bi ok (history w) w.
Proof. intros. split_and!; try done. exists []. by rewrite app_nil_r. Qed.

Lemma exchange_hash_Ok ci si ck sk cs er x :
  calculate_exchange_hash ci si ck sk cs er = Ok x ->
  x = crypto_hash_sha256 (transcript ci si (raw_payload ck) (raw_payload sk) (server_host_key er)
        (client_public_key cs) (server_public_key er) (shared_secret cs)).
Proof.
  unfold calculate_exchange_hash, append_positive_mpint. rewrite append_string_eq.
  do 7 (destruct (_ <? _); [|done]; cbn [mbind res_bind]; rewrite append_string_eq).
  destruct (_ <? _); [|done]. cbn. intros <-%Ok_inj. f_equal. unfold transcript. wire_eq.
Qed.

Lemma negotiate_suite r client r' server a :
  create_client_kexinit r = (Ok client, r') -> negotiate client server = Ok a -> a = client_suite.
Proof.
  intros Hck Hneg. destruct (create_client_kexinit_eq r) as (k & r1 & Hk & _ & _ & Hl & _).
  rewrite Hk in Hck. injection Hck as <- <-. destruct k. unfold name_lists in Hl. cbn in Hl.
  injection Hl as -> -> -> -> -> -> -> -> -> ->.
  unfold negotiate in Hneg. cbn [kex_algorithms host_key_algorithms encryption_cs_algorithms
    encryption_sc_algorithms mac_cs_algorithms mac_sc_algorithms compression_cs_algorithms
    compression_sc_algorithms] in Hneg.
  rewrite !negotiate_bind_single in Hneg by (vm_compute; try set_solver; done).
  by destruct Hneg as (_ & _ & _ & _ & _ & _ & _ & _ & <-%Ok_inj).
Qed.

Lemma verified_of_agree id path hostname K H w w' l :
  agree_on_keys id path hostname w = (Ok (K, H), w') ->
  history w' = history w ++ l -> Forall opening l ->
  exists hk, host_verified id K H hk l /\ host_trusted path hostname hk (con w) (disk w) (disk w').
Proof.
  intros Hrun Hl Hop. destruct (agree_Ok _ _ _ _ _ _ _ Hrun) as
    (ck & sk & kp & reply & pk & sig & p & b1 & b2 & b3 & b4 & Hh & (rr & r' & Hck) &
     (alg & Hsk & Hneg & Hdata & Htrust) & Hreply & (kp' & Hsec & HK' & Hx) & Hver).
  rewrite Hl in Hh. apply app_inv_head in Hh as ->.
  rewrite !Forall_cons in Hop. destruct Hop as ([-> _] & [-> _] & [-> _] & [-> Hp] & _).
  pose proof (negotiate_suite _ _ _ _ _ Hck Hneg) as ->. cbn [host_key_algorithm client_suite] in *.
  pose proof (calculate_shared_secret_safe kp (server_public_key reply)) as Hs. rewrite Hsec in Hs.
  destruct Hs as (_ & Hpub & _ & Hval). apply exchange_hash_Ok in Hx. rewrite Hpub, HK' in Hx.
  pose proof (parse_ecdh_reply_safe p (addressable_packet p Hp)) as Hr. rewrite Hreply in Hr.
  destruct Hr as (_ & Hhk & _ & Hsg).
  pose proof (parse_ed25519_safe reply (str "ssh-ed25519") ltac:(unfold addressable; lia) ltac:(unfold addressable; lia)) as Hd.
  rewrite Hdata in Hd. destruct Hd as (_ & Hpk & Hsig & Ehk & Esig). cbn in Hpk, Hsig, Ehk, Esig.
  exists (server_host_key reply). split; [|done].
  exists ck, sk, kp, reply, pk, sig, p. split_and!; try done; try set_solver.
  - revert Hver. unfold verify_ed25519_signature. cbn. by destruct (Z.eqb_spec (crypto_sign_verify_detached sig H pk) 0).
Qed.

Lemma opening_handshake e : opening e -> handshake_event e.
Proof. destruct e as [b p|b p]; cbn; tauto. Qed.

(** Whatever condition on the user's side the packets, the random generator and
    the dialogue about the host keep is kept by the whole key exchange. *)
Lemma triple_key_exchange id path hostname h (R : World S -> Prop) :
  local R ->
  (forall w c, settings c = settings (con w) -> tc_calls c = tc_calls (con w) -> R w -> R (set_con c w)) ->
  (forall w d, R w -> R (set_disk d w)) ->
  triple (fun w => phase false false handshake_event h w /\ R w) (perform_key_exchange id path hostname)
    (fun _ w => phase true true handshake_event h w /\ R w)
    (some_phase handshake_event h R) (some_phase handshake_event h R).
Proof.
  intros HR Hcon Hdisk. unfold perform_key_exchange.
  assert (Hsome : forall w, phase false false handshake_event h w /\ R w -> some_phase handshake_event h R w)
    by (intros w Hw; by exists false, false).
  eapply triple_bind.
  - eapply triple_conseq; [apply (triple_agree handshake_event h R HR Hcon Hdisk opening_handshake)|..]; try done.
  - intros [K H]. apply triple_pure. intros HK. apply triple_switch; [done| |done|done].
    intros p Hp _. auto.
Qed.

Lemma key_exchange_outcome id path hostname w r w' :
  wf_transport (obj (net w)) -> outgoing_encryption_active_ (obj (net w)) = false ->
  incoming_encryption_active_ (obj (net w)) = false ->
  perform_key_exchange id path hostname w = (r, w') ->
  r <> Undef /\ exists l, history w' = history w ++ l /\
  ((Forall opening l /\ r <> Ok tt /\
    outgoing_encryption_active_ (obj (net w')) = false /\ incoming_encryption_active_ (obj (net w')) = false) \/
   exists secret hash host_key,
     host_verified id secret hash host_key l /\
     host_trusted path hostname host_key (con w) (disk w) (disk w')) /\
  (r = Ok tt -> encrypted w').
Proof.
  intros Hwf Ho Hi. unfold perform_key_exchange.
  pose proof (phase_here false false opening w Hwf Ho Hi) as Hph.
  pose proof (triple_agree opening (history w) (fun _ => True) ltac:(done) ltac:(done) ltac:(done) ltac:(done)
    id path hostname w (conj Hph I)) as Hagree.
  unfold mbind, M_bind. destruct (agree_on_keys id path hostname w) as [[[K H]|e| |] w1] eqn:Erun; [| |done|].
  - destruct Hagree as (HK & (Hwf1 & Ho1 & Hi1 & l1 & Hl1 & Hop1) & _). cbn in HK.
    destruct (verified_of_agree _ _ _ _ _ _ _ _ Erun Hl1 Hop1) as (hk & Hver & Htr).
    pose proof (triple_switch handshake_event (history w1) (fun w2 => disk w2 = disk w1) K H
      ltac:(intros ? ? -> ; done) ltac:(intros p Hp _; by auto) ltac:(done) HK w1
      (conj (phase_here false false handshake_event w1 Hwf1 Ho1 Hi1) eq_refl)) as Hsw.
    destruct (switch_to_keys K H w1) as [r2 w2]. intros [= <- <-].
    assert (Hrest : exists bo bi, phase bo bi handshake_event (history w1) w2 /\ disk w2 = disk w1 /\
      (r2 = Ok tt -> bo = true /\ bi = true) /\ r2 <> Undef).
    { destruct r2 as [[]|e| |]; [| |done|].
      - destruct Hsw as [Hp Hd]. by exists true, true.
      - destruct Hsw as (bo & bi & Hp & Hd). exists bo, bi. split; [done|]. split; [done|]. split; [by intros [=]|done].
      - destruct Hsw as (bo & bi & Hp & Hd). exists bo, bi. split; [done|]. split; [done|]. split; [by intros [=]|done]. }
    destruct Hrest as (bo & bi & (Hwf2 & Ho2 & Hi2 & l2 & Hl2 & _) & Hd & Hflags & Hr).
    split; [done|]. exists (l1 ++ l2). split; [by rewrite Hl2, Hl1, <- app_assoc|]. split.
    + right. exists K, H, hk. rewrite Hd. split; [|done].
      destruct Hver as (ck & sk & kp & reply & pk & sig & p & H1 & H2 & H3 & H4 & H5 & H6 & H7 & H8 & H9 & H10
        & H11 & H12 & H13 & H14 & H15). exists ck, sk, kp, reply, pk, sig, p.
      split_and!; try done; apply elem_of_app; by left.
    + intros E. destruct (Hflags E) as [-> ->]. by split_and!.
  - intros [= <- <-]. destruct Hagree as ((_ & Ho1 & Hi1 & l & Hl & Hop) & _). split; [done|].
    exists l. split; [done|]. split; [left; by split_and!|done].
  - intros [= <- <-]. destruct Hagree as ((_ & Ho1 & Hi1 & l & Hl & Hop) & _). split; [done|].
    exists l. split; [done|]. split; [left; by split_and!|done].
Qed.

(** C4: no keys without trust.  Whatever the server sends, a key exchange that
    starts in clear never runs into undefined behaviour, and either it stopped
    having sent nothing but KEXINIT and its ephemeral key, with encryption off;
    or the server had proved possession of the host key (an Ed25519 signature
    over the exchange hash of this very exchange, under the key inside the host
    key, with the suite the client implements) and the host key was trusted: it
    matched the stored one, or the host was unknown, the user typed "yes" and the
    key was stored.  NEWKEYS is only sent in the second case, and only after it
    is encryption on. *)
Theorem key_exchange_trust id path hostname w r w' :
  wf_transport (obj (net w)) -> outgoing_encryption_active_ (obj (net w)) = false ->
  incoming_encryption_active_ (obj (net w)) = false ->
  perform_key_exchange id path hostname w = (r, w') ->
  r <> Undef /\ exists l, history w' = history w ++ l /\
  ((Forall opening l /\ r <> Ok tt /\
    outgoing_encryption_active_ (obj (net w')) = false /\ incoming_encryption_active_ (obj (net w')) = false) \/
   exists secret hash host_key,
     host_verified id secret hash host_key l /\
     host_trusted path hostname host_key (con w) (disk w) (disk w')) /\
  (r = Ok tt -> encrypted w').
Proof. exact (key_exchange_outcome id path hostname w r w'). Qed.

(** C39: a host key that changed is refused, and so is an unknown one unless the
    user answers exactly "yes": the exchange throws, nothing is written to the
    known-hosts file and nothing is sent. *)
Theorem untrusted_host_refused path hostname algorithm host_key fingerprint_text w :
  let run := confirm_host_key path hostname algorithm host_key fingerprint_text w in
  let status := check path hostname algorithm host_key (disk w) in
  status = Ok Changed \/ (status = Ok Unknown /\ ~ answered (con w) (str "yes")) ->
  (run.1 = Blocked \/ exists e, run.1 = Throw e) /\
  (status = Ok Changed -> run.1 = Throw "Refusing connection due to changed host key") /\
  disk run.2 = disk w /\ net run.2 = net w /\ history run.2 = history w.
Proof.
  intros run status Hst. subst run status. unfold confirm_host_key.
  rewrite !M_gets_run. destruct Hst as [Hst|[Hst Hans]].
  - rewrite (M_lift_run _ _ _ _ Hst). cbn. split; [right; by eexists|]. by rewrite Hst.
  - rewrite (M_lift_run _ _ _ _ Hst). rewrite Hst. split_and!; try done.
    all: unfold mbind, M_bind, on_con, on_disk, zoom, print, modify, getline_cin; cbn.
    all: destruct (lines (con w)) as [|[s|s|e] l] eqn:El; cbn; eauto.
    all: destruct (beq_spec s (str "yes")) as [->|]; cbn; eauto.
    all: destruct Hans; exists l; rewrite El; auto.
Qed.

Lemma net_Ok {A} (m : M (tstate S) A) a w w' :
  on_net m w = (Ok a, w') -> m (net w) = (Ok a, net w').
Proof. unfold on_net, zoom. destruct (m (net w)) as [rr t]. by intros [= -> <-]. Qed.

(** C17: a completed key exchange leaves both directions with the keys derived
    from its own secret and exchange hash, which is also the session identifier:
    each cipher freshly initialised with the key and the IV of its direction
    (client to server for sending, server to client for receiving), and the MAC
    key of that direction. *)
Theorem keys_installed id path hostname w w' :
  wf_transport (obj (net w)) -> outgoing_encryption_active_ (obj (net w)) = false ->
  incoming_encryption_active_ (obj (net w)) = false ->
  perform_key_exchange id path hostname w = (Ok tt, w') ->
  exists secret hash keys c,
    (exists w1, agree_on_keys id path hostname w = (Ok (secret, hash), w1)) /\
    derive_transport_keys secret hash hash = Ok keys /\ EVP_CIPHER_CTX_new = Some c /\
    outgoing_cipher_ (obj (net w')) = Some (EVP_EncryptInit_ex c (encryption_key_cs keys) (iv_cs keys)).2 /\
    outgoing_mac_key_ (obj (net w')) = Some (mac_key_cs keys) /\
    incoming_cipher_ (obj (net w')) = Some (EVP_DecryptInit_ex c (encryption_key_sc keys) (iv_sc keys)).2 /\
    incoming_mac_key_ (obj (net w')) = Some (mac_key_sc keys).
Proof.
  intros Hwf Ho Hi Hrun.
  pose proof (triple_agree opening (history w) (fun _ => True) ltac:(done) ltac:(done) ltac:(done) ltac:(done)
    id path hostname w (conj (phase_here false false opening w Hwf Ho Hi) I)) as Hagree.
  apply M_bind_Ok in Hrun as ([K H] & w1 & Hag & Hrun). rewrite Hag in Hagree.
  destruct Hagree as (HK & (Hwf1 & _) & _). cbn in HK. unfold switch_to_keys in Hrun.
  apply M_bind_Ok in Hrun as (keys & w2 & [Hk ->]%lift_Ok & Hrun).
  apply M_bind_Ok in Hrun as ([] & w3 & Hs & Hrun). unfold send in Hs. rewrite M_modify_run in Hs.
  apply net_Ok in Hs. pose proof (send_packet_spec _ [byte_of ssh_message.NEWKEYS] Hwf1 ltac:(done)) as Hspec.
  cbn [net log] in Hs. rewrite Hs in Hspec. pose proof (receiver_unchanged_wf _ _ Hwf1 Hspec) as Hwf3. clear Hspec Hs.
  apply M_bind_Ok in Hrun as ([] & w4 & He%net_Ok & Hrun).
  pose proof (enable_outgoing_spec (iv_cs keys) (encryption_key_cs keys) (mac_key_cs keys) _ Hwf3) as Hspec.
  rewrite He in Hspec. destruct Hspec as (Hwf4 & _). unfold enable_outgoing_encryption in He.
  destruct EVP_CIPHER_CTX_new as [c|] eqn:Ec; [|done].
  destruct (EVP_EncryptInit_ex c _ _) as [st e] eqn:Ee. destruct (negb _); [done|]. injection He as He.
  apply M_bind_Ok in Hrun as (p & w5 & Hr & Hrun). unfold receive in Hr. rewrite M_gets_run in Hr.
  apply M_bind_Ok in Hr as (p' & w5' & Hr%net_Ok & Hlog).
  pose proof (receive_packet_spec _ Hwf4) as Hspec. rewrite Hr in Hspec.
  destruct Hspec as (_ & _ & _ & _ & seq & ci & _ & _ & Hobj).
  injection Hlog as _ <-. destruct (negb (size p =? _)); [done|].
  apply M_bind_Ok in Hrun as (b & w6 & [_ ->]%lift_Ok & Hrun). destruct (negb (b =? _)); [done|].
  apply net_Ok in Hrun. cbn [net log] in Hrun. unfold enable_incoming_encryption in Hrun. rewrite Ec in Hrun.
  destruct (EVP_DecryptInit_ex c _ _) as [st' d] eqn:Ed. destruct (negb _); [done|]. injection Hrun as Hrun.
  exists K, H, keys, c. rewrite <- Hrun, Ee, Ed. cbn. rewrite Hobj, <- He. cbn. by eauto 10.
Qed.

(** ** Password authentication *)

Lemma none_request_size username : safe (create_none_auth_request username) (fun p => size p < 2 ^ 63).
Proof.
  unfold create_none_auth_request. rewrite append_string_eq. destruct (Z.ltb_spec (size username) (2 ^ 32)); [|done].
  cbn [mbind res_bind]. rewrite append_string_ok by done. cbn [mbind res_bind]. rewrite append_string_ok by done. cbn [safe].
  autorewrite with size. rewrite !size_be32. change (size (str "ssh-connection")) with 14. change (size (str "none")) with 4. lia.
Qed.

Lemma password_request_size username password :
  safe (create_password_auth_request username password) (fun p => size p < 2 ^ 63).
Proof.
  unfold create_password_auth_request. rewrite append_string_eq. destruct (Z.ltb_spec (size username) (2 ^ 32)); [|done].
  cbn [mbind res_bind]. rewrite append_string_ok by done. cbn [mbind res_bind]. rewrite append_string_ok by done.
  cbn [mbind res_bind]. rewrite append_string_eq. destruct (Z.ltb_spec (size password) (2 ^ 32)); [|done]. cbn [safe].
  autorewrite with size. rewrite !size_be32. change (size (str "ssh-connection")) with 14. change (size (str "password")) with 8. lia.
Qed.

Lemma triple_authenticate username (ok : event -> Prop) h (R Rb : World S -> Prop) :
  local R -> (forall b p, b = true -> ok (Send b p)) -> (forall p, ok (Recv true p)) -> (forall w, R w -> Rb w) ->
  (forall s, keeps R (on_con (print s))) ->
  triple R (on_con (read_hidden_input (str "Password: "))) (fun _ => R) R Rb ->
  triple (fun w => phase true true ok h w /\ R w) (authenticate_user username)
    (fun _ w => phase true true ok h w /\ R w) (fun w => phase true true ok h w /\ R w)
    (fun w => phase true true ok h w /\ Rb w).
Proof.
  intros HR Hs Hr HRb Hprint Hread. set (I w := phase true true ok h w /\ R w).
  set (B w := phase true true ok h w /\ Rb w). assert (HIB : forall w, I w -> B w) by (intros w []; split; auto).
  assert (Hweak : forall A (m : M (World S) A) Q, triple I m Q I I -> triple I m Q I B).
  { intros A m Q Hm. eapply triple_conseq; [exact Hm|done|done|done|done]. }
  assert (Hkeep : forall A A' (m : M (World S) A) (f : A -> M (World S) A'),
    keeps I m -> (forall a, triple I (f a) (fun _ => I) I B) -> triple I (m ≫= f) (fun _ => I) I B).
  { intros A A' m f Hm Hf. apply triple_bind with (fun _ => I); [by apply Hweak|done]. }
  assert (Hrecv : forall A' (f : bytes -> M (World S) A'),
    (forall p, 1 <= size p <= 34991 -> triple I (f p) (fun _ => I) I B) -> triple I (receive ≫= f) (fun _ => I) I B).
  { intros A' f Hf. eapply triple_bind; [apply Hweak, triple_receive; [done|auto]|].
    intros p. apply triple_pure. auto. }
  assert (Hsend : forall p, size p < 2 ^ 63 -> keeps I (send p)) by (intros p Hp; apply triple_send; auto).
  assert (Hreq : forall A' (r : res bytes) (f : bytes -> M (World S) A'), safe r (fun p => size p < 2 ^ 63) ->
    (forall p, size p < 2 ^ 63 -> triple I (f p) (fun _ => I) I B) -> triple I (lift r ≫= f) (fun _ => I) I B).
  { intros A' r f Hsafe Hf. eapply triple_bind; [apply triple_lift; [exact Hsafe|done]|].
    intros p. apply triple_pure. auto. }
  unfold authenticate_user. apply Hreq; [by vm_compute|]. intros p1 Hp1. apply Hkeep; [by apply Hsend|].
  intros _. apply Hrecv. intros p2 Hp2.
  apply Hkeep. { apply keeps_lift. eapply safe_mono; [apply validate_service_accept_safe, addressable_packet; lia|done]. }
  intros _. apply Hreq; [apply none_request_size|]. intros p3 Hp3. apply Hkeep; [by apply Hsend|]. intros _. apply Hrecv. intros p4 Hp4.
  apply Hkeep. { apply keeps_lift. eapply safe_mono; [apply parse_auth_failure_safe, addressable_packet; lia|done]. }
  intros _. apply triple_bind with (fun _ => I).
  { intros w [Hph Hw]. specialize (Hread w Hw). revert Hread. unfold on_con, zoom.
    destruct (read_hidden_input _ (con w)) as [[] c]; intros; try done; (split; [by apply (phase_local _ _ _ _ w)|done]). }
  intros password. apply Hreq; [apply password_request_size|]. intros p5 Hp5. apply Hkeep; [by apply Hsend|]. intros _. apply Hrecv. intros p6 Hp6.
  apply triple_if; intros He; [by apply triple_throw|]. apply Hkeep.
  { apply keeps_lift. destruct p6 as [|b p6]; [done|]. by rewrite index_0. }
  intros b. apply triple_if; intros _.
  { apply Hkeep. { apply keeps_lift. eapply safe_mono; [apply validate_auth_success_safe|done]. }
    intros _ w [Hph Hw]. specialize (Hprint (str "Authentication Complete
") w Hw). cbn in *. split; [by apply (phase_local _ _ _ _ w)|done]. }
  apply triple_if; intros _; [|by apply triple_throw].
  apply Hkeep; [|intros _; by apply triple_throw].
  apply keeps_lift. eapply safe_mono; [apply parse_auth_failure_safe, addressable_packet; lia|done].
Qed.

Lemma auth_guard_Ok (p : bytes) (f : Z -> M (World S) unit) (e : string) w w' :
  (if size p =? 0 then mthrow e else b ← lift (index p 0); f b) w = (Ok tt, w') ->
  exists b, f b w = (Ok tt, w').
Proof. destruct (size p =? 0); [done|]. intros (b & w1 & [_ ->]%lift_Ok & H)%M_bind_Ok. by exists b. Qed.

Lemma authenticate_Ok username w w' :
  authenticate_user username w = (Ok tt, w') ->
  exists b1 b2 b3 b4 b5 b6 p1 p2 password c,
    history w' = history w ++
      [Send b1 (wire [FByte ssh_message.SERVICE_REQUEST; FString (str "ssh-userauth")]); Recv b2 p1;
       Send b3 (wire [FByte ssh_message.USERAUTH_REQUEST; FString username; FString (str "ssh-connection");
                      FString (str "none")]); Recv b4 p2;
       Send b5 (wire [FByte ssh_message.USERAUTH_REQUEST; FString username; FString (str "ssh-connection");
                      FString (str "password"); FByte 0; FString password]);
       Recv b6 [byte_of ssh_message.USERAUTH_SUCCESS]] /\
    read_hidden_input (str "Password: ") (con w) = (Ok password, c) /\ lines (con w') = lines c.
Proof.
  unfold authenticate_user. intros Hrun.
  apply M_bind_Ok in Hrun as (q1 & w0 & [Hq1 ->]%lift_Ok & Hrun). vm_compute in Hq1. injection Hq1 as <-.
  apply M_bind_Ok in Hrun as ([] & w1 & ([b1 H1] & _ & C1)%send_Ok & Hrun).
  apply M_bind_Ok in Hrun as (p1 & w2 & ([b2 H2] & _ & C2)%receive_Ok & Hrun).
  apply M_bind_Ok in Hrun as ([] & w3 & [_ ->]%lift_Ok & Hrun).
  apply M_bind_Ok in Hrun as (q2 & w3 & [Hq2 ->]%lift_Ok & Hrun).
  apply M_bind_Ok in Hrun as ([] & w4 & ([b3 H3] & _ & C3)%send_Ok & Hrun).
  apply M_bind_Ok in Hrun as (p2 & w5 & ([b4 H4] & _ & C4)%receive_Ok & Hrun).
  apply M_bind_Ok in Hrun as (? & w6 & [_ ->]%lift_Ok & Hrun).
  apply M_bind_Ok in Hrun as (password & w7 & Hpw & Hrun).
  apply M_bind_Ok in Hrun as (q3 & w8 & [Hq3 ->]%lift_Ok & Hrun).
  apply M_bind_Ok in Hrun as ([] & w9 & ([b5 H5] & _ & C5)%send_Ok & Hrun).
  apply M_bind_Ok in Hrun as (p3 & w10 & ([b6 H6] & _ & C6)%receive_Ok & Hrun).
  apply auth_guard_Ok in Hrun as [b Hrun].
  destruct (b =? _); [|destruct (b =? _); [|done]; by apply M_bind_Ok in Hrun as (? & ? & _ & ?)].
  apply M_bind_Ok in Hrun as ([] & w11 & [Hok ->]%lift_Ok & Hrun). injection Hrun as <-.
  pose proof (validate_auth_success_safe p3) as Hs. rewrite Hok in Hs. cbn in Hs. subst p3.
  assert (Hc : con w5 = con w) by congruence. unfold on_con, zoom in Hpw. rewrite Hc in Hpw.
  destruct (read_hidden_input _ (con w)) as [rr c] eqn:Eh. injection Hpw as -> Ew.
  unfold create_none_auth_request in Hq2. rewrite append_string_eq in Hq2.
  destruct (Z.ltb_spec (size username) (2 ^ 32)); [|done]. cbn [mbind res_bind] in Hq2.
  rewrite append_string_ok in Hq2 by done. cbn [mbind res_bind] in Hq2. rewrite append_string_ok in Hq2 by done.
  apply Ok_inj in Hq2 as <-.
  unfold create_password_auth_request in Hq3. rewrite append_string_ok in Hq3 by done. cbn [mbind res_bind] in Hq3.
  rewrite append_string_ok in Hq3 by done. cbn [mbind res_bind] in Hq3. rewrite append_string_ok in Hq3 by done.
  cbn [mbind res_bind] in Hq3. rewrite append_string_eq in Hq3. destruct (size password <? 2 ^ 32); [|done].
  apply Ok_inj in Hq3 as <-.
  exists b1, b2, b3, b4, b5, b6, p1, p2, password, c. split; [|split; [done|]].
  - cbn [history on_con zoom set_con]. rewrite H6, H5. rewrite <- Ew. cbn [history set_con].
    rewrite H4, H3, H2, H1, <- !app_assoc. cbn [app]. repeat f_equal; wire_eq.
  - cbn. rewrite C6, C5, <- Ew. done.
Qed.

Lemma authenticate_outcome username w r w' :
  encrypted w -> authenticate_user username w = (r, w') ->
  r <> Undef /\ encrypted w' /\ exists l, history w' = history w ++ l /\ Forall encrypted_event l /\
  (r = Ok tt -> exists p1 p2 password,
     lines (con w) = Line password :: lines (con w') /\
     l = [Send true (wire [FByte ssh_message.SERVICE_REQUEST; FString (str "ssh-userauth")]); Recv true p1;
          Send true (wire [FByte ssh_message.USERAUTH_REQUEST; FString username; FString (str "ssh-connection");
                           FString (str "none")]); Recv true p2;
          Send true (wire [FByte ssh_message.USERAUTH_REQUEST; FString username; FString (str "ssh-connection");
                           FString (str "password"); FByte 0; FString password]);
          Recv true [byte_of ssh_message.USERAUTH_SUCCESS]]).
Proof.
  intros (Hwf & Ho & Hi) Hrun.
  pose proof (triple_authenticate username encrypted_event (history w) (fun _ => True) (fun _ => True)
    ltac:(done) ltac:(by intros ? ? ->) ltac:(done) ltac:(done) ltac:(done)) as Ht.
  specialize (Ht ltac:(intros w0 _; unfold on_con, zoom;
    pose proof (read_hidden_input_spec (str "Password: ") (con w0)) as Hs;
    destruct (read_hidden_input _ _) as [[] ?]; try done; by destruct Hs as (_ & _ & _ & _ & Hs))).
  specialize (Ht w (conj (phase_here true true encrypted_event w Hwf Ho Hi) I)). rewrite Hrun in Ht.
  assert (Hph : r <> Undef /\ phase true true encrypted_event (history w) w').
  { destruct r; try done; split; try done; by destruct Ht as [Ht _]. }
  destruct Hph as (Hr & Hwf' & Ho' & Hi' & l & Hl & Hok). split; [done|]. split; [by split_and!|].
  exists l. split; [done|]. split; [done|]. intros ->.
  destruct (authenticate_Ok _ _ _ Hrun) as (b1 & b2 & b3 & b4 & b5 & b6 & p1 & p2 & password & c & Hh & Hpw & Hlines).
  rewrite Hl in Hh. apply app_inv_head in Hh as ->.
  rewrite !Forall_cons in Hok. cbn [encrypted_event] in Hok.
  destruct Hok as (E1 & E2 & E3 & E4 & E5 & E6 & _). subst b1 b2 b3 b4 b5 b6.
  exists p1, p2, password. split; [|reflexivity]. rewrite Hlines.
  pose proof (read_hidden_input_spec (str "Password: ") (con w)) as Hs. rewrite Hpw in Hs.
  destruct Hs as (_ & _ & _ & Hs & _). by destruct (Hs _ eq_refl) as [Hs' _].
Qed.

(** C10: the user name and the password are only sent under encryption.  From the
    encrypted state, authentication never runs into undefined behaviour, every
    packet of it in either direction is encrypted, and it returns only after the
    one dialogue of RFC 4252: the service request, the request without a method,
    the request with the password (the line the user typed while the terminal did
    not echo, unchanged), and the server's SSH_MSG_USERAUTH_SUCCESS. *)
Theorem password_only_encrypted username w r w' :
  encrypted w -> authenticate_user username w = (r, w') ->
  r <> Undef /\ encrypted w' /\ exists l, history w' = history w ++ l /\ Forall encrypted_event l /\
  (r = Ok tt -> exists p1 p2 password,
     lines (con w) = Line password :: lines (con w') /\
     l = [Send true (wire [FByte ssh_message.SERVICE_REQUEST; FString (str "ssh-userauth")]); Recv true p1;
          Send true (wire [FByte ssh_message.USERAUTH_REQUEST; FString username; FString (str "ssh-connection");
                           FString (str "none")]); Recv true p2;
          Send true (wire [FByte ssh_message.USERAUTH_REQUEST; FString username; FString (str "ssh-connection");
                           FString (str "password"); FByte 0; FString password]);
          Recv true [byte_of ssh_message.USERAUTH_SUCCESS]]).
Proof. exact (authenticate_outcome username w r w'). Qed.

End properties.

(** ** Concrete runs *)

Section samples.
#[local] Existing Instances Toy.crypto Toy.sizes_ok Toy.cipher_ok Toy.base64_ok.

(** A socket that delivers [input] in one segment and takes whatever is written. *)
Definition sample_socket (input : bytes) : Socket :=
  {| fd_ := 3; rx := match input with [] => [] | b :: d => [RxData b d] end; tx := [TxRoom 100000]; sent := [];
     open_fds := {[3]} |}.

Definition sample_world (input : bytes) (typed : list line_event) (o : @Transport Toy.crypto) : World Socket :=
  {| net := {| sock_ := sample_socket input; rand := sample_seed; obj := o |};
     disk := sample_disk ∅;
     con := set_lines typed [] sample_console;
     term := Terminal_new; chan := sample_channel; polls := []; history := [] |}.

Definition server_frame (p : bytes) : bytes :=
  frame p (replicate (Z.to_nat (calculate_padding_length false (size p))) x00).

(** The client's first message and its ephemeral keys, from its random seed. *)
Definition sample_first : res KexInit * World Socket := send_kexinit (sample_world [] [] Transport_new).
Definition sample_client : KexInit := match sample_first.1 with Ok k => k | _ => sample_kexinit end.
Definition sample_keypair : Curve25519State :=
  match (on_rng create_curve25519_keypair sample_first.2).1 with Ok k => k | _ => sample_curve end.

Definition sample_id : IdentificationExchange :=
  {| id_client := str "SSH-2.0-ConorSSH_0.1"; id_server := str "SSH-2.0-server" |}.
Definition sample_pk : bytes := replicate 32 x04.
Definition sample_host_key : bytes := wire [FString ed25519_name; FString sample_pk].
Definition sample_server_key : bytes := replicate 32 x09.
Definition sample_hash : bytes :=
  Toy.digest (transcript (id_client sample_id) (id_server sample_id) (raw_payload sample_client)
    (raw_payload sample_kexinit) sample_host_key (client_public_key sample_keypair) sample_server_key
    (Toy.digest (client_private_key sample_keypair ++ sample_server_key))).
Definition sample_signature : bytes := Toy.digest (sample_pk ++ sample_hash) ++ replicate 32 x00.

Definition sample_server_input : bytes :=
  server_frame (raw_payload sample_kexinit) ++
  server_frame (wire [FByte 31; FString sample_host_key; FString sample_server_key;
                      FString (wire [FString ed25519_name; FString sample_signature])]) ++
  server_frame [x15].

(** The user accepts the unknown host. *)
Definition sample_exchange : World Socket := sample_world sample_server_input [Line (str "yes")] Transport_new.

Definition sample_run : res unit * World Socket :=
  perform_key_exchange sample_id sample_path (str "host") sample_exchange.

Lemma sample_run_Ok : sample_run.1 = Ok tt.
Proof. vm_compute. reflexivity. Qed.

Lemma sample_wf : wf_transport (obj (net sample_exchange)).
Proof. split_and!; cbn; done || lia. Qed.

Lemma identification_exchange_witness : exists s',
  exchange_identification (str "SSH-2.0-me") (sample_socket (str "SSH-2.0-x" ++ [x0d; x0a; x00])) =
    (Ok {| id_client := str "SSH-2.0-me"; id_server := str "SSH-2.0-x" |}, s') /\ incoming s' = [x00].
Proof.
  destruct (identification_exchange (str "SSH-2.0-me") (str "SSH-2.0-x" ++ [x0d]) [x00]
    (sample_socket (str "SSH-2.0-x" ++ [x0d; x0a; x00]))) as (s' & Hi & H).
  - reflexivity.
  - apply (bool_decide_unpack _). vm_compute. reflexivity.
  - vm_compute. congruence.
  - exists s'. split; [exact (proj1 H)|exact Hi].
Defined.

Lemma key_exchange_trust_witness : exists w' secret hash host_key,
  perform_key_exchange sample_id sample_path (str "host") sample_exchange = (Ok tt, w') /\
  host_verified sample_id secret hash host_key (history w') /\
  host_trusted sample_path (str "host") host_key (con sample_exchange) (disk sample_exchange) (disk w').
Proof.
  destruct (key_exchange_trust sample_id sample_path (str "host") sample_exchange (Ok tt) sample_run.2)
    as (_ & l & Hl & [(_ & H & _)|(K & H & hk & Hv & Ht)] & _).
  - exact sample_wf.
  - reflexivity.
  - reflexivity.
  - apply outcome_of. exact sample_run_Ok.
  - destruct (H eq_refl).
  - exists sample_run.2, K, H, hk. split; [apply outcome_of; exact sample_run_Ok|]. cbn [app history] in Hl.
    split; [|exact Ht]. change (history sample_run.2 = l) in Hl. rewrite Hl. exact Hv.
Defined.

Lemma untrusted_host_refused_witness :
  disk (confirm_host_key sample_path (str "host") ed25519_name sample_host_key []
          (sample_world [] [Line (str "YES")] Transport_new)).2 = sample_disk ∅.
Proof.
  refine (proj1 (proj2 (proj2 (untrusted_host_refused sample_path (str "host") ed25519_name sample_host_key []
    (sample_world [] [Line (str "YES")] Transport_new) _)))).
  right. split; [vm_compute; reflexivity|]. intros (l & [H|H]); [|discriminate H].
  apply (f_equal (fun l => match l with Line s :: _ => s | _ => [] end)) in H. vm_compute in H. discriminate H.
Defined.

Lemma keys_installed_witness : exists keys w',
  perform_key_exchange sample_id sample_path (str "host") sample_exchange = (Ok tt, w') /\
  outgoing_mac_key_ (obj (net w')) = Some (mac_key_cs keys).
Proof.
  destruct (keys_installed sample_id sample_path (str "host") sample_exchange sample_run.2)
    as (K & H & keys & c & _ & _ & _ & _ & Hm & _).
  - exact sample_wf.
  - reflexivity.
  - reflexivity.
  - apply outcome_of. exact sample_run_Ok.
  - exists keys, sample_run.2. split; [apply outcome_of; exact sample_run_Ok|exact Hm].
Defined.

(** A server that hangs up under encryption. *)
Definition sample_encrypted (typed : list line_event) : World Socket :=
  sample_world [] typed
    (set_incoming 3 true (Some sample_context) (Some (str "key"))
       (set_outgoing 3 true (Some sample_context) (Some (str "key")) Transport_new)).

Lemma password_only_encrypted_witness : exists w' l,
  authenticate_user (str "me") (sample_encrypted []) = (Blocked, w') /\
  history w' = l /\ Forall encrypted_event l /\ encrypted w'.
Proof.
  destruct (password_only_encrypted (str "me") (sample_encrypted []) Blocked
    (authenticate_user (str "me") (sample_encrypted [])).2) as (_ & He & l & Hl & Hok & _).
  - split; [|split; reflexivity]. split; [|split]; cbn; [lia|lia|]. split; intros _; split; eexists; reflexivity.
  - apply outcome_of. vm_compute. reflexivity.
  - exists (authenticate_user (str "me") (sample_encrypted [])).2, l.
    split; [apply outcome_of; vm_compute; reflexivity|]. split; [exact Hl|]. split; [exact Hok|exact He].
Defined.

End samples.
