(* ===== verification/Session.v ===== *)
(** * The interactive session, abstractly

    What the loop of [run_interactive_shell] in [src/main.cpp] is meant to do,
    without the system calls: a step relation on the channel, whose steps are the
    exchanges of one turn with the server, the keyboard and the terminal.  The
    lemmas are about every sequence of steps; [Shell] shows that the loop takes
    no other, and [Flow] draws the consequences for the program. *)

From S2P Require Import Prelude Encoding Connection World.

(** ** The sizes of [main.cpp] *)

Definition LOCAL_WINDOW_TARGET : Z := 1024 * 1024.
Definition LOCAL_WINDOW_THRESHOLD : Z := 512 * 1024.
Definition LOCAL_MAX_PACKET_SIZE : Z := 32 * 1024.
Definition KEYBOARD_BUFFER_SIZE : Z := 1024.

(** ** Steps *)

(** What a step exchanges: packets, the text it shows on either stream of the
    terminal, the keys it takes. *)
Record io := {
  evs : list event;
  shown : bytes;
  shown_err : bytes;
  typed : bytes;
}.

Definition io_nil : io := {| evs := []; shown := []; shown_err := []; typed := [] |}.
Definition io_app (i j : io) : io :=
  {| evs := evs i ++ evs j; shown := shown i ++ shown j; shown_err := shown_err i ++ shown_err j;
     typed := typed i ++ typed j |}.
Definition packets_only (l : list event) : io := {| evs := l; shown := []; shown_err := []; typed := [] |}.

(** After data was received the window is filled up to its target when it is
    down to the threshold. *)
Definition refill_events (c : Channel) : list event :=
  if local_window c <=? LOCAL_WINDOW_THRESHOLD
  then [Send true (wire [FByte ssh_message.CHANNEL_WINDOW_ADJUST; FUint32 (remote_id c);
                         FUint32 (LOCAL_WINDOW_TARGET - local_window c)])]
  else [].
Definition refilled (c : Channel) : Channel :=
  if local_window c <=? LOCAL_WINDOW_THRESHOLD
  then set_windows LOCAL_WINDOW_TARGET (remote_window c) c else c.

(** The channel once both ends have closed it. *)
Definition closed (c : Channel) : Channel := set_open false (set_local_close_sent (set_remote_close c)).

Inductive session_step (c : Channel) : io -> Channel -> Prop :=
  | turn_keys d :
      open c = true -> 0 < size d <= KEYBOARD_BUFFER_SIZE -> size d <= remote_window c -> size d <= remote_max_packet c ->
      session_step c
        {| evs := [Send true (wire [FByte ssh_message.CHANNEL_DATA; FUint32 (remote_id c); FString d])];
           shown := []; shown_err := []; typed := d |}
        (set_windows (local_window c) (remote_window c - size d) c)
  | turn_data d c' :
      data_accepted c d c' ->
      session_step c
        {| evs := Recv true (wire [FByte ssh_message.CHANNEL_DATA; FUint32 (local_id c); FString d]) :: refill_events c';
           shown := d; shown_err := []; typed := [] |}
        (refilled c')
  | turn_stderr d c' :
      data_accepted c d c' ->
      session_step c
        {| evs := Recv true (wire [FByte ssh_message.CHANNEL_EXTENDED_DATA; FUint32 (local_id c); FUint32 1; FString d])
                  :: refill_events c';
           shown := []; shown_err := d; typed := [] |}
        (refilled c')
  | turn_adjust p c' :
      window_adjust_spec p c c' -> session_step c (packets_only [Recv true p]) c'
  | turn_request name b more :
      open c = true -> size name < 2 ^ 32 ->
      session_step c
        (packets_only (Recv true (wire [FByte ssh_message.GLOBAL_REQUEST; FString name; FRaw [b]; FRaw more]) ::
                       (if u8 b =? 0 then [] else [Send true (wire [FByte ssh_message.REQUEST_FAILURE])]))) c
  | turn_eof :
      open c = true -> remote_eof_received c = false ->
      session_step c (packets_only [Recv true (wire [FByte ssh_message.CHANNEL_EOF; FUint32 (local_id c)])])
        (set_remote_eof c)
  | turn_exit p r c' :
      exit_status_spec p c r c' -> session_step c (packets_only [Recv true p]) c'
  | turn_close :
      open c = true -> remote_close_received c = false -> local_close_sent c = false ->
      session_step c
        (packets_only [Recv true (wire [FByte ssh_message.CHANNEL_CLOSE; FUint32 (local_id c)]);
                       Send true (wire [FByte ssh_message.CHANNEL_CLOSE; FUint32 (remote_id c)])])
        (closed c).

Inductive session_steps : Channel -> io -> Channel -> Prop :=
  | session_done c : session_steps c io_nil c
  | session_next c c1 c2 i j : session_step c i c1 -> session_steps c1 j c2 -> session_steps c (io_app i j) c2.

(** An open session: the windows are between their bounds, neither end has asked
    to close. *)
Definition live (c : Channel) : Prop :=
  wf_channel c /\ open c = true /\ remote_close_received c = false /\ local_close_sent c = false /\
  LOCAL_WINDOW_THRESHOLD < local_window c <= LOCAL_WINDOW_TARGET /\
  MIN_MAX_PACKET_SIZE <= remote_max_packet c.

(** ** The accounts of the windows, read off the packets alone *)

Definition message_number (p : bytes) : Z := match p with b :: _ => u8 b | [] => -1 end.

(** The bytes of channel data in a message: what follows the channel number, the
    type code of extended data and the length. *)
Definition data_bytes (p : bytes) : Z :=
  if message_number p =? ssh_message.CHANNEL_DATA then size p - 9
  else if message_number p =? ssh_message.CHANNEL_EXTENDED_DATA then size p - 13 else 0.

Definition adjust_bytes (p : bytes) : Z :=
  if message_number p =? ssh_message.CHANNEL_WINDOW_ADJUST then be_value (drop 5 p) else 0.

(** What an event adds to the client's account with the server, and to the
    server's account with the client. *)
Definition remote_credit (e : event) : Z :=
  match e with Send _ p => - data_bytes p | Recv _ p => adjust_bytes p end.
Definition local_credit (e : event) : Z :=
  match e with Send _ p => adjust_bytes p | Recv _ p => - data_bytes p end.

(** What an event adds to what the client could still grant the server. *)
Definition local_debit (e : event) : Z :=
  match e with Send _ p => - adjust_bytes p | Recv _ p => data_bytes p end.

Definition balance (credit : event -> Z) (l : list event) : Z := foldr (fun e s => credit e + s) 0 l.

(** The channel data in an event, in either direction and on either stream. *)
Definition sent_data (e : event) : bytes :=
  match e with
  | Send _ p => if message_number p =? ssh_message.CHANNEL_DATA then drop 9 p else []
  | Recv _ _ => []
  end.
Definition received_data (e : event) : bytes :=
  match e with
  | Recv _ p => if message_number p =? ssh_message.CHANNEL_DATA then drop 9 p else []
  | Send _ _ => []
  end.
Definition received_stderr (e : event) : bytes :=
  match e with
  | Recv _ p => if message_number p =? ssh_message.CHANNEL_EXTENDED_DATA then drop 13 p else []
  | Send _ _ => []
  end.

Definition message_of (e : event) : bytes := match e with Send _ p | Recv _ p => p end.

(** ** Facts *)

Lemma balance_nil credit : balance credit [] = 0.
Proof. done. Qed.
Lemma balance_cons credit e l : balance credit (e :: l) = credit e + balance credit l.
Proof. done. Qed.
Lemma balance_app credit l k : balance credit (l ++ k) = balance credit l + balance credit k.
Proof. unfold balance. induction l as [|e l IH]; cbn [foldr app]; lia. Qed.

Lemma message_number_wire n fs : 0 <= n < 256 -> message_number (wire (FByte n :: fs)) = n.
Proof. intros. rewrite wire_cons. cbn. by apply u8_byte_of_small. Qed.

Lemma drop_be32 v s : drop 4 (be32 v ++ s) = s.
Proof. change 4%nat with (Z.to_nat 4). rewrite <- (size_be32 v). apply drop_size_app. Qed.

Lemma adjust_bytes_wire id n :
  0 <= n < 2 ^ 32 -> adjust_bytes (wire [FByte ssh_message.CHANNEL_WINDOW_ADJUST; FUint32 id; FUint32 n]) = n.
Proof.
  intros Hn. unfold adjust_bytes. rewrite message_number_wire by done. cbn [Z.eqb].
  rewrite !wire_cons, wire_nil, app_nil_r. cbn [wire_field app drop]. rewrite drop_be32, be_value_be32.
  by apply Z.mod_small.
Qed.

Lemma data_bytes_wire id d :
  data_bytes (wire [FByte ssh_message.CHANNEL_DATA; FUint32 id; FString d]) = size d.
Proof.
  unfold data_bytes. rewrite message_number_wire, Z.eqb_refl by done.
  rewrite !wire_cons, wire_nil, app_nil_r. cbn [wire_field]. autorewrite with size. rewrite !size_be32. lia.
Qed.

Lemma data_bytes_extended id d :
  data_bytes (wire [FByte ssh_message.CHANNEL_EXTENDED_DATA; FUint32 id; FUint32 1; FString d]) = size d.
Proof.
  unfold data_bytes. rewrite message_number_wire by done.
  change (ssh_message.CHANNEL_EXTENDED_DATA =? ssh_message.CHANNEL_DATA) with false. rewrite Z.eqb_refl.
  rewrite !wire_cons, wire_nil, app_nil_r. cbn [wire_field]. autorewrite with size. rewrite !size_be32. lia.
Qed.

(** Messages of the other types are not on the accounts. *)
Lemma data_bytes_other n fs :
  0 <= n < 256 -> n <> ssh_message.CHANNEL_DATA -> n <> ssh_message.CHANNEL_EXTENDED_DATA ->
  data_bytes (wire (FByte n :: fs)) = 0.
Proof.
  intros Hn H1 H2. unfold data_bytes. rewrite message_number_wire by done.
  by rewrite !(proj2 (Z.eqb_neq _ _)) by done.
Qed.

Lemma adjust_bytes_other n fs :
  0 <= n < 256 -> n <> ssh_message.CHANNEL_WINDOW_ADJUST -> adjust_bytes (wire (FByte n :: fs)) = 0.
Proof.
  intros Hn H. unfold adjust_bytes. rewrite message_number_wire by done.
  by rewrite !(proj2 (Z.eqb_neq _ _)) by done.
Qed.

Create Rewrite HintDb credit.
#[global] Hint Rewrite data_bytes_wire data_bytes_extended : credit.
#[global] Hint Rewrite adjust_bytes_wire data_bytes_other adjust_bytes_other using (done || lia) : credit.

Lemma step_open c i c' : session_step c i c' -> open c = true.
Proof. intros H. destruct H; auto; unfold data_accepted, window_adjust_spec, exit_status_spec in *; naive_solver. Qed.

Lemma closed_open c : open (closed c) = false.
Proof. done. Qed.

Lemma closed_session_ends c i c' : open c = false -> session_steps c i c' -> i = io_nil /\ c' = c.
Proof. intros Ho H. destruct H as [c|c c1 c2 i j H _]; [done|]. apply step_open in H. congruence. Qed.

Lemma refilled_live c d c' : live c -> data_accepted c d c' -> live (refilled c').
Proof.
  intros (Hwf & Ho & Hr & Hl & Hw & Hm) Hd. pose proof (data_accepted_wf _ _ _ Hwf Hd) as Hwf'.
  destruct Hd as (_ & _ & Hd & ->). unfold refilled. cbn [local_window set_windows].
  unfold LOCAL_WINDOW_THRESHOLD, LOCAL_WINDOW_TARGET in *. pose proof (size_nonneg d).
  destruct (Z.leb_spec (local_window c - size d) (512 * 1024)); unfold live, wf_channel, LOCAL_WINDOW_THRESHOLD, LOCAL_WINDOW_TARGET in *; cbn in *;
    split_and!; try done; try lia.
Qed.

(** A step keeps the session live until it closes it. *)
Lemma step_live c i c' :
  live c -> session_step c i c' -> live c' \/ (c' = closed c /\ exists p q, evs i = [Recv true p; Send true q] /\
    message_number p = ssh_message.CHANNEL_CLOSE /\ message_number q = ssh_message.CHANNEL_CLOSE).
Proof.
  intros Hlive Hstep. pose proof Hlive as (Hwf & Ho & Hr & Hl & Hw & Hm).
  destruct Hstep as [d _ Hd Hrw Hrm|d c' Hd|d c' Hd|p c' (n & Hn & _ & Hsum & _ & ->)|name b more _ Hn|_ He|
    p r c' (_ & _ & Hst & _ & ->)|_ _ _].
  - left. pose proof Hwf as Hwf'. unfold live, wf_channel in *. cbn. split_and!; try done; lia.
  - left. by eapply refilled_live.
  - left. by eapply refilled_live.
  - left. unfold live, wf_channel in *. cbn. split_and!; try done; lia.
  - by left.
  - left. unfold live, wf_channel in *. cbn. split_and!; try done; try lia.
  - left. unfold live, wf_channel in *. cbn. split_and!; try done; lia.
  - right. split; [done|]. eexists _, _. split; [done|]. by rewrite !message_number_wire.
Qed.

(** *** The accounts *)

(** No prefix of the packets overdraws an account that starts at [w]. *)
Definition solvent (credit : event -> Z) (w : Z) (l : list event) : Prop :=
  forall k m, l = k ++ m -> 0 <= w + balance credit k.

Lemma solvent_app credit w l k :
  solvent credit w l -> solvent credit (w + balance credit l) k -> solvent credit w (l ++ k).
Proof.
  intros Hl Hk x y E. apply app_eq_inv in E as [(z & -> & ->)|(z & -> & E)]; [by eapply Hl|].
  specialize (Hk z y E). rewrite balance_app. lia.
Qed.

Lemma solvent_cons credit w e l :
  0 <= w -> solvent credit (w + credit e) l -> solvent credit w (e :: l).
Proof.
  intros Hw Hl [|x k] m E; [rewrite balance_nil; lia|]. injection E as <- E. specialize (Hl k m E). rewrite balance_cons. lia.
Qed.

Lemma solvent_nil credit w : 0 <= w -> solvent credit w [].
Proof. intros Hw [|] m; [rewrite balance_nil; lia|done]. Qed.

(** An account whose events are worth [v] in all, the first of them no less than
    [- w]. *)
Definition on_account (credit : event -> Z) (w w' : Z) (l : list event) : Prop :=
  w' = w + balance credit l /\ solvent credit w l.

Lemma on_account_nil credit w w' : 0 <= w -> w' = w -> on_account credit w w' [].
Proof. intros Hw ->. split; [rewrite balance_nil; lia|by apply solvent_nil]. Qed.

Lemma on_account_cons credit w w' e l :
  0 <= w -> on_account credit (w + credit e) w' l -> on_account credit w w' (e :: l).
Proof. intros Hw [-> Hl]. split; [rewrite balance_cons; lia|by apply solvent_cons]. Qed.

Lemma on_account_app credit w w1 w2 l k :
  on_account credit w w1 l -> on_account credit w1 w2 k -> on_account credit w w2 (l ++ k).
Proof. intros [-> Hl] [-> Hk]. split; [rewrite balance_app; lia|by apply solvent_app]. Qed.

(** Book the events of one step. *)
Ltac book :=
  repeat (apply on_account_cons; cbn [remote_credit local_credit local_debit]; autorewrite with credit; [lia|]);
  apply on_account_nil; lia.

Lemma step_accounts c i c' :
  live c -> session_step c i c' ->
  on_account remote_credit (remote_window c) (remote_window c') (evs i) /\
  on_account local_credit (local_window c) (local_window c') (evs i) /\
  on_account local_debit (LOCAL_WINDOW_TARGET - local_window c) (LOCAL_WINDOW_TARGET - local_window c') (evs i).
Proof.
  intros (Hwf & _ & _ & _ & Hw & _) Hstep. unfold wf_channel in Hwf.
  unfold LOCAL_WINDOW_THRESHOLD, LOCAL_WINDOW_TARGET in *.
  destruct Hstep as [d _ Hd Hrw Hrm|d c' Hd|d c' Hd|p c' (n & Hn & _ & Hsum & -> & ->)|name b more _ Hn|_ He|
    p r c' (_ & _ & Hst & (b & _ & ->) & ->)|_ _ _]; cbn [evs packets_only];
    try (destruct Hd as (_ & _ & Hd & ->); pose proof (size_nonneg d); unfold refill_events, refilled;
         unfold LOCAL_WINDOW_THRESHOLD, LOCAL_WINDOW_TARGET in *; cbn [local_window set_windows];
         destruct (Z.leb_spec (local_window c - size d) (512 * 1024)));
    try destruct (u8 b =? 0);
    cbn [local_window remote_window set_windows set_remote_eof set_exit_status set_flags closed set_open
      set_local_close_sent set_remote_close]; split_and!; book.
Qed.

Lemma steps_accounts c i c' :
  live c -> session_steps c i c' ->
  on_account remote_credit (remote_window c) (remote_window c') (evs i) /\
  on_account local_credit (local_window c) (local_window c') (evs i) /\
  on_account local_debit (LOCAL_WINDOW_TARGET - local_window c) (LOCAL_WINDOW_TARGET - local_window c') (evs i).
Proof.
  intros Hlive Hsteps. induction Hsteps as [c|c c1 c2 i j Hstep Hsteps IH].
  - destruct Hlive as (Hwf & _ & _ & _ & Hw & _). unfold wf_channel in Hwf. split_and!; apply on_account_nil; lia.
  - destruct (step_accounts _ _ _ Hlive Hstep) as (Hr & Hl & Hd).
    destruct (step_live _ _ _ Hlive Hstep) as [Hlive1|(-> & _)].
    + destruct (IH Hlive1) as (Hr' & Hl' & Hd'). split_and!; by eapply on_account_app.
    + destruct (closed_session_ends _ _ _ (closed_open c) Hsteps) as [-> ->]. cbn [evs io_app io_nil]. by rewrite app_nil_r.
Qed.

Lemma steps_live c i c' : live c -> session_steps c i c' -> live c' \/ open c' = false.
Proof.
  intros Hlive Hsteps. induction Hsteps as [c|c c1 c2 i j Hstep Hsteps IH]; [by left|].
  destruct (step_live _ _ _ Hlive Hstep) as [Hlive1|(-> & _)]; [by apply IH|].
  destruct (closed_session_ends _ _ _ (closed_open c) Hsteps) as [_ ->]. by right.
Qed.

(** *** Closing *)

Definition no_close (e : event) : Prop := message_number (message_of e) <> ssh_message.CHANNEL_CLOSE.

Lemma refill_no_close c : Forall no_close (refill_events c).
Proof.
  unfold refill_events. destruct (_ <=? _); [|done]. repeat constructor. unfold no_close. cbn [message_of].
  by rewrite message_number_wire.
Qed.

Lemma step_no_close c i c' : live c -> session_step c i c' -> open c' = true -> Forall no_close (evs i).
Proof.
  intros (_ & Ho & _) Hstep Ho'. assert (Hmsg : forall n fs, 0 <= n < 256 -> n <> ssh_message.CHANNEL_CLOSE ->
    message_number (wire (FByte n :: fs)) <> ssh_message.CHANNEL_CLOSE) by (intros; by rewrite message_number_wire).
  destruct Hstep as [d _ Hd Hrw Hrm|d c' Hd|d c' Hd|p c' (n & Hn & _ & Hsum & -> & ->)|name b more _ Hn|_ He|
    p r c' (_ & _ & Hst & (b & _ & ->) & ->)|_ _ _]; cbn [evs packets_only]; try done;
    repeat apply Forall_cons_2; try apply refill_no_close; try apply Forall_nil_2; try (by apply Hmsg).
  destruct (u8 b =? 0); repeat constructor. by apply Hmsg.
Qed.

Lemma step_ids c i c' : session_step c i c' -> local_id c' = local_id c /\ remote_id c' = remote_id c.
Proof.
  intros Hstep. destruct Hstep as [d _ Hd Hrw Hrm|d c' Hd|d c' Hd|p c' (n & Hn & _ & Hsum & -> & ->)|name b more _ Hn|_ He|
    p r c' (_ & _ & Hst & (b & _ & ->) & ->)|_ _ _]; try done;
    destruct Hd as (_ & _ & _ & ->); unfold refilled; by destruct (_ <=? _).
Qed.

Lemma step_close_inv c i c' :
  session_step c i c' -> open c' = false ->
  evs i = [Recv true (wire [FByte ssh_message.CHANNEL_CLOSE; FUint32 (local_id c)]);
           Send true (wire [FByte ssh_message.CHANNEL_CLOSE; FUint32 (remote_id c)])].
Proof.
  intros Hstep Ho'. pose proof (step_open _ _ _ Hstep) as Ho.
  destruct Hstep as [d _ Hd Hrw Hrm|d c' Hd|d c' Hd|p c' (n & Hn & _ & Hsum & -> & ->)|name b more _ Hn|_ He|
    p r c' (_ & _ & Hst & (b & _ & ->) & ->)|_ _ _]; try done; cbn in Ho'; try congruence;
    destruct Hd as (_ & _ & _ & ->); unfold refilled in Ho'; destruct (_ <=? _); cbn in Ho'; congruence.
Qed.

(** *** The data *)

Lemma drop_be32_more n v s : drop (4 + n) (be32 v ++ s) = drop n s.
Proof. by rewrite <- drop_drop, drop_be32. Qed.

Lemma data_of_wire id d :
  drop 9 (wire [FByte ssh_message.CHANNEL_DATA; FUint32 id; FString d]) = d.
Proof.
  rewrite !wire_cons, wire_nil, app_nil_r. cbn [wire_field app drop].
  change 8%nat with (4 + (4 + 0))%nat. rewrite drop_be32_more, drop_be32_more. apply drop_0.
Qed.

Lemma data_of_extended id d :
  drop 13 (wire [FByte ssh_message.CHANNEL_EXTENDED_DATA; FUint32 id; FUint32 1; FString d]) = d.
Proof.
  rewrite !wire_cons, wire_nil, app_nil_r. cbn [wire_field app drop].
  change 12%nat with (4 + (4 + (4 + 0)))%nat. rewrite !drop_be32_more. apply drop_0.
Qed.

Definition carries (i : io) : Prop :=
  typed i = concat (sent_data <$> evs i) /\ shown i = concat (received_data <$> evs i) /\
  shown_err i = concat (received_stderr <$> evs i).

Lemma carries_app i j : carries i -> carries j -> carries (io_app i j).
Proof.
  unfold carries. cbn. rewrite !fmap_app, !concat_app. by intros (-> & -> & ->) (-> & -> & ->).
Qed.

Lemma step_carries c i c' : session_step c i c' -> carries i.
Proof.
  intros Hstep.
  destruct Hstep as [d _ Hd Hrw Hrm|d c' Hd|d c' Hd|p c' (n & Hn & _ & Hsum & -> & ->)|name b more _ Hn|_ He|
    p r c' (_ & _ & Hst & (b & _ & ->) & ->)|_ _ _]; unfold carries, refill_events; cbn [evs shown shown_err typed packets_only];
    try (destruct (local_window c' <=? _)); try (destruct (u8 b =? 0));
    cbn [fmap list_fmap concat sent_data received_data received_stderr]; rewrite ?message_number_wire by done;
    rewrite ?data_of_wire, ?data_of_extended; cbn; by rewrite ?app_nil_r.
Qed.

(** *** Whole sessions *)

(** Each window is its starting value plus what the packets since then grant and
    use up, no prefix of them overdraws either or lifts the local one above its
    target, and while the session is open
    the local window is above the threshold and at most at its target. *)
Lemma session_accounts c i c' :
  live c -> session_steps c i c' ->
  on_account remote_credit (remote_window c) (remote_window c') (evs i) /\
  on_account local_credit (local_window c) (local_window c') (evs i) /\
  on_account local_debit (LOCAL_WINDOW_TARGET - local_window c) (LOCAL_WINDOW_TARGET - local_window c') (evs i) /\
  (open c' = true -> LOCAL_WINDOW_THRESHOLD < local_window c' <= LOCAL_WINDOW_TARGET).
Proof.
  intros Hlive Hsteps. destruct (steps_accounts _ _ _ Hlive Hsteps) as (Hr & Hl & Hd).
  split; [done|]. split; [done|]. split; [done|].
  intros Ho. destruct (steps_live _ _ _ Hlive Hsteps) as [(_ & _ & _ & _ & Hw & _)|]; [lia|congruence].
Qed.

(** While the channel is open no close was exchanged; when it is closed the last
    two packets are the server's close and the answer to it, and no other packet
    is a close. *)
Lemma session_closes c i c' :
  live c -> session_steps c i c' ->
  if open c' then Forall no_close (evs i)
  else exists l, Forall no_close l /\
    evs i = l ++ [Recv true (wire [FByte ssh_message.CHANNEL_CLOSE; FUint32 (local_id c)]);
                  Send true (wire [FByte ssh_message.CHANNEL_CLOSE; FUint32 (remote_id c)])].
Proof.
  intros Hlive Hsteps. induction Hsteps as [c|c c1 c2 i j Hstep Hsteps IH].
  { destruct Hlive as (_ & -> & _). done. }
  destruct (step_live _ _ _ Hlive Hstep) as [Hlive1|(-> & _)].
  - specialize (IH Hlive1). destruct (step_ids _ _ _ Hstep) as [Hid Hrid]. rewrite Hid, Hrid in IH.
    pose proof (step_no_close _ _ _ Hlive Hstep (proj1 (proj2 Hlive1))) as Hno. cbn [evs io_app].
    destruct (open c2); [by apply Forall_app|]. destruct IH as (l & Hl & ->).
    exists (evs i ++ l). rewrite <- app_assoc. split; [by apply Forall_app|done].
  - destruct (closed_session_ends _ _ _ (closed_open c) Hsteps) as [-> ->]. cbn [evs io_app io_nil].
    rewrite app_nil_r. exists []. split; [done|]. by apply (step_close_inv _ _ _ Hstep).
Qed.

(** What was typed is the data sent, what is shown the data received. *)
Lemma session_carries c i c' : session_steps c i c' -> carries i.
Proof.
  intros Hsteps. induction Hsteps as [c|c c1 c2 i j Hstep _ IH]; [done|].
  apply carries_app; [by eapply step_carries|exact IH].
Qed.

(** ** A channel of an open session *)

Lemma sample_live : live sample_channel.
Proof. unfold live. split; [apply sample_channel_wf|]. by split_and!. Qed.
