(* ===== verification/Shell.v ===== *)
(** * The interactive session: [src/main.cpp], lines 163 to 328 and 447 to 465

    Opening the session channel, the requests for a terminal and a shell, and
    the loop that carries keys to the server and the server's output to the
    terminal.

    [Session] is the abstract view of that loop; the theorems here show that the
    loop refines it, and that opening the session follows RFC 4254. *)

From S2P Require Import Prelude Encoding Connection Socket Crypto Transport Packets Kex KnownHosts Terminal World Session.

Definition INITIAL_CHANNEL_ID : Z := 0.

(** ** The keyboard *)

(** What is left of the keys after [n] of them were read. *)
Definition rest_of_keys (n : nat) (d : bytes) : list key_event :=
  match drop n d with [] => [] | b :: d' => [Keys b d'] end.

(** [read(STDIN_FILENO, buffer, n)]: [None] is [-1], whatever the [errno]. *)
Definition read_keyboard (n : Z) : M Console (option bytes) := fun c =>
  match keyboard c with
  | [] => (Blocked, c)
  | Keys b d :: ks =>
      (Ok (Some (take (Z.to_nat n) (b :: d))), set_keyboard (rest_of_keys (Z.to_nat n) (b :: d) ++ ks) c)
  | KeysEof :: _ => (Ok (Some []), c)
  | KeysError :: ks => (Ok None, set_keyboard ks c)
  end.

Section shell.
Context {C : Crypto} {S : Type} {BS : ByteStream S}.
Context (cfmakeraw : Termios -> Termios).

(** ** Requests and their answers *)

Definition handle_global_request (payload : bytes) : M (World S) unit :=
  gr ← lift (parse_global_request payload);
  if want_reply gr then send create_request_failure else mret tt.

(** An operation that takes the [Channel&]. *)
Definition on_channel {A} (f : Channel -> res (A * Channel)) : M (World S) A :=
  c ← gets chan;
  '(a, c') ← lift (f c);
  modify (set_chan c');;
  mret a.

Definition update_channel (f : Channel -> res Channel) : M (World S) unit :=
  c ← gets chan;
  c' ← lift (f c);
  modify (set_chan c').

(** A turn of the loop of [open_session_channel], its condition included. *)
Definition open_round : M (World S) (option unit) :=
  c ← gets chan;
  if open c then mret (Some tt) else
  session_open_response ← receive;
  if size session_open_response =? 0 then mthrow "Packet contained 0 bytes"%string else
  b ← lift (index session_open_response 0);
  (if b =? ssh_message.CHANNEL_OPEN_CONFIRMATION
   then update_channel (parse_open_confirmation session_open_response)
   else if b =? ssh_message.CHANNEL_OPEN_FAILURE
   then lift (parse_open_failure session_open_response c);;
        mthrow "Connection failed to open"%string
   else if b =? ssh_message.GLOBAL_REQUEST
   then handle_global_request session_open_response
   else mthrow "Unexpected response received during session channel opening"%string);;
  mret None.

Definition open_session_channel : M (World S) unit :=
  c ← gets chan;
  payload ← lift (create_session_open c);
  send payload;;
  packet_loop open_round.

(** A turn of the loop of [wait_for_channel_request_result]: it ends when
    [request_accepted] becomes true. *)
Definition wait_round (request_name : string) : M (World S) (option unit) :=
  command_response ← receive;
  if size command_response =? 0 then mthrow "Packet contained 0 bytes"%string else
  b ← lift (index command_response 0);
  c ← gets chan;
  if b =? ssh_message.CHANNEL_SUCCESS then
    lift (validate_channel_success command_response c);;
    mret (Some tt)
  else if b =? ssh_message.CHANNEL_FAILURE then
    lift (validate_channel_failure command_response c);;
    mthrow (request_name ++ " request rejected")%string
  else if b =? ssh_message.GLOBAL_REQUEST then
    handle_global_request command_response;;
    mret None
  else if b =? ssh_message.CHANNEL_WINDOW_ADJUST then
    update_channel (parse_window_adjust command_response);;
    mret None
  else mthrow ("Unexpected response received while waiting for " ++ request_name)%string.

Definition wait_for_channel_request_result (request_name : string) : M (World S) unit :=
  packet_loop (wait_round request_name).

Definition request_pty (terminal_info : TerminalInfo) : M (World S) unit :=
  c ← gets chan;
  payload ← lift (create_pty_request c (type terminal_info) (columns terminal_info) (rows terminal_info));
  send payload;;
  wait_for_channel_request_result "pty-req".

Definition request_shell : M (World S) unit :=
  c ← gets chan;
  payload ← lift (create_shell_request c);
  send payload;;
  wait_for_channel_request_result "shell".

(** ** The loop of [run_interactive_shell] *)

(** [poll]: the next entry of the script; at its end it waits for ever.  The
    theorems hold for every script; [Turns] follows the loop for as long as [poll]
    goes on reporting. *)
Definition next_poll : M (World S) poll_event := fun w =>
  match polls w with
  | [] => (Blocked, w)
  | p :: ps => (Ok p, set_polls ps w)
  end.

(** The branch for the keyboard. *)
Definition keyboard_input : M (World S) unit :=
  c ← gets chan;
  let max_read := KEYBOARD_BUFFER_SIZE in
  let max_read := Z.min max_read (remote_window c) in
  let max_read := Z.min max_read (remote_max_packet c) in
  bytes_read ← on_con (read_keyboard max_read);
  match bytes_read with
  | None => mthrow "Failed to read keyboard input"%string
  | Some keyboard_data =>
      if size keyboard_data >? 0 then
        payload ← lift (create_channel_data c keyboard_data);
        send payload;;
        modify (set_chan (set_windows (local_window c) (u32 (remote_window c - size keyboard_data)) c))
      else mret tt
  end.

(** The branches on the type of a message from the server; the result is
    [consumed_local_window]. *)
Definition handle_message (message_type : Z) (response : bytes) : M (World S) bool :=
  if message_type =? ssh_message.CHANNEL_DATA then
    data ← on_channel (parse_channel_data response);
    on_con (print data);;
    mret true
  else if message_type =? ssh_message.CHANNEL_WINDOW_ADJUST then
    update_channel (parse_window_adjust response);;
    mret false
  else if message_type =? ssh_message.GLOBAL_REQUEST then
    handle_global_request response;;
    mret false
  else if message_type =? ssh_message.CHANNEL_EXTENDED_DATA then
    extended ← on_channel (parse_channel_extended_data response);
    on_con (print_err (data extended));;
    mret true
  else if message_type =? ssh_message.CHANNEL_EOF then
    update_channel (parse_channel_eof response);;
    mret false
  else if message_type =? ssh_message.CHANNEL_REQUEST then
    on_channel (parse_exit_status response);;
    mret false
  else if message_type =? ssh_message.CHANNEL_CLOSE then
    update_channel (parse_channel_close response);;
    c ← gets chan;
    (if negb (local_close_sent c) then
       payload ← lift (create_channel_close c);
       send payload;;
       modify (set_chan (set_local_close_sent c))
     else mret tt);;
    mret false
  else mthrow "Unexpected SSH message during interactive shell"%string.

(** The refill of the local window. *)
Definition refill_window (consumed_local_window : bool) : M (World S) unit :=
  c ← gets chan;
  if consumed_local_window && open c && (local_window c <=? LOCAL_WINDOW_THRESHOLD) then
    let difference := u32 (LOCAL_WINDOW_TARGET - local_window c) in
    payload ← lift (create_window_adjust c difference);
    send payload;;
    modify (set_chan (set_windows (u32 (local_window c + difference)) (remote_window c) c))
  else mret tt.

(** The branch for the socket. *)
Definition socket_input : M (World S) unit :=
  response ← receive;
  if size response =? 0 then mthrow "Received an empty SSH packet"%string else
  message_type ← lift (index response 0);
  consumed_local_window ← handle_message message_type response;
  refill_window consumed_local_window;;
  c ← gets chan;
  if local_close_sent c && remote_close_received c then modify (set_chan (set_open false c)) else mret tt.

(** A turn of the loop, its condition included.  The keyboard is only polled for
    input while the server takes data. *)
Definition shell_round : M (World S) (option unit) :=
  c ← gets chan;
  if negb (open c) then mret (Some tt) else
  let keyboard_events := remote_window c >? 0 in
  event ← next_poll;
  match event with
  | PollError => mthrow "poll failed"%string
  | PollEintr => mret None
  | PollReady keyboard_in socket_in socket_error =>
      (if keyboard_events && keyboard_in then keyboard_input else mret tt);;
      (if socket_in then socket_input else mret tt);;
      c ← gets chan;
      if open c && socket_error then mthrow "SSH socket closed unexpectedly"%string else mret None
  end.

(** Each turn that goes on takes an entry of the script of [poll]. *)
Definition shell_loop : M (World S) unit := fun w =>
  loop (Datatypes.S (length (polls w))) shell_round w.

Definition run_interactive_shell : M (World S) unit :=
  on_tm (enable_raw_mode cfmakeraw);;
  shell_loop;;
  on_tm restore.

(** [Channel channel{}] and the assignments after it. *)
Definition Channel_new : Channel :=
  {| local_id := INITIAL_CHANNEL_ID; remote_id := 0; local_window := LOCAL_WINDOW_TARGET; remote_window := 0;
     local_max_packet := LOCAL_MAX_PACKET_SIZE; remote_max_packet := 0; open := false;
     remote_eof_received := false; remote_close_received := false; local_close_sent := false;
     exit_status_received := false; exit_status := 0 |}.

Definition run_connection_session : M (World S) unit :=
  modify (set_chan Channel_new);;
  open_session_channel;;
  terminal_info ← on_con get_terminal_info;
  request_pty terminal_info;;
  request_shell;;
  run_interactive_shell;;
  c ← gets chan;
  if exit_status_received c
  then on_con (print (str "
Remote exit status: " ++ to_string (exit_status c) ++ str "
"))
  else mret tt.

End shell.

(** ** Specification *)

(** The bytes the keyboard script will still deliver. *)
Fixpoint key_bytes (ks : list key_event) : bytes :=
  match ks with
  | [] | KeysEof :: _ => []
  | Keys b d :: ks => (b :: d) ++ key_bytes ks
  | KeysError :: ks => key_bytes ks
  end.

Section spec.
Context {C : Crypto} {S : Type}.

(** Between [w] and [w'] the program exchanged exactly [i], encrypted, and
    touched nothing but the network, the keyboard, the terminal's output, the
    channel and the script of [poll]. *)
Definition performed (i : io) (w w' : World S) : Prop :=
  encrypted w' /\ history w' = history w ++ evs i /\
  out (con w') = out (con w) ++ shown i /\ err (con w') = err (con w) ++ shown_err i /\
  key_bytes (keyboard (con w)) = typed i ++ key_bytes (keyboard (con w')) /\
  disk w' = disk w /\ term w' = term w /\ settings (con w') = settings (con w) /\
  tc_calls (con w') = tc_calls (con w) /\ lines (con w') = lines (con w) /\ Forall encrypted_event (evs i).

(** What an interrupted turn has exchanged: nothing, a message the client did
    not accept, or a step whose last packet may not have got through. *)
Definition attempt (c : Channel) (j : io) : Prop :=
  j = io_nil \/ (exists p, j = packets_only [Recv true p]) \/ exists c', session_step c j c'.

Definition interrupted (w w' : World S) : Prop :=
  exists i c j, session_steps (chan w) i c /\ attempt c j /\ performed (io_app i j) w w'.

End spec.

(** A request that is not about the channel, and the answer to it. *)
Definition global_request (p : bytes) (l : list event) : Prop :=
  exists name b more, p = wire [FByte ssh_message.GLOBAL_REQUEST; FString name; FRaw [b]; FRaw more] /\
    size name < 2 ^ 32 /\
    l = if u8 b =? 0 then [] else [Send true (wire [FByte ssh_message.REQUEST_FAILURE])].

(** What may come before the answer the client waits for: global requests, and
    window adjustments of the open channel. *)
Inductive waiting : Channel -> list event -> Channel -> Prop :=
  | waiting_done c : waiting c [] c
  | waiting_request c c' p l k : global_request p l -> waiting c k c' -> waiting c (Recv true p :: l ++ k) c'
  | waiting_adjust c c1 c' p k : window_adjust_spec p c c1 -> waiting c1 k c' -> waiting c (Recv true p :: k) c'.

(** ** Facts *)

Lemma io_app_nil_r i : io_app i io_nil = i.
Proof. destruct i. unfold io_app. cbn. by rewrite !app_nil_r. Qed.

Lemma io_app_nil_l i : io_app io_nil i = i.
Proof. by destruct i. Qed.

Lemma io_app_assoc i j k : io_app (io_app i j) k = io_app i (io_app j k).
Proof. unfold io_app. cbn. by rewrite <- !app_assoc. Qed.

Lemma session_steps_app c i c1 j c2 : session_steps c i c1 -> session_steps c1 j c2 -> session_steps c (io_app i j) c2.
Proof.
  intros H Hj. induction H as [c|c c1 c3 i k Hstep _ IH]; [by rewrite io_app_nil_l|].
  rewrite io_app_assoc. by eapply session_next; [|apply IH].
Qed.

Lemma session_steps_one c i c1 : session_step c i c1 -> session_steps c i c1.
Proof. intros H. rewrite <- (io_app_nil_r i). eapply session_next; [done|apply session_done]. Qed.

Lemma key_bytes_rest n d ks : take n d ++ key_bytes (rest_of_keys n d ++ ks) = d ++ key_bytes ks.
Proof.
  unfold rest_of_keys. rewrite <- (take_drop n d) at 3. rewrite <- app_assoc. f_equal.
  destruct (drop n d); cbn; by rewrite ?app_nil_r.
Qed.

Section facts.
Context {C : Crypto} {CS : CryptoSizes} {S : Type} {BS : ByteStream S} {BL : ByteStreamLaws S}.
Implicit Types w : World S.

Lemma performed_refl w : encrypted w -> performed io_nil w w.
Proof. intros. unfold performed. cbn. rewrite !app_nil_r. by split_and!. Qed.

Lemma performed_trans i j w w1 w2 : performed i w w1 -> performed j w1 w2 -> performed (io_app i j) w w2.
Proof.
  intros (_ & H1 & H2 & H3 & H4 & H5 & H6 & H7 & H8 & H9 & H10) (He & K1 & K2 & K3 & K4 & K5 & K6 & K7 & K8 & K9 & K10).
  unfold performed. cbn. rewrite K1, K2, K3, H1, H2, H3, H4, K4, <- !app_assoc.
  split_and!; try done; try congruence. by apply Forall_app.
Qed.

Lemma performed_encrypted i w w' : performed i w w' -> encrypted w'.
Proof. by intros []. Qed.

Lemma send_exact p w :
  encrypted w -> size p < 2 ^ 63 ->
  match send p w with
  | (Undef, _) => False
  | (_, w') => performed (packets_only [Send true p]) w w' /\ chan w' = chan w /\ polls w' = polls w
  end.
Proof.
  intros (Hwf & Ho & Hi) Hp. unfold send. rewrite M_modify_run. unfold on_net, zoom. cbn [net log].
  pose proof (send_packet_spec (net w) p Hwf Hp) as Hs. rewrite Ho.
  assert (Hall : forall t, receiver_unchanged (net w) t -> let w' := set_net t (log (Send true p) w) in
    performed (packets_only [Send true p]) w w' /\ chan w' = chan w /\ polls w' = polls w).
  { intros t Ht w'. split; [|done]. pose proof (receiver_unchanged_wf _ _ Hwf Ht) as Hwf'.
    destruct Ht as (_ & seq & c & _ & _ & E). unfold performed, encrypted. cbn. rewrite !app_nil_r.
    split_and!; try done; try (rewrite E; by cbn). by repeat constructor. }
  destruct (send_packet p (net w)) as [[] t]; try done; by apply Hall.
Qed.

Lemma receive_exact w :
  encrypted w ->
  match receive w with
  | (Ok p, w') => 1 <= size p <= 34991 /\ performed (packets_only [Recv true p]) w w' /\ chan w' = chan w /\ polls w' = polls w
  | (Undef, _) => False
  | (_, w') => performed io_nil w w' /\ chan w' = chan w /\ polls w' = polls w
  end.
Proof.
  intros (Hwf & Ho & Hi). unfold receive. rewrite M_gets_run, Hi.
  pose proof (receive_packet_spec (net w) Hwf) as Hs. unfold mbind at 1, M_bind at 1, on_net, zoom.
  assert (Hall : forall t, sender_unchanged (net w) t -> encrypted (set_net t w)).
  { intros t Ht. split; [by eapply sender_unchanged_wf|]. destruct Ht as (_ & _ & seq & c & _ & _ & E).
    cbn. rewrite E. by cbn. }
  destruct (receive_packet (net w)) as [[p|e| |] t]; try done.
  - destruct Hs as (_ & Hsz & Hs). cbn. split; [done|]. split; [|done].
    unfold performed. cbn. rewrite !app_nil_r. split_and!; try done; first [by apply (Hall t Hs)|by repeat constructor].
  - split; [|done]. unfold performed. cbn. rewrite !app_nil_r. split_and!; try done; first [by apply (Hall t Hs)|by repeat constructor].
  - split; [|done]. unfold performed. cbn. rewrite !app_nil_r. split_and!; try done; first [by apply (Hall t Hs)|by repeat constructor].
Qed.

(** *** Rules *)

Section rules.
Context (w0 : World S).

(** Since [w0] exactly [i] was exchanged; the channel is now [c] and the coming
    polls are [ps]. *)
Definition since (i : io) (c : Channel) (ps : list poll_event) w : Prop :=
  performed i w0 w /\ chan w = c /\ polls w = ps.

Definition since_any (i : io) w : Prop := performed i w0 w.

Lemma since_send i c ps p :
  size p < 2 ^ 63 ->
  triple (since i c ps) (send p) (fun _ => since (io_app i (packets_only [Send true p])) c ps)
    (since_any (io_app i (packets_only [Send true p]))) (since_any (io_app i (packets_only [Send true p]))).
Proof.
  intros Hp w (Hw & Hc & Hps). pose proof (send_exact p w (performed_encrypted _ _ _ Hw) Hp) as Hs.
  destruct (send p w) as [[[]| | |] w']; try done; destruct Hs as (H & ? & ?); [|by eapply performed_trans..].
  split; [by eapply performed_trans|split; congruence].
Qed.

Lemma since_receive i c ps :
  triple (since i c ps) receive
    (fun p w => 1 <= size p <= 34991 /\ since (io_app i (packets_only [Recv true p])) c ps w)
    (since_any i) (since_any i).
Proof.
  intros w (Hw & Hc & Hps). pose proof (receive_exact w (performed_encrypted _ _ _ Hw)) as Hs.
  destruct (receive w) as [[p| | |] w']; try done.
  - destruct Hs as (Hsz & H & ? & ?). split; [done|]. split; [by eapply performed_trans|split; congruence].
  - destruct Hs as (H & _). unfold since_any. rewrite <- (io_app_nil_r i). by eapply performed_trans.
  - destruct Hs as (H & _). unfold since_any. rewrite <- (io_app_nil_r i). by eapply performed_trans.
Qed.

Lemma since_weaken i c ps w : since i c ps w -> since_any i w.
Proof. by intros []. Qed.

Lemma since_lift {A} i c ps (r : res A) (Q : A -> Prop) B :
  safe r Q -> triple (since i c ps) (lift r) (fun a w => Q a /\ since i c ps w) (since_any i) B.
Proof. intros Hr. apply triple_lift; [done|]. apply since_weaken. Qed.

Lemma since_gets_chan i c ps E B : triple (since i c ps) (gets chan) (fun a w => a = c /\ since i c ps w) E B.
Proof. apply triple_gets. by intros w (? & ? & ?). Qed.

Lemma since_chan i c c' ps E B : triple (since i c ps) (modify (set_chan c')) (fun _ => since i c' ps) E B.
Proof. apply triple_modify. intros w (Hw & _ & Hps). by split. Qed.

Lemma since_set_chan i c c' ps w : since i c ps w -> since i c' ps (set_chan c' w).
Proof. intros (Hw & _ & Hps). by split. Qed.

Lemma since_print i c ps s E B :
  triple (since i c ps) (on_con (print s))
    (fun _ => since (io_app i {| evs := []; shown := s; shown_err := []; typed := [] |}) c ps) E B.
Proof.
  intros w (Hw & Hc & Hps). cbn. split; [|done]. eapply performed_trans; [done|].
  unfold performed. cbn. rewrite !app_nil_r. split_and!; try done. by apply performed_encrypted in Hw.
Qed.

Lemma since_print_err i c ps s E B :
  triple (since i c ps) (on_con (print_err s))
    (fun _ => since (io_app i {| evs := []; shown := []; shown_err := s; typed := [] |}) c ps) E B.
Proof.
  intros w (Hw & Hc & Hps). cbn. split; [|done]. eapply performed_trans; [done|].
  unfold performed. cbn. rewrite !app_nil_r. split_and!; try done. by apply performed_encrypted in Hw.
Qed.

(** Operations on the channel. *)
Lemma since_update i c ps f (Q : Channel -> Prop) B :
  safe (f c) Q ->
  triple (since i c ps) (update_channel f) (fun _ w => exists c', Q c' /\ since i c' ps w) (since_any i) B.
Proof.
  intros Hf w Hw. pose proof Hw as (_ & Hc & _). unfold update_channel. rewrite M_gets_run, Hc, M_lift_res.
  destruct (f c) as [c'| | |]; try done; [|by apply since_weaken in Hw]. exists c'. split; [done|].
  by eapply since_set_chan.
Qed.

Lemma since_on_channel {A} i c ps (f : Channel -> res (A * Channel)) (Q : A -> Channel -> Prop) B :
  safe (f c) (fun '(a, c') => Q a c') ->
  triple (since i c ps) (on_channel f) (fun a w => exists c', Q a c' /\ since i c' ps w) (since_any i) B.
Proof.
  intros Hf w Hw. pose proof Hw as (_ & Hc & _). unfold on_channel. rewrite M_gets_run, Hc, M_lift_res.
  destruct (f c) as [[a c']| | |]; try done; [|by apply since_weaken in Hw]. cbn. exists c'. split; [done|].
  by eapply since_set_chan.
Qed.

Definition keys_only (d : bytes) : io := {| evs := []; shown := []; shown_err := []; typed := d |}.

Lemma since_read_keyboard i c ps n :
  0 < n ->
  triple (since i c ps) (on_con (read_keyboard n))
    (fun r w => match r with
       | Some d => size d <= n /\ since (io_app i (keys_only d)) c ps w
       | None => since i c ps w
       end) (since_any i) (since_any i).
Proof.
  intros Hn w Hsince. pose proof Hsince as (Hw & Hc & Hps). pose proof (performed_encrypted _ _ _ Hw) as He.
  assert (Hstep : forall d ks, key_bytes (keyboard (con w)) = d ++ key_bytes ks ->
    performed (io_app i (keys_only d)) w0 (set_con (set_keyboard ks (con w)) w)).
  { intros d ks Hk. eapply performed_trans; [exact Hw|]. unfold performed. cbn. by rewrite !app_nil_r. }
  unfold on_con, zoom, read_keyboard. destruct (keyboard (con w)) as [|[b d| |] ks] eqn:Ek.
  - rewrite <- (io_app_nil_r i). eapply performed_trans; [done|].
    unfold performed. cbn. rewrite !app_nil_r. by split_and!.
  - split.
    { unfold size. rewrite length_take. pose proof (size_nonneg (b :: d)). unfold size in *. lia. }
    split; [|done]. apply Hstep. rewrite key_bytes_rest. done.
  - split; [rewrite size_nil; lia|]. split; [|done]. eapply performed_trans; [exact Hw|].
    unfold performed. cbn. rewrite !app_nil_r, Ek. by split_and!.
  - split; [|done]. rewrite <- (io_app_nil_r i). by apply (Hstep []).
Qed.

Lemma since_global_request i c ps p :
  size p <= 34991 ->
  let E w := exists l, (l = [] \/ global_request p l) /\ since_any (io_app i (packets_only l)) w in
  triple (since i c ps) (handle_global_request p)
    (fun _ w => exists l, global_request p l /\ since (io_app i (packets_only l)) c ps w) E E.
Proof.
  intros Hp E w Hw. assert (HE : since_any i w -> E w).
  { intros H. exists []. split; [by left|]. by rewrite io_app_nil_r. }
  unfold handle_global_request. rewrite M_lift_res.
  pose proof (parse_global_request_safe p ltac:(unfold addressable; lia)) as Hs.
  destruct (parse_global_request p) as [g| | |]; try done; [|by apply HE, (since_weaken _ _ _ _ Hw)].
  destruct Hs as (Hname & b & Hwire & Hreply). rewrite Hreply.
  set (l := if u8 b =? 0 then [] else [Send true (wire [FByte ssh_message.REQUEST_FAILURE])]).
  assert (Hl : global_request p l) by (by exists (request_name g), b, (request_data g)).
  destruct (u8 b =? 0); cbn [negb].
  - exists l. split; [done|]. unfold l. change (packets_only []) with io_nil. by rewrite io_app_nil_r.
  - pose proof (since_send i c ps create_request_failure ltac:(by vm_compute) w Hw) as Hsend.
    destruct (send create_request_failure w) as [[[]| | |] w']; try done; exists l; auto.
Qed.

End rules.

(** *** One turn *)

(** The part of a turn that [m] does from [w]: steps of the session to a channel
    that satisfies [P] (of the value too) when it returns, interrupted steps otherwise. *)
Definition takes_steps {A} (P : A -> Channel -> Prop) (m : M (World S) A) w : Prop :=
  match m w with
  | (Ok a, w') => exists i, session_steps (chan w) i (chan w') /\ performed i w w' /\ polls w' = polls w /\ P a (chan w')
  | (Undef, _) => False
  | (_, w') => interrupted w w'
  end.

Lemma takes_steps_intro {A} P (m : M (World S) A) w Q E B :
  encrypted w ->
  triple (since w io_nil (chan w) (polls w)) m Q E B ->
  (forall a w', Q a w' -> exists i c', session_steps (chan w) i c' /\ since w i c' (polls w) w' /\ P a c') ->
  (forall w', E w' \/ B w' -> exists j, attempt (chan w) j /\ since_any w j w') ->
  takes_steps P m w.
Proof.
  intros He Hm HQ HE. unfold takes_steps.
  specialize (Hm w (conj (performed_refl w He) (conj eq_refl eq_refl))).
  assert (Hint : forall w', E w' \/ B w' -> interrupted w w').
  { intros w' (j & Hj & Hw')%HE. exists io_nil, (chan w), j. split; [apply session_done|]. split; [done|].
    by rewrite io_app_nil_l. }
  destruct (m w) as [[a|e| |] w']; [|by auto|done|by auto].
  destruct (HQ a w' Hm) as (i & c' & Hi & (Hw' & <- & Hps) & HP). by exists i.
Qed.

Lemma keyboard_turn w :
  encrypted w -> live (chan w) -> 0 < remote_window (chan w) -> takes_steps (fun _ => live) keyboard_input w.
Proof.
  intros He Hlive Hr. pose proof Hlive as (Hwf & Ho & _ & Hl & _ & Hm). set (c := chan w) in *.
  unfold MIN_MAX_PACKET_SIZE in Hm.
  set (n := Z.min (Z.min KEYBOARD_BUFFER_SIZE (remote_window c)) (remote_max_packet c)).
  assert (Hn : 0 < n /\ n <= KEYBOARD_BUFFER_SIZE /\ n <= remote_window c /\ n <= remote_max_packet c) by (unfold n, KEYBOARD_BUFFER_SIZE; lia).
  set (typed_io d := {| evs := [Send true (wire [FByte ssh_message.CHANNEL_DATA; FUint32 (remote_id c); FString d])];
                        shown := []; shown_err := []; typed := d |}).
  apply (takes_steps_intro (fun _ => live) keyboard_input w
    (fun _ w' => since w io_nil c (polls w) w' \/ exists d, session_step c (typed_io d)
       (set_windows (local_window c) (remote_window c - size d) c) /\
       since w (typed_io d) (set_windows (local_window c) (remote_window c - size d) c) (polls w) w')
    (fun w' => exists j, attempt c j /\ since_any w j w') (fun w' => exists j, attempt c j /\ since_any w j w')); [done|..].
  - assert (Hnil : forall w', since_any w io_nil w' -> exists j, attempt c j /\ since_any w j w')
      by (intros w' H; exists io_nil; split; [by left|done]).
    unfold keyboard_input. eapply triple_bind; [apply since_gets_chan|]. intros c1. apply triple_pure. intros ->.
    eapply triple_bind.
    { eapply triple_conseq; [apply (since_read_keyboard w io_nil c (polls w) n); lia|done..|exact Hnil|exact Hnil]. }
    intros [d|].
    2: { apply triple_throw. intros w' Hw'. by apply Hnil, (since_weaken _ _ _ _ _ Hw'). }
    apply triple_pure. intros Hd. rewrite io_app_nil_l, Z.gtb_ltb. destruct (Z.ltb_spec 0 (size d)) as [Hpos|Hzero].
    2: { apply triple_ret. intros w' Hw'. left. assert (d = []) as -> by (apply size_zero_nil; pose proof (size_nonneg d); lia). done. }
    assert (Hstep : session_step c (typed_io d) (set_windows (local_window c) (remote_window c - size d) c)) by (apply turn_keys; done || lia).
    assert (Hsize : size d <= 1024) by (unfold KEYBOARD_BUFFER_SIZE in *; lia).
    fold c. rewrite create_channel_data_eq by done. rewrite Ho, Hl. cbn [negb].
    rewrite (proj2 (Z.eqb_neq _ _)), !Z.gtb_ltb, !(proj2 (Z.ltb_ge _ _)) by lia.
    assert (Hio : forall e, io_app (keys_only d) (packets_only [e]) = {| evs := [e]; shown := []; shown_err := []; typed := d |})
      by (intros e; unfold io_app; cbn; by rewrite app_nil_r).
    apply triple_lift_Ok. set (p := wire _).
    assert (Hp : size p < 2 ^ 63).
    { unfold p. rewrite !wire_cons, wire_nil. cbn [wire_field]. autorewrite with size. rewrite !size_be32. lia. }
    pose proof (since_send w (keys_only d) c (polls w) p Hp) as Hsend. rewrite Hio in Hsend.
    eapply triple_bind; [eapply triple_conseq; [exact Hsend|done|done|..]|].
    1, 2: intros w' Hw'; exists (typed_io d); split; [right; right; by eexists|exact Hw'].
    intros [] w' Hw'. cbn. right. exists d. split; [done|].
    unfold wf_channel in Hwf. rewrite u32_small by (pose proof (size_nonneg d); lia).
    by eapply since_set_chan.
  - intros _ w' [Hw'|(d & Hstep & Hw')]; [exists io_nil, c; split; [apply session_done|done]|].
    eexists _, _. split; [by apply session_steps_one|]. split; [done|].
    destruct (step_live _ _ _ Hlive Hstep) as [|(_ & x & y & E & _)]; done.
  - intros w' [H|H]; exact H.
Qed.

Section socket_turn.
Context (w : World S) (He : encrypted w) (Hlive : live (chan w)).
Let c := chan w.
Let ps := polls w.

(** An exception or a wait in the turn. *)
Definition turn_failed (w' : World S) : Prop := exists j, attempt c j /\ since_any w j w'.

(** The states after [handle_message]: a message with data, which may be
    followed by a refill; a message without data; the close. *)
Definition after_message (consumed : bool) (w' : World S) : Prop :=
  if consumed then
    exists d c' i, data_accepted c d c' /\ since w i c' ps w' /\
      session_step c (io_app i (packets_only (refill_events c'))) (refilled c')
  else
    (exists i c', live c' /\ since w i c' ps w' /\ session_step c i c') \/
    (exists i, since w i (set_local_close_sent (set_remote_close c)) ps w' /\ session_step c i (closed c)).

Section message.
Context (p : bytes) (Hp : size p <= 34991).
Let received := since w (packets_only [Recv true p]) c ps.

Lemma failed_received w' : since_any w (packets_only [Recv true p]) w' -> turn_failed w'.
Proof. intros H. exists (packets_only [Recv true p]). split; [right; left; by exists p|done]. Qed.

Lemma wf_c : wf_channel c.
Proof. apply Hlive. Qed.

Lemma addressable_p : addressable p.
Proof. unfold addressable. lia. Qed.

(** A message that is parsed into a new channel, and nothing else. *)
Lemma control_turn f (Q : Channel -> Prop) :
  safe (f c) Q -> (forall c', Q c' -> session_step c (packets_only [Recv true p]) c' /\ open c' = true) ->
  triple received (update_channel f;; mret false) after_message turn_failed turn_failed.
Proof.
  intros Hs HQ. eapply triple_bind.
  - eapply triple_conseq; [apply since_update with (Q := Q), Hs|done|done|apply failed_received|apply failed_received].
  - intros []. apply triple_ret. intros w' (c' & Hc' & Hw'). destruct (HQ c' Hc') as [Hstep Ho]. left.
    exists (packets_only [Recv true p]), c'. split; [|done].
    by destruct (step_live _ _ _ Hlive Hstep) as [|[-> _]].
Qed.

Lemma data_turn {A} f (g : A -> bytes) (show : bytes -> M Console unit) (io_of : bytes -> io) :
  safe (f c) (fun '(a, c') => data_accepted c (g a) c' /\
    session_step c (io_app (io_app (packets_only [Recv true p]) (io_of (g a))) (packets_only (refill_events c'))) (refilled c')) ->
  (forall i c' d E B, triple (since w i c' ps) (on_con (show d)) (fun _ => since w (io_app i (io_of d)) c' ps) E B) ->
  triple received (a ← on_channel f; on_con (show (g a));; mret true) after_message turn_failed turn_failed.
Proof.
  intros Hs Hshow. eapply triple_bind.
  - eapply triple_conseq; [apply since_on_channel with
      (Q := fun a c' => data_accepted c (g a) c' /\
        session_step c (io_app (io_app (packets_only [Recv true p]) (io_of (g a))) (packets_only (refill_events c'))) (refilled c')), Hs
      |done|done|apply failed_received|apply failed_received].
  - intros a w' (c' & (Hd & Hstep) & Hw'). specialize (Hshow _ c' (g a) (fun _ => False) (fun _ => False) w' Hw').
    unfold mbind at 1, M_bind at 1. destruct (on_con (show (g a)) w') as [[[]| | |] w1]; try done.
    cbn. by exists (g a), c', (io_app (packets_only [Recv true p]) (io_of (g a))).
Qed.

Definition shows (d : bytes) : io := {| evs := []; shown := d; shown_err := []; typed := [] |}.
Definition shows_err (d : bytes) : io := {| evs := []; shown := []; shown_err := d; typed := [] |}.

Lemma stdout_turn :
  triple received (handle_message ssh_message.CHANNEL_DATA p) after_message turn_failed turn_failed.
Proof.
  apply (data_turn (parse_channel_data p) (fun d => d) print shows).
  - eapply safe_mono; [apply (parse_channel_data_safe p addressable_p c wf_c)|].
    intros [d c'] [Hd Hwire]. split; [done|]. pose proof (turn_data c d c' Hd) as Hstep. rewrite <- Hwire in Hstep.
    unfold io_app. cbn. by rewrite app_nil_r.
  - intros. apply since_print.
Qed.

Lemma stderr_turn :
  triple received (handle_message ssh_message.CHANNEL_EXTENDED_DATA p) after_message turn_failed turn_failed.
Proof.
  apply (data_turn (parse_channel_extended_data p) data print_err shows_err).
  - eapply safe_mono; [apply (parse_channel_extended_data_safe p addressable_p c wf_c)|].
    intros [x c'] (_ & Hd & Hwire). split; [done|]. pose proof (turn_stderr c (data x) c' Hd) as Hstep. rewrite <- Hwire in Hstep.
    unfold io_app. cbn. by rewrite app_nil_r.
  - intros. apply since_print_err.
Qed.

Lemma adjust_turn :
  triple received (handle_message ssh_message.CHANNEL_WINDOW_ADJUST p) after_message turn_failed turn_failed.
Proof.
  apply (control_turn _ (window_adjust_spec p c)); [apply (parse_window_adjust_safe p addressable_p c wf_c)|].
  intros c' Hc'. split; [by apply turn_adjust|]. by destruct Hc' as (n & _ & Ho & _ & _ & ->).
Qed.

Lemma eof_turn :
  triple received (handle_message ssh_message.CHANNEL_EOF p) after_message turn_failed turn_failed.
Proof.
  eapply (control_turn _ _ (parse_channel_eof_safe p addressable_p c)).
  intros c' (Ho & He' & -> & ->). split; [by apply turn_eof|done].
Qed.

Lemma exit_turn :
  triple received (handle_message ssh_message.CHANNEL_REQUEST p) after_message turn_failed turn_failed.
Proof.
  eapply triple_bind.
  - eapply triple_conseq; [apply since_on_channel with (Q := fun r c' => exit_status_spec p c r c');
      apply (parse_exit_status_safe p addressable_p c)|done|done|apply failed_received|apply failed_received].
  - intros r. apply triple_ret. intros w' (c' & Hc' & Hw'). pose proof (turn_exit c p r c' Hc') as Hstep. left.
    exists (packets_only [Recv true p]), c'. split; [|done].
    destruct (step_live _ _ _ Hlive Hstep) as [|[-> _]]; [done|]. destruct Hc' as (Ho & _ & _ & _ & E).
    apply (f_equal open) in E. cbn in E. congruence.
Qed.

Lemma request_turn :
  triple received (handle_message ssh_message.GLOBAL_REQUEST p) after_message turn_failed turn_failed.
Proof.
  assert (Hstep : forall l, global_request p l -> session_step c (packets_only (Recv true p :: l)) c).
  { intros l (name & b & more & -> & Hn & ->). apply turn_request; [apply Hlive|done]. }
  assert (Hfail : forall w', (exists l, (l = [] \/ global_request p l) /\
      since_any w (io_app (packets_only [Recv true p]) (packets_only l)) w') -> turn_failed w').
  { intros w' (l & [->|Hl] & Hw'); [by apply failed_received|]. eexists. split; [right; right; exists c; by apply Hstep|exact Hw']. }
  eapply triple_bind.
  - eapply triple_conseq; [apply (since_global_request w (packets_only [Recv true p]) c ps p Hp)|done|done|exact Hfail|exact Hfail].
  - intros []. apply triple_ret. intros w' (l & Hl & Hw'). left. exists (packets_only (Recv true p :: l)), c.
    split; [exact Hlive|]. split; [exact Hw'|by apply Hstep].
Qed.

Lemma close_turn :
  triple received (handle_message ssh_message.CHANNEL_CLOSE p) after_message turn_failed turn_failed.
Proof.
  pose proof Hlive as (_ & Ho & Hr & Hl & _). fold c in Ho, Hr, Hl. eapply triple_bind.
  - eapply triple_conseq; [apply since_update, (parse_channel_close_safe p addressable_p c)|done|done|apply failed_received|apply failed_received].
  - intros []. cbn beta. intros w1 (c1 & (_ & _ & Hwire & ->) & Hw1). rewrite M_gets_run.
    pose proof Hw1 as (_ & -> & _). cbn [local_close_sent set_remote_close set_flags]. rewrite Hl. cbn [negb].
    rewrite create_channel_close_eq by done. cbn [remote_id set_remote_close set_flags].
    pose proof (turn_close c Ho Hr Hl) as Hstep. rewrite <- Hwire in Hstep.
    set (q := wire [FByte ssh_message.CHANNEL_CLOSE; FUint32 (remote_id c)]) in *.
    pose proof (since_send w (packets_only [Recv true p]) (set_remote_close c) ps q ltac:(by vm_compute) w1 Hw1) as Hs.
    unfold mbind at 1 2 3, M_bind at 1 2 3. cbn [lift]. destruct (send q w1) as [[[]| | |] w2]; try done.
    + right. exists (packets_only [Recv true p; Send true q]). split; [by eapply since_set_chan|done].
    + eexists. split; [right; right; exists (closed c); exact Hstep|exact Hs].
    + eexists. split; [right; right; exists (closed c); exact Hstep|exact Hs].
Qed.

Lemma message_turn n :
  triple received (handle_message n p) after_message turn_failed turn_failed.
Proof.
  destruct (Z.eq_dec n ssh_message.CHANNEL_DATA) as [->|H1]; [apply stdout_turn|].
  destruct (Z.eq_dec n ssh_message.CHANNEL_WINDOW_ADJUST) as [->|H2]; [apply adjust_turn|].
  destruct (Z.eq_dec n ssh_message.GLOBAL_REQUEST) as [->|H3]; [apply request_turn|].
  destruct (Z.eq_dec n ssh_message.CHANNEL_EXTENDED_DATA) as [->|H4]; [apply stderr_turn|].
  destruct (Z.eq_dec n ssh_message.CHANNEL_EOF) as [->|H5]; [apply eof_turn|].
  destruct (Z.eq_dec n ssh_message.CHANNEL_REQUEST) as [->|H6]; [apply exit_turn|].
  destruct (Z.eq_dec n ssh_message.CHANNEL_CLOSE) as [->|H7]; [apply close_turn|].
  unfold handle_message. rewrite !(proj2 (Z.eqb_neq _ _)) by done.
  apply triple_throw. intros w' (Hw' & _). by apply failed_received.
Qed.

End message.

(** Nothing to refill. *)
Lemma refill_skipped i c' :
  triple (since w i c' ps) (refill_window false) (fun _ => since w i c' ps) turn_failed turn_failed.
Proof. unfold refill_window. intros w1 Hw1. exact Hw1. Qed.

Lemma refill_turn i c' d :
  data_accepted c d c' -> session_step c (io_app i (packets_only (refill_events c'))) (refilled c') ->
  triple (since w i c' ps) (refill_window true)
    (fun _ => since w (io_app i (packets_only (refill_events c'))) (refilled c') ps) turn_failed turn_failed.
Proof.
  intros Hd Hstep. pose proof Hlive as (Hwf & Ho & _ & _ & Hw & _). fold c in Hwf, Ho, Hw.
  pose proof (data_accepted_wf _ _ _ Hwf Hd) as Hwf'. destruct Hd as (_ & _ & Hd & Ec').
  assert (Ho' : open c' = true) by (rewrite Ec'; exact Ho).
  unfold refill_window. eapply triple_bind; [apply since_gets_chan|]. intros c1. apply triple_pure. intros ->.
  rewrite Ho'. cbn [andb]. revert Hstep. unfold refill_events, refilled.
  destruct (Z.leb_spec (local_window c') LOCAL_WINDOW_THRESHOLD) as [Hle|]; intros Hstep.
  2: { apply triple_ret. intros w' Hw'. change (packets_only []) with io_nil. by rewrite io_app_nil_r. }
  assert (Hl : 0 <= local_window c') by apply Hwf'. unfold LOCAL_WINDOW_THRESHOLD, LOCAL_WINDOW_TARGET in *.
  rewrite (u32_small (1024 * 1024 - _)) by lia. rewrite create_window_adjust_eq by (done || lia). apply triple_lift_Ok.
  eapply triple_bind.
  - eapply triple_conseq; [apply since_send; by vm_compute|done|done|..];
      intros w' Hw'; (eexists; split; [right; right; eexists; exact Hstep|exact Hw']).
  - intros [] w' Hw'. cbn. replace (local_window c' + (1024 * 1024 - local_window c')) with (1024 * 1024) by lia.
    rewrite u32_small by lia. by eapply since_set_chan.
Qed.

Lemma socket_turn_triple :
  triple (since w io_nil c ps) socket_input
    (fun _ w' => exists i c', session_step c i c' /\ since w i c' ps w') turn_failed turn_failed.
Proof.
  assert (Hnil : forall w', since_any w io_nil w' -> turn_failed w') by (intros w' H; exists io_nil; split; [by left|done]).
  unfold socket_input. eapply triple_bind.
  { eapply triple_conseq; [apply since_receive|done|done|exact Hnil|exact Hnil]. }
  intros p. apply triple_pure. intros Hp. rewrite io_app_nil_l. destruct p as [|b p]; [rewrite size_nil in Hp; lia|].
  set (q := b :: p) in *. rewrite (proj2 (Z.eqb_neq _ _)) by lia. rewrite (index_0 b p : index q 0 = _).
  apply triple_lift_Ok. eapply triple_bind; [apply message_turn; lia|].
  intros [] w1 Hw1.
  - destruct Hw1 as (d & c' & i & Hd & Hw1 & Hstep).
    pose proof (refill_turn i c' d Hd Hstep w1 Hw1) as Hr. unfold mbind at 1, M_bind at 1.
    destruct (refill_window true w1) as [[[]| | |] w2]; try done. rewrite M_gets_run.
    pose proof Hr as (_ & -> & _). destruct (refilled_live c d c' Hlive Hd) as (_ & _ & _ & Hl & _). rewrite Hl. cbn. eauto.
  - unfold mbind at 1, M_bind at 1. destruct Hw1 as [(i & c' & Hl & Hw1 & Hstep)|(i & Hw1 & Hstep)];
      pose proof (refill_skipped i _ w1 Hw1) as Hr;
      destruct (refill_window false w1) as [[[]| | |] w2]; try done; rewrite M_gets_run;
      pose proof Hr as (_ & -> & _).
    + destruct Hl as (_ & _ & _ & Hl & _). rewrite Hl. cbn. eauto.
    + cbn. exists i, (closed c). split; [done|]. by eapply since_set_chan.
Qed.

Lemma socket_turn : takes_steps (fun _ _ => True) socket_input w.
Proof.
  eapply takes_steps_intro; [done|apply socket_turn_triple|..].
  - intros _ w' (i & c' & Hstep & Hw'). exists i, c'. split; [by apply session_steps_one|done].
  - intros w' [H|H]; exact H.
Qed.

End socket_turn.

(** *** The loop *)

Lemma interrupted_after i w w1 w2 :
  session_steps (chan w) i (chan w1) -> performed i w w1 -> interrupted w1 w2 -> interrupted w w2.
Proof.
  intros Hi Hp (j & c & k & Hj & Hk & Hp'). exists (io_app i j), c, k. split; [by eapply session_steps_app|].
  split; [done|]. rewrite io_app_assoc. by eapply performed_trans.
Qed.

Lemma interrupted_here w : encrypted w -> interrupted w w.
Proof.
  intros He. exists io_nil, (chan w), io_nil. split; [apply session_done|]. split; [by left|]. by apply performed_refl.
Qed.

Lemma takes_steps_bind {A A'} P Q (m : M (World S) A) (f : A -> M (World S) A') w :
  takes_steps P m w ->
  (forall a w1, encrypted w1 -> P a (chan w1) -> takes_steps Q (f a) w1) -> takes_steps Q (m ≫= f) w.
Proof.
  intros Hm Hf. unfold takes_steps, mbind, M_bind in *. destruct (m w) as [[a| | |] w1]; try done.
  destruct Hm as (i & Hi & Hp & Hps & HP). specialize (Hf a w1 (performed_encrypted _ _ _ Hp) HP).
  destruct (f a w1) as [[] w2]; try done; try by eapply interrupted_after.
  destruct Hf as (j & Hj & Hp' & Hps' & HQ). exists (io_app i j). split; [by eapply session_steps_app|].
  split; [by eapply performed_trans|]. split; [congruence|done].
Qed.

Lemma takes_steps_skip {A} (P : A -> Channel -> Prop) (a : A) w : encrypted w -> P a (chan w) -> takes_steps P (mret a) w.
Proof. intros He HP. exists io_nil. split; [apply session_done|]. split; [by apply performed_refl|done]. Qed.

Lemma performed_polls w qs : encrypted w -> performed io_nil w (set_polls qs w).
Proof. intros He. unfold performed. cbn. by rewrite !app_nil_r. Qed.

(** A turn of the loop on the open channel takes one entry of the script of
    [poll]. *)
Lemma round_takes_steps w :
  encrypted w -> live (chan w) ->
  match shell_round w with
  | (Ok r, w') => r = None /\ exists i, session_steps (chan w) i (chan w') /\ performed i w w' /\
      exists p, polls w = p :: polls w'
  | (Undef, _) => False
  | (_, w') => interrupted w w'
  end.
Proof.
  intros He Hlive. pose proof Hlive as (_ & Ho & _). unfold shell_round. rewrite M_gets_run, Ho. cbn [negb].
  unfold mbind at 1, M_bind at 1, next_poll.
  destruct (polls w) as [|p qs] eqn:Ep; [by apply interrupted_here|].
  set (w1 := set_polls qs w). pose proof (performed_polls w qs He) as Hp1. fold w1 in Hp1.
  pose proof (performed_encrypted _ _ _ Hp1) as He1.
  assert (Hback : forall w', interrupted w1 w' -> interrupted w w').
  { intros w'. apply (interrupted_after io_nil); [apply session_done|done]. }
  destruct p as [| |k s e]; [by apply Hback, interrupted_here| |].
  { split; [done|]. exists io_nil. split; [apply session_done|]. split; [done|]. by exists PollEintr. }
  set (turn := (if (remote_window (chan w) >? 0) && k then keyboard_input else mret tt);;
       (if s then socket_input else mret tt);;
       c ← gets chan;
       if open c && e then mthrow "SSH socket closed unexpectedly"%string else mret (@None unit)).
  assert (Hturn : takes_steps (fun r _ => r = None) turn w1).
  { apply takes_steps_bind with (fun _ => live).
    { rewrite Z.gtb_ltb. destruct (Z.ltb_spec 0 (remote_window (chan w))), k; cbn [andb];
        try (by apply takes_steps_skip). by apply keyboard_turn. }
    intros _ w2 He2 Hl2. apply takes_steps_bind with (fun _ _ => True).
    { destruct s; [by apply socket_turn|by apply takes_steps_skip]. }
    intros _ w3 He3 _. unfold takes_steps. rewrite M_gets_run. destruct (open (chan w3) && e); [by apply interrupted_here|].
    exact (takes_steps_skip (fun r _ => r = None) None w3 He3 eq_refl). }
  unfold takes_steps in Hturn. change (match turn w1 with
    | (Ok r, w') => r = None /\ exists i, session_steps (chan w) i (chan w') /\ performed i w w' /\
        exists p, PollReady k s e :: qs = p :: polls w'
    | (Undef, _) => False
    | (_, w') => interrupted w w'
    end).
  destruct (turn w1) as [[r| | |] w']; auto. destruct Hturn as (i & Hi & Hp & Hps & Hr). split; [done|].
  exists i. split; [done|]. split; [rewrite <- (io_app_nil_l i); by eapply performed_trans|].
  exists (PollReady k s e). by rewrite Hps.
Qed.

(** The loop, with at least as much fuel as there are polls to come. *)
Lemma shell_loop_steps n w :
  encrypted w -> live (chan w) \/ open (chan w) = false ->
  match loop n shell_round w with
  | (Ok _, w') => exists i, session_steps (chan w) i (chan w') /\ performed i w w' /\ open (chan w') = false
  | (Undef, _) => False
  | (_, w') => interrupted w w'
  end.
Proof.
  revert w. induction n as [|n IH]; intros w He Hc; cbn [loop]; [by apply interrupted_here|].
  unfold mbind at 1, M_bind at 1. destruct Hc as [Hlive|Hclosed].
  - pose proof (round_takes_steps w He Hlive) as Hr. destruct (shell_round w) as [[r| | |] w1]; try done.
    destruct Hr as (-> & i & Hi & Hp & _). specialize (IH w1 (performed_encrypted _ _ _ Hp) (steps_live _ _ _ Hlive Hi)).
    destruct (loop n shell_round w1) as [[] w2]; try done; try by eapply interrupted_after.
    destruct IH as (j & Hj & Hp' & Ho). exists (io_app i j). split; [by eapply session_steps_app|].
    split; [by eapply performed_trans|done].
  - unfold shell_round. rewrite M_gets_run, Hclosed. cbn. exists io_nil.
    split; [apply session_done|]. split; [by apply performed_refl|done].
Qed.

(** *** The loops end *)

Lemma shell_round_progress w :
  encrypted w /\ (live (chan w) \/ open (chan w) = false) ->
  match shell_round w with
  | (Ok None, w') => (encrypted w' /\ (live (chan w') \/ open (chan w') = false)) /\
      (length (polls w') < length (polls w))%nat
  | _ => True
  end.
Proof.
  intros [He [Hlive|Hclosed]].
  - pose proof (round_takes_steps w He Hlive) as Hr. destruct (shell_round w) as [[r| | |] w1]; try done.
    destruct Hr as (-> & i & Hi & Hp & p & ->). split; [|cbn; lia].
    split; [by eapply performed_encrypted|by eapply steps_live].
  - unfold shell_round. by rewrite M_gets_run, Hclosed.
Qed.

(** What goes round again after a packet has fewer bytes to come. *)
Definition progress w (w' : World S) : Prop :=
  wf_transport (obj (net w')) /\ (bytes_left w' < bytes_left w)%nat.

Lemma receive_progress p w w' : wf_transport (obj (net w)) -> receive w = (Ok p, w') -> progress w w'.
Proof. intros Hwf E. pose proof (receive_shrinks w Hwf) as H. by rewrite E in H. Qed.

Lemma update_progress f w w1 w' u : progress w w1 -> update_channel f w1 = (Ok u, w') -> progress w w'.
Proof.
  intros Hp. unfold update_channel. rewrite M_gets_run, M_lift_res. destruct (f _); try done. by intros [= _ <-].
Qed.

Lemma global_progress p w w1 w' u : progress w w1 -> handle_global_request p w1 = (Ok u, w') -> progress w w'.
Proof.
  intros [Hwf Hlt]. unfold handle_global_request. rewrite M_lift_res. destruct (parse_global_request p); try done.
  destruct (want_reply _); [|by intros [= _ <-]].
  pose proof (send_keeps_bytes w1 create_request_failure Hwf ltac:(by vm_compute)) as Hs. intros E. rewrite E in Hs.
  destruct Hs as [? Hb]. split; [done|]. by rewrite Hb.
Qed.

Lemma open_round_progress w :
  wf_transport (obj (net w)) -> match open_round w with (Ok None, w') => progress w w' | _ => True end.
Proof.
  intros Hwf. destruct (open_round w) as [[[[]|]| | |] w'] eqn:E; try done. revert E.
  unfold open_round. rewrite M_gets_run. destruct (open (chan w)); [done|].
  intros (p & w1 & Hr & E)%M_bind_Ok. apply (receive_progress _ _ _ Hwf) in Hr.
  destruct (size p =? 0); [done|]. apply M_bind_Ok in E as (b & w2 & Hb & E). injection Hb as _ <-.
  apply M_bind_Ok in E as (u & w2 & Hm & E). injection E as <-.
  destruct (b =? _); [by eapply update_progress|]. destruct (b =? _).
  { by apply M_bind_Ok in Hm as (? & ? & _ & ?). }
  destruct (b =? _); [by eapply global_progress|done].
Qed.

Lemma wait_round_progress name w :
  wf_transport (obj (net w)) -> match wait_round name w with (Ok None, w') => progress w w' | _ => True end.
Proof.
  intros Hwf. destruct (wait_round name w) as [[[[]|]| | |] w'] eqn:E; try done. revert E.
  unfold wait_round. intros (p & w1 & Hr & E)%M_bind_Ok. apply (receive_progress _ _ _ Hwf) in Hr.
  destruct (size p =? 0); [done|]. apply M_bind_Ok in E as (b & w2 & Hb & E). injection Hb as _ <-.
  rewrite M_gets_run in E. destruct (b =? _); [by apply M_bind_Ok in E as (? & ? & _ & ?)|].
  destruct (b =? _); [by apply M_bind_Ok in E as (? & ? & _ & ?)|].
  destruct (b =? _). { apply M_bind_Ok in E as (u & w2 & Hm & E). injection E as <-. by eapply global_progress. }
  destruct (b =? _); [|done]. apply M_bind_Ok in E as (u & w2 & Hm & E). injection E as <-. by eapply update_progress.
Qed.

Lemma open_loop_iterates w : encrypted w -> iterates open_round w (packet_loop open_round w).
Proof.
  intros (Hwf & _). apply (loop_iterates (fun w => wf_transport (obj (net w))) bytes_left); [exact open_round_progress|done|lia].
Qed.

Lemma wait_loop_iterates name w : encrypted w -> iterates (wait_round name) w (packet_loop (wait_round name) w).
Proof.
  intros (Hwf & _). apply (loop_iterates (fun w => wf_transport (obj (net w))) bytes_left); [exact (wait_round_progress name)|done|lia].
Qed.

Lemma shell_loop_iterates w : encrypted w -> live (chan w) -> iterates shell_round w (shell_loop w).
Proof.
  intros He Hlive. apply (loop_iterates (fun w => encrypted w /\ (live (chan w) \/ open (chan w) = false))
    (fun w => length (polls w))); [exact shell_round_progress|auto|lia].
Qed.

(** *** Opening the session *)

Lemma waiting_app c l c1 k c2 : waiting c l c1 -> waiting c1 k c2 -> waiting c (l ++ k) c2.
Proof.
  intros H Hk. induction H as [c|c c3 p l m Hl _ IH|c c1 c3 p m Hp _ IH]; [done|..].
  - change ((Recv true p :: l ++ m) ++ k) with (Recv true p :: (l ++ m) ++ k). rewrite <- app_assoc. apply waiting_request; auto.
  - eapply (waiting_adjust c c1); eauto.
Qed.

(** While the client waits, its identity and its windows' other side stay. *)
Lemma waiting_live c l c' : live c -> waiting c l c' -> live c'.
Proof.
  intros Hlive H. induction H as [c|c c3 p l m Hl _ IH|c c1 c3 p m Hp _ IH]; auto. apply IH.
  destruct (step_live _ _ _ Hlive (turn_adjust c p c1 Hp)) as [|[-> _]]; [done|].
  destruct Hp as (n & _ & Ho & _ & _ & E). apply (f_equal open) in E. cbn in E. congruence.
Qed.

Lemma waiting_closed c l c' : open c = false -> waiting c l c' -> c' = c.
Proof.
  intros Ho H. induction H as [c|c c3 p l m Hl _ IH|c c1 c3 p m Hp _ IH]; auto.
  destruct Hp as (n & _ & Ho' & _). congruence.
Qed.

Section setup.
Context (w0 : World S) (l0 : list event) (ps : list poll_event).

(** Packets [l0 ++ l] were exchanged and the channel is [c]. *)
Let at_packets (l : list event) (c : Channel) w : Prop := since w0 (packets_only (l0 ++ l)) c ps w.
Definition some_packets w : Prop := exists l, since_any w0 (packets_only l) w.

Lemma some_packets_intro l w : since_any w0 (packets_only l) w -> some_packets w.
Proof. by exists l. Qed.

Lemma packets_receive l c :
  triple (at_packets l c) receive (fun p w => 1 <= size p <= 34991 /\ at_packets (l ++ [Recv true p]) c w)
    some_packets some_packets.
Proof.
  eapply triple_conseq; [apply since_receive|done|..].
  - intros p w (Hp & Hw). split; [done|]. unfold at_packets. rewrite app_assoc. exact Hw.
  - apply some_packets_intro.
  - apply some_packets_intro.
Qed.

Lemma packets_request l c p :
  size p <= 34991 ->
  triple (at_packets (l ++ [Recv true p]) c) (handle_global_request p)
    (fun _ w => exists k, global_request p k /\ at_packets (l ++ Recv true p :: k) c w) some_packets some_packets.
Proof.
  intros Hp. eapply triple_conseq; [apply (since_global_request w0 (packets_only (l0 ++ l ++ [Recv true p])) c ps p Hp)|done|..].
  - intros _ w (k & Hk & Hw). exists k. split; [done|]. unfold at_packets.
    change (Recv true p :: k) with ([Recv true p] ++ k). rewrite !app_assoc. rewrite app_assoc in Hw. exact Hw.
  - intros w (k & _ & Hw). exists (((l0 ++ l ++ [Recv true p])) ++ k). exact Hw.
  - intros w (k & _ & Hw). exists (((l0 ++ l ++ [Recv true p])) ++ k). exact Hw.
Qed.

Lemma packets_lift {A} l c (r : res A) (Q : A -> Prop) B :
  safe r Q -> triple (at_packets l c) (lift r) (fun a w => Q a /\ at_packets l c w) some_packets B.
Proof.
  intros Hr. apply triple_lift; [done|]. intros w Hw. by apply some_packets_intro with (l0 ++ l), (since_weaken _ _ _ _ _ Hw).
Qed.

Lemma packets_update l c f (Q : Channel -> Prop) B :
  safe (f c) Q -> triple (at_packets l c) (update_channel f) (fun _ w => exists c', Q c' /\ at_packets l c' w) some_packets B.
Proof.
  intros Hf. eapply triple_conseq; [apply since_update, Hf|done|done|apply some_packets_intro|done].
Qed.

Lemma packets_throw {A} l c (e : string) (Q : A -> World S -> Prop) B : triple (at_packets l c) (mthrow e) Q some_packets B.
Proof. apply triple_throw. intros w Hw. by apply some_packets_intro with (l0 ++ l), (since_weaken _ _ _ _ _ Hw). Qed.

(** The packets until the channel is open. *)
Definition opened (c : Channel) w : Prop := exists k p c',
  waiting c k c /\ open_confirmation_spec p c c' /\ at_packets (k ++ [Recv true p]) c' w.

Lemma open_round_keeps c :
  open c = false ->
  let I w := (exists k, waiting c k c /\ at_packets k c w) \/ opened c w in
  triple I open_round (fun r w => match r with None => I w | Some _ => opened c w end) some_packets some_packets.
Proof.
  intros Ho I w [(k & Hk & Hw)|Hw].
  2: { unfold open_round. rewrite M_gets_run. pose proof Hw as (k & p & c' & _ & (? & ? & ? & _ & _ & _ & _ & _ & ->) & (_ & -> & _)).
       exact Hw. }
  revert w Hw. change (triple (at_packets k c) open_round
    (fun r w => match r with None => I w | Some _ => opened c w end) some_packets some_packets).
  unfold open_round. eapply triple_bind; [apply since_gets_chan|]. intros c1. apply triple_pure. intros ->. rewrite Ho.
  eapply triple_bind; [apply packets_receive|]. intros p. apply triple_pure. intros Hp.
  apply triple_if; intros Hsz; [apply packets_throw|].
  eapply triple_bind; [apply packets_lift with (Q := fun _ => True); destruct p as [|b p]; [done|by rewrite index_0]|].
  intros b. apply triple_pure. intros _.
  assert (Ha : addressable p) by (unfold addressable; lia).
  apply triple_bind with (fun _ => I); [|intros _; by apply triple_ret].
  repeat (apply triple_if; intros ?).
  - eapply triple_conseq; [apply packets_update, (parse_open_confirmation_safe p Ha c)|done| |done|done].
    intros _ w (c' & Hc' & Hw). right. by exists k, p, c'.
  - eapply triple_bind; [apply packets_lift with (Q := fun _ => True); eapply safe_mono; [apply (parse_open_failure_safe p Ha c)|done]|].
    intros f. apply triple_pure. intros _. apply packets_throw.
  - eapply triple_conseq; [apply packets_request; lia|done| |done|done].
    intros _ w (m & Hm & Hw). left. exists (k ++ Recv true p :: m). split; [|exact Hw].
    apply waiting_app with c; [done|]. rewrite <- (app_nil_r m). apply waiting_request; [done|apply waiting_done].
  - apply packets_throw.
Qed.

(** The packets until a request is answered. *)
Definition answered_request (c : Channel) w : Prop := exists k c',
  waiting c k c' /\ at_packets (k ++ [Recv true (wire [FByte ssh_message.CHANNEL_SUCCESS; FUint32 (local_id c')])]) c' w.

Lemma wait_round_keeps c name :
  live c ->
  let I w := exists k c', waiting c k c' /\ at_packets k c' w in
  triple I (wait_round name) (fun r w => match r with None => I w | Some _ => answered_request c w end) some_packets some_packets.
Proof.
  intros Hlive I w (k & c' & Hk & Hw). revert w Hw. pose proof (waiting_live _ _ _ Hlive Hk) as (Hwf & _).
  change (triple (at_packets k c') (wait_round name)
    (fun r w => match r with None => I w | Some _ => answered_request c w end) some_packets some_packets).
  unfold wait_round. eapply triple_bind; [apply packets_receive|]. intros p. apply triple_pure. intros Hp.
  apply triple_if; intros Hsz; [apply packets_throw|].
  eapply triple_bind; [apply packets_lift with (Q := fun _ => True); destruct p as [|b p]; [done|by rewrite index_0]|].
  intros b. apply triple_pure. intros _.
  assert (Ha : addressable p) by (unfold addressable; lia).
  eapply triple_bind; [apply since_gets_chan|]. intros c1. apply triple_pure. intros ->.
  repeat (apply triple_if; intros ?).
  - eapply triple_bind; [apply packets_lift, (validate_channel_success_safe p Ha c')|]. intros [].
    apply triple_pure. intros ->. apply triple_ret. intros w Hw. by exists k, c'.
  - eapply triple_bind; [apply packets_lift with (Q := fun _ => True); eapply safe_mono; [apply (validate_channel_failure_safe p Ha c')|done]|].
    intros []. apply triple_pure. intros _. apply packets_throw.
  - eapply triple_bind; [apply packets_request; lia|]. intros []. apply triple_ret. intros w (m & Hm & Hw).
    exists (k ++ Recv true p :: m), c'. split; [|exact Hw].
    apply waiting_app with c'; [done|]. rewrite <- (app_nil_r m). apply waiting_request; [done|apply waiting_done].
  - eapply triple_bind; [apply packets_update, (parse_window_adjust_safe p Ha c' Hwf)|]. intros []. apply triple_ret.
    intros w (c2 & Hc2 & Hw). exists (k ++ [Recv true p]), c2. split; [|exact Hw].
    apply waiting_app with c'; [done|]. by eapply waiting_adjust; [|apply waiting_done].
  - apply packets_throw.
Qed.

End setup.

(** *** The whole session *)

(** What holds of the world after the session, however it ended: what was said
    was encrypted, the host file is untouched, and the user's settings can be put
    back. *)
Definition orderly w w' : Prop :=
  encrypted w' /\ all_encrypted_since (history w) w' /\ disk w' = disk w /\ restorable (settings (con w)) w' /\
  (calls_ok (con w) -> calls_ok (con w')).

Lemma orderly_performed i w w' :
  raw_mode_active_ (term w) = false -> performed i w w' -> orderly w w'.
Proof.
  intros Ht (He & Hh & _ & _ & _ & Hd & Ht' & Hs & Hc & _ & Hi). unfold orderly, restorable, calls_ok.
  rewrite Ht', Ht, Hc. split_and!; try done. by exists (evs i).
Qed.

(** A part of the session inside raw mode. *)
Lemma orderly_raw i w w1 w2 :
  term w1 = {| original_settings_ := settings (con w); raw_mode_active_ := true |} ->
  history w1 = history w -> disk w1 = disk w -> (calls_ok (con w) -> calls_ok (con w1)) ->
  performed i w1 w2 -> orderly w w2.
Proof.
  intros Ht Hh1 Hd1 Hc1 (He & Hh & _ & _ & _ & Hd & Ht' & Hs & Hc & _ & Hi). unfold orderly, restorable, calls_ok in *.
  rewrite Ht', Ht, Hc. split_and!; try done; [|congruence]. exists (evs i). by rewrite Hh, Hh1.
Qed.

Lemma interrupted_raw w w1 w2 :
  term w1 = {| original_settings_ := settings (con w); raw_mode_active_ := true |} ->
  history w1 = history w -> disk w1 = disk w -> (calls_ok (con w) -> calls_ok (con w1)) ->
  interrupted w1 w2 -> orderly w w2.
Proof.
  intros Ht Hh1 Hd1 Hc1 (i & c & j & Hi & Hj & Hp). by apply (orderly_raw (io_app i j) w w1 w2).
Qed.

Lemma shell_spec cfmakeraw w :
  encrypted w -> live (chan w) -> raw_mode_active_ (term w) = false ->
  match run_interactive_shell cfmakeraw w with
  | (Undef, _) => False
  | (r, w') => orderly w w' /\
      (r = Ok tt -> exists i, session_steps (chan w) i (chan w') /\ open (chan w') = false /\
        history w' = history w ++ evs i /\ out (con w') = out (con w) ++ shown i /\
        err (con w') = err (con w) ++ shown_err i /\
        key_bytes (keyboard (con w)) = typed i ++ key_bytes (keyboard (con w')) /\
        raw_mode_active_ (term w') = false /\ settings (con w') = settings (con w))
  end.
Proof.
  intros He Hlive Ht. unfold run_interactive_shell.
  destruct (enable_raw_mode_cases cfmakeraw (term w) (con w) Ht) as (r1 & t1 & st1 & calls1 & Hraw & Hok1 & Hcase).
  assert (Hrun : on_tm (enable_raw_mode cfmakeraw) w = (r1, set_tm (t1, set_tty st1 calls1 (con w)) w)).
  { unfold on_tm, zoom. by rewrite Hraw. }
  rewrite (M_bind_res _ _ _ _ _ Hrun). set (w1 := set_tm _ w).
  assert (Hc1 : calls_ok (con w) -> calls_ok (con w1)) by (intros H; by apply Hok1).
  destruct Hcase as [(-> & -> & ->)|((e & ->) & Ht1 & ->)].
  2: { split; [|done]. unfold orderly, restorable. split_and!; try done; [exists []; by rewrite app_nil_r|].
       cbn [term w1 set_tm fst]. rewrite Ht1. done. }
  unfold shell_loop. pose proof (shell_loop_steps (Datatypes.S (length (polls w1))) w1 He (or_introl Hlive)) as Hloop.
  unfold mbind, M_bind. destruct (loop _ shell_round w1) as [[[]|e| |] w2].
  2: { split; [|done]. by apply (interrupted_raw w w1 w2). }
  2: done.
  2: { split; [|done]. by apply (interrupted_raw w w1 w2). }
  destruct Hloop as (i & Hi & Hp & Ho).
  assert (Hord : orderly w w2) by (apply (orderly_raw i w w1 w2); [done..|exact Hp]).
  pose proof Hp as (He2 & Hh2 & Hout2 & Herr2 & Hk2 & Hd2 & Ht2 & Hs2 & Hcalls2 & _).
  destruct (restore_cases (term w2) (con w2)) as (r3 & t3 & st3 & calls3 & Hres & Hok3 & Hcase).
  unfold on_tm, zoom. rewrite Hres. rewrite Ht2 in Hcase. cbn [raw_mode_active_ term w1 set_tm fst] in Hcase.
  set (w3 := set_tm (t3, set_tty st3 calls3 (con w2)) w2).
  destruct Hord as (_ & Hall & Hd & _ & Hc2).
  assert (Hc3 : calls_ok (con w) -> calls_ok (con w3)) by (intros H; by apply Hok3, Hc2).
  destruct Hcase as [(-> & Ht3 & ->)|((e & ->) & -> & ->)].
  - split.
    + unfold orderly, restorable. cbn [term w3 set_tm fst]. rewrite Ht3. by split_and!.
    + intros _. exists i. by split_and!.
  - split; [|done]. unfold orderly, restorable. cbn [term w3 set_tm fst]. cbn. by split_and!.
Qed.

Definition open_message : bytes :=
  wire [FByte ssh_message.CHANNEL_OPEN; FString (str "session"); FUint32 INITIAL_CHANNEL_ID;
        FUint32 LOCAL_WINDOW_TARGET; FUint32 LOCAL_MAX_PACKET_SIZE].
Definition shell_message (c : Channel) : bytes :=
  wire [FByte ssh_message.CHANNEL_REQUEST; FUint32 (remote_id c); FString (str "shell"); FByte 1].
Definition success_message (c : Channel) : bytes :=
  wire [FByte ssh_message.CHANNEL_SUCCESS; FUint32 (local_id c)].

(** The dialogue that leads to the shell, from a new channel to the channel
    [c3]: each request of the client and the server's answer to it, with what may
    come before the answer. *)
Definition session_dialogue (l : list event) (c3 : Channel) : Prop :=
  exists k1 p c1 info pty k2 c2 k3,
    waiting Channel_new k1 Channel_new /\ open_confirmation_spec p Channel_new c1 /\
    columns info <> 0 /\ rows info <> 0 /\
    create_pty_request c1 (type info) (columns info) (rows info) = Ok pty /\
    waiting c1 k2 c2 /\ waiting c2 k3 c3 /\
    l = Send true open_message :: k1 ++ Recv true p ::
        Send true pty :: k2 ++ Recv true (success_message c2) ::
        Send true (shell_message c2) :: k3 ++ [Recv true (success_message c3)].

Lemma open_confirmation_live p c1 : open_confirmation_spec p Channel_new c1 -> live c1.
Proof.
  intros (sender & window & m & Hs & Hw & Hm & _ & _ & ->).
  unfold MIN_MAX_PACKET_SIZE in *. unfold live, wf_channel, LOCAL_WINDOW_THRESHOLD, LOCAL_WINDOW_TARGET, MIN_MAX_PACKET_SIZE. cbn.
  unfold INITIAL_CHANNEL_ID, LOCAL_WINDOW_TARGET, LOCAL_MAX_PACKET_SIZE. split_and!; try done; try lia.
Qed.

Lemma create_pty_request_safe c t cols rws :
  safe (create_pty_request c t cols rws) (fun p => size p < 2 ^ 63).
Proof.
  unfold create_pty_request. destruct (negb (open c)); [done|]. destruct (size t =? 0); [done|].
  destruct (_ || _); [done|]. rewrite append_string_ok, !encode_uint32_be32 by done. cbn [mbind res_bind].
  rewrite append_string_eq. destruct (Z.ltb_spec (size t) (2 ^ 32)); [|done]. cbn [mbind res_bind].
  rewrite append_string_ok by done. cbn [safe]. autorewrite with size. rewrite !size_be32.
  change (size (str "pty-req")) with 7. lia.
Qed.

Lemma get_terminal_info_ok c : exists info, get_terminal_info c = (Ok info, c) /\ columns info <> 0 /\ rows info <> 0.
Proof.
  unfold get_terminal_info, gets. eexists. split; [done|].
  destruct (window_size c) as [[x y]|]; [|done].
  destruct (Z.eqb_spec x 0), (Z.eqb_spec y 0); done.
Qed.

Section requests.
Context (w0 : World S) (ps : list poll_event).
Let at_ (l : list event) (c : Channel) w := since w0 (packets_only l) c ps w.
Let failed := some_packets w0.

Lemma at_intro l c w : at_ l c w -> failed w.
Proof. intros Hw. exists l. by apply (since_weaken _ _ _ _ _ Hw). Qed.

Lemma at_send l c p : size p < 2 ^ 63 -> triple (at_ l c) (send p) (fun _ => at_ (l ++ [Send true p]) c) failed failed.
Proof.
  intros Hp. eapply triple_conseq; [apply since_send, Hp|done|done|..]; intros w Hw; by exists (l ++ [Send true p]).
Qed.

Lemma open_session_triple :
  triple (at_ [] Channel_new) open_session_channel
    (fun _ w => exists k p c, waiting Channel_new k Channel_new /\ open_confirmation_spec p Channel_new c /\
       at_ (Send true open_message :: k ++ [Recv true p]) c w) failed failed.
Proof.
  unfold open_session_channel. eapply triple_bind; [apply since_gets_chan|]. intros c0. apply triple_pure. intros ->.
  rewrite create_session_open_eq by done. apply triple_lift_Ok.
  eapply triple_bind; [apply at_send; by vm_compute|]. intros [].
  eapply triple_conseq; [apply triple_packet_loop with (B := failed);
    [apply (open_round_keeps w0 [Send true open_message] ps Channel_new); done|]| | | |].
  - intros w [(k & _ & Hw)|(k & p & c & _ & _ & Hw)]; by eapply at_intro.
  - intros w Hw. left. exists []. split; [apply waiting_done|exact Hw].
  - intros [] w (k & p & c & Hk & Hp & Hw). by exists k, p, c.
  - done.
  - done.
Qed.

(** A request and the wait for its answer. *)
Lemma request_triple l c (r : res bytes) name :
  live c -> safe r (fun p => size p < 2 ^ 63) ->
  triple (at_ l c) (payload ← lift r; send payload;; wait_for_channel_request_result name)
    (fun _ w => exists q k c', r = Ok q /\ waiting c k c' /\
       at_ (l ++ Send true q :: k ++ [Recv true (success_message c')]) c' w) failed failed.
Proof.
  intros Hlive Hr. destruct r as [q|e| |]; [|by intros w Hw; apply at_intro in Hw|done|done]. cbn in Hr.
  apply triple_lift_Ok. eapply triple_bind; [by apply at_send|]. intros [].
  eapply triple_conseq; [apply triple_packet_loop with (B := failed);
    [apply (wait_round_keeps w0 (l ++ [Send true q]) ps c name Hlive)|]| | | |].
  - intros w (k & c' & _ & Hw). by eapply at_intro.
  - intros w Hw. exists [], c. split; [apply waiting_done|]. rewrite app_nil_r. exact Hw.
  - intros [] w (k & c' & Hk & Hw). exists q, k, c'. split; [done|]. split; [done|]. rewrite <- app_assoc in Hw. exact Hw.
  - done.
  - done.
Qed.

End requests.

(** Between the new channel and raw mode: the dialogue, from the world [w]. *)
Definition dialogue : M (World S) unit :=
  open_session_channel;;
  terminal_info ← on_con get_terminal_info;
  request_pty terminal_info;;
  request_shell.

Lemma dialogue_triple w0 ps :
  triple (since w0 io_nil Channel_new ps) dialogue
    (fun _ w => exists l c3, session_dialogue l c3 /\ live c3 /\ since w0 (packets_only l) c3 ps w)
    (some_packets w0) (some_packets w0).
Proof.
  unfold dialogue. eapply triple_bind; [apply (open_session_triple w0 ps)|]. intros [].
  intros w (k1 & p & c1 & Hk1 & Hp & Hw). revert w Hw.
  pose proof (open_confirmation_live p c1 Hp) as Hl1.
  set (l1 := Send true open_message :: k1 ++ [Recv true p]).
  eapply triple_bind with (Q := fun info w => (columns info <> 0 /\ rows info <> 0) /\ since w0 (packets_only l1) c1 ps w).
  { intros w Hw. unfold on_con, zoom. destruct (get_terminal_info_ok (con w)) as (info & -> & H1 & H2).
    split; [done|]. replace (set_con (con w) w) with w by (by destruct w). done. }
  intros info. apply triple_pure. intros [Hcols Hrows].
  eapply triple_bind with (Q := fun _ w => exists q k c2, create_pty_request c1 (type info) (columns info) (rows info) = Ok q /\
    waiting c1 k c2 /\ since w0 (packets_only (l1 ++ Send true q :: k ++ [Recv true (success_message c2)])) c2 ps w).
  { unfold request_pty. eapply triple_bind; [apply since_gets_chan|]. intros c0. apply triple_pure. intros ->.
    apply (request_triple w0 ps l1 c1 _ "pty-req" Hl1). apply create_pty_request_safe. }
  intros [] w (pty & k2 & c2 & Hpty & Hk2 & Hw). revert w Hw. pose proof (waiting_live _ _ _ Hl1 Hk2) as Hl2.
  set (l2 := l1 ++ _).
  unfold request_shell. eapply triple_bind; [apply since_gets_chan|]. intros c0. apply triple_pure. intros ->.
  rewrite create_shell_request_eq by apply Hl2. eapply triple_conseq.
  { apply (request_triple w0 ps l2 c2 (Ok (shell_message c2)) "shell" Hl2). by vm_compute. }
  1, 3, 4: done.
  intros [] w (q & k3 & c3 & [= <-] & Hk3 & Hw). eexists _, c3. split; [|split; [by eapply waiting_live|exact Hw]].
  exists k1, p, c1, info, pty, k2, c2, k3. split_and!; try done.
  unfold l2, l1. rewrite <- !app_assoc. cbn [app]. by rewrite <- !app_assoc.
Qed.

Lemma orderly_trans w w1 w2 :
  raw_mode_active_ (term w1) = false -> settings (con w1) = settings (con w) ->
  orderly w w1 -> orderly w1 w2 -> orderly w w2.
Proof.
  intros Ht Hs (_ & (l & Hl & Hle) & Hd & _ & Hc) (He & (k & Hk & Hke) & Hd' & Hr & Hc').
  unfold orderly. rewrite Hd', Hd. rewrite Hs in Hr. split_and!; try done; [|auto].
  exists (l ++ k). rewrite Hk, Hl, app_assoc. split; [done|by apply Forall_app].
Qed.

Lemma some_packets_orderly w w' :
  raw_mode_active_ (term w) = false -> some_packets w w' -> orderly w w'.
Proof. intros Ht (l & Hw). by apply (orderly_performed (packets_only l)). Qed.

(** What [run_connection_session] does after the dialogue. *)
Definition interactive cfmakeraw : M (World S) unit :=
  run_interactive_shell cfmakeraw;;
  c ← gets chan;
  if exit_status_received c
  then on_con (print (str "
Remote exit status: " ++ to_string (exit_status c) ++ str "
"))
  else mret tt.

Lemma session_split cfmakeraw w :
  run_connection_session cfmakeraw w = (dialogue;; interactive cfmakeraw) (set_chan Channel_new w).
Proof.
  unfold run_connection_session. rewrite M_modify_run. set (w1 := set_chan Channel_new w).
  unfold dialogue, interactive, mbind, M_bind. destruct (open_session_channel w1) as [[] x]; try done.
  destruct (on_con get_terminal_info x) as [[] x']; try done. by destruct (request_pty _ x') as [[] x''].
Qed.

(** [run_connection_session], whatever happens. *)
Lemma session_spec cfmakeraw w :
  encrypted w -> raw_mode_active_ (term w) = false ->
  match run_connection_session cfmakeraw w with
  | (Undef, _) => False
  | (r, w') => orderly w w' /\
      (r = Ok tt -> exists l c3 i status,
        session_dialogue l c3 /\ session_steps c3 i (chan w') /\ open (chan w') = false /\
        history w' = history w ++ l ++ evs i /\
        status = (if exit_status_received (chan w')
                  then str "
Remote exit status: " ++ to_string (exit_status (chan w')) ++ str "
" else []) /\
        out (con w') = out (con w) ++ shown i ++ status /\ err (con w') = err (con w) ++ shown_err i /\
        key_bytes (keyboard (con w)) = typed i ++ key_bytes (keyboard (con w')) /\
        raw_mode_active_ (term w') = false /\ settings (con w') = settings (con w))
  end.
Proof.
  intros He Ht. rewrite session_split. set (w1 := set_chan Channel_new w).
  pose proof (dialogue_triple w1 (polls w1) w1 (conj (performed_refl w1 He) (conj eq_refl eq_refl))) as Hd.
  unfold mbind at 1, M_bind at 1. destruct (dialogue w1) as [[[]| | |] w2]; try done; unfold interactive.
  2, 3: split; [by apply (some_packets_orderly w1)|done].
  destruct Hd as (l & c3 & Hdia & Hlive & Hp & Hc3 & _).
  pose proof Hp as (He2 & Hh2 & Hout2 & Herr2 & Hk2 & Hd2 & Ht2 & Hs2 & _).
  assert (Htw : raw_mode_active_ (term w2) = false) by (by rewrite Ht2).
  assert (Ho2 : orderly w w2) by (by apply (orderly_performed (packets_only l) w1)).
  rewrite <- Hc3 in Hlive. pose proof (shell_spec cfmakeraw w2 He2 Hlive Htw) as Hsh.
  unfold mbind at 1, M_bind at 1. destruct (run_interactive_shell cfmakeraw w2) as [[[]| | |] w3]; try done.
  2, 3: split; [|done]; destruct Hsh as [Hsh _]; by apply (orderly_trans w w2).
  destruct Hsh as [Hsh Hok]. destruct (Hok eq_refl) as (i & Hi & Ho3 & Hh3 & Hout3 & Herr3 & Hk3 & Ht3 & Hs3).
  assert (Ho : orderly w w3) by (by apply (orderly_trans w w2)).
  rewrite M_gets_run. rewrite Hc3 in Hi.
  cbn [evs shown shown_err typed packets_only] in Hh2, Hout2, Herr2, Hk2. rewrite app_nil_r in Hout2, Herr2.
  destruct (exit_status_received (chan w3)) eqn:Ee.
  - split; [destruct Ho as (? & ? & ? & ? & ?); by split_and!|]. intros _. exists l, c3, i. eexists.
    split_and!; try done; cbn; rewrite ?Ee, ?Hh3, ?Hh2, ?Hout3, ?Hout2, ?Herr3, ?Herr2, ?Hs3, <- ?app_assoc; try done.
    by rewrite <- Hk3.
  - split; [done|]. intros _. exists l, c3, i. eexists.
    split_and!; try done; cbn; rewrite ?Ee, ?Hh3, ?Hh2, ?Hout3, ?Hout2, ?Herr3, ?Herr2, ?Hs3, ?app_nil_r, <- ?app_assoc; try done.
    by rewrite <- Hk3.
Qed.

End facts.

(** ** Properties *)

Section properties.
Context {C : Crypto} {CS : CryptoSizes} {S : Type} {BS : ByteStream S} {BL : ByteStreamLaws S}.
Implicit Types w : World S.

(** C6: the loop of the interactive shell refines the abstract session.  Whatever
    the server sends, whatever is typed and in whatever order [poll] reports it,
    the loop never runs into undefined behaviour; what it exchanges, all of it
    encrypted, is what a sequence of session steps exchanges (followed, if it did
    not return, by at most one message it did not accept or one step that was
    cut short); and it returns only with the channel closed. *)
Theorem shell_refines_session w r w' :
  encrypted w -> live (chan w) -> shell_loop w = (r, w') ->
  r <> Undef /\
  (r = Ok tt -> exists i, session_steps (chan w) i (chan w') /\ performed i w w' /\ open (chan w') = false) /\
  (r <> Ok tt -> interrupted w w').
Proof.
  intros He Hlive Hrun. unfold shell_loop in Hrun.
  pose proof (shell_loop_steps (Datatypes.S (length (polls w))) w He (or_introl Hlive)) as H. rewrite Hrun in H.
  destruct r as [[]|e| |]; [..|done|]; by split_and!.
Qed.

(** C12: a session that ends normally has followed RFC 4254: the client opened the
    channel with its window and packet size and the server confirmed; it asked
    for a terminal and then for a shell, each time going on only after the
    server's SSH_MSG_CHANNEL_SUCCESS, with nothing in between but global requests,
    which it refused, and window adjustments; then came the interactive session up
    to its close.  What was typed was sent and what was sent to it was shown; an
    exit status is reported last.  However the session ends, there is no undefined
    behaviour, all of it was encrypted, and the user's terminal settings are in
    place or saved for the destructor. *)
Theorem connection_session_script cfmakeraw w r w' :
  encrypted w -> raw_mode_active_ (term w) = false -> run_connection_session cfmakeraw w = (r, w') ->
  r <> Undef /\ orderly w w' /\
  (r = Ok tt -> exists l c3 i status,
    session_dialogue l c3 /\ session_steps c3 i (chan w') /\ open (chan w') = false /\
    history w' = history w ++ l ++ evs i /\
    status = (if exit_status_received (chan w')
              then str "
Remote exit status: " ++ to_string (exit_status (chan w')) ++ str "
" else []) /\
    out (con w') = out (con w) ++ shown i ++ status /\ err (con w') = err (con w) ++ shown_err i /\
    key_bytes (keyboard (con w)) = typed i ++ key_bytes (keyboard (con w')) /\
    raw_mode_active_ (term w') = false /\ settings (con w') = settings (con w)).
Proof.
  intros He Ht Hrun. pose proof (session_spec cfmakeraw w He Ht) as H. rewrite Hrun in H.
  destruct r as [[]|e| |]; [..|done|]; destruct H as [H1 H2]; (split; [done|split; [exact H1|exact H2]]).
Qed.

End properties.

(** ** Concrete runs *)

Section samples.
#[local] Existing Instances Toy.crypto Toy.sizes_ok Toy.cipher_ok.

(** What a server sends under the keys of the sample: the wire bytes of its
    messages. *)
Definition server_says (msgs : list bytes) : bytes :=
  let server : tstate Socket :=
    {| sock_ := {| fd_ := 4; rx := []; tx := [TxRoom 100000]; sent := []; open_fds := {[4]} |}; rand := sample_seed;
       obj := set_outgoing 3 true (Some sample_context) (Some (str "key")) Transport_new |} in
  outgoing (sock_ (run_sender (Packet <$> msgs) server).2).

Definition session_world (msgs : list bytes) (keys : list key_event) (script : list poll_event) : World Socket :=
  {| net := {| sock_ := {| fd_ := 3; rx := (fun b => RxData b []) <$> server_says msgs; tx := [TxRoom 100000]; sent := [];
                           open_fds := {[3]} |};
               rand := sample_seed;
               obj := set_incoming 3 true (Some sample_context) (Some (str "key"))
                 (set_outgoing 3 true (Some sample_context) (Some (str "key")) Transport_new) |};
     disk := sample_disk ∅; con := set_keyboard keys sample_console; term := Terminal_new; chan := sample_channel;
     polls := script; history := [] |}.

(** The user types a line, the server answers and closes. *)
Definition sample_shell : World Socket :=
  session_world [wire [FByte 94; FUint32 0; FString (str "ok")]; wire [FByte 97; FUint32 0]]
    [Keys x6c [x73; x0a]] [PollReady true false false; PollEintr; PollReady false true false; PollReady false true true].

Lemma sample_shell_encrypted msgs keys script : encrypted (session_world msgs keys script).
Proof. split; [|done]. split; [|split]; cbn; [lia|lia|]. split; intros _; split; by eexists. Qed.

Lemma shell_refines_session_witness : exists w' i,
  shell_loop sample_shell = (Ok tt, w') /\ session_steps sample_channel i (chan w') /\ performed i sample_shell w' /\
  open (chan w') = false.
Proof.
  destruct (shell_refines_session sample_shell (Ok tt) (shell_loop sample_shell).2) as (_ & H & _).
  - apply sample_shell_encrypted.
  - exact sample_live.
  - apply outcome_of. vm_compute. reflexivity.
  - destruct (H eq_refl) as (i & Hi). exists (shell_loop sample_shell).2, i.
    split; [apply outcome_of; vm_compute; reflexivity|exact Hi].
Defined.

(** The server opens the channel, accepts both requests, and closes. *)
Definition sample_session : World Socket :=
  session_world [wire [FByte 91; FUint32 0; FUint32 7; FUint32 10; FUint32 32768]; wire [FByte 99; FUint32 0];
                 wire [FByte 80; FString (str "hostkeys"); FRaw [x01]]; wire [FByte 99; FUint32 0];
                 wire [FByte 98; FUint32 0; FString (str "exit-status"); FByte 0; FUint32 3];
                 wire [FByte 97; FUint32 0]]
    [] [PollReady false true false; PollReady false true false].

Lemma connection_session_script_witness : exists w',
  run_connection_session hide sample_session = (Ok tt, w') /\ open (chan w') = false /\ settings (con w') = sample_settings.
Proof.
  destruct (connection_session_script hide sample_session (Ok tt) (run_connection_session hide sample_session).2)
    as (_ & _ & H).
  - apply sample_shell_encrypted.
  - reflexivity.
  - apply outcome_of. vm_compute. reflexivity.
  - destruct (H eq_refl) as (l & c3 & i & st & _ & _ & Ho & _ & _ & _ & _ & _ & _ & Hs).
    exists (run_connection_session hide sample_session).2.
    split; [apply outcome_of; vm_compute; reflexivity|]. split; [exact Ho|exact Hs].
Defined.

End samples.
