(* ===== verification/Flow.v ===== *)
(** * What a session guarantees: the loop of [run_interactive_shell]

    The facts of [Session] about sequences of abstract steps, carried over to
    every run of [shell_loop] by the refinement of [Shell]: flow control in both
    directions, the close handshake, and the data carried between the terminal
    and the server.  They are stated on the packets the program exchanged, as its
    history records them, and hold however the run ends. *)

From S2P Require Import Prelude Encoding Connection Socket Crypto Transport Packets Kex KnownHosts Terminal World Session Shell.

(** The last message of a run that did not return, if the client refused it. *)
Definition refused (m : list event) : Prop := m = [] \/ exists p, m = [Recv true p].

Section flow.
Context {C : Crypto} {CS : CryptoSizes} {S : Type} {BS : ByteStream S} {BL : ByteStreamLaws S}.
Implicit Types w : World S.

(** A run of the loop exchanged what steps of the session exchange, and then at
    most a message it refused. *)
Lemma loop_run w r w' :
  encrypted w -> live (chan w) -> shell_loop w = (r, w') ->
  exists i c m, session_steps (chan w) i c /\ refused m /\ performed (io_app i (packets_only m)) w w' /\
    (r = Ok tt -> m = [] /\ c = chan w' /\ open c = false).
Proof.
  intros He Hlive Hrun.
  pose proof (shell_loop_steps (Datatypes.S (length (polls w))) w He (or_introl Hlive)) as H.
  unfold shell_loop in Hrun. rewrite Hrun in H.
  assert (Hint : interrupted w w' -> exists i c m, session_steps (chan w) i c /\ refused m /\
    performed (io_app i (packets_only m)) w w').
  { intros (i & c & j & Hi & [->|[[p ->]|[c' Hj]]] & Hp).
    - exists i, c, []. by split; [|split; [left|]].
    - exists i, c, [Recv true p]. by split; [|split; [right; exists p|]].
    - exists (io_app i j), c', []. split; [by eapply session_steps_app; [|apply session_steps_one]|].
      split; [by left|]. change (packets_only []) with io_nil. by rewrite io_app_nil_r. }
  destruct r as [[]|e| |]; [|apply Hint in H|done|apply Hint in H].
  - destruct H as (i & Hi & Hp & Ho). exists i, (chan w'), []. change (packets_only []) with io_nil.
    rewrite io_app_nil_r. split; [done|]. split; [by left|]. by split.
  - destruct H as (i & c & m & ? & ? & ?). by exists i, c, m.
  - destruct H as (i & c & m & ? & ? & ?). by exists i, c, m.
Qed.

Lemma refused_credit v m : 0 <= v -> refused m -> solvent remote_credit v m.
Proof.
  intros Hv [->|[p ->]]; [by apply solvent_nil|]. apply solvent_cons; [done|]. apply solvent_nil. cbn [remote_credit].
  unfold adjust_bytes. destruct (_ =? _); [|lia]. pose proof (be_value_range (drop 5 p)). lia.
Qed.

Lemma on_account_end credit v v' l : on_account credit v v' l -> 0 <= v'.
Proof. intros [-> Hl]. apply (Hl l []). by rewrite app_nil_r. Qed.

(** ** Properties *)

(** C8: flow control.  However a run of the interactive loop ends, and whatever
    the server does, the client never sends more channel data than the server
    has allowed up to then, never takes more data than it has itself allowed,
    and never allows the server more than its target of 1 MiB: on the packets
    exchanged, no prefix overdraws one of the three accounts (for the client's
    own, up to a last message that it refused).  When the loop returns each
    window is its starting value plus exactly what the packets grant and use. *)
Theorem shell_keeps_windows w r w' :
  encrypted w -> live (chan w) -> shell_loop w = (r, w') ->
  exists l m, history w' = history w ++ l ++ m /\ refused m /\
    solvent remote_credit (remote_window (chan w)) (l ++ m) /\
    solvent local_credit (local_window (chan w)) l /\
    solvent local_debit (LOCAL_WINDOW_TARGET - local_window (chan w)) l /\
    (r = Ok tt -> m = [] /\
       remote_window (chan w') = remote_window (chan w) + balance remote_credit l /\
       local_window (chan w') = local_window (chan w) + balance local_credit l).
Proof.
  intros He Hlive Hrun. destruct (loop_run w r w' He Hlive Hrun) as (i & c & m & Hi & Hm & Hp & Hok).
  destruct (session_accounts _ _ _ Hlive Hi) as (Hr & Hl & Hd & _). exists (evs i), m.
  split; [apply Hp|]. split; [done|].
  split; [apply solvent_app; [apply Hr|]; rewrite <- (proj1 Hr); apply refused_credit; [by eapply on_account_end|done]|].
  split; [apply Hl|]. split; [apply Hd|]. intros [-> [<- _]]%Hok. by rewrite <- (proj1 Hr), <- (proj1 Hl).
Qed.

(** C14: the channel is closed once and for good.  The packets of a run are [l],
    with no SSH_MSG_CHANNEL_CLOSE among them, then nothing or the close handshake
    (the server's close for the client's channel number, the client's answer to
    the server's number), then at most a message the client refused.  When the
    loop returns, the handshake was made and nothing came after it. *)
Theorem shell_closes_once w r w' :
  encrypted w -> live (chan w) -> shell_loop w = (r, w') ->
  exists l k m, history w' = history w ++ l ++ k ++ m /\ Forall no_close l /\ refused m /\
    let handshake := [Recv true (wire [FByte ssh_message.CHANNEL_CLOSE; FUint32 (local_id (chan w))]);
                      Send true (wire [FByte ssh_message.CHANNEL_CLOSE; FUint32 (remote_id (chan w))])] in
    (k = [] \/ k = handshake) /\ (r = Ok tt -> k = handshake /\ m = []).
Proof.
  intros He Hlive Hrun. destruct (loop_run w r w' He Hlive Hrun) as (i & c & m & Hi & Hm & Hp & Hok).
  pose proof (session_closes _ _ _ Hlive Hi) as Hclose. destruct Hp as (_ & Hh & _). cbn [evs io_app packets_only] in Hh.
  destruct (open c) eqn:Ho.
  - exists (evs i), [], m. split; [done|]. split; [done|]. split; [done|]. split; [by left|].
    intros (_ & _ & Hc)%Hok. congruence.
  - destruct Hclose as (l & Hl & Hevs). exists l. eexists _, m. rewrite Hh, Hevs, <- app_assoc.
    split; [done|]. split; [done|]. split; [done|]. split; [by right|]. intros [-> _]%Hok. done.
Qed.

(** C38: the terminal is a faithful pipe.  However a run ends, the keys taken from
    the keyboard are the channel data sent, in order, with nothing lost, added or
    repeated; what was shown on each stream of the terminal is a prefix of the
    data the server sent for that stream, and all of it when the loop returns. *)
Theorem shell_is_a_pipe w r w' :
  encrypted w -> live (chan w) -> shell_loop w = (r, w') ->
  exists l o e, history w' = history w ++ l /\
    key_bytes (keyboard (con w)) = concat (sent_data <$> l) ++ key_bytes (keyboard (con w')) /\
    out (con w') = out (con w) ++ o /\ o `prefix_of` concat (received_data <$> l) /\
    err (con w') = err (con w) ++ e /\ e `prefix_of` concat (received_stderr <$> l) /\
    (r = Ok tt -> o = concat (received_data <$> l) /\ e = concat (received_stderr <$> l)).
Proof.
  intros He Hlive Hrun. destruct (loop_run w r w' He Hlive Hrun) as (i & c & m & Hi & Hm & Hp & Hok).
  destruct (session_carries _ _ _ Hi) as (Ht & Hs & Hse). destruct Hp as (_ & Hh & Hout & Herr & Hk & _).
  cbn [evs shown shown_err typed io_app packets_only] in *. rewrite app_nil_r in Hout, Herr, Hk.
  exists (evs i ++ m), (shown i), (shown_err i). rewrite !fmap_app, !concat_app, <- Ht, <- Hs, <- Hse.
  assert (concat (sent_data <$> m) = []) as -> by (by destruct Hm as [->|[p ->]]). rewrite app_nil_r.
  split; [done|]. split; [done|]. split; [done|]. split; [by apply prefix_app_r|]. split; [done|].
  split; [by apply prefix_app_r|]. intros [-> _]%Hok. by rewrite !app_nil_r.
Qed.

End flow.

(** ** Concrete runs *)

Section samples.
#[local] Existing Instances Toy.crypto Toy.sizes_ok Toy.cipher_ok.

(** The run of [sample_shell]: the user types a line, the server answers and
    closes. *)
Lemma sample_shell_run : shell_loop sample_shell = (Ok tt, (shell_loop sample_shell).2).
Proof. apply outcome_of. vm_compute. reflexivity. Qed.

Lemma shell_keeps_windows_witness : exists l,
  solvent remote_credit 10 l /\ solvent local_credit 1048576 l /\
  history (shell_loop sample_shell).2 = l.
Proof.
  destruct (shell_keeps_windows sample_shell (Ok tt) _ (sample_shell_encrypted _ _ _) sample_live sample_shell_run)
    as (l & m & Hh & _ & Hr & Hl & _ & Hok).
  destruct (Hok eq_refl) as (-> & _). rewrite app_nil_r in Hh, Hr. exists l. by split; [|split].
Defined.

Lemma shell_closes_once_witness : exists l,
  Forall no_close l /\ history (shell_loop sample_shell).2 =
    l ++ [Recv true (wire [FByte 97; FUint32 0]); Send true (wire [FByte 97; FUint32 7])].
Proof.
  destruct (shell_closes_once sample_shell (Ok tt) _ (sample_shell_encrypted _ _ _) sample_live sample_shell_run)
    as (l & k & m & Hh & Hl & _ & _ & Hok).
  destruct (Hok eq_refl) as [-> ->]. rewrite app_nil_r in Hh. exists l. by split.
Defined.

Lemma shell_is_a_pipe_witness : exists l,
  history (shell_loop sample_shell).2 = l /\ concat (sent_data <$> l) = [x6c; x73; x0a] /\
  concat (received_data <$> l) = str "ok".
Proof.
  destruct (shell_is_a_pipe sample_shell (Ok tt) _ (sample_shell_encrypted _ _ _) sample_live sample_shell_run)
    as (l & o & e & Hh & Hk & Ho & _ & _ & _ & Hok).
  destruct (Hok eq_refl) as [-> _]. exists l. split; [exact Hh|].
  assert (Hleft : key_bytes (keyboard (con (shell_loop sample_shell).2)) = []) by (vm_compute; reflexivity).
  assert (Hshown : out (con (shell_loop sample_shell).2) = str "ok") by (vm_compute; reflexivity).
  rewrite Hleft, app_nil_r in Hk. split; [by rewrite <- Hk|]. by rewrite <- Hshown, Ho.
Defined.

End samples.
