(* ===== verification/Turns.v ===== *)
(** * The loops of the session, turn by turn

    No code of its own: the loops of [open_session_channel],
    [wait_for_channel_request_result] and [run_interactive_shell] of
    [src/main.cpp], whose bodies are [open_round], [wait_round] and [shell_round]
    of [Shell], followed turn by turn.  A loop of [Shell] runs on scripts that
    come to an end; here the turns are counted for as long as they go on, under a
    [poll] that may report anything any number of times, to say when the real
    loops come to their end and when they do not. *)

From S2P Require Import Prelude Encoding Connection Socket Crypto Transport Packets Kex KnownHosts Terminal World Session Shell.

(** ** Turns *)

Section turns.
Context {C : Crypto} {S : Type} {BS : ByteStream S}.
Implicit Types w : World S.

(** [n] turns of a loop, each of which goes round again. *)
Inductive rounds {A} (body : M (World S) (option A)) : nat -> World S -> World S -> Prop :=
  | rounds_none w : rounds body 0 w w
  | rounds_next n w w1 w2 : body w = (Ok None, w1) -> rounds body n w1 w2 -> rounds body (Datatypes.S n) w w2.

(** A turn of the shell loop in which [poll] reports [e]. *)
Definition turn (e : poll_event) w : res (option unit) * World S := shell_round (set_polls [e] w).

(** One turn after the other, in which [poll] reports the events [es] and the
    loop goes round again. *)
Inductive turns : list poll_event -> World S -> World S -> Prop :=
  | turns_none w : turns [] w w
  | turns_next e es w w1 w2 : turn e w = (Ok None, w1) -> turns es w1 w2 -> turns (e :: es) w w2.

(** The keyboard has a key, as opposed to the end of its input. *)
Definition has_keys w : bool := match keyboard (con w) with Keys _ _ :: _ => true | _ => false end.

(** A turn that finds nothing to do: a signal, or no input the loop looks at, or
    a keyboard at the end of its input. *)
Definition idle (e : poll_event) w : bool :=
  match e with
  | PollEintr => true
  | PollError => false
  | PollReady keyboard_in socket_in _ =>
      negb socket_in && negb (keyboard_in && (remote_window (chan w) >? 0) && has_keys w)
  end.

Fixpoint idle_turns (es : list poll_event) w : nat :=
  match es with
  | [] => 0
  | e :: es => (if idle e w then 1 else 0) + idle_turns es (turn e w).2
  end.

(** What the server and the user still provide: bytes and keys. *)
Definition input_left w : nat := (bytes_left w + length (key_bytes (keyboard (con w))))%nat.

(** The number of packets received. *)
Fixpoint received (l : list event) : nat :=
  match l with
  | [] => 0
  | Recv _ _ :: l => Datatypes.S (received l)
  | Send _ _ :: l => received l
  end.

End turns.

(** ** The script of [poll] is only read by [poll] *)

Section blind.
Context {C : Crypto} {S : Type} {BS : ByteStream S}.
Implicit Types w : World S.

Definition blind {A} (m : M (World S) A) : Prop :=
  forall w qs, m (set_polls qs w) = ((m w).1, set_polls qs (m w).2).

Lemma blind_bind {A A'} (m : M (World S) A) (f : A -> M (World S) A') :
  blind m -> (forall a, blind (f a)) -> blind (m ≫= f).
Proof.
  intros Hm Hf w qs. unfold mbind, M_bind. rewrite Hm. destruct (m w) as [[a| | |] w']; try done. apply Hf.
Qed.

Lemma blind_ret {A} (a : A) : blind (mret a).
Proof. done. Qed.

Lemma blind_throw {A} (e : string) : blind (A:=A) (mthrow e).
Proof. done. Qed.

Lemma blind_lift {A} (r : res A) : blind (lift r).
Proof. done. Qed.

Lemma blind_chan : blind (gets chan).
Proof. done. Qed.

Lemma blind_set_chan c : blind (modify (set_chan c)).
Proof. done. Qed.

Lemma blind_con {A} (m : M Console A) : blind (on_con m).
Proof. intros w qs. unfold on_con, zoom. cbn [con set_polls]. by destruct (m (con w)). Qed.

Lemma blind_if {A} (b : bool) (m m' : M (World S) A) : blind m -> blind m' -> blind (if b then m else m').
Proof. by destruct b. Qed.

Lemma blind_send p : blind (send p).
Proof.
  intros w qs. unfold send. rewrite !M_modify_run. unfold on_net, zoom.
  cbn [net set_polls log]. by destruct (send_packet p (net w)).
Qed.

Lemma blind_receive : blind receive.
Proof.
  intros w qs. unfold receive. rewrite !M_gets_run. unfold mbind, M_bind, on_net, zoom. cbn [net set_polls].
  by destruct (receive_packet (net w)) as [[]].
Qed.

Create HintDb blind.
#[local] Hint Resolve blind_ret blind_throw blind_lift blind_chan blind_set_chan blind_con blind_send blind_receive : blind.

Ltac blind := repeat first
  [ progress auto with blind | apply blind_bind; [|intros ?] | apply blind_if
  | match goal with |- blind (match ?x with _ => _ end) => destruct x end ].

Lemma blind_global p : blind (handle_global_request p).
Proof. unfold handle_global_request. blind. Qed.

Lemma blind_update f : blind (update_channel f).
Proof. unfold update_channel. blind. Qed.

Lemma blind_on_channel {A} (f : Channel -> res (A * Channel)) : blind (on_channel f).
Proof. unfold on_channel. blind. Qed.

#[local] Hint Resolve blind_global blind_update blind_on_channel : blind.

Lemma blind_keyboard : blind keyboard_input.
Proof. unfold keyboard_input. blind. Qed.

Lemma blind_message n p : blind (handle_message n p).
Proof. unfold handle_message. blind. Qed.

Lemma blind_refill b : blind (refill_window b).
Proof. unfold refill_window. blind. Qed.

#[local] Hint Resolve blind_keyboard blind_message blind_refill : blind.

Lemma blind_socket : blind socket_input.
Proof. unfold socket_input. blind. Qed.

#[local] Hint Resolve blind_socket : blind.

(** A turn does not depend on what [poll] will report later. *)
Lemma turn_head e ps w :
  open (chan w) = true -> shell_round (set_polls (e :: ps) w) = ((turn e w).1, set_polls ps (turn e w).2).
Proof.
  intros Ho. unfold turn, shell_round. rewrite !M_gets_run. cbn [chan set_polls]. rewrite Ho. cbn [negb].
  unfold mbind at 1 5, M_bind at 1 5. cbn [next_poll polls set_polls].
  destruct e as [| |k s err]; [done|done|].
  match goal with |- ?m _ = _ => assert (Hb : blind m) by blind end.
  exact (Hb (set_polls [] w) ps).
Qed.

Lemma turn_closed e w : open (chan w) = false -> turn e w = (Ok (Some tt), set_polls [e] w).
Proof. intros Ho. unfold turn, shell_round. rewrite M_gets_run. cbn [chan set_polls]. by rewrite Ho. Qed.

Lemma turn_goes_on e w w1 : turn e w = (Ok None, w1) -> open (chan w) = true.
Proof. intros E. destruct (open (chan w)) eqn:Ho; [done|]. by rewrite turn_closed in E. Qed.

(** The turns are the turns of the loop of [Shell]: it runs through them and goes
    on with the rest of the script. *)
Lemma shell_loop_turns es w w' ps :
  turns es w w' -> shell_loop (set_polls (es ++ ps) w) = shell_loop (set_polls ps w').
Proof.
  induction 1 as [w|e es w w1 w2 E H IH]; [done|]. rewrite <- IH. unfold shell_loop.
  cbn [polls set_polls length app loop]. unfold mbind at 1, M_bind at 1.
  rewrite turn_head by (by eapply turn_goes_on). by rewrite E.
Qed.

End blind.

(** ** What a turn uses up *)

Section uses.
Context {C : Crypto} {CS : CryptoSizes} {S : Type} {BS : ByteStream S} {BL : ByteStreamLaws S}.
Implicit Types w : World S.

(** [m], when it returns, has not put bytes back that were taken since [w]. *)
Definition takes {A} w (m : M (World S) A) : Prop :=
  forall w1 a w2, progress w w1 -> m w1 = (Ok a, w2) -> progress w w2.

Lemma takes_bind {A A'} w (m : M (World S) A) (f : A -> M (World S) A') :
  takes w m -> (forall a, takes w (f a)) -> takes w (m ≫= f).
Proof. intros Hm Hf w1 a w2 Hp (x & w3 & E1 & E2)%M_bind_Ok. eapply Hf; [by eapply Hm|exact E2]. Qed.

Lemma takes_lift {A A'} w (r : res A) (f : A -> M (World S) A') :
  (forall a, r = Ok a -> takes w (f a)) -> takes w (lift r ≫= f).
Proof. intros Hf w1 a w2 Hp E. rewrite M_lift_res in E. destruct r as [x| | |]; try done. by eapply Hf. Qed.

Lemma takes_gets {A A'} w (g : World S -> A) (f : A -> M (World S) A') :
  (forall a, takes w (f a)) -> takes w (gets g ≫= f).
Proof. intros Hf w1 a w2 Hp E. rewrite M_gets_run in E. by eapply Hf. Qed.

Lemma takes_ret {A} w (a : A) : takes w (mret a).
Proof. by intros w1 x w2 Hp [= _ <-]. Qed.

Lemma takes_throw {A} w (e : string) : takes (A:=A) w (mthrow e).
Proof. by intros w1 x w2 Hp E. Qed.

Lemma takes_if {A} w (b : bool) (m m' : M (World S) A) :
  (b = true -> takes w m) -> (b = false -> takes w m') -> takes w (if b then m else m').
Proof. destruct b; auto. Qed.

Lemma takes_set_chan w c : takes w (modify (set_chan c)).
Proof. by intros w1 x w2 Hp [= _ <-]. Qed.

Lemma takes_con {A} w (m : M Console A) : takes w (on_con m).
Proof. intros w1 a w2 Hp. unfold on_con, zoom. destruct (m (con w1)) as [[] c]; try done. by intros [= _ <-]. Qed.

Lemma takes_update w f : takes w (update_channel f).
Proof. intros w1 a w2 Hp. by apply update_progress. Qed.

Lemma takes_global w p : takes w (handle_global_request p).
Proof. intros w1 a w2 Hp. by apply global_progress. Qed.

Lemma takes_on_channel {A} w (f : Channel -> res (A * Channel)) : takes w (on_channel f).
Proof.
  unfold on_channel. apply takes_gets. intros c. apply takes_lift. intros [a c'] _.
  apply takes_bind; [apply takes_set_chan|]. intros _. apply takes_ret.
Qed.

Lemma takes_send w p : size p < 2 ^ 63 -> takes w (send p).
Proof.
  intros Hsz w1 a w2 [Hwf Hlt] E. pose proof (send_keeps_bytes w1 p Hwf Hsz) as Hs. rewrite E in Hs.
  destruct Hs as [? Hb]. split; [done|]. by rewrite Hb.
Qed.

Lemma close_size c p : create_channel_close c = Ok p -> size p < 2 ^ 63.
Proof.
  unfold create_channel_close. destruct (negb _); [done|]. destruct (local_close_sent c); [done|].
  intros [= <-]%Ok_inj. by vm_compute.
Qed.

Lemma adjust_size c n p : create_window_adjust c n = Ok p -> size p < 2 ^ 63.
Proof.
  unfold create_window_adjust. destruct (negb _); [done|]. destruct (n =? 0); [done|]. destruct (_ >? _); [done|].
  intros [= <-]%Ok_inj. by vm_compute.
Qed.

Lemma takes_message w n p : takes w (handle_message n p).
Proof.
  unfold handle_message. repeat (apply takes_if; intros _); [..|apply takes_throw].
  - apply takes_bind; [apply takes_on_channel|]. intros d. apply takes_bind; [apply takes_con|]. intros _. apply takes_ret.
  - apply takes_bind; [apply takes_update|]. intros _. apply takes_ret.
  - apply takes_bind; [apply takes_global|]. intros _. apply takes_ret.
  - apply takes_bind; [apply takes_on_channel|]. intros d. apply takes_bind; [apply takes_con|]. intros _. apply takes_ret.
  - apply takes_bind; [apply takes_update|]. intros _. apply takes_ret.
  - apply takes_bind; [apply takes_on_channel|]. intros r. apply takes_ret.
  - apply takes_bind; [apply takes_update|]. intros _. apply takes_gets. intros c.
    apply takes_bind; [|intros _; apply takes_ret]. apply takes_if; intros _; [|apply takes_ret].
    apply takes_lift. intros q Hq. apply takes_bind; [by apply takes_send, (close_size c)|]. intros _. apply takes_set_chan.
Qed.

Lemma takes_refill w b : takes w (refill_window b).
Proof.
  unfold refill_window. apply takes_gets. intros c. apply takes_if; intros _; [|apply takes_ret].
  apply takes_lift. intros q Hq. apply takes_bind; [by eapply takes_send, adjust_size|]. intros _. apply takes_set_chan.
Qed.

(** The branch for the socket takes a packet off the connection. *)
Lemma socket_takes w u w' : wf_transport (obj (net w)) -> socket_input w = (Ok u, w') -> progress w w'.
Proof.
  intros Hwf (p & w1 & Hr & E)%M_bind_Ok. apply (receive_progress _ _ _ Hwf) in Hr.
  assert (Hrest : takes w (if size p =? 0 then mthrow "Received an empty SSH packet"%string else
    message_type ← lift (index p 0);
    consumed_local_window ← handle_message message_type p;
    refill_window consumed_local_window;;
    c ← gets chan;
    if local_close_sent c && remote_close_received c then modify (set_chan (set_open false c)) else mret tt)); [|by eapply Hrest].
  apply takes_if; intros _; [apply takes_throw|]. apply takes_lift. intros n _.
  apply takes_bind; [apply takes_message|]. intros b. apply takes_bind; [apply takes_refill|]. intros _.
  apply takes_gets. intros c. apply takes_if; intros _; [apply takes_set_chan|apply takes_ret].
Qed.

(** Something was used up, and something exchanged. *)
Definition used w w' : Prop :=
  (input_left w' < input_left w)%nat /\ (length (history w) < length (history w'))%nat.

Lemma step_exchanges c i c' : session_step c i c' -> evs i <> [].
Proof. by destruct 1. Qed.

Lemma socket_uses w w' :
  encrypted w -> live (chan w) -> socket_input w = (Ok tt, w') -> used w w'.
Proof.
  intros He Hlive E. destruct (socket_takes w tt w' (proj1 He) E) as [_ Hlt].
  pose proof (socket_turn_triple w Hlive w (conj (performed_refl w He) (conj eq_refl eq_refl))) as H.
  rewrite E in H. destruct H as (i & c' & Hstep & (_ & Hh & _ & _ & Hk & _) & _). apply step_exchanges in Hstep.
  unfold used, input_left. rewrite Hh, Hk, !length_app. destruct (evs i); [done|]. cbn [length]. lia.
Qed.

(** The branch for the keyboard takes a key, if there is one. *)
Lemma keyboard_uses w w' :
  encrypted w -> live (chan w) -> 0 < remote_window (chan w) -> keyboard_input w = (Ok tt, w') ->
  if has_keys w then used w w' else w' = w.
Proof.
  intros He (Hwf & _ & _ & _ & _ & Hm) Hr E. unfold keyboard_input in E. rewrite M_gets_run in E.
  set (n := Z.min (Z.min KEYBOARD_BUFFER_SIZE (remote_window (chan w))) (remote_max_packet (chan w))) in *.
  assert (Hn : 0 < n <= 1024) by (unfold n, KEYBOARD_BUFFER_SIZE, MIN_MAX_PACKET_SIZE in *; lia).
  unfold has_keys. unfold mbind at 1, M_bind at 1, on_con, zoom, read_keyboard in E.
  destruct (keyboard (con w)) as [|[b d| |] ks] eqn:Ek; try done.
  2: { injection E as <-. by destruct w. }
  set (w1 := set_con _ w) in E. set (data := take (Z.to_nat n) (b :: d)) in E.
  assert (Hd : 0 < size data <= 1024).
  { unfold data, size. rewrite length_take. cbn [length]. lia. }
  cbv beta iota in E. rewrite Z.gtb_ltb, (proj2 (Z.ltb_lt _ _)) in E by lia.
  rewrite M_lift_res in E. destruct (create_channel_data (chan w) data) as [p| | |] eqn:Ep; try done.
  assert (Hp : size p < 2 ^ 63).
  { revert Ep. rewrite create_channel_data_eq by done. repeat (destruct (_ : bool); [done|]). intros [= <-]%Ok_inj.
    rewrite !wire_cons, wire_nil. cbn [wire_field]. autorewrite with size. rewrite !size_be32. lia. }
  assert (He1 : encrypted w1) by exact He.
  pose proof (send_exact p w1 He1 Hp) as Hs. pose proof (send_keeps_bytes w1 p (proj1 He1) Hp) as Hb.
  apply M_bind_Ok in E as ([] & w2 & E & Ew). rewrite E in Hs, Hb. injection Ew as <-.
  destruct Hs as ((_ & Hh & _ & _ & Hk & _) & _). destruct Hb as [_ Hb].
  unfold used, input_left. cbn [history set_chan con]. rewrite Hh, length_app.
  change (bytes_left (set_chan ?c w2)) with (bytes_left w2). rewrite Hb. cbn [typed packets_only app] in Hk. rewrite <- Hk, Ek.
  change (keyboard (con w1)) with (rest_of_keys (Z.to_nat n) (b :: d) ++ ks).
  cbn [key_bytes]. rewrite <- (key_bytes_rest (Z.to_nat n) (b :: d) ks), length_app.
  change (history w1) with (history w). change (bytes_left w1) with (bytes_left w). fold data.
  unfold size in Hd. cbn [evs packets_only length]. lia.
Qed.

End uses.

(** ** Sequences of turns *)

Section sequences.
Context {C : Crypto} {CS : CryptoSizes} {S : Type} {BS : ByteStream S} {BL : ByteStreamLaws S}.
Implicit Types w : World S.

Lemma used_trans w w1 w2 : used w w1 -> used w1 w2 -> used w w2.
Proof. unfold used. lia. Qed.

(** A turn that goes on: an idle one changes nothing, every other one uses up
    input and exchanges packets. *)
Lemma turn_uses e w w' :
  encrypted w -> live (chan w) -> turn e w = (Ok None, w') ->
  if idle e w then w' = set_polls [] w else used w w'.
Proof.
  intros He Hlive. pose proof Hlive as (_ & Ho & _). set (w0 := set_polls [] w).
  assert (He0 : encrypted w0) by exact He. assert (Hl0 : live (chan w0)) by exact Hlive.
  assert (Hu : forall w', used w0 w' -> used w w') by done.
  unfold turn, shell_round. rewrite M_gets_run. cbn [chan set_polls]. rewrite Ho. cbn [negb].
  unfold mbind at 1, M_bind at 1. cbn [next_poll polls set_polls].
  change (set_polls [] (set_polls [e] w)) with w0. destruct e as [| |k s err]; [done|by intros [= <-]|].
  intros ([] & w1 & E1 & E)%M_bind_Ok. apply M_bind_Ok in E as ([] & w2 & E2 & E). rewrite M_gets_run in E.
  assert (w' = w2) as -> by (by destruct (_ && err); injection E). clear E. unfold idle.
  assert (Hs : forall wa, encrypted wa -> live (chan wa) -> (if s then socket_input else mret tt) wa = (Ok tt, w2) ->
    if s then used wa w2 else w2 = wa).
  { intros wa Hea Hla Ea. destruct s; [by apply socket_uses|by injection Ea]. }
  rewrite Z.gtb_ltb in E1 |- *. destruct (Z.ltb_spec 0 (remote_window (chan w))) as [Hr|_], k; cbn [andb] in E1 |- *.
  2, 3, 4: injection E1 as <-; specialize (Hs w0 He0 Hl0 E2); destruct s; cbn [negb andb]; auto.
  pose proof (keyboard_uses w0 w1 He0 Hl0 Hr E1) as Hk. change (has_keys w0) with (has_keys w) in Hk.
  destruct (has_keys w); cbn [andb negb].
  - rewrite andb_false_r. pose proof (keyboard_turn w0 He0 Hl0 Hr) as Ht. unfold takes_steps in Ht. rewrite E1 in Ht.
    destruct Ht as (i & _ & Hp & _ & Hl1). specialize (Hs w1 (performed_encrypted _ _ _ Hp) Hl1 E2).
    apply Hu. destruct s; [by eapply used_trans|by subst w2].
  - subst w1. specialize (Hs w0 He0 Hl0 E2). destruct s; cbn [negb andb]; auto.
Qed.

Lemma turn_steps e w w' :
  encrypted w -> live (chan w) -> turn e w = (Ok None, w') ->
  exists i, session_steps (chan w) i (chan w') /\ performed i w w'.
Proof.
  intros He Hlive E. pose proof (round_takes_steps (set_polls [e] w) He Hlive) as H. unfold turn in E. rewrite E in H.
  destruct H as (_ & i & Hi & Hp & _). exists i. split; [exact Hi|].
  rewrite <- (io_app_nil_l i). eapply performed_trans; [by apply performed_polls|exact Hp].
Qed.

(** What many turns come to. *)
Lemma turns_steps es w w' :
  turns es w w' -> encrypted w -> live (chan w) ->
  exists i, session_steps (chan w) i (chan w') /\ performed i w w' /\
    (length es <= idle_turns es w + length (evs i))%nat /\ (length es + input_left w' <= idle_turns es w + input_left w)%nat.
Proof.
  induction 1 as [w|e es w w1 w2 E H IH]; intros He Hlive.
  { exists io_nil. split; [apply session_done|]. split; [by apply performed_refl|]. cbn. lia. }
  destruct (turn_steps e w w1 He Hlive E) as (i & Hi & Hp). pose proof (turn_uses e w w1 He Hlive E) as Hu.
  cbn [idle_turns length]. rewrite E. cbn [snd].
  assert (Hcase : live (chan w1) \/ open (chan w1) = false) by (by eapply steps_live).
  assert (H1 : exists j, session_steps (chan w1) j (chan w2) /\ performed j w1 w2 /\
    (length es <= idle_turns es w1 + length (evs j))%nat /\ (length es + input_left w2 <= idle_turns es w1 + input_left w1)%nat).
  { destruct Hcase as [Hl1|Hc1]; [by apply IH; [eapply performed_encrypted|]|].
    inversion H as [|e' es' w1' w2' w3' E' H']; subst.
    - exists io_nil. split; [apply session_done|]. split; [by eapply performed_refl, performed_encrypted|]. cbn. lia.
    - apply turn_goes_on in E'. congruence. }
  destruct H1 as (j & Hj & Hpj & Hn & Hm). exists (io_app i j). split; [by eapply session_steps_app|].
  split; [by eapply performed_trans|]. cbn [evs io_app]. rewrite length_app.
  destruct (idle e w).
  - subst w1. change (input_left (set_polls [] w)) with (input_left w) in Hm. lia.
  - destruct Hu as [Hu1 Hu2]. destruct Hp as (_ & Hh & _). rewrite Hh, length_app in Hu2. lia.
Qed.

(** Only idle turns: nothing happens. *)
Lemma turns_idle es w w' :
  turns es w w' -> encrypted w -> live (chan w) -> idle_turns es w = length es -> set_polls [] w' = set_polls [] w.
Proof.
  induction 1 as [w|e es w w1 w2 E H IH]; intros He Hlive Hi; [done|].
  pose proof (turn_uses e w w1 He Hlive E) as Hu. cbn [idle_turns length] in Hi. rewrite E in Hi. cbn [snd] in Hi.
  assert (Hle : forall es w, (idle_turns es w <= length es)%nat).
  { clear. induction es as [|e es IH]; intros w; cbn; [lia|]. specialize (IH (turn e w).2). destruct (idle e w); lia. }
  specialize (Hle es w1). destruct (idle e w); [|lia]. subst w1. rewrite IH; [done|exact He|exact Hlive|lia].
Qed.

(** The keyboard at the end of its input: [read] returns 0 without waiting. *)
Lemma spin_turn w ks :
  live (chan w) -> 0 < remote_window (chan w) -> keyboard (con w) = KeysEof :: ks ->
  turn (PollReady true false false) w = (Ok None, set_polls [] w).
Proof.
  intros (_ & Ho & _) Hr Hk. unfold turn, shell_round. rewrite M_gets_run. cbn [chan set_polls]. rewrite Ho. cbn [negb].
  unfold mbind at 1, M_bind at 1. cbn [next_poll polls set_polls].
  rewrite Z.gtb_ltb, (proj2 (Z.ltb_lt _ _) Hr). cbn [andb].
  assert (E : keyboard_input (set_polls [] w) = (Ok tt, set_polls [] w)).
  { unfold keyboard_input. rewrite M_gets_run. unfold mbind, M_bind, on_con, zoom, read_keyboard. cbn [con set_polls].
    rewrite Hk. cbn [size length]. by destruct w. }
  rewrite (M_bind_run _ _ _ _ _ E), M_ret_run, M_gets_run. by rewrite andb_false_r.
Qed.

Lemma spin_turns n w ks :
  live (chan w) -> 0 < remote_window (chan w) -> keyboard (con w) = KeysEof :: ks ->
  turns (replicate n (PollReady true false false)) (set_polls [] w) (set_polls [] w).
Proof.
  intros Hlive Hr Hk. induction n as [|n IH]; [apply turns_none|]. cbn [replicate].
  eapply turns_next; [by apply (spin_turn (set_polls [] w) ks)|exact IH].
Qed.

End sequences.

(** *** The loops before the shell *)

Section setup_rounds.
Context {C : Crypto} {CS : CryptoSizes} {S : Type} {BS : ByteStream S} {BL : ByteStreamLaws S}.
Implicit Types w : World S.

Lemma rounds_bytes {A} (body : M (World S) (option A)) n w w' :
  (forall w, wf_transport (obj (net w)) -> match body w with (Ok None, w') => progress w w' | _ => True end) ->
  rounds body n w w' -> wf_transport (obj (net w)) -> (n + bytes_left w' <= bytes_left w)%nat.
Proof.
  intros Hb. induction 1 as [w|n w w1 w2 E H IH]; intros Hwf; [lia|].
  specialize (Hb w Hwf). rewrite E in Hb. destruct Hb as [Hwf1 Hlt]. specialize (IH Hwf1). lia.
Qed.

Lemma rounds_keep {A} (body : M (World S) (option A)) (I : World S -> Prop) (Q : A -> World S -> Prop) F B n w w' :
  triple I body (fun r w => match r with None => I w | Some a => Q a w end) F B ->
  rounds body n w w' -> I w -> I w'.
Proof.
  intros Hb. induction 1 as [w|n w w1 w2 E H IH]; intros Hw; [done|]. specialize (Hb w Hw). rewrite E in Hb. by apply IH.
Qed.

(** Each round receives one packet. *)
Lemma received_app l k : received (l ++ k) = (received l + received k)%nat.
Proof. induction l as [|[] l IH]; cbn; lia. Qed.

Lemma receive_received w p w' : receive w = (Ok p, w') -> received (history w') = Datatypes.S (received (history w)).
Proof.
  unfold receive. rewrite M_gets_run. unfold mbind at 1, M_bind at 1, on_net, zoom.
  destruct (receive_packet (net w)) as [[q| | |] t]; try done. intros [= _ <-]. cbn [history log set_net].
  rewrite received_app. cbn. lia.
Qed.

Lemma update_received f w u w' : update_channel f w = (Ok u, w') -> received (history w') = received (history w).
Proof. unfold update_channel. rewrite M_gets_run, M_lift_res. destruct (f _); try done. by intros [= _ <-]. Qed.

Lemma global_received p w u w' : handle_global_request p w = (Ok u, w') -> received (history w') = received (history w).
Proof.
  unfold handle_global_request. rewrite M_lift_res. destruct (parse_global_request p) as [g| | |]; try done.
  destruct (want_reply g); [|by intros [= _ <-]]. unfold send. rewrite M_modify_run. unfold on_net, zoom.
  cbn [net log]. destruct (send_packet _ _) as [[] t]; try done. intros [= _ <-].
  cbn [history log set_net]. rewrite received_app. cbn. lia.
Qed.

Lemma open_round_receives w w' :
  open_round w = (Ok None, w') -> received (history w') = Datatypes.S (received (history w)).
Proof.
  unfold open_round. rewrite M_gets_run. destruct (open (chan w)); [done|].
  intros (p & w1 & Hr & E)%M_bind_Ok. rewrite <- (receive_received _ _ _ Hr).
  destruct (size p =? 0); [done|]. apply M_bind_Ok in E as (b & w2 & Hb & E). injection Hb as _ <-.
  apply M_bind_Ok in E as (u & w2 & Hm & E). injection E as <-.
  destruct (b =? _); [by eapply update_received|]. destruct (b =? _); [by apply M_bind_Ok in Hm as (? & ? & _ & ?)|].
  destruct (b =? _); [by eapply global_received|done].
Qed.

Lemma wait_round_receives name w w' :
  wait_round name w = (Ok None, w') -> received (history w') = Datatypes.S (received (history w)).
Proof.
  unfold wait_round. intros (p & w1 & Hr & E)%M_bind_Ok. rewrite <- (receive_received _ _ _ Hr).
  destruct (size p =? 0); [done|]. apply M_bind_Ok in E as (b & w2 & Hb & E). injection Hb as _ <-.
  rewrite M_gets_run in E. destruct (b =? _); [by apply M_bind_Ok in E as (? & ? & _ & ?)|].
  destruct (b =? _); [by apply M_bind_Ok in E as (? & ? & _ & ?)|].
  destruct (b =? _). { apply M_bind_Ok in E as (u & w2 & Hm & E). injection E as <-. by eapply global_received. }
  destruct (b =? _); [|done]. apply M_bind_Ok in E as (u & w2 & Hm & E). injection E as <-. by eapply update_received.
Qed.

Lemma rounds_receive {A} (body : M (World S) (option A)) n w w' l :
  (forall w w', body w = (Ok None, w') -> received (history w') = Datatypes.S (received (history w))) ->
  rounds body n w w' -> history w' = history w ++ l -> received l = n.
Proof.
  intros Hb Hr Hl. assert (Hn : received (history w') = (n + received (history w))%nat).
  { clear Hl. induction Hr as [w|n w w1 w2 E H IH]; [done|]. rewrite IH, (Hb _ _ E). lia. }
  rewrite Hl, received_app in Hn. lia.
Qed.

(** Whatever the fuel of [packet_loop], it is enough. *)
Lemma rounds_iterate {A} (body : M (World S) (option A)) n w w' x :
  rounds body n w w' -> iterates body w' x -> iterates body w x.
Proof. induction 1 as [w|n w w1 w2 E H IH]; intros Hx; [done|]. eapply iterates_again; [exact E|auto]. Qed.

Lemma open_rounds n w w' :
  encrypted w -> open (chan w) = false -> rounds open_round n w w' ->
  encrypted w' /\ exists l, history w' = history w ++ l /\ received l = n /\
    (chan w' = chan w /\ waiting (chan w) l (chan w) \/
     exists k p, l = k ++ [Recv true p] /\ waiting (chan w) k (chan w) /\
       open_confirmation_spec p (chan w) (chan w') /\ open_round w' = (Ok (Some tt), w')).
Proof.
  intros He Ho Hr.
  assert (Hn : forall l, history w' = history w ++ l -> received l = n)
    by (intros l; by apply (rounds_receive _ _ _ _ _ open_round_receives)).
  pose proof (rounds_keep _ _ _ _ _ n w w' (open_round_keeps w [] (polls w) (chan w) Ho) Hr) as Hk.
  destruct Hk as [(k & Hk & Hp & Hc & _)|(k & p & c' & Hk & Hconf & Hp & Hc & _)].
  - left. exists []. split; [apply waiting_done|]. split; [by apply performed_refl|done].
  - destruct Hp as (He' & Hh & _). split; [done|]. exists k. split; [exact Hh|]. split; [by apply Hn|]. by left.
  - destruct Hp as (He' & Hh & _). split; [done|]. exists (k ++ [Recv true p]). split; [exact Hh|]. split; [by apply Hn|]. right.
    exists k, p. rewrite Hc. split; [done|]. split; [done|]. split; [done|].
    unfold open_round. rewrite M_gets_run, Hc.
    destruct Hconf as (? & ? & ? & _ & _ & _ & _ & _ & ->). done.
Qed.

Lemma wait_rounds name n w w' :
  encrypted w -> live (chan w) -> rounds (wait_round name) n w w' ->
  encrypted w' /\ exists l, history w' = history w ++ l /\ received l = n /\ waiting (chan w) l (chan w').
Proof.
  intros He Hlive Hr.
  pose proof (rounds_keep _ _ _ _ _ n w w' (wait_round_keeps w [] (polls w) (chan w) name Hlive) Hr) as Hk.
  destruct Hk as (k & c' & Hk & Hp & Hc & _).
  - exists [], (chan w). split; [apply waiting_done|]. split; [by apply performed_refl|done].
  - destruct Hp as (He' & Hh & _). split; [done|]. exists k. split; [exact Hh|]. split; [|by rewrite Hc].
    by apply (rounds_receive _ _ _ _ _ (wait_round_receives name) Hr).
Qed.

(** ** Properties *)

(** C15: the loops come to their end, and the shell loop only as far as its input
    does.  Each turn of the loop that opens the channel takes one packet off the
    connection and goes on only if it is a global request or the server's
    confirmation, after which the next turn returns; each turn of the wait for the
    answer to a request takes one packet and goes on only if it is a global request
    or a window adjustment.  In the shell loop [poll] may report anything any number of times: a turn that is not idle uses
    up bytes of the server or keys of the user and exchanges at least one packet,
    so that there are at most as many as bytes and keys to come; idle turns, a
    signal or a keyboard at the end of its input, change nothing; and no turn
    follows the one that closes the channel.  The exception is real: while the
    server takes data and the keyboard is at its end, the loop goes round any
    number of times without waiting and without any effect. *)
Theorem every_turn_accounted w :
  encrypted w ->
  (open (chan w) = false -> forall n w', rounds open_round n w w' ->
     packet_loop open_round w = packet_loop open_round w' /\ (n + bytes_left w' <= bytes_left w)%nat /\
     exists l, history w' = history w ++ l /\ received l = n /\
       (chan w' = chan w /\ waiting (chan w) l (chan w) \/
        exists k p, l = k ++ [Recv true p] /\ waiting (chan w) k (chan w) /\
          open_confirmation_spec p (chan w) (chan w') /\ open_round w' = (Ok (Some tt), w'))) /\
  (live (chan w) -> forall name n w', rounds (wait_round name) n w w' ->
     packet_loop (wait_round name) w = packet_loop (wait_round name) w' /\ (n + bytes_left w' <= bytes_left w)%nat /\
     exists l, history w' = history w ++ l /\ received l = n /\ waiting (chan w) l (chan w')) /\
  (live (chan w) -> forall es w', turns es w w' ->
     (forall ps, shell_loop (set_polls (es ++ ps) w) = shell_loop (set_polls ps w')) /\
     (length es + input_left w' <= idle_turns es w + input_left w)%nat /\
     (exists i, session_steps (chan w) i (chan w') /\ performed i w w' /\ (length es <= idle_turns es w + length (evs i))%nat) /\
     (idle_turns es w = length es -> set_polls [] w' = set_polls [] w) /\
     (live (chan w') \/ open (chan w') = false /\ forall e, turn e w' = (Ok (Some tt), set_polls [e] w'))) /\
  (live (chan w) -> 0 < remote_window (chan w) -> forall ks, keyboard (con w) = KeysEof :: ks ->
     forall n, turns (replicate n (PollReady true false false)) (set_polls [] w) (set_polls [] w)).
Proof.
  intros He. split_and!.
  - intros Ho n w' Hr. destruct (open_rounds n w w' He Ho Hr) as [He' Hl]. split; [|split; [|exact Hl]].
    + apply (iterates_det open_round w); [by apply open_loop_iterates|].
      eapply rounds_iterate; [exact Hr|by apply open_loop_iterates].
    + apply (rounds_bytes _ _ _ _ open_round_progress Hr), He.
  - intros Hlive name n w' Hr. destruct (wait_rounds name n w w' He Hlive Hr) as [He' Hl]. split; [|split; [|exact Hl]].
    + apply (iterates_det (wait_round name) w); [by apply wait_loop_iterates|].
      eapply rounds_iterate; [exact Hr|by apply wait_loop_iterates].
    + apply (rounds_bytes _ _ _ _ (wait_round_progress name) Hr), He.
  - intros Hlive es w' Ht. destruct (turns_steps es w w' Ht He Hlive) as (i & Hi & Hp & Hn & Hm).
    split; [intros ps; by apply shell_loop_turns|]. split; [done|]. split; [by exists i|].
    split; [by apply turns_idle|]. destruct (steps_live _ _ _ Hlive Hi) as [|Hc]; [by left|right].
    split; [done|]. intros e. by apply turn_closed.
  - intros Hlive Hr ks Hk n. by apply (spin_turns n w ks).
Qed.

End setup_rounds.

(** ** Concrete runs *)

Section samples.
#[local] Existing Instances Toy.crypto Toy.sizes_ok Toy.cipher_ok.

(** The worlds after the first three turns of [sample_shell]. *)
Definition sample_turn1 : World Socket := (turn (PollReady true false false) sample_shell).2.
Definition sample_turn2 : World Socket := (turn PollEintr sample_turn1).2.
Definition sample_turn3 : World Socket := (turn (PollReady false true false) sample_turn2).2.

Lemma sample_turns :
  turns [PollReady true false false; PollEintr; PollReady false true false] sample_shell sample_turn3.
Proof.
  apply (turns_next _ _ sample_shell sample_turn1); [apply (outcome_of (turn (PollReady true false false) sample_shell)); vm_compute; reflexivity|].
  apply (turns_next _ _ sample_turn1 sample_turn2); [apply (outcome_of (turn PollEintr sample_turn1)); vm_compute; reflexivity|].
  apply (turns_next _ _ sample_turn2 sample_turn3); [apply (outcome_of (turn (PollReady false true false) sample_turn2)); vm_compute; reflexivity|].
  apply turns_none.
Qed.

(** The first three turns of [sample_shell], a key press, a signal and a message,
    use up three keys and a packet; with the keyboard at its end the loop goes
    round a thousand times. *)
Lemma every_turn_accounted_witness :
  (exists w', turns [PollReady true false false; PollEintr; PollReady false true false] sample_shell w' /\
     (2 + input_left w' <= input_left sample_shell)%nat /\ live (chan w')) /\
  (let w := session_world [] [KeysEof] [] in turns (replicate 1000 (PollReady true false false)) w w).
Proof.
  split.
  - destruct (every_turn_accounted sample_shell (sample_shell_encrypted _ _ _)) as (_ & _ & H & _).
    destruct (H sample_live _ _ sample_turns) as (_ & Hn & _ & _ & Hend). exists sample_turn3. split; [exact sample_turns|].
    assert (Hi : idle_turns [PollReady true false false; PollEintr; PollReady false true false] sample_shell = 1%nat)
      by (vm_compute; reflexivity).
    assert (Ho : open (chan sample_turn3) = true) by (vm_compute; reflexivity).
    rewrite Hi in Hn. cbn [length] in Hn. split; [lia|].
    destruct Hend as [|[Hc _]]; [done|]. rewrite Ho in Hc. discriminate Hc.
  - intros w. destruct (every_turn_accounted w (sample_shell_encrypted _ _ _)) as (_ & _ & _ & H).
    exact (H sample_live eq_refl [] eq_refl 1000%nat).
Defined.

End samples.
