(* ===== verification/Liveness.v ===== *)
(** * Progress: what an honest server gets

    The theorems of the other files say what must have happened when the program
    goes on.  This file says that it does go on: with a server that follows the
    protocol, a connection that takes what is written and cryptographic calls
    that succeed, key exchange and authentication come to their ends.  [Service]
    says the same of the session, [Completion] of the whole program.

    An honest server is described by what it sends, a list of packets and key
    changes in the sense of [Packets.action], encoded by the packet layer of its
    own end. *)

From S2P Require Import Prelude Encoding Auth Connection Socket Crypto Transport Packets Kex KnownHosts Terminal Config World Handshake Session Shell.

Lemma index_wire n fs : 0 <= n < 256 -> index (wire (FByte n :: fs)) 0 = Ok n.
Proof. intros Hn. rewrite wire_cons. cbn [wire_field app]. by rewrite index_0, u8_byte_of_small. Qed.

Section liveness.
Context {C : Crypto} {CS : CryptoSizes} {CL : CipherLaws} {CO : CryptoSucceeds}.
Context {S : Type} {BS : ByteStream S} {BL : ByteStreamLaws S}.
Context {S' : Type} {BS' : ByteStream S'} {BL' : ByteStreamLaws S'}.
Implicit Types (w : World S) (t : tstate S).

(** ** What the server will still send *)

(** The bytes under way to [t] are those of the actions [xs] of a server whose
    sending half is in step with the receiving half of [t]. *)
Definition serves_net (xs : list action) t : Prop :=
  exists (a a' : tstate S') sent rest, synced a t /\ Forall action_ok xs /\ run_sender xs a = (Ok tt, a') /\
    outgoing (sock_ a') = outgoing (sock_ a) ++ sent /\ incoming (sock_ t) = sent ++ rest.

Definition serves (xs : list action) w : Prop := serves_net xs (net w).

(** What sending and receiving leave alone. *)
Definition only_net w w' : Prop :=
  disk w' = disk w /\ con w' = con w /\ term w' = term w /\ chan w' = chan w /\ polls w' = polls w.

(** The state between two packets: the server has [xs] left to send, the
    connection takes [n] more bytes, the flags of the encryption, the generator. *)
Definition ready (bo bi : bool) (xs : list action) (n : Z) (r : rng) w : Prop :=
  wf_transport (obj (net w)) /\ outgoing_encryption_active_ (obj (net w)) = bo /\
  incoming_encryption_active_ (obj (net w)) = bi /\ serves xs w /\ n <= room (sock_ (net w)) /\ rand (net w) = r.

(** The generator after the padding of a packet was drawn. *)
Definition after_padding (active : bool) (payload : bytes) (r : rng) : rng :=
  (randombytes_buf (calculate_padding_length active (size payload)) r).2.

Lemma calculate_hmac_succeeds seq p key : exists mac, calculate_hmac seq p key = Ok mac.
Proof.
  unfold calculate_hmac. pose proof (hmac_succeeds (encode_uint32 seq ++ p) key) as H.
  destruct (crypto_auth_hmacsha256 _ _) as [st mac]. cbn in H. subst st. by exists mac.
Qed.

Lemma encrypt_packet_succeeds t p e :
  outgoing_encryption_active_ (obj t) = true -> outgoing_cipher_ (obj t) = Some e -> size p <= 35000 ->
  exists c e', encrypt_outgoing_packet p t = (Ok c, with_outgoing_cipher e' t) /\ size c = size p.
Proof.
  intros Hact He Hp. unfold encrypt_outgoing_packet. rewrite Hact, He. cbn [negb].
  unfold int_max. rewrite Z.gtb_ltb, (proj2 (Z.ltb_ge _ _)) by lia.
  pose proof (encrypt_succeeds e p) as Hs. destruct (EVP_EncryptUpdate e p) as [[st c] e'] eqn:Henc. cbn in Hs. subst st.
  pose proof (encrypt_length _ _ _ _ Henc) as Hl. rewrite Hl, !Z.eqb_refl. cbn [negb].
  exists c, e'. by split.
Qed.

(** With room on the connection a packet is sent. *)
Lemma send_packet_succeeds t payload :
  wf_transport (obj t) -> 1 <= size payload <= 34976 -> size payload + 56 <= room (sock_ t) ->
  exists s' c, send_packet payload t =
      (Ok tt, counted s' (after_padding (outgoing_encryption_active_ (obj t)) payload (rand t)) c t) /\
    incoming s' = incoming (sock_ t) /\ room (sock_ t) - (size payload + 56) <= room s' /\
    (is_Some (outgoing_cipher_ (obj t)) -> is_Some c).
Proof.
  intros (_ & _ & Hkeys & _) Hp Hroom. pose proof (send_packet_start t payload ltac:(lia)) as Hstart. cbn zeta in Hstart.
  unfold after_padding. set (active := outgoing_encryption_active_ (obj t)) in *.
  set (pad := calculate_padding_length active (size payload)) in *.
  destruct (padding_length_spec active (size payload)) as [Hpad _]; [lia|]. fold pad in Hpad.
  assert (Hpad' : 4 <= pad <= 19) by (destruct (block_cases active); lia).
  pose proof (size_randombytes pad (rand t)) as Hq. destruct (randombytes_buf pad (rand t)) as [padding r].
  cbn in Hq. specialize (Hq ltac:(lia)). unfold max_packet_size in Hstart.
  rewrite (proj2 (Z.ltb_ge _ _)), Z.gtb_ltb, (proj2 (Z.ltb_ge _ _)) in Hstart by lia.
  assert (Hf : size (frame payload padding) = 5 + size payload + pad) by (rewrite size_frame; lia).
  cbn [snd]. destruct active eqn:Hact; unfold active in Hact.
  - destruct (Hkeys eq_refl) as [[e He] [key Hkey]].
    destruct (calculate_hmac_succeeds (outgoing_sequence_ (obj t)) (frame payload padding) key) as [mac Hmac].
    pose proof (size_calculate_hmac _ _ _ _ Hmac) as Hm.
    destruct (encrypt_packet_succeeds (with_rand r t) (frame payload padding) e Hact He) as (c & e' & Henc & Hc); [lia|].
    destruct (sock_write_ok (with_outgoing_cipher e' (with_rand r t)) (c ++ mac)) as (s' & Hw & _ & Hin & Hr).
    { rewrite size_app, Hc, Hf, Hm. cbn. lia. }
    exists s', (Some e'). split; [|split; [exact Hin|split; [|by intros _; eexists]]].
    + rewrite Hstart. unfold mbind at 1, M_bind at 1. rewrite !M_gets_run. cbn [obj with_rand]. rewrite Hkey.
      rewrite (M_lift_run (key_of (Some key)) _ _ key eq_refl), (M_lift_run _ _ _ _ Hmac), (M_bind_run _ _ _ _ _ Henc), Hw.
      cbn. unfold counted, with_outgoing_cipher, with_obj. by rewrite Hact.
    + rewrite Hr. cbn. rewrite size_app, Hc, Hf, Hm. lia.
  - destruct (sock_write_ok (with_rand r t) (frame payload padding)) as (s' & Hw & _ & Hin & Hr).
    { rewrite Hf. cbn. lia. }
    exists s', (outgoing_cipher_ (obj t)). split; [|split; [exact Hin|split; [|done]]].
    + by rewrite Hstart, (M_bind_run _ _ _ _ _ Hw).
    + rewrite Hr. cbn. rewrite Hf. lia.
Qed.

(** *** The state between two packets *)

Lemma synced_incoming (a : tstate S') t t' :
  incoming_encryption_active_ (obj t') = incoming_encryption_active_ (obj t) ->
  incoming_sequence_ (obj t') = incoming_sequence_ (obj t) ->
  incoming_cipher_ (obj t') = incoming_cipher_ (obj t) -> incoming_mac_key_ (obj t') = incoming_mac_key_ (obj t) ->
  synced a t -> synced a t'.
Proof. unfold synced. by intros -> -> -> ->. Qed.

Lemma ready_send bo bi xs n r w p :
  ready bo bi xs n r w -> 1 <= size p <= 34976 -> size p + 56 <= n ->
  exists w', send p w = (Ok tt, w') /\ ready bo bi xs (n - (size p + 56)) (after_padding bo p r) w' /\ only_net w w'.
Proof.
  intros (Hwf & Ho & Hi & (a & a' & sent & rest & Hsync & Hok & Hrun & Hout & Hin) & Hn & Hr) Hp Hroom.
  destruct (send_packet_succeeds (net w) p Hwf Hp) as (s' & c & Hs & Hin' & Hroom' & Hc); [lia|].
  unfold send. rewrite M_modify_run. unfold on_net, zoom. cbn [net log]. rewrite Hs. eexists. split; [done|].
  split; [|done]. unfold ready. cbn. rewrite Ho, Hi, Hr. split; [|split; [done|split; [done|split; [|split; [lia|done]]]]].
  - destruct Hwf as (H1 & _ & H3 & H4). split; [exact H1|]. split; [apply u32_range|]. split; [|exact H4].
    rewrite Ho in H3. intros H. destruct (H3 H) as [Hc' Hk]. auto.
  - exists a, a', sent, rest. split; [by apply (synced_incoming a (net w))|]. cbn. by rewrite Hin'.
Qed.

Lemma ready_receive bo bi xs n r w p :
  ready bo bi (Packet p :: xs) n r w ->
  exists w', receive w = (Ok p, w') /\ ready bo bi xs n r w' /\ only_net w w' /\ 1 <= size p <= 34991.
Proof.
  intros (Hwf & Ho & Hi & (a & a' & sent & rest & Hsync & Hok & Hrun & Hout & Hin) & Hn & Hr).
  apply Forall_cons in Hok as [Hp Hok]. cbn [run_sender] in Hrun. apply M_bind_Ok in Hrun as ([] & a1 & H1 & Hrun).
  destruct (send_appends _ _ _ Hp H1) as [w1 Hw1], (run_sender_appends _ _ _ Hok Hrun) as [w2 Hw2].
  rewrite Hw2, Hw1, <- app_assoc in Hout. apply app_inv_head in Hout as <-. rewrite <- app_assoc in Hin.
  destruct (synced_packet _ _ _ _ _ _ Hsync Hp H1 Hw1 Hin) as (t' & Hrec & Hin' & Hsync' & Hroom).
  pose proof (receive_packet_spec (net w) Hwf) as Hspec. rewrite Hrec in Hspec. destruct Hspec as (_ & Hsz & Hsame).
  pose proof (sender_unchanged_wf _ _ Hwf Hsame) as Hwf'. destruct Hsame as (_ & Hrand & seq & c & _ & _ & Hobj).
  unfold receive. rewrite M_gets_run. unfold mbind at 1, M_bind at 1, on_net, zoom. rewrite Hrec.
  eexists. split; [done|]. split; [|by split]. unfold ready. cbn. rewrite Hroom, Hrand, Hobj. cbn. rewrite <- Hobj.
  split_and!; try done. exists a1, a', w2, rest. by split_and!.
Qed.

Lemma ready_newkeys_out bi xs n r w iv key mac :
  ready false bi xs n r w ->
  exists w', on_net (enable_outgoing_encryption iv key mac) w = (Ok tt, w') /\ ready true bi xs n r w' /\ only_net w w'.
Proof.
  intros (Hwf & Ho & Hi & (a & a' & sent & rest & Hsync & Hok & Hrun & Hout & Hin) & Hn & Hr).
  unfold on_net, zoom, enable_outgoing_encryption. destruct ctx_new_succeeds as [c ->].
  pose proof (encrypt_init_succeeds c key iv) as Hs. destruct (EVP_EncryptInit_ex c key iv) as [st e]. cbn in Hs. subst st.
  eexists. split; [done|]. split; [|done]. split; [|split; [done|split; [done|split; [|done]]]].
  - destruct Hwf as (H1 & H2 & _ & H4). split; [exact H1|]. split; [exact H2|]. split; [|exact H4]. intros _. split; by eexists.
  - exists a, a', sent, rest. split; [by apply (synced_incoming a (net w))|done].
Qed.

Lemma ready_newkeys_in bo xs n r w iv key mac :
  ready bo false (NewKeys iv key mac :: xs) n r w ->
  exists w', on_net (enable_incoming_encryption iv key mac) w = (Ok tt, w') /\ ready bo true xs n r w' /\ only_net w w'.
Proof.
  intros (Hwf & Ho & Hi & (a & a' & sent & rest & Hsync & Hok & Hrun & Hout & Hin) & Hn & Hr).
  apply Forall_cons in Hok as [Hk Hok]. cbn [run_sender] in Hrun. apply M_bind_Ok in Hrun as ([] & a1 & H1 & Hrun).
  destruct (synced_newkeys _ _ _ _ _ _ Hsync Hk H1) as (Ho1 & t' & Hrec & Hin' & Hsync').
  unfold on_net, zoom. rewrite Hrec. eexists. split; [done|]. split; [|done].
  assert (Hfields : wf_transport (obj t') /\ outgoing_encryption_active_ (obj t') = bo /\
    incoming_encryption_active_ (obj t') = true /\ room (sock_ t') = room (sock_ (net w)) /\ rand t' = rand (net w)).
  { revert Hrec. unfold enable_incoming_encryption. destruct EVP_CIPHER_CTX_new; [|done].
    destruct (EVP_DecryptInit_ex _ _ _) as [st d]. destruct (negb _); [done|]. intros [= <-].
    destruct Hwf as (H1' & H2 & H3 & _). split; [|done]. split; [exact H1'|]. split; [exact H2|]. split; [exact H3|].
    intros _. split; by eexists. }
  destruct Hfields as (Hwf' & Ho' & Hi' & Hroom & Hrand). split; [done|]. split; [done|]. split; [done|].
  split; [|cbn; by rewrite Hroom, Hrand]. exists a1, a', sent, rest. cbn. rewrite Hin', <- Ho1 in *. by split_and!.
Qed.

Lemma only_net_trans w w1 w2 : only_net w w1 -> only_net w1 w2 -> only_net w w2.
Proof. intros (? & ? & ? & ? & ?) (? & ? & ? & ? & ?). unfold only_net. split_and!; congruence. Qed.

Lemma ready_rng {A} bo bi xs n r w (m : M rng A) (a : A) r' :
  ready bo bi xs n r w -> m r = (Ok a, r') ->
  exists w', on_rng m w = (Ok a, w') /\ ready bo bi xs n r' w' /\ only_net w w'.
Proof.
  intros (Hwf & Ho & Hi & Hs & Hn & Hr) Hm. unfold on_rng, zoom. rewrite Hr, Hm. eexists. split; [done|]. split; [|done].
  split; [done|]. split; [done|]. split; [done|]. split; [|done].
  destruct Hs as (a0 & a' & sent & rest & Hsync & ?). exists a0, a', sent, rest. split; [by apply (synced_incoming a0 (net w))|done].
Qed.

(** What the console and the disk do leaves the network alone. *)
Lemma ready_same bo bi xs n r w w' : ready bo bi xs n r w -> net w' = net w -> ready bo bi xs n r w'.
Proof. unfold ready, serves. by intros H ->. Qed.

(** ** The key exchange *)

(** The server's contribution: its KEXINIT and the flag byte of it, its ephemeral
    key, its Ed25519 key and the signature. *)
Record offer := {
  of_kexinit : KexInit;
  of_follows : byte;
  of_public : bytes;
  of_host_key : bytes;
  of_signature : bytes;
}.

Definition host_key_of (x : offer) : bytes := wire [FString ed25519_name; FString (of_host_key x)].
Definition reply_of (x : offer) : EcdhReply :=
  {| server_host_key := host_key_of x; server_public_key := of_public x;
     signature := wire [FString ed25519_name; FString (of_signature x)] |}.

Definition exchange_actions (x : offer) (keys : TransportKeyMaterial) : list action :=
  [Packet (kexinit_wire (of_kexinit x) (of_follows x));
   Packet (wire [FByte ssh_message.KEX_ECDH_REPLY; FString (server_host_key (reply_of x));
                 FString (server_public_key (reply_of x)); FString (signature (reply_of x))]);
   Packet [byte_of ssh_message.NEWKEYS];
   NewKeys (iv_sc keys) (encryption_key_sc keys) (mac_key_sc keys)].

(** The server plays by RFC 4253 and RFC 8731 against a client whose KEXINIT is
    [ck] and whose ephemeral keys are [kp]: it lists the suite, its messages have
    the right sizes, and it signs the hash of the exchange with its host key. *)
Definition honest (id : IdentificationExchange) (ck : KexInit) (kp : Curve25519State) (x : offer)
    (secret hash : bytes) : Prop :=
  size (cookie (of_kexinit x)) = 16 /\ Forall (fun l => size l < 2 ^ 32) (name_lists (of_kexinit x)) /\
  raw_payload (of_kexinit x) = kexinit_wire (of_kexinit x) (of_follows x) /\
  first_kex_packet_follows (of_kexinit x) = negb (u8 (of_follows x) =? 0) /\
  Forall2 (fun c s => c ∈ getlines x2c s) (take 8 client_lists) (take 8 (name_lists (of_kexinit x))) /\
  size (of_public x) = 32 /\ size (of_host_key x) = 32 /\ size (of_signature x) = 64 /\
  crypto_scalarmult_curve25519 (client_private_key kp) (of_public x) = (0, secret) /\
  hash = crypto_hash_sha256 (transcript (id_client id) (id_server id) (raw_payload ck)
    (raw_payload (of_kexinit x)) (host_key_of x) (client_public_key kp) (of_public x) secret) /\
  crypto_sign_verify_detached (of_signature x) hash (of_host_key x) = 0.

(** The user trusts the host: its key is stored, or the user types "yes" and it
    can be stored.  [ls] is what the user types later. *)
Definition trusts (path hostname host_key : bytes) (ls : list line_event) w : Prop :=
  (check path hostname ed25519_name host_key (disk w) = Ok Match /\ lines (con w) = ls) \/
  (check path hostname ed25519_name host_key (disk w) = Ok Unknown /\ lines (con w) = Line (str "yes") :: ls /\
   exists d', add path hostname ed25519_name host_key (disk w) = (Ok tt, d')).

(** The console but for its output, the lines read and the script of the calls on
    its settings. *)
Definition same_console (c c' : Console) : Prop :=
  settings c' = settings c /\ keyboard c' = keyboard c /\ term_env c' = term_env c /\ window_size c' = window_size c.

Lemma on_con_print {A} d (f : unit -> M (World S) A) w :
  (on_con (print d) ≫= f) w = f tt (set_con (set_output (out (con w) ++ d) (err (con w)) (con w)) w).
Proof. done. Qed.

Lemma confirm_succeeds path hostname host_key text ls w :
  trusts path hostname host_key ls w ->
  exists w', confirm_host_key path hostname ed25519_name host_key text w = (Ok tt, w') /\
    net w' = net w /\ term w' = term w /\ chan w' = chan w /\ polls w' = polls w /\ lines (con w') = ls /\ same_console (con w) (con w') /\
    tc_calls (con w') = tc_calls (con w).
Proof.
  intros [(Hc & Hl)|(Hc & Hl & d' & Ha)]; unfold confirm_host_key; rewrite M_gets_run, M_lift_res, Hc.
  - eexists. split; [done|]. by split_and!.
  - rewrite !on_con_print. set (w1 := set_con _ (set_con _ (set_con _ w))).
    assert (Hread : on_con getline_cin w1 =
      (Ok (true, str "yes"), set_con (set_lines ls (line_log (con w1) ++ [settings (con w1)]) (con w1)) w1)).
    { unfold on_con, zoom, getline_cin. change (lines (con w1)) with (lines (con w)). by rewrite Hl. }
    rewrite (M_bind_run _ _ _ _ _ Hread). set (w2 := set_con _ w1). rewrite beq_refl. cbn [negb].
    assert (Hadd : on_disk (add path hostname ed25519_name host_key) w2 = (Ok tt, set_disk d' w2)).
    { unfold on_disk, zoom. change (disk w2) with (disk w). by rewrite Ha. }
    rewrite (M_bind_run _ _ _ _ _ Hadd). eexists. split; [done|]. by split_and!.
Qed.

Lemma client_kexinit_facts r ck r1 :
  create_client_kexinit r = (Ok ck, r1) -> name_lists ck = client_lists /\ size (raw_payload ck) = 144.
Proof.
  intros Hrun. destruct (create_client_kexinit_eq r) as (k & r' & Hk & Hraw & Hc & Hl & _).
  rewrite Hk in Hrun. injection Hrun as <- <-. split; [done|]. rewrite Hraw. clear Hraw.
  destruct k. unfold name_lists, kexinit_wire in *. cbn in Hc, Hl |- *. injection Hl as -> -> -> -> -> -> -> -> -> ->.
  unfold wire. cbn [fmap list_fmap concat wire_field]. autorewrite with size. rewrite !size_be32, Hc. by vm_compute.
Qed.

Lemma client_keys_size r kp r2 :
  create_curve25519_keypair r = (Ok kp, r2) -> size (client_public_key kp) = 32.
Proof.
  unfold create_curve25519_keypair. destruct (randombytes_buf 32 r) as [sk r'].
  pose proof (size_scalarmult_base sk) as Hs. destruct (crypto_scalarmult_curve25519_base sk) as [st pk].
  destruct (negb _); [done|]. by intros [= <- _].
Qed.

(** The cryptographic half of the exchange, on an honest offer. *)
Lemma honest_agreement id ck kp x secret hash :
  honest id ck kp x secret hash -> name_lists ck = client_lists -> size (raw_payload ck) < 2 ^ 32 ->
  size (client_public_key kp) = 32 -> size (id_client id) < 2 ^ 32 -> size (id_server id) < 2 ^ 32 ->
  size (raw_payload (of_kexinit x)) < 2 ^ 32 ->
  negotiate ck (of_kexinit x) = Ok client_suite /\
  exists kp', calculate_shared_secret kp (of_public x) = Ok kp' /\ shared_secret kp' = secret /\
    calculate_exchange_hash (id_client id) (id_server id) ck (of_kexinit x) kp' (reply_of x) = Ok hash /\
    parse_ed25519_verification_data (reply_of x) ed25519_name =
      Ok {| ed_public_key := of_host_key x; ed_signature := of_signature x |} /\
    verify_ed25519_signature {| ed_public_key := of_host_key x; ed_signature := of_signature x |} hash = Ok tt.
Proof.
  intros (_ & _ & _ & _ & Hlists & Hq & Hpk & Hsig & Hsec & Hhash & Hver) Hl Hck Hkp Hci Hsi Hraw.
  split; [by apply negotiate_lists|]. unfold calculate_shared_secret.
  pose proof (size_scalarmult (client_private_key kp) (of_public x)) as Hs. rewrite Hsec in *. cbn in Hs.
  eexists. split; [done|]. split; [done|]. split; [|split; [by apply parse_ed25519_wire|]].
  - rewrite calculate_exchange_hash_eq; cbn; [by rewrite Hhash| |done].
    assert (size (host_key_of x) < 2 ^ 32).
    { unfold host_key_of. rewrite !wire_cons, wire_nil. cbn [wire_field]. autorewrite with size. rewrite !size_be32, Hpk. by vm_compute. }
    repeat constructor; try done; lia.
  - unfold verify_ed25519_signature. cbn [ed_signature ed_public_key]. by rewrite Hver.
Qed.

Lemma agree_succeeds id path hostname w xs keys n r ck r1 kp r2 x secret hash ls :
  ready false false (exchange_actions x keys ++ xs) n r w -> 400 <= n ->
  create_client_kexinit r = (Ok ck, r1) ->
  create_curve25519_keypair (after_padding false (raw_payload ck) r1) = (Ok kp, r2) ->
  honest id ck kp x secret hash -> size (id_client id) < 2 ^ 32 -> size (id_server id) < 2 ^ 32 ->
  trusts path hostname (host_key_of x) ls w ->
  exists w' r', agree_on_keys id path hostname w = (Ok (secret, hash), w') /\
    ready false false (drop 2 (exchange_actions x keys) ++ xs) (n - 293) r' w' /\
    term w' = term w /\ chan w' = chan w /\ polls w' = polls w /\ lines (con w') = ls /\ same_console (con w) (con w') /\
    tc_calls (con w') = tc_calls (con w).
Proof.
  intros Hw Hn Hck Hkp Hx Hci Hsi Htrust.
  destruct (client_kexinit_facts _ _ _ Hck) as [Hl Hsz]. pose proof (client_keys_size _ _ _ Hkp) as Hpub.
  destruct (ready_rng _ _ _ _ _ _ _ _ _ Hw Hck) as (w1 & Hrun1 & Hw1 & Hn1).
  destruct (ready_send _ _ _ _ _ _ (raw_payload ck) Hw1) as (w2 & Hrun2 & Hw2 & Hn2); [lia..|].
  destruct (ready_receive _ _ _ _ _ _ _ Hw2) as (w3 & Hrun3 & Hw3 & Hn3 & Hp3).
  assert (Hraw : size (raw_payload (of_kexinit x)) < 2 ^ 32) by (destruct Hx as (_ & _ & -> & _); lia).
  destruct (honest_agreement _ _ _ _ _ _ Hx Hl ltac:(lia) Hpub Hci Hsi Hraw) as (Hneg & kp' & Hsec & Hks & Hhash & Hdata & Hver).
  destruct (ready_rng _ _ _ _ _ _ _ _ _ Hw3 Hkp) as (w4 & Hrun4 & Hw4 & Hn4).
  assert (Hinit : size (create_ecdh_init_payload kp) = 37).
  { unfold create_ecdh_init_payload. autorewrite with size. rewrite Hpub. by vm_compute. }
  destruct (ready_send _ _ _ _ _ _ (create_ecdh_init_payload kp) Hw4) as (w5 & Hrun5 & Hw5 & Hn5); [lia..|].
  destruct (ready_receive _ _ _ _ _ _ _ Hw5) as (w6 & Hrun6 & Hw6 & Hn6 & Hp6).
  pose proof (only_net_trans _ _ _ (only_net_trans _ _ _ (only_net_trans _ _ _ Hn1 Hn2) Hn3)
    (only_net_trans _ _ _ (only_net_trans _ _ _ Hn4 Hn5) Hn6)) as (Hdisk & Hcon & Hterm & Hchan & Hpolls).
  destruct (confirm_succeeds path hostname (host_key_of x)
    (format_sha256_fingerprint (calculate_host_key_fingerprint (host_key_of x))) ls w6) as (w7 & Hrun7 & Hnet & Ht7 & Hch7 & Hp7 & Hl7 & Hc7 & Hcalls7).
  { unfold trusts. by rewrite Hdisk, Hcon. }
  exists w7. eexists. split; [|split; [eapply ready_same; [|exact Hnet]; replace (n - 293) with (n - (size (raw_payload ck) + 56) - (size (create_ecdh_init_payload kp) + 56)) by lia; exact Hw6|]].
  2: { rewrite Ht7, Hch7, Hp7, Hterm, Hchan, Hpolls, <- Hcon. by split_and!. }
  assert (Hsend : send_kexinit w = (Ok ck, w2)).
  { unfold send_kexinit. by rewrite (M_bind_run _ _ _ _ _ Hrun1), (M_bind_run _ _ _ _ _ Hrun2). }
  assert (Hrecv : receive_kexinit w2 = (Ok (of_kexinit x), w3)).
  { unfold receive_kexinit. rewrite (M_bind_run _ _ _ _ _ Hrun3), (proj2 (Z.eqb_neq _ _)) by lia.
    destruct Hx as (Hcookie & Hlists & Hr & Hf & _). unfold lift.
    rewrite (parse_kexinit_wire (of_kexinit x) (of_follows x)); try done. unfold addressable. lia. }
  unfold agree_on_keys. rewrite (M_bind_run _ _ _ _ _ Hsend), (M_bind_run _ _ _ _ _ Hrecv), (M_lift_run _ _ _ _ Hneg).
  change (beq (kex_algorithm client_suite) (str "curve25519-sha256")) with true. cbv iota.
  rewrite (M_bind_run _ _ _ _ _ Hrun4), (M_bind_run _ _ _ _ _ Hrun5), (M_bind_run _ _ _ _ _ Hrun6).
  rewrite (proj2 (Z.eqb_neq _ _)) by lia.
  destruct Hx as (_ & _ & _ & _ & _ & Hq & Hpk & Hsig & _).
  rewrite (M_lift_run _ _ _ _ (index_wire ssh_message.KEX_ECDH_REPLY _ ltac:(done))). cbn [negb Z.eqb Pos.eqb ssh_message.KEX_ECDH_REPLY].
  assert (Hsmall : forall d, size d <= 64 -> size (wire [FString ed25519_name; FString d]) < 2 ^ 32).
  { intros d Hd. rewrite !wire_cons, wire_nil. cbn [wire_field]. autorewrite with size. rewrite !size_be32.
    change (size ed25519_name) with 11. lia. }
  rewrite (M_lift_run _ _ _ _ (parse_ecdh_reply_wire (reply_of x) ltac:(unfold addressable; lia)
    ltac:(apply Hsmall; lia) Hq ltac:(apply Hsmall; lia))).
  rewrite (M_lift_run _ _ _ _ Hsec), (M_lift_run _ _ _ _ Hhash), (M_lift_run _ _ _ _ Hdata), (M_lift_run _ _ _ _ Hver).
  cbn zeta. rewrite (M_bind_run _ _ _ _ _ Hrun7). by rewrite Hks.
Qed.

Lemma switch_succeeds w xs n r keys secret hash :
  ready false false ([Packet [byte_of ssh_message.NEWKEYS];
                      NewKeys (iv_sc keys) (encryption_key_sc keys) (mac_key_sc keys)] ++ xs) n r w -> 57 <= n ->
  derive_transport_keys secret hash hash = Ok keys ->
  exists w' r', switch_to_keys secret hash w = (Ok tt, w') /\ ready true true xs (n - 57) r' w' /\ only_net w w'.
Proof.
  intros Hw Hn Hkeys. unfold switch_to_keys. cbn zeta. rewrite (M_lift_run _ _ _ _ Hkeys).
  destruct (ready_send _ _ _ _ _ _ [byte_of ssh_message.NEWKEYS] Hw) as (w1 & Hrun1 & Hw1 & Hn1); [done..|].
  rewrite (M_bind_run _ _ _ _ _ Hrun1).
  destruct (ready_newkeys_out _ _ _ _ _ (iv_cs keys) (encryption_key_cs keys) (mac_key_cs keys) Hw1) as (w2 & Hrun2 & Hw2 & Hn2).
  rewrite (M_bind_run _ _ _ _ _ Hrun2).
  destruct (ready_receive _ _ _ _ _ _ _ Hw2) as (w3 & Hrun3 & Hw3 & Hn3 & _).
  rewrite (M_bind_run _ _ _ _ _ Hrun3). cbn [negb Z.eqb Pos.eqb].
  change (size [byte_of ssh_message.NEWKEYS] =? NEWKEYS_PAYLOAD_SIZE) with true. cbn [negb].
  rewrite (M_lift_run _ _ _ _ (index_0 _ _)), u8_byte_of_small by done. cbn [negb Z.eqb Pos.eqb ssh_message.NEWKEYS].
  destruct (ready_newkeys_in _ _ _ _ _ _ _ _ Hw3) as (w4 & Hrun4 & Hw4 & Hn4).
  exists w4. eexists. split; [exact Hrun4|]. split; [exact Hw4|].
  exact (only_net_trans _ _ _ (only_net_trans _ _ _ Hn1 Hn2) (only_net_trans _ _ _ Hn3 Hn4)).
Qed.

Lemma exchange_succeeds id path hostname w xs n r ck r1 kp r2 x secret hash keys ls :
  ready false false (exchange_actions x keys ++ xs) n r w -> 400 <= n ->
  create_client_kexinit r = (Ok ck, r1) ->
  create_curve25519_keypair (after_padding false (raw_payload ck) r1) = (Ok kp, r2) ->
  honest id ck kp x secret hash -> derive_transport_keys secret hash hash = Ok keys ->
  size (id_client id) < 2 ^ 32 -> size (id_server id) < 2 ^ 32 ->
  trusts path hostname (host_key_of x) ls w ->
  exists w' r', perform_key_exchange id path hostname w = (Ok tt, w') /\ ready true true xs (n - 350) r' w' /\
    term w' = term w /\ chan w' = chan w /\ polls w' = polls w /\ lines (con w') = ls /\ same_console (con w) (con w') /\
    tc_calls (con w') = tc_calls (con w).
Proof.
  intros Hw Hn Hck Hkp Hx Hkeys Hci Hsi Htrust.
  destruct (agree_succeeds _ _ _ _ _ _ _ _ _ _ _ _ _ _ _ _ Hw Hn Hck Hkp Hx Hci Hsi Htrust)
    as (w1 & r3 & Hrun1 & Hw1 & Ht1 & Hch1 & Hp1 & Hl1 & Hc1).
  destruct (switch_succeeds w1 xs (n - 293) r3 keys secret hash Hw1) as (w2 & r4 & Hrun2 & Hw2 & _ & Hcon & Hterm & Hchan & Hpolls); [lia|done|].
  exists w2, r4. split; [|rewrite Hcon, Hterm, Hchan, Hpolls; split; [by replace (n - 350) with (n - 293 - 57) by lia|done]].
  unfold perform_key_exchange. by rewrite (M_bind_run _ _ _ _ _ Hrun1).
Qed.

(** ** Authentication *)

(** The server accepts the service, refuses the request without a method, and
    accepts the password. *)
Definition welcome (methods : bytes) (partial : byte) : list action :=
  [Packet (wire [FByte ssh_message.SERVICE_ACCEPT; FString (str "ssh-userauth")]);
   Packet (wire [FByte ssh_message.USERAUTH_FAILURE; FString methods; FRaw [partial]]);
   Packet [byte_of ssh_message.USERAUTH_SUCCESS]].

Lemma hidden_input_succeeds prompt c password ls :
  calls_ok c -> lines c = Line password :: ls ->
  exists c', read_hidden_input prompt c = (Ok password, c') /\ calls_ok c' /\ lines c' = ls /\ same_console c c'.
Proof.
  intros Hc Hl. unfold read_hidden_input. rewrite (M_bind_run (print prompt) _ c tt _ eq_refl).
  set (c0 := set_output _ _ c). assert (Hc0 : calls_ok c0) by exact Hc.
  rewrite (M_bind_run _ _ _ _ _ (tcgetattr_cases c0)), (calls_ok_next c0 Hc0).
  set (c1 := set_tty _ _ c0). assert (Hc1 : calls_ok c1) by by apply calls_ok_tail. cbn beta iota zeta.
  rewrite (M_bind_run _ _ _ _ _ (tcsetattr_cases _ c1)), (calls_ok_next c1 Hc1). cbn [negb].
  set (c2 := set_tty _ _ c1). assert (Hc2 : calls_ok c2) by by apply calls_ok_tail.
  pose proof (hidden_line_cases (settings c0) c2) as Hline. cbn zeta in Hline. change (lines c2) with (lines c) in Hline.
  rewrite Hl in Hline. rewrite (M_bind_res _ _ _ _ _ Hline). cbn beta iota zeta.
  set (c3 := set_lines _ _ c2) in *. assert (Hc3 : calls_ok c3) by exact Hc2.
  rewrite (M_bind_run _ _ _ _ _ (tcsetattr_cases _ c3)), (calls_ok_next c3 Hc3). cbn [negb].
  eexists. split; [done|]. split; [by apply (calls_ok_tail (settings c0) c3)|done].
Qed.

Lemma authentication_succeeds username password methods partial w xs n r ls :
  ready true true (welcome methods partial ++ xs) n r w ->
  size username + size password <= 34000 -> 2 * size username + size password + 400 <= n ->
  calls_ok (con w) -> lines (con w) = Line password :: ls ->
  exists w' n' r', authenticate_user username w = (Ok tt, w') /\ ready true true xs n' r' w' /\
    n - (2 * size username + size password + 400) <= n' /\
    disk w' = disk w /\ term w' = term w /\ chan w' = chan w /\ polls w' = polls w /\ lines (con w') = ls /\
    same_console (con w) (con w') /\ calls_ok (con w').
Proof.
  intros Hw Hsz Hn Hcalls Hl.
  destruct (auth_requests_wire username password) as (Eq1 & Eq2 & Eq3). unfold authenticate_user.
  pose proof (size_nonneg username). pose proof (size_nonneg password).
  rewrite (proj2 (Z.ltb_lt _ _)) in Eq2, Eq3 by lia. rewrite (proj2 (Z.ltb_lt _ _)) in Eq3 by lia. cbn [andb] in Eq3.
  set (p1 := wire _) in Eq1. set (p2 := wire _) in Eq2. set (p3 := wire _) in Eq3.
  assert (Hs1 : size p1 = 17) by by vm_compute.
  assert (Hs2 : size p2 = size username + 31).
  { subst p2. unfold wire. cbn [fmap list_fmap concat wire_field]. autorewrite with size. rewrite !size_be32.
    change (size (str "ssh-connection")) with 14. change (size (str "none")) with 4. lia. }
  assert (Hs3 : size p3 = size username + size password + 40).
  { subst p3. unfold wire. cbn [fmap list_fmap concat wire_field]. autorewrite with size. rewrite !size_be32.
    change (size (str "ssh-connection")) with 14. change (size (str "password")) with 8. lia. }
  rewrite (M_lift_run _ _ _ _ Eq1).
  destruct (ready_send _ _ _ _ _ _ p1 Hw) as (w1 & Hrun1 & Hw1 & Hn1); [lia..|]. rewrite (M_bind_run _ _ _ _ _ Hrun1).
  destruct (ready_receive _ _ _ _ _ _ _ Hw1) as (w2 & Hrun2 & Hw2 & Hn2 & _). rewrite (M_bind_run _ _ _ _ _ Hrun2).
  rewrite (M_lift_run _ _ _ _ validate_service_accept_wire), (M_lift_run _ _ _ _ Eq2).
  destruct (ready_send _ _ _ _ _ _ p2 Hw2) as (w3 & Hrun3 & Hw3 & Hn3); [lia..|]. rewrite (M_bind_run _ _ _ _ _ Hrun3).
  destruct (ready_receive _ _ _ _ _ _ _ Hw3) as (w4 & Hrun4 & Hw4 & Hn4 & Hp4). rewrite (M_bind_run _ _ _ _ _ Hrun4).
  assert (Hm : size methods < 2 ^ 32).
  { revert Hp4. unfold wire. cbn [fmap list_fmap concat wire_field]. autorewrite with size. rewrite size_be32. cbn. lia. }
  rewrite (M_lift_run _ _ _ _ (parse_auth_failure_wire methods partial Hm ltac:(unfold addressable; lia))).
  pose proof (only_net_trans _ _ _ (only_net_trans _ _ _ Hn1 Hn2) (only_net_trans _ _ _ Hn3 Hn4)) as (Hd4 & Hc4 & Ht4 & Hch4 & Hpo4).
  rewrite <- Hc4 in Hcalls, Hl |- *.
  destruct (hidden_input_succeeds (str "Password: ") _ _ _ Hcalls Hl) as (c & Hread & Hok & Hls & Hsame).
  assert (Hrun5 : on_con (read_hidden_input (str "Password: ")) w4 = (Ok password, set_con c w4)).
  { unfold on_con, zoom. by rewrite Hread. }
  rewrite (M_bind_run _ _ _ _ _ Hrun5), (M_lift_run _ _ _ _ Eq3).
  assert (Hw5 : ready true true (Packet [byte_of ssh_message.USERAUTH_SUCCESS] :: xs)
    (n - (size p1 + 56) - (size p2 + 56)) (after_padding true p2 (after_padding true p1 r)) (set_con c w4)) by exact Hw4.
  destruct (ready_send _ _ _ _ _ _ p3 Hw5) as (w6 & Hrun6 & Hw6 & Hn6); [lia..|]. rewrite (M_bind_run _ _ _ _ _ Hrun6).
  destruct (ready_receive _ _ _ _ _ _ _ Hw6) as (w7 & Hrun7 & Hw7 & Hn7 & _). rewrite (M_bind_run _ _ _ _ _ Hrun7).
  change (size [byte_of ssh_message.USERAUTH_SUCCESS] =? 0) with false. cbv iota.
  rewrite (M_lift_run _ _ _ _ (index_0 _ _)), u8_byte_of_small by done. cbn [Z.eqb Pos.eqb ssh_message.USERAUTH_SUCCESS].
  rewrite (M_lift_run (validate_auth_success [byte_of 52]) _ _ tt eq_refl).
  destruct (only_net_trans _ _ _ Hn6 Hn7) as (Hd7 & Hc7 & Ht7 & Hch7 & Hpo7).
  eexists _, _, _. split; [done|]. split; [exact Hw7|]. split; [lia|]. cbn.
  rewrite Hd7, Hc7, Ht7, Hch7, Hpo7, <- Hd4, <- Ht4, <- Hch4, <- Hpo4. done.
Qed.

Lemma login_succeeds id path hostname username password methods partial w xs n r ck r1 kp r2 x secret hash keys ls :
  ready false false (exchange_actions x keys ++ welcome methods partial ++ xs) n r w ->
  size username + size password <= 34000 -> 2 * size username + size password + 800 <= n ->
  create_client_kexinit r = (Ok ck, r1) ->
  create_curve25519_keypair (after_padding false (raw_payload ck) r1) = (Ok kp, r2) ->
  honest id ck kp x secret hash -> derive_transport_keys secret hash hash = Ok keys ->
  size (id_client id) < 2 ^ 32 -> size (id_server id) < 2 ^ 32 ->
  trusts path hostname (host_key_of x) (Line password :: ls) w -> calls_ok (con w) ->
  exists w1 w2 n' r', perform_key_exchange id path hostname w = (Ok tt, w1) /\
    authenticate_user username w1 = (Ok tt, w2) /\ ready true true xs n' r' w2 /\
    n - (2 * size username + size password + 800) <= n' /\ term w1 = term w /\ term w2 = term w1 /\
    chan w2 = chan w /\ polls w2 = polls w /\ lines (con w2) = ls /\ calls_ok (con w2).
Proof.
  intros Hw Hsz Hn Hck Hkp Hx Hkeys Hci Hsi Htrust Hcalls. pose proof (size_nonneg username). pose proof (size_nonneg password).
  destruct (exchange_succeeds _ _ _ _ _ _ _ _ _ _ _ _ _ _ _ _ Hw ltac:(lia) Hck Hkp Hx Hkeys Hci Hsi Htrust)
    as (w1 & r3 & Hrun1 & Hw1 & Ht1 & Hch1 & Hp1 & Hl1 & _ & Hc1).
  destruct (authentication_succeeds username password _ _ _ _ _ _ ls Hw1) as (w2 & n' & r4 & Hrun2 & Hw2 & Hn' & _ & Ht2 & Hch2 & Hp2 & Hl2 & _ & Hc2);
    [lia|lia|unfold calls_ok; by rewrite Hc1|done|].
  exists w1, w2, n', r4. rewrite Hch2, Hch1, Hp2, Hp1. split_and!; try done. lia.
Qed.

End liveness.

(** ** Properties *)

Section properties.
Context {C : Crypto} {CS : CryptoSizes} {CL : CipherLaws} {CO : CryptoSucceeds}.
Context {S : Type} {BS : ByteStream S} {BL : ByteStreamLaws S}.
Context {S' : Type} {BS' : ByteStream S'} {BL' : ByteStreamLaws S'}.
Implicit Types w : World S.

(** C16: an honest server lets the user in.  Its packets under way are its KEXINIT, its
    signed reply, NEWKEYS, and then, under the keys of the exchange, the acceptance
    of the service, the refusal of the request without a method and the acceptance
    of the password; the host is trusted or the user says "yes"; the next line
    typed is the password.  However the stream is segmented, key exchange and
    authentication return, everything the server sent is consumed, encryption is on
    in both directions and in step with the server. *)
Theorem honest_server_admits id path hostname username password methods partial w xs n r ck r1 kp r2 x secret hash keys ls :
  ready (S' := S') false false (exchange_actions x keys ++ welcome methods partial ++ xs) n r w ->
  size username + size password <= 34000 -> 2 * size username + size password + 800 <= n ->
  create_client_kexinit r = (Ok ck, r1) ->
  create_curve25519_keypair (after_padding false (raw_payload ck) r1) = (Ok kp, r2) ->
  honest id ck kp x secret hash -> derive_transport_keys secret hash hash = Ok keys ->
  size (id_client id) < 2 ^ 32 -> size (id_server id) < 2 ^ 32 ->
  trusts path hostname (host_key_of x) (Line password :: ls) w -> calls_ok (con w) ->
  exists w' n' r', (perform_key_exchange id path hostname;; authenticate_user username) w = (Ok tt, w') /\
    ready (S' := S') true true xs n' r' w' /\ n - (2 * size username + size password + 800) <= n' /\
    lines (con w') = ls /\ calls_ok (con w').
Proof.
  intros Hw Hsz Hn Hck Hkp Hx Hkeys Hci Hsi Htrust Hcalls.
  destruct (login_succeeds _ _ _ _ _ _ _ _ _ _ _ _ _ _ _ _ _ _ _ _ Hw Hsz Hn Hck Hkp Hx Hkeys Hci Hsi Htrust Hcalls)
    as (w1 & w2 & n' & r' & Hrun1 & Hrun2 & Hw2 & Hn' & _ & _ & _ & _ & Hl & Hc).
  exists w2, n', r'. by rewrite (M_bind_run _ _ _ _ _ Hrun1), Hrun2.
Qed.

End properties.

(** ** Concrete runs *)

Section samples.
#[local] Existing Instances Toy.crypto Toy.sizes_ok Toy.cipher_ok Toy.succeeds.

Definition sample_offer : offer :=
  {| of_kexinit := sample_kexinit; of_follows := x01; of_public := sample_server_key; of_host_key := sample_pk;
     of_signature := sample_signature |}.
Definition login_secret : bytes := Toy.digest (client_private_key sample_keypair ++ sample_server_key).
Definition login_keys : TransportKeyMaterial :=
  match derive_transport_keys login_secret sample_hash sample_hash with
  | Ok keys => keys
  | _ => {| iv_cs := []; iv_sc := []; encryption_key_cs := []; encryption_key_sc := []; mac_key_cs := []; mac_key_sc := [] |}
  end.

(** The server of the sample, and what it has sent when it did [xs]. *)
Definition honest_server : tstate Socket := {| sock_ := sample_socket []; rand := sample_seed; obj := Transport_new |}.
Definition server_bytes (xs : list action) : bytes := outgoing (sock_ (run_sender xs honest_server).2).

Definition login_actions : list action :=
  exchange_actions sample_offer login_keys ++ welcome (str "password") x00 ++ [].

(** The user says "yes" and types the password. *)
Definition sample_login : World Socket :=
  sample_world (server_bytes login_actions) [Line (str "yes"); Line (str "secret")] Transport_new.

Lemma server_actions_ok xs : forallb (fun x => match x with Packet p => size p <? 2 ^ 63 | _ => true end) xs = true ->
  Forall action_ok xs.
Proof.
  induction xs as [|[p|iv key mac] xs IH]; [constructor|..]; cbn [forallb]; intros [Hp H]%andb_prop; constructor; auto.
  - by apply Z.ltb_lt.
  - by intros c.
Qed.

Lemma sample_socket_incoming d : incoming (sample_socket d) = d.
Proof. destruct d as [|b d]; [done|]. cbn. by rewrite app_nil_r. Qed.

Lemma served_from_start xs typed :
  forallb (fun x => match x with Packet p => size p <? 2 ^ 63 | _ => true end) xs = true ->
  (run_sender xs honest_server).1 = Ok tt ->
  ready (S' := Socket) false false xs 100000 sample_seed (sample_world (server_bytes xs) typed Transport_new).
Proof.
  intros Hok Hrun. split; [split; [cbn; lia|split; [cbn; lia|done]]|]. split; [done|]. split; [done|].
  split; [|by split]. exists honest_server, (run_sender xs honest_server).2, (server_bytes xs), [].
  split; [done|]. split; [by apply server_actions_ok|]. split; [by apply outcome_of|].
  split; [done|]. rewrite app_nil_r. apply sample_socket_incoming.
Qed.

Lemma login_runs : (run_sender login_actions honest_server).1 = Ok tt.
Proof. vm_compute. reflexivity. Qed.

Lemma sample_first_messages : exists r1 r2,
  create_client_kexinit sample_seed = (Ok sample_client, r1) /\
  create_curve25519_keypair (after_padding false (raw_payload sample_client) r1) = (Ok sample_keypair, r2).
Proof.
  eexists _, _. split; (apply outcome_of; vm_compute; reflexivity).
Qed.

Lemma sample_offer_honest : honest sample_id sample_client sample_keypair sample_offer login_secret sample_hash.
Proof.
  split; [reflexivity|]. split; [repeat constructor|]. split; [vm_compute; reflexivity|]. split; [reflexivity|].
  split; [|split; [reflexivity|split; [reflexivity|split; [vm_compute; reflexivity|]]]].
  - repeat constructor; apply (bool_decide_unpack _); vm_compute; reflexivity.
  - split; [reflexivity|]. split; vm_compute; reflexivity.
Qed.

Lemma honest_server_admits_witness : exists w',
  (perform_key_exchange sample_id sample_path (str "host");; authenticate_user (str "me")) sample_login = (Ok tt, w') /\
  lines (con w') = [].
Proof.
  destruct sample_first_messages as (r1 & r2 & Hck & Hkp).
  destruct (honest_server_admits (S' := Socket) sample_id sample_path (str "host") (str "me") (str "secret") (str "password") x00
    sample_login [] 100000 sample_seed sample_client r1 sample_keypair r2 sample_offer login_secret sample_hash login_keys [])
    as (w' & n' & r' & Hrun & _ & _ & Hl & _).
  - apply served_from_start; [vm_compute; reflexivity|exact login_runs].
  - vm_compute. congruence.
  - vm_compute. congruence.
  - exact Hck.
  - exact Hkp.
  - exact sample_offer_honest.
  - vm_compute. reflexivity.
  - reflexivity.
  - reflexivity.
  - right. split; [vm_compute; reflexivity|]. split; [reflexivity|]. eexists. vm_compute. reflexivity.
  - constructor.
  - exists w'. split; [exact Hrun|exact Hl].
Defined.

End samples.
