(* ===== verification/Service.v ===== *)
(** * Every legal session is served

    [Shell] shows that the interactive loop does nothing but steps of the session
    relation.  This file shows the converse: whatever steps a server and a user
    that follow the protocol choose, the program goes through them, to the end, and
    shows and sends what they say.  Together the two make the abstract session an
    exact description of the loop. *)

From S2P Require Import Prelude Encoding Auth Connection Socket Crypto Transport Packets Kex KnownHosts Terminal Config World Handshake Session Shell Liveness.

(** ** What a session asks of the server, the user and the connection *)

(** The sessions as the list of their steps. *)
Inductive session_trace : Channel -> list io -> Channel -> Prop :=
  | trace_done c : session_trace c [] c
  | trace_next c c1 c2 i l : session_step c i c1 -> session_trace c1 l c2 -> session_trace c (i :: l) c2.

Definition io_concat (l : list io) : io := foldr io_app io_nil l.

(** The packets of the server among the events. *)
Definition from_server (e : event) : list action := match e with Recv _ p => [Packet p] | Send _ _ => [] end.
Definition messages (l : list event) : list action := concat (from_server <$> l).

(** The most bytes that the client's packets among the events take. *)
Definition sent_size (e : event) : Z := match e with Send _ p => size p + 56 | Recv _ _ => 0 end.
Definition cost (l : list event) : Z := balance sent_size l.

(** The keys of a step come in one piece; [poll] announces what the step takes. *)
Definition keys_of (i : io) : list key_event := match typed i with [] => [] | b :: d => [Keys b d] end.
Definition poll_of (i : io) : poll_event :=
  match typed i with [] => PollReady false true false | _ => PollReady true false false end.

(** The packets of the dialogue of [session_dialogue], from the answers it gets. *)
Definition dialogue_events (k1 : list event) (p pty : bytes) (k2 : list event) (c2 : Channel) (k3 : list event) (c3 : Channel) : list event :=
  (Send true open_message :: k1 ++ [Recv true p]) ++ (Send true pty :: k2 ++ [Recv true (success_message c2)]) ++
  (Send true (shell_message c2) :: k3 ++ [Recv true (success_message c3)]).

(** ** Facts *)

Lemma messages_app l k : messages (l ++ k) = messages l ++ messages k.
Proof. unfold messages. by rewrite fmap_app, concat_app. Qed.

Lemma cost_app l k : cost (l ++ k) = cost l + cost k.
Proof. apply balance_app. Qed.

Lemma cost_nonneg l : 0 <= cost l.
Proof.
  induction l as [|[b p|b p] l IH]; unfold cost in *; rewrite ?balance_nil, ?balance_cons; cbn [sent_size]; try lia.
  pose proof (size_nonneg p). lia.
Qed.

Lemma trace_steps c l c2 : session_trace c l c2 -> session_steps c (io_concat l) c2.
Proof. induction 1; [apply session_done|by eapply session_next]. Qed.

Lemma steps_trace c i c2 : session_steps c i c2 -> exists l, session_trace c l c2 /\ io_concat l = i.
Proof.
  induction 1 as [c|c c1 c2 i j Hstep _ (l & Hl & <-)]; [exists []; by split; [apply trace_done|]|].
  exists (i :: l). split; [by eapply trace_next|done].
Qed.

Lemma keys_then_packets d l :
  io_app (keys_only d) (packets_only l) = {| evs := l; shown := []; shown_err := []; typed := d |}.
Proof. unfold io_app. cbn. by rewrite app_nil_r. Qed.

Lemma shown_between e d l :
  io_app (packets_only [e]) (io_app (shows d) (packets_only l)) = {| evs := e :: l; shown := d; shown_err := []; typed := [] |}.
Proof. unfold io_app. cbn. by rewrite app_nil_r. Qed.

Lemma shown_err_between e d l :
  io_app (packets_only [e]) (io_app (shows_err d) (packets_only l)) = {| evs := e :: l; shown := []; shown_err := d; typed := [] |}.
Proof. unfold io_app. cbn. by rewrite app_nil_r. Qed.

Lemma wire_not_empty m fs : (size (wire (FByte m :: fs)) =? 0) = false.
Proof. rewrite wire_cons. cbn [wire_field app]. rewrite size_cons. pose proof (size_nonneg (wire fs)). lia. Qed.

(** Decide the comparisons of message numbers. *)
Ltac which_message :=
  repeat match goal with
  | |- context [?a =? ?b] =>
      let v := eval vm_compute in (a =? b) in
      lazymatch v with true => idtac | false => idtac end;
      change (a =? b) with v; cbv iota
  end.

Section service.
Context {C : Crypto} {CS : CryptoSizes} {CL : CipherLaws} {CO : CryptoSucceeds}.
Context {S : Type} {BS : ByteStream S} {BL : ByteStreamLaws S}.
Context {S' : Type} {BS' : ByteStream S'} {BL' : ByteStreamLaws S'}.
Context (w0 : World S).
Implicit Types w : World S.

(** Since [w0] exactly [i] was exchanged; the server has [xs] left to send, the
    connection takes [n] more bytes; the channel, the coming polls, the coming
    keys; the terminal has not changed. *)
Definition serving (i : io) (xs : list action) (n : Z) (c : Channel) (ps : list poll_event) (ks : list key_event) w : Prop :=
  (exists r, ready (S' := S') true true xs n r w) /\ performed i w0 w /\ chan w = c /\ polls w = ps /\ keyboard (con w) = ks /\
  term_env (con w) = term_env (con w0) /\ window_size (con w) = window_size (con w0).

Lemma serving_send i xs n c ps ks w p :
  serving i xs n c ps ks w -> 1 <= size p <= 34976 -> size p + 56 <= n ->
  exists w', send p w = (Ok tt, w') /\ serving (io_app i (packets_only [Send true p])) xs (n - (size p + 56)) c ps ks w'.
Proof.
  intros ((r & Hw) & Hp & Hc & Hps & Hk) Hsz Hn.
  destruct (ready_send _ _ _ _ _ _ p Hw Hsz Hn) as (w' & Hrun & Hw' & _ & Hcon & _ & Hchan & Hpolls).
  pose proof (send_exact p w (performed_encrypted _ _ _ Hp) ltac:(lia)) as Hs. rewrite Hrun in Hs. destruct Hs as (Hs & _).
  exists w'. split; [done|]. split; [by eexists|]. split; [by eapply performed_trans|]. by rewrite Hcon, Hchan, Hpolls.
Qed.

Lemma serving_receive i xs n c ps ks w p :
  serving i (Packet p :: xs) n c ps ks w ->
  exists w', receive w = (Ok p, w') /\ 1 <= size p <= 34991 /\ serving (io_app i (packets_only [Recv true p])) xs n c ps ks w'.
Proof.
  intros ((r & Hw) & Hp & Hc & Hps & Hk).
  destruct (ready_receive _ _ _ _ _ _ _ Hw) as (w' & Hrun & Hw' & (_ & Hcon & _ & Hchan & Hpolls) & Hsz).
  pose proof (receive_exact w (performed_encrypted _ _ _ Hp)) as Hs. rewrite Hrun in Hs. destruct Hs as (_ & Hs & _).
  exists w'. split; [done|]. split; [done|]. split; [by eexists|]. split; [by eapply performed_trans|]. by rewrite Hcon, Hchan, Hpolls.
Qed.

(** Anything that leaves the network alone. *)
Lemma serving_local i j xs n c c' ps qs ks ks' w w' :
  serving i xs n c ps ks w -> net w' = net w -> chan w' = c' -> polls w' = qs -> keyboard (con w') = ks' ->
  term_env (con w') = term_env (con w) -> window_size (con w') = window_size (con w) ->
  performed j w w' -> serving (io_app i j) xs n c' qs ks' w'.
Proof.
  intros ((r & Hw) & Hp & _ & _ & _ & He & Hsz) Hnet Hc Hps Hk He' Hsz' Hj. split; [exists r; by eapply ready_same|].
  split; [by eapply performed_trans|]. by rewrite He', Hsz'.
Qed.

Lemma serving_set_chan i xs n c c' ps ks w : serving i xs n c ps ks w -> serving i xs n c' ps ks (set_chan c' w).
Proof. intros (Hw & Hp & _ & Hps & Hk). by split. Qed.

Lemma serving_set_polls i xs n c ps qs ks w : serving i xs n c ps ks w -> serving i xs n c qs ks (set_polls qs w).
Proof. intros (Hw & Hp & Hc & _ & Hk). by split. Qed.

Lemma serving_print i xs n c ps ks w d :
  serving i xs n c ps ks w ->
  exists w', on_con (print d) w = (Ok tt, w') /\ serving (io_app i (shows d)) xs n c ps ks w'.
Proof.
  intros Hw. pose proof Hw as (_ & Hp%performed_encrypted & <- & <- & <- & _). eexists. split; [done|].
  eapply (serving_local _ (shows d)); [exact Hw|done..|]. unfold performed. cbn. rewrite !app_nil_r.
  split_and!; done || exact Hp.
Qed.

Lemma serving_print_err i xs n c ps ks w d :
  serving i xs n c ps ks w ->
  exists w', on_con (print_err d) w = (Ok tt, w') /\ serving (io_app i (shows_err d)) xs n c ps ks w'.
Proof.
  intros Hw. pose proof Hw as (_ & Hp%performed_encrypted & <- & <- & <- & _). eexists. split; [done|].
  eapply (serving_local _ (shows_err d)); [exact Hw|done..|]. unfold performed. cbn. rewrite !app_nil_r.
  split_and!; done || exact Hp.
Qed.

Lemma serving_keys i xs n c ps ks w b d m :
  serving i xs n c ps (Keys b d :: ks) w -> size (b :: d) <= m ->
  exists w', on_con (read_keyboard m) w = (Ok (Some (b :: d)), w') /\
    serving (io_app i (keys_only (b :: d))) xs n c ps ks w'.
Proof.
  intros Hw Hm. pose proof Hw as (_ & Hp%performed_encrypted & <- & <- & Hk & _).
  assert (Hle : (length (b :: d) <= Z.to_nat m)%nat) by (unfold size in Hm; lia).
  unfold on_con, zoom, read_keyboard. rewrite Hk, take_ge by done. unfold rest_of_keys. rewrite drop_ge by done.
  eexists. split; [done|]. eapply (serving_local _ (keys_only (b :: d))); [exact Hw|done..|].
  unfold performed. cbn. rewrite !app_nil_r, Hk. split_and!; done || exact Hp.
Qed.

Lemma serving_update i xs n c c' ps ks w f :
  serving i xs n c ps ks w -> f c = Ok c' ->
  exists w', update_channel f w = (Ok tt, w') /\ serving i xs n c' ps ks w'.
Proof.
  intros Hw Hf. pose proof Hw as (_ & _ & Hc & _). unfold update_channel. rewrite M_gets_run, Hc, (M_lift_run _ _ _ _ Hf).
  eexists. split; [done|]. by eapply serving_set_chan.
Qed.

Lemma serving_on_channel {A} i xs n c c' (a : A) ps ks w f :
  serving i xs n c ps ks w -> f c = Ok (a, c') ->
  exists w', on_channel f w = (Ok a, w') /\ serving i xs n c' ps ks w'.
Proof.
  intros Hw Hf. pose proof Hw as (_ & _ & Hc & _). unfold on_channel. rewrite M_gets_run, Hc, (M_lift_run _ _ _ _ Hf).
  eexists. split; [done|]. by eapply serving_set_chan.
Qed.

(** *** One turn *)

Lemma keys_round w ps w' :
  open (chan w) = true -> 0 < remote_window (chan w) -> polls w = PollReady true false false :: ps ->
  keyboard_input (set_polls ps w) = (Ok tt, w') -> shell_round w = (Ok None, w').
Proof.
  intros Ho Hr Hps Hrun. unfold shell_round. rewrite M_gets_run, Ho. cbn [negb].
  unfold mbind at 1, M_bind at 1, next_poll. rewrite Hps. cbn zeta beta iota.
  rewrite Z.gtb_ltb, (proj2 (Z.ltb_lt _ _)) by done. cbn [andb]. rewrite (M_bind_run _ _ _ _ _ Hrun).
  rewrite M_ret_run, M_gets_run. by rewrite andb_false_r.
Qed.

Lemma socket_round w ps w' :
  open (chan w) = true -> polls w = PollReady false true false :: ps ->
  socket_input (set_polls ps w) = (Ok tt, w') -> shell_round w = (Ok None, w').
Proof.
  intros Ho Hps Hrun. unfold shell_round. rewrite M_gets_run, Ho. cbn [negb].
  unfold mbind at 1, M_bind at 1, next_poll. rewrite Hps. cbn zeta beta iota. rewrite andb_false_r.
  rewrite M_ret_run, (M_bind_run _ _ _ _ _ Hrun), M_gets_run. by rewrite andb_false_r.
Qed.

Lemma keys_served i xs n c ps ks w d :
  let message := wire [FByte ssh_message.CHANNEL_DATA; FUint32 (remote_id c); FString d] in
  live c -> 0 < size d <= KEYBOARD_BUFFER_SIZE -> size d <= remote_window c -> size d <= remote_max_packet c ->
  size message + 56 <= n ->
  serving i xs n c ps (match d with [] => [] | b :: d => [Keys b d] end ++ ks) w ->
  exists w', keyboard_input w = (Ok tt, w') /\
    serving (io_app i {| evs := [Send true message]; shown := []; shown_err := []; typed := d |}) xs (n - (size message + 56))
      (set_windows (local_window c) (remote_window c - size d) c) ps ks w'.
Proof.
  intros message Hlive Hd Hrw Hrm Hn Hw. pose proof Hlive as (Hwf & Ho & _ & Hl & _). unfold wf_channel in Hwf.
  pose proof Hw as (_ & _ & Hc & _). unfold keyboard_input. rewrite M_gets_run, Hc. cbn zeta.
  destruct d as [|b d]; [by destruct Hd|]. set (k := b :: d) in *.
  destruct (serving_keys _ _ _ _ _ _ _ b d (Z.min (Z.min KEYBOARD_BUFFER_SIZE (remote_window c)) (remote_max_packet c)) Hw) as (w1 & Hrun1 & Hw1); [fold k; lia|].
  fold k in Hrun1, Hw1. rewrite (M_bind_run _ _ _ _ _ Hrun1). rewrite Z.gtb_ltb, (proj2 (Z.ltb_lt _ _)) by lia.
  rewrite create_channel_data_eq, Ho, Hl by done. cbn [negb].
  rewrite (proj2 (Z.eqb_neq _ _)), !Z.gtb_ltb, !(proj2 (Z.ltb_ge _ _)) by lia. rewrite (M_lift_run _ _ _ _ eq_refl). fold message.
  assert (Hm : 1 <= size message <= 34976).
  { unfold KEYBOARD_BUFFER_SIZE in *. unfold message. rewrite !wire_cons, wire_nil. cbn [wire_field]. autorewrite with size.
    rewrite !size_be32. change (size [byte_of ssh_message.CHANNEL_DATA]) with 1. lia. }
  destruct (serving_send _ _ _ _ _ _ _ message Hw1 Hm Hn) as (w2 & Hrun2 & Hw2). rewrite (M_bind_run _ _ _ _ _ Hrun2).
  eexists. split; [done|]. rewrite u32_small by lia. rewrite io_app_assoc, keys_then_packets in Hw2. by eapply serving_set_chan.
Qed.

(** What follows the message in [socket_input]. *)
Definition close_if_done w : World S :=
  if local_close_sent (chan w) && remote_close_received (chan w) then set_chan (set_open false (chan w)) w else w.

Lemma socket_served w m fs b w1 w2 w3 :
  0 <= m < 256 -> receive w = (Ok (wire (FByte m :: fs)), w1) ->
  handle_message m (wire (FByte m :: fs)) w1 = (Ok b, w2) -> refill_window b w2 = (Ok tt, w3) ->
  socket_input w = (Ok tt, close_if_done w3).
Proof.
  intros Hm Hr Hh Hf. unfold socket_input. rewrite (M_bind_run _ _ _ _ _ Hr).
  rewrite wire_not_empty, (M_lift_run _ _ _ _ (index_wire m fs Hm)), (M_bind_run _ _ _ _ _ Hh), (M_bind_run _ _ _ _ _ Hf), M_gets_run.
  unfold close_if_done. by destruct (_ && _).
Qed.

Lemma live_open_after c w : live c -> chan w = c -> close_if_done w = w.
Proof. intros (_ & _ & _ & Hl & _) <-. unfold close_if_done. by rewrite Hl. Qed.

(** A message that only changes the channel. *)
Lemma control_served i xs n c c' ps ks w m fs :
  let p := wire (FByte m :: fs) in
  0 <= m < 256 -> live c' ->
  (forall j w1, addressable p -> serving j xs n c ps ks w1 ->
    exists w2, handle_message m p w1 = (Ok false, w2) /\ serving j xs n c' ps ks w2) ->
  serving i (Packet p :: xs) n c ps ks w ->
  exists w', socket_input w = (Ok tt, w') /\ serving (io_app i (packets_only [Recv true p])) xs n c' ps ks w'.
Proof.
  intros p Hm Hlive Hh Hw. destruct (serving_receive _ _ _ _ _ _ _ _ Hw) as (w1 & Hrun1 & Hp & Hw1).
  destruct (Hh _ w1 ltac:(unfold addressable; lia) Hw1) as (w2 & Hrun2 & Hw2). exists w2. split; [|done].
  rewrite (socket_served _ _ _ _ _ _ w2 Hm Hrun1 Hrun2 eq_refl). f_equal.
  apply (live_open_after c' w2 Hlive). by destruct Hw2 as (_ & _ & ? & _).
Qed.

(** The refill after data. *)
Lemma refill_served i xs n c d c' ps ks w :
  live c -> data_accepted c d c' -> cost (refill_events c') <= n -> serving i xs n c' ps ks w ->
  exists w', refill_window true w = (Ok tt, w') /\
    serving (io_app i (packets_only (refill_events c'))) xs (n - cost (refill_events c')) (refilled c') ps ks w'.
Proof.
  intros Hlive Hd Hn Hw. pose proof Hlive as (Hwf & Ho & _ & _ & Hwin & _).
  pose proof (data_accepted_wf _ _ _ Hwf Hd) as Hwf'. destruct Hd as (_ & _ & Hd & Ec').
  assert (Ho' : open c' = true) by (rewrite Ec'; exact Ho). pose proof Hw as (_ & _ & Hc & _).
  unfold refill_window. rewrite M_gets_run, Hc, Ho'. cbn [andb]. revert Hn. unfold refill_events, refilled.
  destruct (Z.leb_spec (local_window c') LOCAL_WINDOW_THRESHOLD) as [Hle|]; intros Hn.
  2: { exists w. split; [done|]. change (packets_only []) with io_nil. rewrite io_app_nil_r. by rewrite Z.sub_0_r. }
  assert (Hl : 0 <= local_window c') by apply Hwf'. unfold LOCAL_WINDOW_THRESHOLD, LOCAL_WINDOW_TARGET in *.
  rewrite (u32_small (1024 * 1024 - _)) by lia. rewrite create_window_adjust_eq by (done || lia).
  rewrite (M_lift_run _ _ _ _ eq_refl). set (q := wire _) in *. assert (Hq : size q = 9) by reflexivity.
  unfold cost in *. rewrite balance_cons, balance_nil in *. cbn [sent_size] in *. rewrite Z.add_0_r in *.
  destruct (serving_send _ _ _ _ _ _ _ q Hw) as (w1 & Hrun & Hw1); [lia..|]. rewrite (M_bind_run _ _ _ _ _ Hrun).
  eexists. split; [done|]. replace (local_window c' + (1024 * 1024 - local_window c')) with (1024 * 1024) by lia.
  rewrite u32_small by lia. by eapply serving_set_chan.
Qed.

(** A message with data for the terminal. *)
Lemma data_served i xs n c d c' ps ks w m fs j :
  let p := wire (FByte m :: fs) in
  0 <= m < 256 -> live c -> data_accepted c d c' -> cost (refill_events c') <= n ->
  (forall k w1, addressable p -> serving k xs n c ps ks w1 ->
    exists w2, handle_message m p w1 = (Ok true, w2) /\ serving (io_app k j) xs n c' ps ks w2) ->
  serving i (Packet p :: xs) n c ps ks w ->
  exists w', socket_input w = (Ok tt, w') /\
    serving (io_app i (io_app (packets_only [Recv true p]) (io_app j (packets_only (refill_events c')))))
      xs (n - cost (refill_events c')) (refilled c') ps ks w'.
Proof.
  intros p Hm Hlive Hd Hn Hh Hw. destruct (serving_receive _ _ _ _ _ _ _ _ Hw) as (w1 & Hrun1 & Hp & Hw1).
  destruct (Hh _ w1 ltac:(unfold addressable; lia) Hw1) as (w2 & Hrun2 & Hw2).
  destruct (refill_served _ _ _ _ _ _ _ _ _ Hlive Hd Hn Hw2) as (w3 & Hrun3 & Hw3). exists w3. rewrite <- !io_app_assoc. split; [|exact Hw3].
  rewrite (socket_served _ _ _ _ _ _ w3 Hm Hrun1 Hrun2 Hrun3). f_equal.
  apply (live_open_after (refilled c')); [by eapply refilled_live|]. by destruct Hw3 as (_ & _ & ? & _).
Qed.

Lemma stdout_served k xs n c d c' ps ks w1 :
  let p := wire [FByte ssh_message.CHANNEL_DATA; FUint32 (local_id c); FString d] in
  wf_channel c -> data_accepted c d c' -> addressable p -> serving k xs n c ps ks w1 ->
  exists w2, handle_message ssh_message.CHANNEL_DATA p w1 = (Ok true, w2) /\ serving (io_app k (shows d)) xs n c' ps ks w2.
Proof.
  intros p Hwf Hd Ha Hw. unfold handle_message. which_message.
  destruct (serving_on_channel _ _ _ _ _ _ _ _ _ _ Hw (parse_channel_data_accepts c c' d Ha Hwf Hd)) as (w2 & Hrun2 & Hw2).
  rewrite (M_bind_run _ _ _ _ _ Hrun2). destruct (serving_print _ _ _ _ _ _ _ d Hw2) as (w3 & Hrun3 & Hw3).
  rewrite (M_bind_run _ _ _ _ _ Hrun3). by exists w3.
Qed.

Lemma stderr_served k xs n c d c' ps ks w1 :
  let p := wire [FByte ssh_message.CHANNEL_EXTENDED_DATA; FUint32 (local_id c); FUint32 1; FString d] in
  wf_channel c -> data_accepted c d c' -> addressable p -> serving k xs n c ps ks w1 ->
  exists w2, handle_message ssh_message.CHANNEL_EXTENDED_DATA p w1 = (Ok true, w2) /\
    serving (io_app k (shows_err d)) xs n c' ps ks w2.
Proof.
  intros p Hwf Hd Ha Hw. unfold handle_message. which_message.
  destruct (serving_on_channel _ _ _ _ _ _ _ _ _ _ Hw (parse_channel_extended_data_accepts c c' d Ha Hwf Hd)) as (w2 & Hrun2 & Hw2).
  rewrite (M_bind_run _ _ _ _ _ Hrun2). destruct (serving_print_err _ _ _ _ _ _ _ d Hw2) as (w3 & Hrun3 & Hw3).
  rewrite (M_bind_run _ _ _ _ _ Hrun3). by exists w3.
Qed.

Lemma update_served k xs n c c' ps ks w1 f (m : M (World S) bool) :
  f c = Ok c' -> serving k xs n c ps ks w1 ->
  m = (update_channel f;; mret false) -> exists w2, m w1 = (Ok false, w2) /\ serving k xs n c' ps ks w2.
Proof.
  intros Hf Hw ->. destruct (serving_update _ _ _ _ _ _ _ _ _ Hw Hf) as (w2 & Hrun & Hw2).
  exists w2. by rewrite (M_bind_run _ _ _ _ _ Hrun).
Qed.

Lemma exit_served k xs n c p r c' ps ks w1 :
  wf_channel c -> exit_status_spec p c r c' -> addressable p -> serving k xs n c ps ks w1 ->
  exists w2, handle_message ssh_message.CHANNEL_REQUEST p w1 = (Ok false, w2) /\ serving k xs n c' ps ks w2.
Proof.
  intros Hwf Hs Ha Hw. unfold handle_message. which_message.
  destruct (serving_on_channel _ _ _ _ _ _ _ _ _ _ Hw (parse_exit_status_accepts p c r c' Ha Hwf Hs)) as (w2 & Hrun2 & Hw2).
  exists w2. by rewrite (M_bind_run _ _ _ _ _ Hrun2).
Qed.

(** A global request and its answer. *)
Lemma request_served k xs n c p l ps ks w1 :
  global_request p l -> addressable p -> cost l <= n -> serving k xs n c ps ks w1 ->
  exists w2, handle_global_request p w1 = (Ok tt, w2) /\ serving (io_app k (packets_only l)) xs (n - cost l) c ps ks w2.
Proof.
  intros (name & b & more & -> & Hname & ->) Ha Hn Hw. unfold handle_global_request.
  rewrite (M_lift_run _ _ _ _ (parse_global_request_accepts name b more Ha Hname)). cbn [want_reply].
  destruct (u8 b =? 0); cbn [negb].
  - exists w1. split; [done|]. change (packets_only []) with io_nil. rewrite io_app_nil_r. by rewrite Z.sub_0_r.
  - unfold cost in *. rewrite balance_cons, balance_nil in *. cbn [sent_size] in *. rewrite Z.add_0_r in *.
    exact (serving_send _ _ _ _ _ _ _ create_request_failure Hw ltac:(by split) Hn).
Qed.

(** The close, which the client answers. *)
Lemma close_served i xs n c ps ks w :
  let p := wire [FByte ssh_message.CHANNEL_CLOSE; FUint32 (local_id c)] in
  let q := wire [FByte ssh_message.CHANNEL_CLOSE; FUint32 (remote_id c)] in
  live c -> size q + 56 <= n -> serving i (Packet p :: xs) n c ps ks w ->
  exists w', socket_input w = (Ok tt, w') /\
    serving (io_app i (packets_only [Recv true p; Send true q])) xs (n - (size q + 56)) (closed c) ps ks w'.
Proof.
  intros p q (Hwf & Ho & Hr & Hl & _) Hn Hw. destruct (serving_receive _ _ _ _ _ _ _ _ Hw) as (w1 & Hrun1 & _ & Hw1).
  destruct (serving_update _ _ _ _ _ _ _ _ _ Hw1 (parse_channel_close_accepts c Hwf Ho Hr)) as (w2 & Hrun2 & Hw2).
  destruct (serving_send _ _ _ _ _ _ _ q Hw2 ltac:(by split) Hn) as (w3 & Hrun3 & Hw3).
  set (w4 := set_chan (set_local_close_sent (chan w2)) w3). pose proof Hw2 as (_ & _ & Hc2 & _).
  exists (close_if_done w4). split.
  - apply (socket_served _ ssh_message.CHANNEL_CLOSE [FUint32 (local_id c)] false w1 w4 w4 ltac:(done) Hrun1); [|done]. unfold handle_message. which_message.
    rewrite (M_bind_run _ _ _ _ _ Hrun2), M_gets_run, Hc2. unfold mbind at 1, M_bind at 1.
    cbn [local_close_sent set_remote_close set_flags]. rewrite Hl. cbn [negb].
    rewrite create_channel_close_eq by done. rewrite (M_lift_run _ _ _ _ eq_refl), (M_bind_run _ _ _ _ _ Hrun3).
    unfold w4. by rewrite Hc2.
  - unfold close_if_done, w4. rewrite Hc2. cbn. rewrite io_app_assoc in Hw3. by eapply serving_set_chan, serving_set_chan, Hw3.
Qed.

Lemma messages_send p l : messages (Send true p :: l) = messages l.
Proof. done. Qed.

Lemma messages_refill e c l : messages (e :: refill_events c) ++ l = from_server e ++ l.
Proof. unfold refill_events, messages. destruct (_ <=? _); cbn; by rewrite app_nil_r. Qed.

Lemma asked_served i xs n c p l ps ks w :
  live c -> global_request p l -> cost l <= n -> serving i (Packet p :: xs) n c ps ks w ->
  exists w', socket_input w = (Ok tt, w') /\ serving (io_app i (packets_only (Recv true p :: l))) xs (n - cost l) c ps ks w'.
Proof.
  intros Hlive Hl Hn Hw. destruct (serving_receive _ _ _ _ _ _ _ _ Hw) as (w1 & Hrun1 & Hp & Hw1).
  destruct (request_served _ _ _ _ _ _ _ _ _ Hl ltac:(unfold addressable; lia) Hn Hw1) as (w2 & Hrun2 & Hw2).
  rewrite io_app_assoc in Hw2. exists w2. split; [|exact Hw2]. destruct Hl as (name & b & more & -> & _ & _).
  assert (Hh : handle_message ssh_message.GLOBAL_REQUEST (wire [FByte ssh_message.GLOBAL_REQUEST; FString name; FRaw [b]; FRaw more]) w1 = (Ok false, w2)).
  { unfold handle_message. which_message. by rewrite (M_bind_run _ _ _ _ _ Hrun2). }
  rewrite (socket_served w ssh_message.GLOBAL_REQUEST [FString name; FRaw [b]; FRaw more] false w1 w2 w2 ltac:(done) Hrun1 Hh eq_refl). f_equal.
  apply (live_open_after c w2 Hlive). by destruct Hw2 as (_ & _ & ? & _).
Qed.

Lemma messages_answer e (b : bool) p l : messages (e :: if b then [] else [Send true p]) ++ l = from_server e ++ l.
Proof. unfold messages. destruct b; cbn; by rewrite app_nil_r. Qed.

(** Any step of the session, in one turn of the loop. *)
Lemma step_served i xs n c j c1 ps ks w :
  live c -> session_step c j c1 -> cost (evs j) <= n ->
  serving i (messages (evs j) ++ xs) n c (poll_of j :: ps) (keys_of j ++ ks) w ->
  exists w', shell_round w = (Ok None, w') /\ serving (io_app i j) xs (n - cost (evs j)) c1 ps ks w'.
Proof.
  intros Hlive Hstep Hn Hw. pose proof Hw as (_ & _ & Hc & Hps & _). pose proof Hlive as (Hwf & Ho & _).
  assert (Hsocket : typed j = [] ->
    (exists w', socket_input (set_polls ps w) = (Ok tt, w') /\ serving (io_app i j) xs (n - cost (evs j)) c1 ps ks w') ->
    exists w', shell_round w = (Ok None, w') /\ serving (io_app i j) xs (n - cost (evs j)) c1 ps ks w').
  { intros Ht (w' & Hrun & Hw'). exists w'. split; [|done]. apply (socket_round w ps); [by rewrite Hc| |done].
    rewrite Hps. unfold poll_of. by rewrite Ht. }
  pose proof (serving_set_polls _ _ _ _ _ ps _ _ Hw) as Hw'.
  assert (Hopen : open c1 = true -> live c1) by (destruct (step_live _ _ _ Hlive Hstep) as [|[-> _]]; done).
  destruct Hstep as [d _ Hd Hrw Hrm|d c' Hd|d c' Hd|p c' Hp|name b more _ Hname|_ He|p r c' Hp|_ Hr Hl];
    unfold keys_of in Hw'; cbn [evs packets_only shown shown_err typed] in *; unfold cost in Hn |- *;
    rewrite ?balance_cons, ?balance_nil in Hn |- *; cbn [sent_size] in Hn |- *; rewrite ?Z.add_0_r, ?Z.add_0_l in Hn |- *.
  - destruct (keys_served _ _ _ _ _ _ _ d Hlive Hd Hrw Hrm Hn Hw') as (w1 & Hrun1 & Hw1). exists w1. split; [|exact Hw1].
    apply (keys_round w ps); [by rewrite Hc|rewrite Hc; lia| |done]. rewrite Hps. by destruct d; [destruct Hd|].
  - apply Hsocket; [done|].
    rewrite <- shown_between. rewrite messages_refill in Hw'. apply (data_served i xs n c d c'); try done.
    intros k w1 Ha Hk. by apply stdout_served.
  - apply Hsocket; [done|]. rewrite <- shown_err_between. rewrite messages_refill in Hw'. apply (data_served i xs n c d c'); try done.
    intros k w1 Ha Hk. by apply stderr_served.
  - apply Hsocket; [done|]. rewrite Z.sub_0_r. pose proof Hp as (m & _ & _ & _ & Ep & Ec). rewrite Ep in Hw' |- *.
    apply (control_served i xs n c c'); try done; [by apply Hopen; rewrite Ec|].
    intros k w1 Ha Hk. rewrite <- Ep in *. eapply (update_served _ _ _ _ _ _ _ _ (parse_window_adjust p)); [|exact Hk|done].
    by apply parse_window_adjust_accepts.
  - apply Hsocket; [done|]. rewrite messages_answer in Hw'.
    apply (asked_served i xs n c _ (if u8 b =? 0 then [] else [Send true (wire [FByte ssh_message.REQUEST_FAILURE])])); try done.
    by exists name, b, more.
  - apply Hsocket; [done|]. rewrite Z.sub_0_r. apply (control_served i xs n c (set_remote_eof c)); [done|by apply Hopen| |exact Hw'].
    intros k w1 Ha Hk. eapply (update_served _ _ _ _ _ _ _ _ (parse_channel_eof _)); [|exact Hk|done].
    by apply parse_channel_eof_accepts.
  - apply Hsocket; [done|]. rewrite Z.sub_0_r. pose proof Hp as (_ & _ & _ & (b & _ & Ep) & Ec). rewrite Ep in Hw' |- *.
    apply (control_served i xs n c c'); try done; [by apply Hopen; rewrite Ec|].
    intros k w1 Ha Hk. rewrite <- Ep in *. by eapply exit_served.
  - apply Hsocket; [done|]. by apply close_served.
Qed.

Lemma closed_round w : open (chan w) = false -> shell_round w = (Ok (Some tt), w).
Proof. intros Ho. unfold shell_round. by rewrite M_gets_run, Ho. Qed.

(** A session from any of its steps to its close. *)
Lemma trace_served i xs n c l c2 ps ks w :
  live c \/ open c = false -> session_trace c l c2 -> open c2 = false ->
  let j := io_concat l in
  cost (evs j) <= n ->
  serving i (messages (evs j) ++ xs) n c ((poll_of <$> l) ++ ps) (concat (keys_of <$> l) ++ ks) w ->
  exists w', iterates shell_round w (Ok tt, w') /\ serving (io_app i j) xs (n - cost (evs j)) c2 ps ks w'.
Proof.
  intros Hc Htr Ho j. subst j. revert i n w Hc. induction Htr as [c|c c1 c2 j l Hstep Htr IH]; intros i n w Hc Hn Hw.
  - exists w. split; [apply iterates_end, closed_round; by destruct Hw as (_ & _ & -> & _)|].
    cbn [io_concat foldr]. rewrite io_app_nil_r. by rewrite Z.sub_0_r.
  - destruct Hc as [Hlive|Hc]; [|apply step_open in Hstep; congruence].
    cbn [io_concat foldr io_app evs fmap list_fmap concat app] in *. fold (io_concat l) in *.
    rewrite messages_app, <- !app_assoc in Hw. rewrite cost_app in Hn |- *. pose proof (cost_nonneg (evs (io_concat l))).
    destruct (step_served _ _ n _ _ _ _ _ _ Hlive Hstep ltac:(lia) Hw) as (w1 & Hrun & Hw1).
    assert (Hc1 : live c1 \/ open c1 = false) by (destruct (step_live _ _ _ Hlive Hstep) as [|[-> _]]; auto).
    destruct (IH Ho _ (n - cost (evs j)) w1 Hc1 ltac:(lia) Hw1) as (w2 & Hloop & Hw2). exists w2. split; [by eapply iterates_again|].
    rewrite <- io_app_assoc.
    by rewrite Z.sub_add_distr.
Qed.

(** *** The dialogue that opens the session *)

(** A round of a loop that waits for an answer: what it does with a message. *)
Lemma wait_request name i xs n c p l ps ks w :
  global_request p l -> cost l <= n -> serving i (Packet p :: xs) n c ps ks w ->
  exists w', wait_round name w = (Ok None, w') /\
    serving (io_app i (packets_only (Recv true p :: l))) xs (n - cost l) c ps ks w'.
Proof.
  intros Hl Hn Hw. destruct (serving_receive _ _ _ _ _ _ _ _ Hw) as (w1 & Hrun1 & Hp & Hw1).
  destruct (request_served _ _ _ _ _ _ _ _ _ Hl ltac:(unfold addressable; lia) Hn Hw1) as (w2 & Hrun2 & Hw2).
  rewrite io_app_assoc in Hw2. exists w2. split; [|exact Hw2]. destruct Hl as (x & b & more & -> & _ & _).
  unfold wait_round. rewrite (M_bind_run _ _ _ _ _ Hrun1), wire_not_empty.
  rewrite (M_lift_run _ _ _ _ (index_wire ssh_message.GLOBAL_REQUEST _ ltac:(done))), M_gets_run. which_message.
  by rewrite (M_bind_run _ _ _ _ _ Hrun2).
Qed.

Lemma wait_adjust name i xs n c p c1 ps ks w :
  wf_channel c -> window_adjust_spec p c c1 -> serving i (Packet p :: xs) n c ps ks w ->
  exists w', wait_round name w = (Ok None, w') /\ serving (io_app i (packets_only [Recv true p])) xs n c1 ps ks w'.
Proof.
  intros Hwf Hp Hw. destruct (serving_receive _ _ _ _ _ _ _ _ Hw) as (w1 & Hrun1 & Hsz & Hw1).
  destruct (serving_update _ _ _ _ _ _ _ _ _ Hw1 (parse_window_adjust_accepts p c c1 ltac:(unfold addressable; lia) Hwf Hp)) as (w2 & Hrun2 & Hw2).
  exists w2. split; [|done]. destruct Hp as (m & _ & _ & _ & -> & _).
  unfold wait_round. rewrite (M_bind_run _ _ _ _ _ Hrun1), wire_not_empty.
  rewrite (M_lift_run _ _ _ _ (index_wire ssh_message.CHANNEL_WINDOW_ADJUST _ ltac:(done))), M_gets_run. which_message.
  by rewrite (M_bind_run _ _ _ _ _ Hrun2).
Qed.

Lemma wait_success name i xs n c ps ks w :
  wf_channel c -> serving i (Packet (success_message c) :: xs) n c ps ks w ->
  exists w', wait_round name w = (Ok (Some tt), w') /\
    serving (io_app i (packets_only [Recv true (success_message c)])) xs n c ps ks w'.
Proof.
  intros Hwf Hw. destruct (serving_receive _ _ _ _ _ _ _ _ Hw) as (w1 & Hrun1 & _ & Hw1).
  exists w1. split; [|done]. pose proof Hw1 as (_ & _ & Hc & _). unfold success_message in *.
  unfold wait_round. rewrite (M_bind_run _ _ _ _ _ Hrun1), wire_not_empty.
  rewrite (M_lift_run _ _ _ _ (index_wire ssh_message.CHANNEL_SUCCESS _ ltac:(done))), M_gets_run. which_message.
  by rewrite Hc, (M_lift_run _ _ _ _ (validate_channel_success_accepts c Hwf)).
Qed.

Lemma wait_served name i xs n c l c' ps ks w :
  live c -> waiting c l c' -> cost l <= n ->
  serving i (messages l ++ Packet (success_message c') :: xs) n c ps ks w ->
  exists w', iterates (wait_round name) w (Ok tt, w') /\
    serving (io_app i (packets_only (l ++ [Recv true (success_message c')]))) xs (n - cost l) c' ps ks w'.
Proof.
  intros Hlive Hwait. revert i n w Hlive. induction Hwait as [c|c c' p l k Hl _ IH|c c1 c' p k Hp _ IH]; intros i n w Hlive Hn Hw.
  - destruct (wait_success name _ _ _ _ _ _ _ (proj1 Hlive) Hw) as (w1 & Hrun & Hw1). exists w1.
    split; [by apply iterates_end|]. by rewrite Z.sub_0_r.
  - change (Recv true p :: l ++ k) with ((Recv true p :: l) ++ k) in *. rewrite messages_app, <- app_assoc in Hw. rewrite cost_app in Hn |- *.
    change (cost (Recv true p :: l)) with (cost l) in *. pose proof (cost_nonneg k). pose proof (cost_nonneg l).
    assert (Hm : messages (Recv true p :: l) = [Packet p]).
    { destruct Hl as (x & b & more & _ & _ & ->). by destruct (u8 b =? 0). }
    rewrite Hm in Hw. destruct (wait_request name _ _ n _ _ _ _ _ _ Hl ltac:(lia) Hw) as (w1 & Hrun & Hw1).
    destruct (IH _ (n - cost l) w1 Hlive ltac:(lia) Hw1) as (w2 & Hloop & Hw2). exists w2. split; [by eapply iterates_again|].
    rewrite io_app_assoc, <- Z.sub_add_distr in Hw2. rewrite <- app_assoc. exact Hw2.
  - change (messages (Recv true p :: k)) with (Packet p :: messages k) in Hw. change (cost (Recv true p :: k)) with (cost k) in *.
    destruct (wait_adjust name _ _ _ _ _ _ _ _ _ (proj1 Hlive) Hp Hw) as (w1 & Hrun & Hw1).
    assert (Hl1 : live c1) by (by eapply waiting_live, waiting_adjust, waiting_done).
    destruct (IH _ n w1 Hl1 ltac:(lia) Hw1) as (w2 & Hloop & Hw2). exists w2. split; [by eapply iterates_again|].
    rewrite io_app_assoc in Hw2. exact Hw2.
Qed.

Lemma open_request i xs n c p l ps ks w :
  open c = false -> global_request p l -> cost l <= n -> serving i (Packet p :: xs) n c ps ks w ->
  exists w', open_round w = (Ok None, w') /\ serving (io_app i (packets_only (Recv true p :: l))) xs (n - cost l) c ps ks w'.
Proof.
  intros Ho Hl Hn Hw. pose proof Hw as (_ & _ & Hc & _).
  destruct (serving_receive _ _ _ _ _ _ _ _ Hw) as (w1 & Hrun1 & Hp & Hw1).
  destruct (request_served _ _ _ _ _ _ _ _ _ Hl ltac:(unfold addressable; lia) Hn Hw1) as (w2 & Hrun2 & Hw2).
  rewrite io_app_assoc in Hw2. exists w2. split; [|exact Hw2]. destruct Hl as (x & b & more & -> & _ & _).
  unfold open_round. rewrite M_gets_run, Hc, Ho, (M_bind_run _ _ _ _ _ Hrun1), wire_not_empty.
  rewrite (M_lift_run _ _ _ _ (index_wire ssh_message.GLOBAL_REQUEST _ ltac:(done))). which_message.
  by rewrite (M_bind_run _ _ _ _ _ Hrun2).
Qed.

Lemma open_confirmed i xs n c p c1 ps ks w :
  wf_channel c -> open_confirmation_spec p c c1 -> serving i (Packet p :: xs) n c ps ks w ->
  exists w', iterates open_round w (Ok tt, w') /\ serving (io_app i (packets_only [Recv true p])) xs n c1 ps ks w'.
Proof.
  intros Hwf Hp Hw. pose proof Hw as (_ & _ & Hc & _). destruct (serving_receive _ _ _ _ _ _ _ _ Hw) as (w1 & Hrun1 & Hsz & Hw1).
  destruct (serving_update _ _ _ _ _ _ _ _ _ Hw1 (parse_open_confirmation_accepts p c c1 ltac:(unfold addressable; lia) Hwf Hp))
    as (w2 & Hrun2 & Hw2). pose proof Hw2 as (_ & _ & Hc2 & _).
  exists w2. split; [|done]. destruct Hp as (sender & window & m & _ & _ & _ & Ho & -> & E). apply iterates_again with w2.
  - unfold open_round. rewrite M_gets_run, Hc, Ho, (M_bind_run _ _ _ _ _ Hrun1), wire_not_empty.
    rewrite (M_lift_run _ _ _ _ (index_wire ssh_message.CHANNEL_OPEN_CONFIRMATION _ ltac:(done))). which_message.
    by rewrite (M_bind_run _ _ _ _ _ Hrun2).
  - apply iterates_end. unfold open_round. by rewrite M_gets_run, Hc2, E.
Qed.

Lemma open_waiting i xs n c l c' p c1 ps ks w :
  wf_channel c -> waiting c l c' -> open_confirmation_spec p c c1 -> c' = c -> cost l <= n ->
  serving i (messages l ++ Packet p :: xs) n c ps ks w ->
  exists w', iterates open_round w (Ok tt, w') /\
    serving (io_app i (packets_only (l ++ [Recv true p]))) xs (n - cost l) c1 ps ks w'.
Proof.
  intros Hwf Hwait Hp. assert (Ho : open c = false) by (by destruct Hp as (? & ? & ? & _ & _ & _ & ? & _)).
  revert i n w. induction Hwait as [c|c c' q l k Hl _ IH|c c2 c' q k (m & _ & Ho' & _) _ _]; intros i n w E Hn Hw; [| |congruence].
  - rewrite Z.sub_0_r. by apply (open_confirmed i xs n c).
  - change (Recv true q :: l ++ k) with ((Recv true q :: l) ++ k) in *. rewrite messages_app, <- app_assoc in Hw. rewrite cost_app in Hn |- *.
    change (cost (Recv true q :: l)) with (cost l) in *. pose proof (cost_nonneg k). pose proof (cost_nonneg l).
    assert (Hm : messages (Recv true q :: l) = [Packet q]).
    { destruct Hl as (x & b & more & _ & _ & ->). by destruct (u8 b =? 0). }
    rewrite Hm in Hw. destruct (open_request _ _ n _ _ _ _ _ _ Ho Hl ltac:(lia) Hw) as (w1 & Hrun & Hw1).
    destruct (IH Hwf Hp Ho _ (n - cost l) w1 E ltac:(lia) Hw1) as (w2 & Hloop & Hw2). exists w2. split; [by eapply iterates_again|].
    rewrite io_app_assoc, <- Z.sub_add_distr in Hw2. rewrite <- app_assoc. exact Hw2.
Qed.

(** A request of the client, and its answer. *)
Lemma requested name i xs n c (q : bytes) l c' ps ks w :
  live c -> waiting c l c' -> 1 <= size q <= 34976 -> size q + 56 + cost l <= n ->
  serving i (messages l ++ Packet (success_message c') :: xs) n c ps ks w ->
  exists w', (payload ← lift (Ok q); send payload;; wait_for_channel_request_result name) w = (Ok tt, w') /\
    serving (io_app i (packets_only (Send true q :: l ++ [Recv true (success_message c')]))) xs (n - (size q + 56 + cost l)) c' ps ks w'.
Proof.
  intros Hlive Hwait Hq Hn Hw. pose proof (cost_nonneg l). rewrite (M_lift_run (Ok q) _ _ q eq_refl).
  destruct (serving_send _ _ n _ _ _ _ q Hw Hq ltac:(lia)) as (w1 & Hrun1 & Hw1). rewrite (M_bind_run _ _ _ _ _ Hrun1).
  destruct (wait_served name _ _ (n - (size q + 56)) _ _ _ _ _ _ Hlive Hwait ltac:(lia) Hw1) as (w2 & Hrun2 & Hw2). exists w2.
  rewrite io_app_assoc, <- Z.sub_add_distr in Hw2. split; [|exact Hw2].
  assert (He : encrypted w1) by (destruct Hw1 as (_ & Hp & _); by eapply performed_encrypted).
  apply (iterates_det _ _ _ _ (wait_loop_iterates name w1 He) Hrun2).
Qed.

Lemma Channel_new_wf : wf_channel Channel_new.
Proof.
  unfold wf_channel, Channel_new, LOCAL_WINDOW_TARGET, LOCAL_MAX_PACKET_SIZE, INITIAL_CHANNEL_ID.
  cbn [local_id remote_id local_window remote_window local_max_packet remote_max_packet exit_status]. lia.
Qed.

Lemma opening_served i xs n k p c1 ps ks w :
  waiting Channel_new k Channel_new -> open_confirmation_spec p Channel_new c1 -> size open_message + 56 + cost k <= n ->
  serving i (messages k ++ Packet p :: xs) n Channel_new ps ks w ->
  exists w', open_session_channel w = (Ok tt, w') /\
    serving (io_app i (packets_only (Send true open_message :: k ++ [Recv true p]))) xs (n - (size open_message + 56 + cost k)) c1 ps ks w'.
Proof.
  intros Hk Hp Hn Hw. pose proof Hw as (_ & _ & Hc & _). pose proof (cost_nonneg k). unfold open_session_channel.
  rewrite M_gets_run, Hc, create_session_open_eq by done. fold open_message. rewrite (M_lift_run (Ok open_message) _ _ open_message eq_refl).
  destruct (serving_send _ _ n _ _ _ _ open_message Hw ltac:(by split) ltac:(lia)) as (w1 & Hrun1 & Hw1). rewrite (M_bind_run _ _ _ _ _ Hrun1).
  destruct (open_waiting _ _ (n - (size open_message + 56)) _ _ _ _ _ _ _ _ Channel_new_wf Hk Hp eq_refl ltac:(lia) Hw1) as (w2 & Hrun2 & Hw2).
  exists w2. rewrite io_app_assoc, <- Z.sub_add_distr in Hw2. split; [|exact Hw2].
  assert (He : encrypted w1) by (destruct Hw1 as (_ & Hp1 & _); by eapply performed_encrypted).
  apply (iterates_det _ _ _ _ (open_loop_iterates w1 He) Hrun2).
Qed.

Lemma terminal_info_same c c' info :
  term_env c' = term_env c -> window_size c' = window_size c -> get_terminal_info c = (Ok info, c) -> get_terminal_info c' = (Ok info, c').
Proof. unfold get_terminal_info, gets. intros -> ->. by intros [= ->]. Qed.

Lemma dialogue_served i xs n k1 p c1 info pty k2 c2 k3 c3 ps ks w :
  let l := dialogue_events k1 p pty k2 c2 k3 c3 in
  waiting Channel_new k1 Channel_new -> open_confirmation_spec p Channel_new c1 ->
  get_terminal_info (con w0) = (Ok info, con w0) ->
  create_pty_request c1 (type info) (columns info) (rows info) = Ok pty -> 1 <= size pty <= 34976 ->
  waiting c1 k2 c2 -> waiting c2 k3 c3 -> cost l <= n ->
  serving i (messages l ++ xs) n Channel_new ps ks w ->
  exists w', dialogue w = (Ok tt, w') /\ serving (io_app i (packets_only l)) xs (n - cost l) c3 ps ks w'.
Proof.
  intros l Hk1 Hp Hinfo Hpty Hsz Hk2 Hk3 Hn Hw. pose proof (open_confirmation_live p c1 Hp) as Hl1.
  pose proof (waiting_live _ _ _ Hl1 Hk2) as Hl2.
  assert (Hcost : cost l = size open_message + 56 + cost k1 + (size pty + 56 + cost k2) + (size (shell_message c2) + 56 + cost k3)).
  { unfold l, dialogue_events. rewrite !cost_app. cbn [app]. unfold cost. rewrite !balance_cons, !balance_app, !balance_cons, !balance_nil. cbn [sent_size]. lia. }
  pose proof (cost_nonneg k1). pose proof (cost_nonneg k2). pose proof (cost_nonneg k3).
  assert (Hsh : size (shell_message c2) = 15) by reflexivity.
  assert (Hm : messages l ++ xs = messages k1 ++ Packet p :: (messages k2 ++ Packet (success_message c2) :: (messages k3 ++ Packet (success_message c3) :: xs))).
  { unfold l, dialogue_events. rewrite !messages_app, !(messages_send _ (_ ++ _)), !messages_app, <- !app_assoc. done. }
  rewrite Hm in Hw. rewrite Hcost in Hn |- *. unfold dialogue.
  destruct (opening_served _ _ n _ _ _ _ _ _ Hk1 Hp ltac:(lia) Hw) as (w1 & Hrun1 & Hw1). rewrite (M_bind_run _ _ _ _ _ Hrun1).
  pose proof Hw1 as (_ & _ & Hc1 & _ & _ & He1 & Hs1).
  assert (Hrun2 : on_con get_terminal_info w1 = (Ok info, set_con (con w1) w1)).
  { unfold on_con, zoom. by rewrite (terminal_info_same _ _ _ He1 Hs1 Hinfo). }
  rewrite (M_bind_run _ _ _ _ _ Hrun2). replace (set_con (con w1) w1) with w1 by (by destruct w1).
  unfold request_pty, request_shell. unfold mbind at 1, M_bind at 1. rewrite M_gets_run, Hc1, Hpty.
  destruct (requested "pty-req" _ _ (n - (size open_message + 56 + cost k1)) _ pty _ _ _ _ _ Hl1 Hk2 Hsz ltac:(lia) Hw1) as (w2 & Hrun3 & Hw2).
  rewrite Hrun3, M_gets_run. pose proof Hw2 as (_ & _ & -> & _). rewrite create_shell_request_eq by apply Hl2. fold (shell_message c2).
  destruct (requested "shell" _ _ (n - (size open_message + 56 + cost k1) - (size pty + 56 + cost k2)) _ (shell_message c2)
    _ _ _ _ _ Hl2 Hk3 ltac:(lia) ltac:(lia) Hw2) as (w3 & Hrun4 & Hw3).
  exists w3. split; [exact Hrun4|]. rewrite !io_app_assoc, <- !Z.sub_add_distr, !Z.add_assoc in Hw3. 
  rewrite !Z.add_assoc. exact Hw3.
Qed.

End service.

(** A whole session as the protocol allows it: the answers in the dialogue, with
    what comes before each, and the steps up to the close. *)
Record plan := {
  before_open : list event;
  confirmation : bytes;
  opened : Channel;
  pty_message : bytes;
  before_pty : list event;
  at_pty : Channel;
  before_shell : list event;
  at_shell : Channel;
  steps : list io;
  at_end : Channel;
}.

Definition plan_io (x : plan) : io := io_concat (steps x).
Definition plan_dialogue (x : plan) : list event :=
  dialogue_events (before_open x) (confirmation x) (pty_message x) (before_pty x) (at_pty x) (before_shell x) (at_shell x).
Definition plan_events (x : plan) : list event := plan_dialogue x ++ evs (plan_io x).

(** The plan is legal for a user at the terminal [c]. *)
Definition planned (c : Console) (x : plan) : Prop :=
  waiting Channel_new (before_open x) Channel_new /\ open_confirmation_spec (confirmation x) Channel_new (opened x) /\
  (exists info, get_terminal_info c = (Ok info, c) /\
     create_pty_request (opened x) (type info) (columns info) (rows info) = Ok (pty_message x)) /\
  1 <= size (pty_message x) <= 34976 /\
  waiting (opened x) (before_pty x) (at_pty x) /\ waiting (at_pty x) (before_shell x) (at_shell x) /\
  session_trace (at_shell x) (steps x) (at_end x) /\ open (at_end x) = false.

Section sessions.
Context {C : Crypto} {CS : CryptoSizes} {CL : CipherLaws} {CO : CryptoSucceeds}.
Context {S : Type} {BS : ByteStream S} {BL : ByteStreamLaws S}.
Context {S' : Type} {BS' : ByteStream S'} {BL' : ByteStreamLaws S'}.
Implicit Types w : World S.

Lemma ready_encrypted xs n r w : ready (S' := S') true true xs n r w -> encrypted w.
Proof. intros (? & ? & ? & _). by split. Qed.

Lemma serving_start xs n r w :
  ready (S' := S') true true xs n r w -> serving (S' := S') w io_nil xs n (chan w) (polls w) (keyboard (con w)) w.
Proof. intros Hw. split; [by exists r|]. split; [by eapply performed_refl, ready_encrypted|done]. Qed.

Lemma loop_served w xs n r l c2 ps ks :
  let j := io_concat l in
  ready (S' := S') true true (messages (evs j) ++ xs) n r w -> live (chan w) ->
  session_trace (chan w) l c2 -> open c2 = false -> cost (evs j) <= n ->
  polls w = (poll_of <$> l) ++ ps -> keyboard (con w) = concat (keys_of <$> l) ++ ks ->
  exists w' r', shell_loop w = (Ok tt, w') /\ performed j w w' /\ chan w' = c2 /\ polls w' = ps /\
    keyboard (con w') = ks /\ ready (S' := S') true true xs (n - cost (evs j)) r' w'.
Proof.
  intros j Hw Hlive Htr Ho Hn Hps Hks. pose proof (serving_start _ _ _ _ Hw) as Hs. rewrite Hps, Hks in Hs.
  destruct (trace_served w _ _ _ _ _ _ _ _ w (or_introl Hlive) Htr Ho Hn Hs) as (w' & Hrun & (r' & Hw') & Hp & Hc & Hps' & Hk & _).
  exists w', r'. rewrite io_app_nil_l in Hp. split; [|done].
  apply (iterates_det _ _ _ _ (shell_loop_iterates w (ready_encrypted _ _ _ _ Hw) Hlive) Hrun).
Qed.

(** The line that reports the exit status. *)
Definition status_line (c : Channel) : bytes :=
  if exit_status_received c then str "
Remote exit status: " ++ to_string (exit_status c) ++ str "
" else [].

Lemma interactive_served cfmakeraw w xs n r l c2 ps ks :
  let j := io_concat l in
  ready (S' := S') true true (messages (evs j) ++ xs) n r w -> live (chan w) -> raw_mode_active_ (term w) = false ->
  calls_ok (con w) -> session_trace (chan w) l c2 -> open c2 = false -> cost (evs j) <= n ->
  polls w = (poll_of <$> l) ++ ps -> keyboard (con w) = concat (keys_of <$> l) ++ ks ->
  exists w' r', interactive cfmakeraw w = (Ok tt, w') /\ ready (S' := S') true true xs (n - cost (evs j)) r' w' /\
    history w' = history w ++ evs j /\ out (con w') = out (con w) ++ shown j ++ status_line c2 /\
    err (con w') = err (con w) ++ shown_err j /\ settings (con w') = settings (con w) /\ chan w' = c2.
Proof.
  intros j Hw Hlive Ht Hcalls Htr Ho Hn Hps Hks. unfold interactive, run_interactive_shell.
  destruct (enable_raw_mode_cases cfmakeraw (term w) (con w) Ht) as (r1 & t1 & st1 & calls1 & Hraw & Hok1 & Hcase).
  destruct (Hok1 Hcalls) as [Hcalls1 ->]. destruct Hcase as [(_ & -> & ->)|([e ?] & _)]; [|done].
  set (w1 := set_tm ({| original_settings_ := settings (con w); raw_mode_active_ := true |},
    set_tty (cfmakeraw (settings (con w))) calls1 (con w)) w).
  assert (Hrun1 : on_tm (enable_raw_mode cfmakeraw) w = (Ok tt, w1)) by (unfold on_tm, zoom; by rewrite Hraw).
  destruct (loop_served w1 xs n r l c2 ps ks Hw Hlive Htr Ho Hn Hps Hks) as (w2 & r' & Hrun2 & Hp & Hc & _ & _ & Hw2).
  destruct Hp as (_ & Hh & Hout & Herr & _ & _ & Ht2 & Hs2 & Hcalls2 & _).
  destruct (restore_cases (term w2) (con w2)) as (r3 & t3 & st3 & calls3 & Hres & Hok3 & Hcase3).
  destruct Hok3 as [_ ->]; [unfold calls_ok; by rewrite Hcalls2|]. rewrite Ht2 in Hcase3.
  destruct Hcase3 as [(_ & _ & ->)|([e ?] & _)]; [|done].
  set (w3 := set_tm (t3, set_tty (original_settings_ (term w1)) calls3 (con w2)) w2).
  assert (Hrun3 : on_tm restore w2 = (Ok tt, w3)) by (unfold on_tm, zoom; by rewrite Hres).
  assert (Hw3 : ready (S' := S') true true xs (n - cost (evs j)) r' w3) by exact Hw2.
  unfold mbind at 1, M_bind at 1. rewrite (M_bind_run _ _ _ _ _ Hrun1), (M_bind_run _ _ _ _ _ Hrun2), Hrun3, M_gets_run.
  change (chan w3) with (chan w2). rewrite Hc. unfold status_line. destruct (exit_status_received c2).
  - eexists _, r'. split; [done|]. split; [exact Hw3|]. cbn. rewrite Hh, Hout, Herr, <- app_assoc. done.
  - exists w3, r'. split; [done|]. split; [exact Hw3|]. cbn. by rewrite app_nil_r.
Qed.

Lemma session_served cfmakeraw w xs n r x ps ks :
  ready (S' := S') true true (messages (plan_events x) ++ xs) n r w -> raw_mode_active_ (term w) = false ->
  calls_ok (con w) -> planned (con w) x -> cost (plan_events x) <= n ->
  polls w = (poll_of <$> steps x) ++ ps -> keyboard (con w) = concat (keys_of <$> steps x) ++ ks ->
  exists w' r', run_connection_session cfmakeraw w = (Ok tt, w') /\
    ready (S' := S') true true xs (n - cost (plan_events x)) r' w' /\
    history w' = history w ++ plan_events x /\ out (con w') = out (con w) ++ shown (plan_io x) ++ status_line (at_end x) /\
    err (con w') = err (con w) ++ shown_err (plan_io x) /\ settings (con w') = settings (con w) /\ chan w' = at_end x.
Proof.
  unfold plan_events. set (d := plan_dialogue x). set (j := plan_io x).
  intros Hw Ht Hcalls (Hk1 & Hp & (info & Hinfo & Hpty) & Hsz & Hk2 & Hk3 & Htr & Ho) Hn Hps Hks. rewrite session_split.
  set (w1 := set_chan Channel_new w). rewrite messages_app, <- app_assoc in Hw. rewrite cost_app in Hn |- *.
  pose proof (cost_nonneg (evs j)). pose proof (serving_start _ _ _ w1 Hw) as Hs.
  destruct (dialogue_served w1 _ _ n _ _ _ _ _ _ _ _ _ _ _ _ Hk1 Hp Hinfo Hpty Hsz Hk2 Hk3 ltac:(fold (plan_dialogue x) d; lia) Hs)
    as (w2 & Hrun & (r2 & Hw2) & Hperf & Hc & Hps2 & Hks2 & _).
  pose proof Hperf as (_ & Hh & Hout & Herr & _ & _ & Ht2 & Hs2 & Hcalls2 & _). rewrite (M_bind_run _ _ _ _ _ Hrun).
  cbn [evs shown shown_err packets_only io_app io_nil app] in Hh, Hout, Herr. rewrite app_nil_r in Hout, Herr.
  assert (Hl3 : live (at_shell x)) by (by eapply waiting_live, Hk3; eapply waiting_live, Hk2; eapply open_confirmation_live).
  destruct (interactive_served cfmakeraw w2 xs (n - cost d) r2 (steps x) (at_end x) ps ks) as (w3 & r3 & Hrun3 & Hw3 & Hh3 & Hout3 & Herr3 & Hs3 & Hc3); try done.
  - by rewrite Hc.
  - by rewrite Ht2.
  - unfold calls_ok. by rewrite Hcalls2.
  - by rewrite Hc.
  - fold (plan_io x) j. lia.
  - by rewrite Hps2.
  - by rewrite Hks2.
  - exists w3, r3. split; [done|]. fold (plan_io x) j in Hw3. rewrite <- Z.sub_add_distr in Hw3. split; [exact Hw3|].
    fold (plan_dialogue x) d in Hh. fold (plan_io x) j in Hh3, Hout3, Herr3. rewrite Hh3, Hout3, Herr3, Hs3, Hh, Hout, Herr, Hs2, <- app_assoc. done.
Qed.

End sessions.

(** ** Properties *)

Section properties.
Context {C : Crypto} {CS : CryptoSizes} {CL : CipherLaws} {CO : CryptoSucceeds}.
Context {S : Type} {BS : ByteStream S} {BL : ByteStreamLaws S}.
Context {S' : Type} {BS' : ByteStream S'} {BL' : ByteStreamLaws S'}.
Implicit Types w : World S.

(** C7: every session the protocol allows is served.  Take any sequence of steps of the
    abstract session that ends with the channel closed, in any order of keys,
    output, window adjustments, global requests, end of file and exit status; let
    the server send the packets of these steps, let [poll] report them one at a
    time, let the keys come as the steps take them, and let the connection take the
    bytes of the client's packets.  Then the loop returns, having exchanged exactly
    what the steps exchange, on the channel they lead to, with nothing of the
    server's, the user's or [poll]'s left over or taken too much. *)
Theorem every_session_served w xs n r l c2 ps ks :
  let j := io_concat l in
  ready (S' := S') true true (messages (evs j) ++ xs) n r w -> live (chan w) ->
  session_trace (chan w) l c2 -> open c2 = false -> cost (evs j) <= n ->
  polls w = (poll_of <$> l) ++ ps -> keyboard (con w) = concat (keys_of <$> l) ++ ks ->
  exists w' r', shell_loop w = (Ok tt, w') /\ performed j w w' /\ chan w' = c2 /\ polls w' = ps /\
    keyboard (con w') = ks /\ ready (S' := S') true true xs (n - cost (evs j)) r' w'.
Proof. exact (loop_served w xs n r l c2 ps ks). Qed.

End properties.

(** ** Concrete runs *)

Section samples.
#[local] Existing Instances Toy.crypto Toy.sizes_ok Toy.cipher_ok Toy.succeeds.

(** The server of [session_world]. *)
Definition session_server : tstate Socket :=
  {| sock_ := {| fd_ := 4; rx := []; tx := [TxRoom 100000]; sent := []; open_fds := {[4]} |}; rand := sample_seed;
     obj := set_outgoing 3 true (Some sample_context) (Some (str "key")) Transport_new |}.

(** A connection that delivers every byte in a segment of its own. *)
Lemma bytewise_incoming fd d ts done_ fds :
  incoming {| fd_ := fd; rx := (fun b => RxData b []) <$> d; tx := ts; sent := done_; open_fds := fds |} = d.
Proof. induction d as [|b d IH]; [reflexivity|]. cbn in *. by f_equal. Qed.

Lemma session_world_ready msgs keys script :
  forallb (fun p => size p <? 2 ^ 63) msgs = true -> (run_sender (Packet <$> msgs) session_server).1 = Ok tt ->
  ready (S' := Socket) true true (Packet <$> msgs) 100000 sample_seed (session_world msgs keys script).
Proof.
  intros Hmsgs Hrun. split; [apply sample_shell_encrypted|]. split; [done|]. split; [done|]. split; [|by split].
  exists session_server, (run_sender (Packet <$> msgs) session_server).2, (server_says msgs), [].
  split; [split; [done|split; [done|]]|].
  { intros _. split; [done|]. by exists sample_context, sample_context. }
  split. { clear Hrun. induction msgs as [|p msgs IH]; [constructor|]. apply andb_prop in Hmsgs as [Hp H]. constructor; [by apply Z.ltb_lt|auto]. }
  split; [by apply outcome_of|]. split; [done|]. rewrite app_nil_r. apply bytewise_incoming.
Qed.

(** A line to the server, its answer, the close. *)
Definition sample_steps : list io :=
  [{| evs := [Send true (wire [FByte 94; FUint32 7; FString [x6c; x73; x0a]])]; shown := []; shown_err := [];
      typed := [x6c; x73; x0a] |};
   {| evs := [Recv true (wire [FByte 94; FUint32 0; FString (str "ok")])]; shown := str "ok"; shown_err := []; typed := [] |};
   packets_only [Recv true (wire [FByte 97; FUint32 0]); Send true (wire [FByte 97; FUint32 7])]].

Definition sample_served : World Socket :=
  session_world [wire [FByte 94; FUint32 0; FString (str "ok")]; wire [FByte 97; FUint32 0]]
    [Keys x6c [x73; x0a]] [PollReady true false false; PollReady false true false; PollReady false true false].

Lemma sample_steps_trace : session_trace sample_channel sample_steps
  (closed (set_windows 1048574 7 (set_windows 1048576 7 sample_channel))).
Proof.
  apply trace_next with (set_windows 1048576 7 sample_channel).
  { apply (turn_keys sample_channel [x6c; x73; x0a]); vm_compute; try split; congruence. }
  apply trace_next with (set_windows 1048574 7 (set_windows 1048576 7 sample_channel)).
  { apply (turn_data (set_windows 1048576 7 sample_channel) (str "ok") (set_windows 1048574 7 (set_windows 1048576 7 sample_channel))).
    split; [reflexivity|]. split; [|split]; vm_compute; congruence. }
  eapply trace_next; [by apply (turn_close (set_windows 1048574 7 (set_windows 1048576 7 sample_channel)))|apply trace_done].
Qed.

Lemma every_session_served_witness : exists w',
  shell_loop sample_served = (Ok tt, w') /\ performed (io_concat sample_steps) sample_served w' /\ polls w' = [].
Proof.
  destruct (every_session_served (S' := Socket) sample_served [] 100000 sample_seed sample_steps
    (closed (set_windows 1048574 7 (set_windows 1048576 7 sample_channel))) [] []) as (w' & r' & Hrun & Hp & _ & Hps & _).
  - apply session_world_ready; vm_compute; reflexivity.
  - exact sample_live.
  - exact sample_steps_trace.
  - reflexivity.
  - vm_compute. congruence.
  - reflexivity.
  - reflexivity.
  - exists w'. split; [exact Hrun|]. split; [exact Hp|exact Hps].
Defined.

End samples.
