(* ===== verification/Main.v ===== *)
(** * [main]: [src/main.cpp], lines 466 to 498

    The program as a whole: the objects it creates one inside the life of the
    other, what their destructors do on the way out, and the exception handler. *)

From S2P Require Import Prelude Encoding Auth Connection Socket Crypto Transport Packets Kex KnownHosts Terminal Config World Handshake Session Shell.

(** ** The program *)

(** What [main] finds: its arguments, [HOME], and the network. *)
Record Env := {
  argv : list bytes;
  home : option bytes;
  net_env : NetEnv;
}.

Section main.
Context {C : Crypto}.
Context (cfmakeraw : Termios -> Termios).

Definition on_sock {A} (m : M Socket A) : M (World Socket) A :=
  zoom (fun w => sock_ (net w)) (fun s w => set_net (with_sock s (net w)) w) m.

(** The destructor of [Transport] frees the cipher contexts. *)
Definition Transport_delete : M (World Socket) unit := modify (fun w =>
  let o := obj (net w) in
  let o := set_outgoing (outgoing_sequence_ o) (outgoing_encryption_active_ o) None (outgoing_mac_key_ o) o in
  let o := set_incoming (incoming_sequence_ o) (incoming_encryption_active_ o) None (incoming_mac_key_ o) o in
  set_net (with_obj o (net w)) w).

(** An object on the stack: once constructed it is destroyed when the body
    returns and when it throws.  A construction that throws destroys nothing, and
    no destructor of the program throws. *)
Definition scoped {A} (construct destroy : M (World Socket) unit) (body : M (World Socket) A)
    : M (World Socket) A :=
  let lifetime : M (World Socket) A := fun w =>
    match body w with
    | (Ok a, w') => (Ok a, (destroy w').2)
    | (Throw e, w') => (Throw e, (destroy w').2)
    | (Undef, w') => (Undef, w')
    | (Blocked, w') => (Blocked, w')
    end in
  construct;;
  lifetime.

Definition new_transport : M (World Socket) unit := modify (fun w => set_net (with_obj Transport_new (net w)) w).
Definition new_terminal : M (World Socket) unit := modify (fun w => set_tm (Terminal_new, con w) w).

(** The body of the [try] block. *)
Definition run (env : Env) : M (World Socket) unit :=
  config ← lift (parse_client_config (argv env));
  let host_identifier := known_host_identifier config in
  let result := sodium_init in
  if result =? -1 then mthrow "Sodium could not be initialised"%string else
  match home env with
  | None => mthrow "HOME environment variable could not be accessed"%string
  | Some home_directory =>
      let known_hosts := home_directory ++ known_hosts_relative_path config in
      scoped (on_sock (Socket_new (net_env env) (hostname config) (port config))) (on_sock Socket_delete) (
        id ← on_sock (exchange_identification (identification config));
        scoped new_transport Transport_delete (
          perform_key_exchange id known_hosts host_identifier;;
          scoped new_terminal (on_tm Terminal_delete) (
            authenticate_user (username config);;
            run_connection_session cfmakeraw)))
  end.

Definition main (env : Env) : M (World Socket) Z := fun w =>
  match run env w with
  | (Ok _, w') => (Ok 0, w')
  | (Throw e, w') => (on_con (print_err (str "Error: " ++ str e ++ str "
"));; mret 1) w'
  | (Undef, w') => (Undef, w')
  | (Blocked, w') => (Blocked, w')
  end.

End main.

(** ** Facts *)

Section facts.
Context {C : Crypto} {CS : CryptoSizes}.
Context (cfmakeraw : Termios -> Termios).
Implicit Types w : World Socket.

(** What a part of the program leaves behind on each way out: the packets since
    [w] all satisfy [ok], and when the calls on the terminal succeed its settings
    are those of before, unless the program waits for ever. *)
Definition leaves {A} (ok : event -> Prop) w (x : res A * World Socket) : Prop :=
  match x with
  | (Undef, _) => False
  | (r, w') => (exists l, history w' = history w ++ l /\ Forall ok l) /\
      (r <> Blocked -> calls_ok (con w) -> settings (con w') = settings (con w))
  end.

Lemma leaves_intro {A} ok w (r : res A) w' :
  r <> Undef -> (exists l, history w' = history w ++ l /\ Forall ok l) ->
  (r <> Blocked -> calls_ok (con w) -> settings (con w') = settings (con w)) -> leaves ok w (r, w').
Proof. by destruct r. Qed.

Lemma encrypted_handshake e : encrypted_event e -> handshake_event e.
Proof. destruct e as [b p|b p]; [|done]. cbn. by intros ->. Qed.

(** Authentication and the session, inside the life of the terminal object. *)
Definition terminal_scope (username : bytes) : M (World Socket) unit :=
  scoped new_terminal (on_tm Terminal_delete) (authenticate_user username;; run_connection_session cfmakeraw).

Lemma scoped_run {A} construct destroy (body : M (World Socket) A) w w1 :
  construct w = (Ok tt, w1) ->
  scoped construct destroy body w =
    match body w1 with
    | (Ok a, w') => (Ok a, (destroy w').2)
    | (Throw e, w') => (Throw e, (destroy w').2)
    | (Undef, w') => (Undef, w')
    | (Blocked, w') => (Blocked, w')
    end.
Proof. intros H. unfold scoped. by rewrite (M_bind_run _ _ _ _ _ H). Qed.

(** The destructor puts the settings back that [restorable] promises. *)
Lemma terminal_deleted st w :
  restorable st w -> calls_ok (con w) ->
  let w' := (on_tm Terminal_delete w).2 in history w' = history w /\ settings (con w') = st.
Proof.
  intros Hr Hc. unfold on_tm, zoom. destruct (Terminal_delete_cases (term w) (con w)) as (st' & calls & -> & ->).
  cbn. split; [done|]. rewrite (calls_ok_next _ Hc), andb_true_r. unfold restorable in Hr. by destruct (raw_mode_active_ (term w)).
Qed.

Lemma terminal_deleted_history w : history (on_tm Terminal_delete w).2 = history w.
Proof.
  unfold on_tm, zoom. by destruct (Terminal_delete_cases (term w) (con w)) as (st' & calls & -> & ->).
Qed.

(** The body of that scope, before the destructor runs. *)
Definition restorable_if_ok st ok (w' : World Socket) : Prop := ok -> restorable st w' /\ calls_ok (con w').

Lemma authenticate_leaves username w :
  encrypted w -> raw_mode_active_ (term w) = false ->
  let ok := calls_ok (con w) in
  match authenticate_user username w with
  | (Undef, _) => False
  | (Blocked, w') => all_encrypted_since (history w) w'
  | (_, w') => encrypted w' /\ all_encrypted_since (history w) w' /\ raw_mode_active_ (term w') = false /\
      (ok -> settings (con w') = settings (con w) /\ calls_ok (con w'))
  end.
Proof.
  intros (Hwf & Ho & Hi) Ht ok.
  set (R w' := raw_mode_active_ (term w') = false /\ (ok -> settings (con w') = settings (con w) /\ calls_ok (con w'))).
  assert (HR : local R) by (intros x x' _ Hc Htm _ _; unfold R; by rewrite Hc, Htm).
  pose proof (triple_authenticate username encrypted_event (history w) R (fun _ => True)
    HR ltac:(by intros ? ? ->) ltac:(done) ltac:(done)) as Hta.
  specialize (Hta ltac:(intros s x Hx; exact Hx)).
  assert (Hread : triple R (on_con (read_hidden_input (str "Password: "))) (fun _ => R) R (fun _ => True)).
  { intros x [Hx1 Hx2]. unfold on_con, zoom.
    pose proof (read_hidden_input_spec (str "Password: ") (con x)) as Hs.
    pose proof (read_hidden_input_calls (str "Password: ") (con x)) as Hc.
    destruct (read_hidden_input _ (con x)) as [rr cc].
    assert (Hgoal : rr <> Blocked -> R (set_con cc x)).
    { intros Hnb. split; [exact Hx1|]. intros H. destruct (Hx2 H) as [Hset Hcalls]. specialize (Hc Hcalls).
      destruct rr; try done; cbn; destruct Hc as [-> ?]; by rewrite Hset. }
    destruct Hs as (_ & _ & _ & _ & Hu). destruct rr; try done; by apply Hgoal. }
  specialize (Hta Hread w (conj (phase_here true true encrypted_event w Hwf Ho Hi) (conj Ht (fun H => conj eq_refl H)))).
  destruct (authenticate_user username w) as [[]  w']; try done; destruct Hta as [(Hwf' & Ho' & Hi' & Hl) HR']; [| |exact Hl];
    (split; [by split_and!|]); (split; [exact Hl|exact HR']).
Qed.

Lemma terminal_scope_leaves username w :
  encrypted w -> leaves encrypted_event w (terminal_scope username w).
Proof.
  intros He. unfold terminal_scope. set (w1 := set_tm (Terminal_new, con w) w).
  rewrite (scoped_run new_terminal _ _ w w1 eq_refl). assert (He1 : encrypted w1) by exact He.
  pose proof (authenticate_leaves username w1 He1 eq_refl) as Ha. cbn zeta in Ha.
  change (con w1) with (con w) in Ha. change (history w1) with (history w) in Ha.
  unfold mbind, M_bind. destruct (authenticate_user username w1) as [[[]|e| |] w2]; [| |done|].
  - destruct Ha as (He2 & (l & Hl & Hle) & Ht2 & Hc2). pose proof (session_spec cfmakeraw w2 He2 Ht2) as Hs.
    destruct (run_connection_session cfmakeraw w2) as [[[]|e| |] w3]; [| |done|];
      destruct Hs as [(_ & (k & Hk & Hke) & _ & Hr & Hc3) _];
      (apply leaves_intro; [done|exists (l ++ k); rewrite ?terminal_deleted_history, Hk, Hl, app_assoc; split; [done|by apply Forall_app]|]).
    + intros _ Hc. destruct (Hc2 Hc) as [Hset Hcalls]. rewrite Hset in Hr. by apply (terminal_deleted _ w3 Hr), Hc3.
    + intros _ Hc. destruct (Hc2 Hc) as [Hset Hcalls]. rewrite Hset in Hr. by apply (terminal_deleted _ w3 Hr), Hc3.
    + done.
  - destruct Ha as (He2 & (l & Hl & Hle) & Ht2 & Hc2). apply leaves_intro; [done|rewrite terminal_deleted_history; by exists l|].
    intros _ Hc. destruct (Hc2 Hc) as [Hset Hcalls]. apply terminal_deleted; [|done]. unfold restorable. by rewrite Ht2.
  - destruct Ha as (l & Hl & Hle). apply leaves_intro; [done|by exists l|done].
Qed.

(** The key exchange and what follows, inside the life of the transport. *)
Definition transport_scope (id : IdentificationExchange) (path host username : bytes) : M (World Socket) unit :=
  scoped new_transport Transport_delete (perform_key_exchange id path host;; terminal_scope username).

Lemma key_exchange_leaves id path host w :
  wf_transport (obj (net w)) -> outgoing_encryption_active_ (obj (net w)) = false ->
  incoming_encryption_active_ (obj (net w)) = false ->
  match perform_key_exchange id path host w with
  | (Undef, _) => False
  | (r, w') => (exists l, history w' = history w ++ l /\ Forall handshake_event l) /\
      (r = Ok tt -> encrypted w') /\ settings (con w') = settings (con w) /\ tc_calls (con w') = tc_calls (con w)
  end.
Proof.
  intros Hwf Ho Hi.
  pose proof (triple_key_exchange id path host (history w)
    (fun x => settings (con x) = settings (con w) /\ tc_calls (con x) = tc_calls (con w))
    ltac:(by intros ? ? _ ->) ltac:(intros ? ? H1 H2 [? ?]; cbn; split; congruence) ltac:(done) w
    (conj (phase_here false false handshake_event w Hwf Ho Hi) (conj eq_refl eq_refl))) as H.
  destruct (perform_key_exchange id path host w) as [[[]|e| |] w']; [| |done|].
  - destruct H as [(Hwf' & Ho' & Hi' & Hl) [Hs Hc]]. split; [exact Hl|]. split; [intros _; split; [exact Hwf'|by split]|done].
  - destruct H as (bo & bi & (_ & _ & _ & Hl) & Hs & Hc). by split_and!.
  - destruct H as (bo & bi & (_ & _ & _ & Hl) & Hs & Hc). by split_and!.
Qed.

Lemma Transport_new_wf w1 : obj (net w1) = Transport_new -> wf_transport (obj (net w1)).
Proof. intros ->. split_and!; cbn; done || lia. Qed.

Lemma transport_scope_leaves id path host username w :
  leaves handshake_event w (transport_scope id path host username w).
Proof.
  unfold transport_scope. set (w1 := set_net (with_obj Transport_new (net w)) w).
  rewrite (scoped_run new_transport _ _ w w1 eq_refl).
  pose proof (key_exchange_leaves id path host w1 (Transport_new_wf w1 eq_refl) eq_refl eq_refl) as Hk.
  change (con w1) with (con w) in Hk. change (history w1) with (history w) in Hk.
  assert (Hdel : forall x, history (Transport_delete x).2 = history x /\ con (Transport_delete x).2 = con x) by done.
  unfold mbind, M_bind. destruct (perform_key_exchange id path host w1) as [[[]|e| |] w2]; [| |done|].
  - destruct Hk as ((l & Hl & Hle) & He & Hs & Hc). specialize (He eq_refl).
    pose proof (terminal_scope_leaves username w2 He) as Ht.
    assert (Hcalls : calls_ok (con w) -> calls_ok (con w2)) by (unfold calls_ok; by rewrite Hc).
    assert (Hall : forall k, Forall encrypted_event k -> Forall handshake_event (l ++ k)).
    { intros k Hk. apply Forall_app. split; [done|]. by eapply Forall_impl; [exact Hk|apply encrypted_handshake]. }
    destruct (terminal_scope username w2) as [[[]|e| |] w3]; [| |done|]; destruct Ht as [(k & Hk & Hke) Hset];
      (apply leaves_intro; [done|exists (l ++ k); rewrite ?(proj1 (Hdel _)), Hk, Hl, app_assoc; auto|]);
      intros Hnb Hok; try done; rewrite (proj2 (Hdel w3)), Hset, Hs; auto.
  - destruct Hk as (Hl & _ & Hs & _). by apply leaves_intro.
  - destruct Hk as (Hl & _ & Hs & _). by apply leaves_intro.
Qed.

(** What happens to the socket does not show. *)
Lemma on_sock_leaves {A} (m : M Socket A) w :
  exists s, on_sock m w = ((m (sock_ (net w))).1, set_net (with_sock s (net w)) w).
Proof. unfold on_sock, zoom. destruct (m (sock_ (net w))) as [r s]. by exists s. Qed.

Lemma Socket_new_total env host port s : exists r s', Socket_new env host port s = (r, s') /\ (r = Ok tt \/ exists e, r = Throw e).
Proof.
  unfold Socket_new. rewrite M_modify_run. unfold create, connect, close, mbind, M_bind.
  destruct (ne_socket env =? -1); cbn; [eauto 6|]. destruct (ne_getaddrinfo env host _); cbn.
  - destruct (_ =? 0); cbn; [eauto 6|]. destruct (ne_socket env =? -1); cbn; eauto 6.
  - destruct (ne_socket env =? -1); cbn; eauto 6.
Qed.

Lemma leaves_here {A} ok w (r : res A) s :
  r <> Undef -> leaves ok w (r, set_net (with_sock s (net w)) w).
Proof. intros Hr. apply leaves_intro; [done|exists []; by rewrite app_nil_r|done]. Qed.

Lemma run_leaves env w : leaves handshake_event w (run cfmakeraw env w).
Proof.
  unfold run. rewrite M_lift_res.
  assert (Hthrow : forall e, leaves handshake_event w (Throw (A := unit) e, w)).
  { intros e. apply leaves_intro; [done|exists []; by rewrite app_nil_r|done]. }
  pose proof (parse_client_config_safe (argv env)) as Hcfg.
  destruct (parse_client_config (argv env)) as [config|e| |]; try done.
  cbn zeta. destruct (sodium_init =? -1); [apply Hthrow|]. destruct (home env) as [home_directory|]; [|apply Hthrow].
  unfold scoped at 1.
  destruct (on_sock_leaves (Socket_new (net_env env) (hostname config) (port config)) w) as [s Hs].
  rewrite (M_bind_res _ _ _ _ _ Hs).
  destruct (Socket_new_total (net_env env) (hostname config) (port config) (sock_ (net w))) as (r & s' & Hrun & Hr).
  rewrite Hrun. cbn [fst]. destruct Hr as [->|[e ->]]; [|by apply leaves_here].
  set (w1 := set_net _ w).
  assert (Hdel : forall x, history (on_sock Socket_delete x).2 = history x /\ con (on_sock Socket_delete x).2 = con x).
  { intros x. destruct (on_sock_leaves Socket_delete x) as [? ->]. done. }
  destruct (on_sock_leaves (exchange_identification (identification config)) w1) as [s2 Hs2].
  unfold mbind at 1, M_bind at 1. rewrite Hs2.
  pose proof (exchange_identification_total (identification config) (sock_ (net w1))) as Hid.
  destruct (exchange_identification _ (sock_ (net w1))) as [[id|e| |] s3]; cbn [fst]; [| |done|].
  - set (w2 := set_net _ w1).
    pose proof (transport_scope_leaves id (home_directory ++ known_hosts_relative_path config)
      (known_host_identifier config) (username config) w2) as Ht.
    unfold transport_scope, terminal_scope in Ht.
    destruct (scoped new_transport _ _ w2) as [[[]|e| |] w3]; [| |done|]; destruct Ht as [Hl Hset];
      (apply leaves_intro; [done|rewrite ?(proj1 (Hdel _)); exact Hl|]); intros Hnb Hok; try done;
      rewrite (proj2 (Hdel w3)); by apply Hset.
  - apply leaves_intro; [done|rewrite (proj1 (Hdel _)); exists []; by rewrite app_nil_r|].
    intros _ _. by rewrite (proj2 (Hdel _)).
  - apply leaves_intro; [done|exists []; by rewrite app_nil_r|done].
Qed.

End facts.

(** ** The descriptor of the socket *)

(** [m] keeps [P] whatever its outcome, undefined behaviour included. *)
Definition framed {St A} (P : St -> Prop) (m : M St A) : Prop := forall s, P s -> P (m s).2.

Create HintDb framed.

Section frame_rules.
Context {St : Type} (P : St -> Prop).

Lemma framed_bind {A B} (m : M St A) (f : A -> M St B) :
  framed P m -> (forall a, framed P (f a)) -> framed P (m ≫= f).
Proof.
  intros Hm Hf s Hs. specialize (Hm s Hs). unfold mbind, M_bind.
  destruct (m s) as [[a|e| |] s']; try done. by apply Hf.
Qed.

Lemma framed_ret {A} (a : A) : framed P (mret a).
Proof. by intros s. Qed.
Lemma framed_throw {A} (e : string) : framed P (mthrow (A := A) e).
Proof. by intros s. Qed.
Lemma framed_lift {A} (r : res A) : framed P (lift r).
Proof. by intros s. Qed.
Lemma framed_gets {A} (g : St -> A) : framed P (gets g).
Proof. by intros s. Qed.
Lemma framed_modify (f : St -> St) : (forall s, P s -> P (f s)) -> framed P (modify f).
Proof. intros H s Hs. by apply H. Qed.
Lemma framed_zoom {T A} (view : St -> T) (set : T -> St -> St) (m : M T A) :
  (forall s, P s -> P (set (m (view s)).2 s)) -> framed P (zoom view set m).
Proof. intros H s Hs. specialize (H s Hs). unfold zoom. by destruct (m (view s)). Qed.

End frame_rules.

#[global] Hint Resolve framed_ret framed_throw framed_lift framed_gets : framed.

(** Follow the structure of a program. *)
Ltac framed :=
  repeat match goal with
  | |- framed _ (_ ≫= _) => apply framed_bind; [|intros ?]
  | |- framed _ (if ?b then _ else _) => destruct b
  | |- framed _ (match ?x with _ => _ end) => destruct x
  | |- framed _ (modify _) => apply framed_modify; done
  | |- framed _ _ => solve [eauto with framed]
  end.

Section descriptor.
Context {C : Crypto} (fd : Z) (fds : gset Z).

(** The socket holds [fd] and the process [fds]. *)
Definition holds (s : Socket) : Prop := fd_ s = fd /\ open_fds s = fds.
Definition holds_net (t : tstate Socket) : Prop := holds (sock_ t).
Definition holds_world (w : World Socket) : Prop := holds (sock_ (net w)).

Lemma framed_read n : framed holds (stream_read n).
Proof.
  intros s Hs. cbn. unfold read_exact. generalize (@nil byte) as dst, (length (rx s)) as fuel. intros dst fuel.
  revert dst s Hs. induction fuel as [|fuel IH]; intros dst s Hs; cbn [read_loop]; destruct (_ <? _); try done.
  unfold sys_read, mbind, M_bind. destruct (rx s) as [|[b d| | |e] evs]; try done; try (by apply IH).
  destruct (take _ (b :: d)); [done|]. by apply IH.
Qed.

Lemma framed_write d : framed holds (stream_write d).
Proof.
  intros s Hs. cbn. unfold write_exact. generalize 0 as k, (length (tx s)) as fuel. intros k fuel.
  revert k s Hs. induction fuel as [|fuel IH]; intros k s Hs; cbn [write_loop]; destruct (_ <? _); try done.
  unfold sys_write, mbind, M_bind. destruct (tx s) as [|[n| | |e] evs]; try done; try (by apply IH).
  destruct (_ >? 0); [by apply IH|done].
Qed.

Lemma framed_sock_read n : framed holds_net (sock_read n).
Proof. apply framed_zoom. intros t Ht. by apply framed_read. Qed.
Lemma framed_sock_write d : framed holds_net (sock_write d).
Proof. apply framed_zoom. intros t Ht. by apply framed_write. Qed.

Lemma framed_padding n : framed holds_net (generate_padding n).
Proof. intros t Ht. unfold generate_padding. by destruct (randombytes_buf n (rand t)). Qed.

Lemma framed_encrypt p : framed holds_net (encrypt_outgoing_packet p).
Proof. intros t Ht. unfold encrypt_outgoing_packet. by repeat case_match. Qed.
Lemma framed_decrypt p : framed holds_net (decrypt_incoming_bytes p).
Proof. intros t Ht. unfold decrypt_incoming_bytes. by repeat case_match. Qed.
Lemma framed_enable_outgoing iv k m : framed holds_net (enable_outgoing_encryption iv k m).
Proof. intros t Ht. unfold enable_outgoing_encryption. by repeat case_match. Qed.
Lemma framed_enable_incoming iv k m : framed holds_net (enable_incoming_encryption iv k m).
Proof. intros t Ht. unfold enable_incoming_encryption. by repeat case_match. Qed.

Hint Resolve framed_sock_read framed_sock_write framed_padding framed_encrypt framed_decrypt : framed.

Lemma framed_receive_packet : framed holds_net receive_packet.
Proof. unfold receive_packet, receive_plain, receive_encrypted, verify_packet, bump_incoming. framed. Qed.
Lemma framed_send_packet p : framed holds_net (send_packet p).
Proof. unfold send_packet, bump_outgoing. framed. Qed.

Lemma framed_on_net {A} (m : M (tstate Socket) A) : framed holds_net m -> framed holds_world (on_net m).
Proof. intros Hm. apply framed_zoom. intros w Hw. by apply Hm. Qed.
Lemma framed_on_sock {A} (m : M Socket A) : framed holds m -> framed holds_world (on_sock m).
Proof. intros Hm. apply framed_zoom. intros w Hw. by apply Hm. Qed.
Lemma framed_on_con {A} (m : M Console A) : framed holds_world (on_con m).
Proof. by apply framed_zoom. Qed.
Lemma framed_on_tm {A} (m : M tm A) : framed holds_world (on_tm m).
Proof. by apply framed_zoom. Qed.
Lemma framed_on_disk {A} (m : M Disk A) : framed holds_world (on_disk m).
Proof. by apply framed_zoom. Qed.
Lemma framed_on_rng {A} (m : M rng A) : framed holds_world (on_rng m).
Proof. by apply framed_zoom. Qed.

Lemma framed_send p : framed holds_world (send p).
Proof. unfold send. framed. apply framed_on_net, framed_send_packet. Qed.
Lemma framed_receive : framed holds_world receive.
Proof. unfold receive. framed. apply framed_on_net, framed_receive_packet. Qed.

Hint Resolve framed_on_con framed_on_tm framed_on_disk framed_on_rng framed_send framed_receive : framed.
Hint Resolve framed_on_net framed_enable_outgoing framed_enable_incoming : framed.

Lemma framed_key_exchange id path host : framed holds_world (perform_key_exchange id path host).
Proof.
  unfold perform_key_exchange, agree_on_keys, switch_to_keys, send_kexinit, receive_kexinit, confirm_host_key.
  framed.
Qed.

Lemma framed_authenticate username : framed holds_world (authenticate_user username).
Proof. unfold authenticate_user. framed. Qed.

Lemma framed_loop {A} n (body : M (World Socket) (option A)) :
  framed holds_world body -> framed holds_world (loop n body).
Proof. intros Hb. induction n as [|n IH]; cbn [loop]; [by intros w|]. framed. Qed.

Lemma framed_packet_loop {A} (body : M (World Socket) (option A)) :
  framed holds_world body -> framed holds_world (packet_loop body).
Proof. intros Hb w Hw. unfold packet_loop. by apply framed_loop. Qed.

Lemma framed_global p : framed holds_world (handle_global_request p).
Proof. unfold handle_global_request. framed. Qed.
Lemma framed_update f : framed holds_world (update_channel f).
Proof. unfold update_channel. framed. Qed.
Lemma framed_on_channel {A} (f : Channel -> res (A * Channel)) : framed holds_world (on_channel f).
Proof. unfold on_channel. framed. Qed.

Hint Resolve framed_global framed_update framed_on_channel framed_packet_loop : framed.

Lemma framed_shell_round : framed holds_world shell_round.
Proof.
  unfold shell_round, keyboard_input, socket_input, handle_message, refill_window. framed.
  intros w Hw. unfold next_poll. by destruct (polls w).
Qed.

Lemma framed_open_round : framed holds_world open_round.
Proof. unfold open_round. framed. Qed.
Lemma framed_wait_round name : framed holds_world (wait_round name).
Proof. unfold wait_round. framed. Qed.

Hint Resolve framed_open_round framed_wait_round : framed.

Lemma framed_session cfmakeraw : framed holds_world (run_connection_session cfmakeraw).
Proof.
  unfold run_connection_session, run_interactive_shell, open_session_channel, request_pty, request_shell,
    wait_for_channel_request_result. framed.
  intros w Hw. unfold shell_loop. by apply framed_loop; [apply framed_shell_round|].
Qed.

Lemma framed_scoped {A} construct destroy (body : M (World Socket) A) :
  framed holds_world construct -> framed holds_world destroy -> framed holds_world body ->
  framed holds_world (scoped construct destroy body).
Proof.
  intros Hc Hd Hb. unfold scoped. apply framed_bind; [done|]. intros _ w Hw. specialize (Hb w Hw).
  destruct (body w) as [[] w']; try done; by apply Hd.
Qed.

Lemma framed_transport_scope cfmakeraw id path host username :
  framed holds_world (transport_scope cfmakeraw id path host username).
Proof.
  unfold transport_scope, terminal_scope. apply framed_scoped; [by apply framed_modify..|].
  apply framed_bind; [apply framed_key_exchange|]. intros _.
  apply framed_scoped; [by apply framed_modify|apply framed_on_tm|].
  apply framed_bind; [apply framed_authenticate|]. intros _. apply framed_session.
Qed.

Lemma framed_identification client : framed holds (exchange_identification client).
Proof.
  unfold exchange_identification. assert (Hr : framed holds read_version).
  { intros s Hs. unfold read_version. generalize (@nil byte) as v, (Datatypes.S (length (incoming s))) as fuel.
    intros v fuel. revert v s Hs. induction fuel as [|fuel IH]; intros v s Hs; [done|]. cbn [read_version_loop].
    revert s Hs. change (framed holds (stream_read 1 ≫= fun data => byte ← lift (index data 0);
      if byte =? 10 then mret v else read_version_loop fuel (if negb (byte =? 13) then v ++ [byte_of byte] else v))).
    apply framed_bind; [apply framed_read|]. intros d. framed. intros s Hs. by apply IH. }
  apply framed_bind; [done|]. intros v. framed. apply framed_write.
Qed.

End descriptor.

(** ** Properties *)

(** What the constructor of the socket leaves: the descriptor in hand, or
    nothing. *)
Lemma Socket_new_fds env host port s :
  ne_socket env ∉ open_fds s ->
  match Socket_new env host port s with
  | (Ok _, s') => holds (ne_socket env) ({[ne_socket env]} ∪ open_fds s) s' /\ ne_socket env <> -1
  | (_, s') => open_fds s' = open_fds s
  end.
Proof.
  intros Hfd. unfold Socket_new. rewrite M_modify_run. unfold create, connect, close, mbind, M_bind.
  assert (Hclose : ({[ne_socket env]} ∪ open_fds s) ∖ {[ne_socket env]} = open_fds s) by set_solver.
  destruct (Z.eqb_spec (ne_socket env) (-1)) as [|Hne]; cbn; [done|]. destruct (ne_getaddrinfo env host _); cbn.
  - destruct (_ =? 0); cbn; [done|]. rewrite (proj2 (Z.eqb_neq _ _)) by done. exact Hclose.
  - rewrite (proj2 (Z.eqb_neq _ _)) by done. exact Hclose.
Qed.

Lemma close_holds `{C : Crypto} fd fds w :
  holds_world fd ({[fd]} ∪ fds) w -> fd ∉ fds -> fd <> -1 ->
  open_fds (sock_ (net (on_sock Socket_delete w).2)) = fds.
Proof.
  intros [Hf Ho] Hfd Hne. unfold on_sock, zoom, Socket_delete, close. rewrite Hf, (proj2 (Z.eqb_neq _ _)) by done.
  cbn. rewrite Ho. set_solver.
Qed.

Section properties.
Context {C : Crypto} {CS : CryptoSizes}.
Context (cfmakeraw : Termios -> Termios).
Implicit Types w : World Socket.

Lemma scoped_Ok {A} construct destroy (body : M (World Socket) A) a w w' :
  scoped construct destroy body w = (Ok a, w') ->
  exists w1 w2, construct w = (Ok tt, w1) /\ body w1 = (Ok a, w2) /\ w' = (destroy w2).2.
Proof.
  unfold scoped. intros ([] & w1 & Hc & H)%M_bind_Ok. destruct (body w1) as [[b|e| |] w2] eqn:E; try done.
  injection H as -> <-. by exists w1, w2.
Qed.

(** The stages of a run that ends well. *)
Lemma run_stages env w w' :
  run cfmakeraw env w = (Ok tt, w') ->
  exists config home_directory id w1 w2 w3 w4,
    parse_client_config (argv env) = Ok config /\ home env = Some home_directory /\
    id_client id = identification config /\
    obj (net w1) = Transport_new /\ history w1 = history w /\ con w1 = con w /\ disk w1 = disk w /\
    perform_key_exchange id (home_directory ++ known_hosts_relative_path config) (known_host_identifier config) w1
      = (Ok tt, w2) /\
    authenticate_user (username config) (set_tm (Terminal_new, con w2) w2) = (Ok tt, w3) /\
    run_connection_session cfmakeraw w3 = (Ok tt, w4) /\
    history w' = history w4 /\ disk w' = disk w4.
Proof.
  unfold run. rewrite M_lift_res. destruct (parse_client_config (argv env)) as [config|e| |]; try done.
  cbn zeta. destruct (sodium_init =? -1); [done|]. destruct (home env) as [home_directory|]; [|done].
  intros (x1 & x2 & Hnew & Hbody & ->)%scoped_Ok.
  destruct (on_sock_leaves (Socket_new (net_env env) (hostname config) (port config)) w) as [s Hs].
  rewrite Hs in Hnew. injection Hnew as _ <-.
  apply M_bind_Ok in Hbody as (id & x3 & Hid & Hbody).
  destruct (on_sock_leaves (exchange_identification (identification config)) (set_net (with_sock s (net w)) w)) as [s2 Hs2].
  rewrite Hs2 in Hid. injection Hid as Hid <-.
  pose proof (exchange_identification_total (identification config) (sock_ (net (set_net (with_sock s (net w)) w)))) as Ht.
  destruct (exchange_identification _ _) as [r0 s0]. cbn in Hid. subst r0.
  apply scoped_Ok in Hbody as (x4 & x5 & Htr & Hbody & ->). injection Htr as <-.
  apply M_bind_Ok in Hbody as ([] & x6 & Hkex & Hbody).
  apply scoped_Ok in Hbody as (x7 & x8 & Htm & Hbody & ->). injection Htm as <-.
  apply M_bind_Ok in Hbody as ([] & x9 & Hauth & Hsess).
  match type of Hkex with _ ?w1 = _ => exists config, home_directory, id, w1, x6, x9, x8 end.
  split_and!; try done.
  - unfold on_sock, zoom. destruct (Socket_delete _). cbn. unfold on_tm, zoom.
    by destruct (Terminal_delete_cases (term x8) (con x8)) as (st & calls & -> & ->).
  - unfold on_sock, zoom. destruct (Socket_delete _). cbn. unfold on_tm, zoom.
    by destruct (Terminal_delete_cases (term x8) (con x8)) as (st & calls & -> & ->).
Qed.

(** Authentication does not touch the known-hosts file. *)
Lemma authenticate_disk username w w' :
  encrypted w -> authenticate_user username w = (Ok tt, w') -> disk w' = disk w.
Proof.
  intros (Hwf & Ho & Hi) Hrun.
  pose proof (triple_authenticate username encrypted_event (history w) (fun x => disk x = disk w) (fun _ => True)
    ltac:(by intros ? ? ->) ltac:(by intros ? ? ->) ltac:(done) ltac:(done) ltac:(by intros ? ? ?)) as Ht.
  specialize (Ht ltac:(intros x Hx; unfold on_con, zoom;
    pose proof (read_hidden_input_spec (str "Password: ") (con x)) as Hs;
    destruct (read_hidden_input _ _) as [[] ?]; try done; by destruct Hs as (_ & _ & _ & _ & Hs))).
  specialize (Ht w (conj (phase_here true true encrypted_event w Hwf Ho Hi) eq_refl)). rewrite Hrun in Ht. by destruct Ht.
Qed.

(** C1: exit status 0 is earned.  [main] returns 0 only after the whole protocol
    was run: the server proved possession of the host key for this very exchange,
    with the identification string of the configuration; that key was already
    stored for this host, or the user said yes and it was stored then, in
    [$HOME/.conorssh/known_hosts] and under the host's own name; the password the
    user typed was sent, encrypted, for the user of the command line and accepted;
    and the session opened on it was closed by both ends. *)
Theorem exit_success env w w' :
  main cfmakeraw env w = (Ok 0, w') ->
  exists config home_directory id secret hash host_key p1 p2 password k1 k2 k3 c i c',
    parse_client_config (argv env) = Ok config /\ home env = Some home_directory /\
    id_client id = identification config /\
    history w' = history w ++ k1 ++ k2 ++ k3 ++ evs i /\
    host_verified id secret hash host_key k1 /\
    host_trusted (home_directory ++ known_hosts_relative_path config) (known_host_identifier config) host_key
      (con w) (disk w) (disk w') /\
    k2 = [Send true (wire [FByte ssh_message.SERVICE_REQUEST; FString (str "ssh-userauth")]); Recv true p1;
          Send true (wire [FByte ssh_message.USERAUTH_REQUEST; FString (username config);
                           FString (str "ssh-connection"); FString (str "none")]); Recv true p2;
          Send true (wire [FByte ssh_message.USERAUTH_REQUEST; FString (username config);
                           FString (str "ssh-connection"); FString (str "password"); FByte 0; FString password]);
          Recv true [byte_of ssh_message.USERAUTH_SUCCESS]] /\
    session_dialogue k3 c /\ session_steps c i c' /\ open c' = false.
Proof.
  unfold main. destruct (run cfmakeraw env w) as [[[]|e| |] wr] eqn:Erun; cbn; intros [= <-].
  destruct (run_stages _ _ _ Erun) as (config & home_directory & id & w1 & w2 & w3 & w4 & Hcfg & Hhome & Hid & Hobj & Hh1 & Hc1 & Hd1 &
    Hkex & Hauth & Hsess & Hh & Hd).
  pose proof (Transport_new_wf w1 Hobj) as Hwf.
  assert (Hout : outgoing_encryption_active_ (obj (net w1)) = false) by (rewrite Hobj; reflexivity).
  assert (Hin : incoming_encryption_active_ (obj (net w1)) = false) by (rewrite Hobj; reflexivity).
  destruct (key_exchange_outcome _ _ _ _ _ _ Hwf Hout Hin Hkex)
    as (_ & k1 & Hk1 & [(_ & Hno & _)|(K & H & hk & Hver & Htr)] & He2); [done|]. specialize (He2 eq_refl).
  destruct (authenticate_outcome _ (set_tm (Terminal_new, con w2) w2) _ _ He2 Hauth) as (_ & He3 & k2 & Hk2 & _ & Hdia).
  destruct (Hdia eq_refl) as (p1 & p2 & password & _ & Ek2).
  pose proof (authenticate_disk _ (set_tm (Terminal_new, con w2) w2) _ He2 Hauth) as Hd3.
  pose proof (authenticate_leaves (username config) (set_tm (Terminal_new, con w2) w2) He2 eq_refl) as Hal.
  cbn zeta in Hal. rewrite Hauth in Hal. destruct Hal as (_ & _ & Ht3 & _).
  pose proof (session_spec cfmakeraw w3 He3 Ht3) as Hs. rewrite Hsess in Hs.
  destruct Hs as [(_ & _ & Hd4 & _) Hok]. destruct (Hok eq_refl) as (k3 & c & i & st & Hsd & Hsteps & Ho & Hh4 & _).
  rewrite Hc1, Hd1 in Htr. assert (Hdw : disk wr = disk w2) by (rewrite Hd, Hd4, Hd3; done). rewrite <- Hdw in Htr.
  exists config, home_directory, id, K, H, hk, p1, p2, password, k1, k2, k3, c, i, (chan w4). split; [done|]. split; [done|]. split; [done|]. split.
  { rewrite Hh, Hh4, Hk2. cbn [history set_tm]. rewrite Hk1, Hh1, <- !app_assoc. reflexivity. }
  split; [exact Hver|]. split; [exact Htr|]. split; [exact Ek2|]. by split.
Qed.

(** C2: the program as a whole.  Whatever its arguments, whatever the server
    sends and the user types, and whatever system calls fail, [main] never runs
    into undefined behaviour and lets no exception escape: it returns 0 or 1, or
    it is still running when the scripts of the environment are used up, which is
    how a system call that waits for ever shows, and a run that would go on with
    more input.  All that it ever says in clear is its
    KEXINIT, its ephemeral public key and NEWKEYS.  And when it returns, the
    settings of the user's terminal are those it found, provided the calls that
    change them succeed. *)
Theorem main_is_safe env w r w' :
  main cfmakeraw env w = (r, w') ->
  (r = Ok 0 \/ r = Ok 1 \/ r = Blocked) /\
  (exists l, history w' = history w ++ l /\ Forall handshake_event l) /\
  (r <> Blocked -> calls_ok (con w) -> settings (con w') = settings (con w)).
Proof.
  unfold main. pose proof (run_leaves cfmakeraw env w) as Hl.
  destruct (run cfmakeraw env w) as [[[]|e| |] w1]; [| |done|]; destruct Hl as [Hl Hs]; cbn; intros [= <- <-];
    (split; [auto|]; split; [exact Hl|]); intros Hb; try done; by apply Hs.
Qed.

(** C37: the program does not leak its socket: when [main] returns, the process
    holds exactly the descriptors it held before. *)
Theorem main_closes_socket env w r w' :
  main cfmakeraw env w = (r, w') -> r <> Blocked -> (ne_socket (net_env env) ∉ open_fds (sock_ (net w))) ->
  open_fds (sock_ (net w')) = open_fds (sock_ (net w)).
Proof.
  intros Hmain Hr Hfd. set (fd := ne_socket (net_env env)) in *. set (fds := open_fds (sock_ (net w))) in *.
  assert (Hrun : forall r1 w1, run cfmakeraw env w = (r1, w1) -> r1 <> Blocked -> r1 <> Undef -> open_fds (sock_ (net w1)) = fds).
  { unfold run. rewrite M_lift_res.
    destruct (parse_client_config (argv env)) as [config|e| |]; try by intros ? ? [= <- <-].
    cbn zeta. destruct (sodium_init =? -1); [by intros ? ? [= <- <-]|].
    destruct (home env) as [home_directory|]; [|by intros ? ? [= <- <-]].
    unfold scoped at 1. unfold mbind at 1, M_bind at 1. unfold on_sock at 1, zoom at 1.
    pose proof (Socket_new_fds (net_env env) (hostname config) (port config) (sock_ (net w)) Hfd) as Hnew.
    destruct (Socket_new _ _ _ (sock_ (net w))) as [[[]|e| |] s1]; try (by intros ? ? [= <- <-]).
    destruct Hnew as [Hs1 Hne]. set (w1 := set_net (with_sock s1 (net w)) w).
    match goal with |- context [match ?m w1 with _ => _ end] => set (body := m) end.
    assert (Hbody : holds_world fd ({[fd]} ∪ fds) (body w1).2).
    { apply framed_bind; [apply framed_on_sock, framed_identification|intros id; apply framed_transport_scope|exact Hs1]. }
    destruct (body w1) as [[[]|e| |] w2]; intros r1 w3 [= <- <-]; try done; intros _ _; by apply close_holds with fd. }
  revert Hmain. unfold main. pose proof (run_leaves cfmakeraw env w) as Hl.
  destruct (run cfmakeraw env w) as [[[]|e| |] w1]; cbn; intros [= <- <-]; try done; by apply (Hrun _ _ eq_refl).
Qed.

End properties.

(** ** Concrete runs *)

Section samples.
#[local] Existing Instances Toy.crypto Toy.sizes_ok Toy.cipher_ok Toy.base64_ok.

Definition sample_argv : list bytes := [str "ssh"; str "me@localhost"].
Definition sample_main_env : Env :=
  {| argv := sample_argv; home := Some (str "/root"); net_env := sample_env |}.

(** The server's half of a whole connection: its identification, the key
    exchange, and under the keys derived from it the replies to authentication
    and to the session, up to the close. *)
Definition sample_secret : bytes := Toy.digest (client_private_key sample_keypair ++ sample_server_key).
Definition sample_keys : option TransportKeyMaterial :=
  match derive_transport_keys sample_secret sample_hash sample_hash with Ok k => Some k | _ => None end.

Definition sample_replies : list bytes :=
  [wire [FByte 6; FString (str "ssh-userauth")];
   wire [FByte 51; FString (str "password"); FByte 0];
   [byte_of 52];
   wire [FByte 91; FUint32 0; FUint32 7; FUint32 10; FUint32 32768];
   wire [FByte 99; FUint32 0];
   wire [FByte 99; FUint32 0];
   wire [FByte 94; FUint32 0; FString (str "bye")];
   wire [FByte 97; FUint32 0]].

Definition sample_encrypted_replies : bytes :=
  match sample_keys, EVP_CIPHER_CTX_new with
  | Some k, Some c =>
      let server : tstate Socket :=
        {| sock_ := {| fd_ := 4; rx := []; tx := [TxRoom 100000]; sent := []; open_fds := {[4]} |}; rand := sample_seed;
           obj := set_outgoing 3 true (Some (EVP_EncryptInit_ex c (encryption_key_sc k) (iv_sc k)).2)
             (Some (mac_key_sc k)) Transport_new |} in
      outgoing (sock_ (run_sender (Packet <$> sample_replies) server).2)
  | _, _ => []
  end.

Definition sample_start : World Socket :=
  let w := sample_world (str "SSH-2.0-server" ++ [x0d; x0a] ++ sample_server_input ++ sample_encrypted_replies)
             [Line (str "yes"); Line (str "secret")] Transport_new in
  set_polls [PollReady false true false; PollEintr; PollReady false true false]
    (set_net (with_sock (set_fd (-1) ∅ (sock_ (net w))) (net w)) w).

Definition sample_main : res Z * World Socket := main hide sample_main_env sample_start.

Example sample_main_0 : sample_main.1 = Ok 0.
Proof. vm_compute. reflexivity. Qed.

Lemma main_is_safe_witness : settings (con sample_main.2) = sample_settings /\
  exists l, history sample_main.2 = l /\ Forall handshake_event l.
Proof.
  destruct (main_is_safe hide sample_main_env sample_start (Ok 0) sample_main.2) as (_ & (l & Hl & Hok) & Hs).
  - apply outcome_of. exact sample_main_0.
  - split.
    + apply Hs; [discriminate|]. constructor.
    + exists l. split; [exact Hl|exact Hok].
Defined.

Lemma main_closes_socket_witness : open_fds (sock_ (net sample_main.2)) = ∅.
Proof.
  apply (main_closes_socket hide sample_main_env sample_start (Ok 0) sample_main.2).
  - apply outcome_of. exact sample_main_0.
  - discriminate.
  - intros H. apply elem_of_empty in H. exact H.
Defined.

Lemma exit_success_witness : exists id secret hash host_key l,
  main hide sample_main_env sample_start = (Ok 0, sample_main.2) /\
  host_verified id secret hash host_key l /\
  host_trusted (str "/root/.conorssh/known_hosts") (str "localhost") host_key
    (con sample_start) (disk sample_start) (disk sample_main.2).
Proof.
  assert (Hrun : main hide sample_main_env sample_start = (Ok 0, sample_main.2)).
  { apply outcome_of. exact sample_main_0. }
  destruct (exit_success hide sample_main_env sample_start sample_main.2 Hrun)
    as (config & h & id & K & H & hk & p1 & p2 & pw & k1 & k2 & k3 & c & i & c' & Hcfg & Hhome & _ & _ & Hver & Htr & _).
  exists id, K, H, hk, k1. split; [exact Hrun|]. split; [exact Hver|].
  assert (Hc : config = {| hostname := str "localhost"; port := 22; username := str "me";
    identification := str "SSH-2.0-ConorSSH_0.1"; known_hosts_relative_path := str "/.conorssh/known_hosts" |}).
  { apply Ok_inj. rewrite <- Hcfg. vm_compute. reflexivity. }
  assert (Hh : h = str "/root") by (cbn in Hhome; congruence).
  rewrite Hc, Hh in Htr. exact Htr.
Defined.

End samples.
