(* ===== verification/Completion.v ===== *)
(** * A connection to an honest server, from the command line to exit status 0

    [Liveness] and [Service] put together with [Main]: when the connection is made,
    the server follows the protocol, the user trusts the host and types the right
    password, the program comes to its end, and returns 0. *)

From S2P Require Import Prelude Encoding Auth Connection Socket Crypto Transport Packets Kex KnownHosts Terminal Config World Handshake Session Shell Liveness Service Main.

(** ** What is asked of the machine *)

(** The command line is understood, there is a home directory, and the connection
    is made. *)
Definition connects `{Crypto} (env : Env) (config : ClientConfig) (home_directory : bytes) : Prop :=
  parse_client_config (argv env) = Ok config /\ home env = Some home_directory /\ sodium_init <> -1 /\
  ne_socket (net_env env) <> -1 /\
  exists addr, ne_getaddrinfo (net_env env) (hostname config) (to_string (port config)) = Some addr /\
    ne_connect (net_env env) (ne_socket (net_env env)) addr = 0.

Section completion.
Context {C : Crypto} {CS : CryptoSizes} {CL : CipherLaws} {CO : CryptoSucceeds}.
Context {S' : Type} {BS' : ByteStream S'} {BL' : ByteStreamLaws S'}.
Context (cfmakeraw : Termios -> Termios).
Implicit Types w : World Socket.

(** The server [a] answers the identification with [line], and has done [xs] since,
    from a new transport of its own. *)
Definition answers (a : tstate S') (line : bytes) (xs : list action) w : Prop :=
  exists a' sent rest, obj a = Transport_new /\ Forall action_ok xs /\ run_sender xs a = (Ok tt, a') /\
    outgoing (sock_ a') = outgoing (sock_ a) ++ sent /\ (x0a ∉ line) /\ take 7 (no_cr line) = str "SSH-2.0" /\
    size line < 2 ^ 32 /\ incoming (sock_ (net w)) = line ++ x0a :: sent ++ rest.

(** ** Facts *)

Lemma Socket_new_ok env config home_directory s :
  connects env config home_directory ->
  exists s', Socket_new (net_env env) (hostname config) (port config) s = (Ok tt, s') /\
    incoming s' = incoming s /\ room s' = room s.
Proof.
  intros (_ & _ & _ & Hfd & addr & Haddr & Hc). unfold Socket_new. rewrite M_modify_run. unfold create.
  unfold mbind, M_bind. rewrite (proj2 (Z.eqb_neq _ _) Hfd). cbn [negb]. unfold connect. rewrite Haddr.
  cbn [fd_ set_fd]. rewrite Hc. by eexists.
Qed.

Lemma identification_succeeds client line rest (s : Socket) :
  incoming s = line ++ x0a :: rest -> (x0a ∉ line) -> take 7 (no_cr line) = str "SSH-2.0" -> size client + 2 <= room s ->
  exists s', exchange_identification client s = (Ok {| id_client := client; id_server := no_cr line |}, s') /\
    incoming s' = rest /\ room s' = room s - (size client + 2).
Proof.
  intros Hin Hn Hv Hroom. destruct (read_version_line s line rest Hin Hn) as (s1 & Hrun & Hi & _ & Hr).
  unfold exchange_identification. rewrite (M_bind_run _ _ _ _ _ Hrun), Hv, beq_refl. cbn [negb]. cbv zeta.
  assert (Hsz : size (client ++ [x0d; x0a]) = size client + 2) by (by rewrite size_app).
  destruct (stream_write_ok (client ++ [x0d; x0a]) s1) as (s2 & Hw & _ & Hi2 & Hr2); [lia|].
  rewrite (M_bind_run _ _ _ _ _ Hw). exists s2. split; [done|]. split; [congruence|]. rewrite Hr2, Hsz. by rewrite Hr.
Qed.

Lemma size_no_cr line : size (no_cr line) <= size line.
Proof. unfold no_cr, size. pose proof (length_filter (fun b => b <> x0d) line). lia. Qed.

Lemma config_identification argv config :
  parse_client_config argv = Ok config -> identification config = str "SSH-2.0-ConorSSH_0.1".
Proof. intros H%parse_client_config_sound. by destruct H as (_ & _ & _ & _ & _ & Hid & _). Qed.

(** Everything the server sends after its identification. *)
Definition server_actions (x : offer) (keys : TransportKeyMaterial) (methods : bytes) (partial : byte) (p : plan) : list action :=
  exchange_actions x keys ++ welcome methods partial ++ messages (plan_events p) ++ [].

(** The client is ready for the key exchange once the identifications crossed. *)
Lemma identified env config home_directory w a line xs :
  connects env config home_directory -> answers a line xs w -> size (identification config) + 2 <= room (sock_ (net w)) ->
  exists w1 w2 s2,
    on_sock (Socket_new (net_env env) (hostname config) (port config)) w = (Ok tt, w1) /\
    on_sock (exchange_identification (identification config)) w1 =
      (Ok {| id_client := identification config; id_server := no_cr line |}, w2) /\
    w2 = set_net (with_sock s2 (net w)) w /\
    let w3 := set_net (with_obj Transport_new (net w2)) w2 in
    ready (S' := S') false false xs (room (sock_ (net w)) - (size (identification config) + 2)) (rand (net w)) w3.
Proof.
  intros Hcon (a' & sent & rest & Ha & Hok & Hrun & Hout & Hn & Hv & _ & Hin) Hroom.
  destruct (Socket_new_ok _ _ _ (sock_ (net w)) Hcon) as (s1 & Hs1 & Hin1 & Hroom1).
  destruct (identification_succeeds (identification config) line (sent ++ rest) s1) as (s2 & Hs2 & Hin2 & Hroom2); [congruence|done|done|lia|].
  exists (set_net (with_sock s1 (net w)) w), (set_net (with_sock s2 (net w)) w), s2.
  split; [unfold on_sock, zoom; by rewrite Hs1|]. split; [unfold on_sock, zoom; cbn; by rewrite Hs2|]. split; [done|].
  split; [by apply Transport_new_wf|]. split; [done|]. split; [done|]. split; [|split; [|done]].
  - exists a, a', sent, rest. split; [unfold synced; rewrite Ha; cbn; done|]. by split_and!.
  - change (room (sock_ (net w)) - (size (identification config) + 2) <= room s2). lia.
Qed.

(** Authentication and the session, inside the life of the terminal object. *)
Lemma terminal_scope_succeeds username password methods partial w n r p ls :
  ready (S' := S') true true (welcome methods partial ++ messages (plan_events p) ++ []) n r w ->
  size username + size password <= 34000 -> 2 * size username + size password + 400 + cost (plan_events p) <= n ->
  calls_ok (con w) -> lines (con w) = Line password :: ls -> planned (con w) p ->
  polls w = poll_of <$> steps p -> keyboard (con w) = concat (keys_of <$> steps p) ->
  exists w', terminal_scope cfmakeraw username w = (Ok tt, w') /\
    (exists k, history w' = k ++ plan_events p) /\
    (exists o, out (con w') = o ++ shown (plan_io p) ++ status_line (at_end p)).
Proof.
  intros Hw Hsz Hn Hcalls Hl Hplan Hps Hks. pose proof (cost_nonneg (plan_events p)).
  set (w1 := set_tm (Terminal_new, con w) w).
  destruct (authentication_succeeds username password methods partial w1 _ n r ls Hw Hsz ltac:(lia) Hcalls Hl)
    as (w2 & n' & r' & Hrun & Hw2 & Hn' & _ & Ht2 & _ & Hps2 & _ & (_ & Hk2 & He2 & Hz2) & Hc2).
  change (con w1) with (con w) in *.
  assert (Hplan2 : planned (con w2) p).
  { destruct Hplan as (? & ? & (info & Hinfo & Hpty) & ?). split; [done|]. split; [done|]. split; [|done].
    exists info. split; [|done]. by apply (terminal_info_same (con w)). }
  destruct (session_served cfmakeraw w2 [] n' r' p [] [] Hw2) as (w3 & r3 & Hrun3 & _ & Hh3 & Hout3 & _); try done.
  - by rewrite Ht2.
  - lia.
  - rewrite Hps2, app_nil_r. exact Hps.
  - by rewrite Hk2, app_nil_r.
  - exists (on_tm Terminal_delete w3).2. split.
    { unfold terminal_scope. rewrite (scoped_run new_terminal _ _ w w1 eq_refl), (M_bind_run _ _ _ _ _ Hrun). by rewrite Hrun3. }
    split; [exists (history w2); by rewrite terminal_deleted_history, Hh3|].
    exists (out (con w2)). unfold on_tm, zoom. destruct (Terminal_delete_cases (term w3) (con w3)) as (st & calls & -> & _).
    exact Hout3.
Qed.

(** ** Properties *)

(** C3: an honest server and a willing user get their session, and the program exits
    with status 0.  The honest server is the one [server_actions] and [planned]
    describe, which does not send the messages the program does not handle:
    SSH_MSG_IGNORE, SSH_MSG_DEBUG, a banner, exit-signal.  The connection is made;
    the server answers with an SSH-2.0 identification, a key exchange that it signs with its Ed25519 key, the replies
    that admit the user, and the packets of any session the protocol allows; the
    host is trusted, or the user says "yes" and the key can be stored; the user
    types the password and the keys of the session; the terminal's calls succeed
    and the connection takes what is written.  Then [main] returns 0, having taken
    the session to its close, and the last thing on the terminal is what the
    session shows and the report of the exit status. *)
Theorem honest_server_completes env config home_directory w a line ck r1 kp r2 x secret hash keys methods partial password p ls :
  let id := {| id_client := identification config; id_server := no_cr line |} in
  connects env config home_directory -> answers a line (server_actions x keys methods partial p) w ->
  create_client_kexinit (rand (net w)) = (Ok ck, r1) ->
  create_curve25519_keypair (after_padding false (raw_payload ck) r1) = (Ok kp, r2) ->
  honest id ck kp x secret hash -> derive_transport_keys secret hash hash = Ok keys ->
  trusts (home_directory ++ known_hosts_relative_path config) (known_host_identifier config) (host_key_of x)
    (Line password :: ls) w ->
  calls_ok (con w) -> planned (con w) p ->
  polls w = poll_of <$> steps p -> keyboard (con w) = concat (keys_of <$> steps p) ->
  size (username config) + size password <= 34000 ->
  2 * size (username config) + size password + 1000 + cost (plan_events p) <= room (sock_ (net w)) ->
  exists w', main cfmakeraw env w = (Ok 0, w') /\
    (exists k, history w' = k ++ plan_events p) /\
    (exists o, out (con w') = o ++ shown (plan_io p) ++ status_line (at_end p)).
Proof.
  intros id Hcon Hans Hck Hkp Hx Hkeys Htrust Hcalls Hplan Hps Hks Hsz Hroom.
  pose proof Hcon as (Hcfg & Hhome & Hsodium & _). pose proof (config_identification _ _ Hcfg) as Hident.
  assert (Hi : size (identification config) = 20) by (by rewrite Hident).
  pose proof Hans as (_ & _ & _ & _ & _ & _ & _ & _ & _ & Hline & _). pose proof (size_no_cr line).
  pose proof (size_nonneg (username config)). pose proof (size_nonneg password). pose proof (cost_nonneg (plan_events p)).
  destruct (identified _ _ _ _ _ _ _ Hcon Hans ltac:(lia)) as (w1 & w2 & s2 & Hrun1 & Hrun2 & -> & Hw3).
  set (w2 := set_net _ w) in *. set (w3 := set_net (with_obj Transport_new (net w2)) w2) in *.
  destruct (exchange_succeeds id (home_directory ++ known_hosts_relative_path config) (known_host_identifier config) w3
    (welcome methods partial ++ messages (plan_events p) ++ []) (room (sock_ (net w)) - (size (identification config) + 2))
    (rand (net w)) ck r1 kp r2 x secret hash keys (Line password :: ls) Hw3)
    as (w4 & r4 & Hrun4 & Hw4 & _ & _ & Hps4 & Hl4 & (_ & Hk4 & He4 & Hz4) & Hc4); try done; [lia|cbn; lia|cbn; lia|].
  change (con w3) with (con w) in *.
  destruct (terminal_scope_succeeds (username config) password methods partial w4 _ r4 p ls Hw4) as (w5 & Hrun5 & Hh5 & Hout5); try done.
  - lia.
  - unfold calls_ok. by rewrite Hc4.
  - destruct Hplan as (? & ? & (info & Hinfo & Hpty) & ?). split; [done|]. split; [done|]. split; [|done].
    exists info. split; [|done]. by apply (terminal_info_same (con w)).
  - by rewrite Hps4.
  - by rewrite Hk4.
  - exists (on_sock Socket_delete (Transport_delete w5).2).2. split; [|by destruct (on_sock_leaves Socket_delete (Transport_delete w5).2) as [s ->]].
    assert (Hrun : run cfmakeraw env w = (Ok tt, (on_sock Socket_delete (Transport_delete w5).2).2)).
    { unfold run. rewrite (M_lift_run _ _ _ _ Hcfg). cbn zeta. rewrite (proj2 (Z.eqb_neq _ _) Hsodium), Hhome.
      rewrite (scoped_run _ _ _ w w1 Hrun1), (M_bind_run _ _ _ _ _ Hrun2), (scoped_run new_transport _ _ w2 w3 eq_refl).
      unfold terminal_scope in Hrun5. by rewrite (M_bind_run _ _ _ _ _ Hrun4), Hrun5. }
    unfold main. by rewrite Hrun.
Qed.

End completion.

(** ** Concrete runs *)

Section samples.
#[local] Existing Instances Toy.crypto Toy.sizes_ok Toy.cipher_ok Toy.base64_ok Toy.succeeds.

(** The server opens a window of 10 bytes and refuses nothing; the user types a
    line, the server answers on both streams, grants more window, reports an exit
    status and closes. *)
Definition plan_c1 : Channel := set_open true (set_remote 7 10 32768 Channel_new).
Definition plan_c2 : Channel := set_windows (local_window plan_c1) (10 - 3) plan_c1.
Definition plan_c3 : Channel := set_windows (local_window plan_c2 - 2) (remote_window plan_c2) plan_c2.
Definition plan_c4 : Channel := set_windows (local_window plan_c3) (remote_window plan_c3 + 100) plan_c3.
Definition plan_c5 : Channel := set_exit_status 3 plan_c4.

Definition sample_pty : bytes :=
  match create_pty_request plan_c1 (str "xterm-256color") 120 40 with Ok p => p | _ => [] end.

Definition hostkeys : bytes := wire [FByte ssh_message.GLOBAL_REQUEST; FString (str "hostkeys-00@openssh.com"); FRaw [x00]; FRaw []].

Definition sample_plan : plan :=
  {| before_open := [Recv true hostkeys];
     confirmation := wire [FByte 91; FUint32 0; FUint32 7; FUint32 10; FUint32 32768];
     opened := plan_c1; pty_message := sample_pty; before_pty := []; at_pty := plan_c1; before_shell := []; at_shell := plan_c1;
     steps :=
       [{| evs := [Send true (wire [FByte 94; FUint32 7; FString [x6c; x73; x0a]])]; shown := []; shown_err := [];
           typed := [x6c; x73; x0a] |};
        {| evs := [Recv true (wire [FByte 94; FUint32 0; FString (str "ok")])]; shown := str "ok"; shown_err := []; typed := [] |};
        packets_only [Recv true (wire [FByte 93; FUint32 0; FUint32 100])];
        packets_only [Recv true (wire [FByte 98; FUint32 0; FString (str "exit-status"); FRaw [x00]; FUint32 3])];
        packets_only [Recv true (wire [FByte 97; FUint32 0]); Send true (wire [FByte 97; FUint32 7])]];
     at_end := closed plan_c5 |}.

Lemma sample_trace : session_trace plan_c1 (steps sample_plan) (closed plan_c5).
Proof.
  apply trace_next with plan_c2.
  { apply (turn_keys plan_c1 [x6c; x73; x0a]); vm_compute; try split; congruence. }
  apply trace_next with plan_c3.
  { apply (turn_data plan_c2 (str "ok") plan_c3). split; [reflexivity|]. split; [|split]; vm_compute; congruence. }
  apply trace_next with plan_c4.
  { apply turn_adjust. exists 100. split; [lia|]. split; [reflexivity|]. by split. }
  apply trace_next with plan_c5.
  { apply turn_exit with {| ces_exit_status := 3; ces_want_reply := false |}. split; [reflexivity|]. split; [reflexivity|].
    split; [cbn; lia|]. split; [exists x00; by split|reflexivity]. }
  apply trace_next with (closed plan_c5); [by apply (turn_close plan_c5)|apply trace_done].
Qed.

Definition sample_user : list line_event := [Line (str "yes"); Line (str "secret")].

Lemma sample_planned : planned (set_keyboard [Keys x6c [x73; x0a]] (set_lines sample_user [] sample_console)) sample_plan.
Proof.
  split.
  { change (before_open sample_plan) with (Recv true hostkeys :: [] ++ []). apply waiting_request; [|apply waiting_done].
    exists (str "hostkeys-00@openssh.com"), x00, []. by split_and!. }
  split; [exists 7, 10, 32768; by split_and!|]. split.
  { exists {| type := str "xterm-256color"; columns := 120; rows := 40 |}. split; vm_compute; reflexivity. }
  split; [split; vm_compute; congruence|]. split; [apply waiting_done|]. split; [apply waiting_done|].
  split; [exact sample_trace|reflexivity].
Qed.

Definition completed_actions : list action := server_actions sample_offer login_keys (str "password") x00 sample_plan.

(** The world in which the server sends [d] after its identification. *)
Definition start_with (d : bytes) : World Socket :=
  let w := sample_world (str "SSH-2.0-server" ++ [x0d; x0a] ++ d) sample_user Transport_new in
  set_polls (poll_of <$> steps sample_plan) (set_con (set_keyboard [Keys x6c [x73; x0a]] (con w)) w).

Definition completed_start : World Socket := start_with (server_bytes completed_actions).

Lemma start_with_incoming d : incoming (sock_ (net (start_with d))) = (str "SSH-2.0-server" ++ [x0d]) ++ x0a :: d.
Proof. exact (sample_socket_incoming (str "SSH-2.0-server" ++ [x0d; x0a] ++ d)). Qed.

Definition completed_env : Env := {| argv := [str "ssh"; str "me@localhost"]; home := Some (str "/root"); net_env := sample_env |}.
Definition completed_config : ClientConfig :=
  {| hostname := str "localhost"; port := 22; username := str "me"; identification := str "SSH-2.0-ConorSSH_0.1";
     known_hosts_relative_path := str "/.conorssh/known_hosts" |}.

Lemma completed_runs : (run_sender completed_actions honest_server).1 = Ok tt.
Proof. vm_compute. reflexivity. Qed.

Lemma completed_answers : answers honest_server (str "SSH-2.0-server" ++ [x0d]) completed_actions completed_start.
Proof.
  exists (run_sender completed_actions honest_server).2, (server_bytes completed_actions), [].
  split; [reflexivity|]. split; [apply server_actions_ok; vm_compute; reflexivity|].
  split; [apply outcome_of; exact completed_runs|]. split; [reflexivity|].
  split; [apply (bool_decide_unpack _); vm_compute; reflexivity|]. split; [vm_compute; reflexivity|]. split; [vm_compute; reflexivity|].
  rewrite app_nil_r. apply start_with_incoming.
Qed.

Lemma honest_server_completes_witness : exists w' o,
  main hide completed_env completed_start = (Ok 0, w') /\ out (con w') = o ++ str "ok" ++ str "
Remote exit status: 3
".
Proof.
  destruct sample_first_messages as (r1 & r2 & Hck & Hkp).
  destruct (honest_server_completes hide completed_env completed_config (str "/root") completed_start honest_server
    (str "SSH-2.0-server" ++ [x0d]) sample_client r1 sample_keypair r2 sample_offer login_secret sample_hash login_keys
    (str "password") x00 (str "secret") sample_plan []) as (w' & Hmain & _ & o & Ho).
  - split; [vm_compute; reflexivity|]. split; [reflexivity|]. split; [discriminate|]. split; [discriminate|].
    exists (str "127.0.0.1"). split; vm_compute; reflexivity.
  - exact completed_answers.
  - exact Hck.
  - exact Hkp.
  - exact sample_offer_honest.
  - vm_compute. reflexivity.
  - right. split; [vm_compute; reflexivity|]. split; [reflexivity|]. eexists. vm_compute. reflexivity.
  - constructor.
  - exact sample_planned.
  - reflexivity.
  - reflexivity.
  - vm_compute. congruence.
  - vm_compute. congruence.
  - exists w', o. split; [exact Hmain|exact Ho].
Defined.

End samples.
